(* ===== verification/_CoqProject ===== *)
-Q . S2P
Prelude.v
GoStrings.v
Secs2Item.v
Secs2Codec.v
HsmsMessage.v
Transport.v
Policy.v
Lifecycle.v
HsmsSession.v
HsmsProtocol.v
GemState.v
GemVariables.v
Interfaces.v
GemEvents.v
GemAlarms.v
GemCommands.v
Carrier.v
ProcessJob.v
ControlJob.v
Substrate.v
Ept.v
GemHandler.v
GemSafety.v
GemRequests.v
GemReports.v
Callbacks.v
Modbus.v
StateValidator.v
Schema.v
Conformance.v
Timing.v
Reconnect.v
Faults.v
Auth.v
Json.v
Security.v
EventHub.v
Rest.v
Grpc.v
GrpcWire.v
Webhook.v
Revocation.v
Sml.v
Simulator.v
Host.v
Script.v
ItemText.v
Studio.v
RateLimit.v
Flood.v
Opcua.v
Crypto.v
TestCerts.v
Metrics.v
Mqtt.v
Daemon.v
