(* ===== verification/Prelude.v ===== *)
(** * go-factory-io: a verification library

    This library models the SECS/GEM driver of go-factory-io and proves what its
    parts promise.  A host talks to equipment over HSMS: frames on a byte stream
    ([src/pkg/transport/hsms]) carry SECS-II items ([src/pkg/message/secs2]),
    which the GEM handler ([src/pkg/driver/gem/handler.go]) answers from its state
    machine, variables, events, alarms and commands, under an access policy
    ([src/pkg/security/policy.go]).  Beside the handler, five managers follow the
    300 mm standards, a validator checks messages and state changes, and Modbus and
    OPC UA clients read sensors.  In front of the handler are a REST and a gRPC API,
    an MQTT bridge and the metrics; the security services audit, count, forward and
    limit.  A simulated host and simulated equipment talk to each other under a
    script or a web studio, and the command line starts all this.

    ** Files, in the order they depend on each other

    - [Prelude] (this file): outcomes of Go calls, slices, bytes, machine
      integers, ranging over maps, tactics.
    - [GoStrings], [Json]: what the rest uses of Go's string packages, and JSON
      values before they are text.
    - [Secs2Item], [Secs2Codec]: items and their wire format
      ([secs2/format.go], [item.go], [encode.go], [decode.go], [codec.go]).
      Each fixed-size format is an instance of the class [FixedCodec], the whole
      codec an instance of [MessageCodec].
    - [HsmsMessage]: headers and frames ([hsms/message.go]).
    - [Transport]: connection states, and the class [Sender], the interface of a
      session the handler is verified against.
    - [Policy]: session access control ([security/policy.go]).
    - [Lifecycle]: what the managers with a state model share.
    - [HsmsSession], [HsmsProtocol]: the session ([hsms/session.go],
      [config.go]), an instance of [Sender], and its properties.
    - [Interfaces]: what the packages declare for each other
      ([message/types.go], [driver/driver.go], [transport/transport.go]), with the
      session as an instance of the byte transport.
    - [GemState], [GemVariables], [GemEvents], [GemAlarms] (with the safety
      interlock of [safety.go]), [GemCommands]: the components of the handler,
      one per source file.
    - [Carrier], [ProcessJob], [ControlJob], [Substrate], [Ept]: E87, E40, E94,
      E90 and E116, one per source file.
    - [GemHandler], [GemSafety], [GemRequests], [GemReports]: the handler, what
      it may change and send, what well-formed requests do, and the reports;
      [Callbacks]: what the functions registered with it are called with.
    - [Modbus]: the Modbus TCP client ([transport/modbus/protocol.go],
      [client.go], [errors.go]).
    - [StateValidator], [Schema], [Timing]: the validator's transition tables,
      message schemas and timing tracker ([validator/state.go], [schema.go],
      [timing.go]); [Conformance]: its coverage report ([report.go]) and the
      handler's messages against the schemas.
    - [Reconnect]: the managed session ([session/reconnect.go]).
    - [Faults]: the fault injector ([simulator/fault.go]).
    - [Auth], [Security], [Webhook], [Revocation]: tokens and origins, the auditor
      with its counters, patterns and records, the sinks of its events, and the
      revocation checks ([security/apitoken.go], [event.go], [e191.go],
      [anomaly.go], [recorder.go], [webhook.go], [revocation.go]).
    - [EventHub], [Rest], [Grpc]: event streams and the two APIs
      ([src/api/rest/handler.go], [src/api/grpc/server.go], [types.go]);
      [GrpcWire]: the gRPC service on the wire, and its streams behind the
      handler's reports.
    - [Sml], [Simulator], [Host], [Script]: the notation of scripts, the simulated
      equipment and host, and the scenarios ([simulator/script.go], [host.go],
      [src/examples/simulator]).  A [Link] of [Host] is a host and equipment at
      the two ends of one connection: its [Sender] runs the equipment's loop on
      what the host sends.
    - [ItemText]: items as text ([secs2/item.go], [String]).
    - [Studio]: the web studio ([studio/server.go]), over any host whose session
      is [Driven].
    - [RateLimit], [Flood]: the token bucket ([security/ratelimit.go]), and a
      session under it with a peer that floods it.
    - [Opcua]: the OPC UA client ([transport/opcua/client.go]).
    - [Crypto], [TestCerts]: payload encryption, key stores and TLS settings
      ([security/encryption.go], [hsm.go], [tls.go]); [KeyStore] is the interface
      the signer is proved against.
    - [Metrics], [Mqtt]: the collector and its text ([metrics/metrics.go]), and the
      bridge ([bridge/mqtt/bridge.go]).
    - [Daemon]: the commands of [src/cmd/secsgem/main.go], with a step relation
      [step] over everything that happens to a running simulator.

    ** How the code is modelled

    A struct with a mutex is a [Record] passed explicitly; a method that holds the
    lock from start to end is one function.  Where a method lets go of the lock,
    or a goroutine of the session may be overtaken, it is several functions and
    the step relation interleaves them ([Carrier.mark_port_unload],
    [HsmsSession.select_respond] and [select_commit], [sendAndWait_begin] and
    [sendAndWait_end]).  [(value, error)] is a [result]; nil dereferences, index
    and slice panics and failed type assertions are its [Panic] outcomes.
    Integers are [Z] with the wrap-around written out, bytes are [list Z] in
    [0, 256), floats are bit patterns or [spec_float].  A Go map is a [gmap];
    ranging over it uses any order that the class [MapOrder] allows.  [time.Now()]
    is an argument.  Callbacks are function values named by numbers, with the
    calls made to them recorded.  Structures stored in a manager belong to it:
    the callers hand the pointer over and do not keep it.

    ** What the theorems show

    - Wire formats: items and messages round-trip; the decoders return on every
      byte string, with well-formed values within the size limits; encoding is
      injective up to the empty values the wire cannot carry; a stream of frames
      is read back message by message.
    - Sessions: nothing reaches the application before select; two sessions that
      select each other agree, and then exchange messages and linktests; messages
      are routed by type; a transaction takes the first message with its id; a
      closed session stays closed and silent.
    - Handler: replies match their request and are sent only when asked for; a
      denied message has no effect; a policy without write messages makes any
      sequence of messages read-only.  Requests are followed from their bytes to
      the new state and the reply, and report set-up from the host's requests to
      the content of the event report.
    - Components: the state machine of the handler moves along the graph of its
      calls, which is compared with the validator's tables move by move
      ([moves_exact]), and online implies communicating; writes to constants obey
      their ranges; the interlock leaves triggered equipment offline.
    - Managers: the graphs the calls on process jobs, control jobs and carriers
      keep to, edge by edge; termination of process jobs, progress of control jobs;
      carriers and ports agree exactly as long as nobody binds or defines what is
      bound or defined already, which the code does not ask; chained movement logs,
      conservation of time.
    - Modbus: values and frames round-trip, every request returns on any answer,
      and up to 123 registers written are read back from a device that answers the
      request frames as the Modbus specification lays them out.
    - Validator: validation decides conformance to a schema; every reply and
      report of the handler passes its own schema, also as the other end decodes
      it; the transition tables are compared with the managers edge by edge, and
      the moves of the managers pass; replies are timed against their requests;
      the report does not depend on map order.
    - Reconnecting: bounded delays, bounded retries, an open session at the end.
    - Northbound: the REST API never panics, changes nothing without the write
      token and tells nothing without a token; an admitted gRPC call does what the
      REST request it stands for does; streams
      deliver in order, and those of gRPC what the host was told; a gRPC caller
      without the credential learns nothing; the bridge publishes every report
      once; the metrics are read back from their text.
    - Security services: the webhook hands every event to exactly one sender, and
      what it has acknowledged is some of them, each once, or all when every sender
      delivers; the revocation checks decide as the lists say; the limiter, in
      doubles, is an integer token bucket for messages that come at whole seconds,
      so that what a flood makes the session queue and answer is bounded by the
      clock; the encryptor opens exactly what it makes, and its errors are told
      apart; a TLS loader gives a hardened configuration, with the certificates of
      the named file as its only authorities, or an error, and the configurations
      made for tests fit each other only.
    - Simulation: a request of the host comes back through codec, framing,
      transaction and handler with the item the handler made; reports are numbered
      consecutively; the parser of the notation returns on every text and inverts
      the printer; the text of an item carries no markup of its payload; the trace
      of a studio lists what the browsers made its host exchange.
    - The whole daemon: over any run of requests, calls, messages, ticks and socket
      events without the credentials, a simulator in monitor mode with a read token
      is not commanded ([monitor_uncommanded]), and one that others can reach stays closed to them
      ([simulate_fails_closed]); a public studio only shows
      ([public_studio_shows]).

    Some theorems state what the code does where that is not what it means to do:
    an empty identifier in a request panics ([status_request_panics]), a bounded
    constant cannot be set by the host ([bounded_constant_fixed]), the code of a
    personal safety alarm does not tell set from clear ([alarm_code_bit]), a
    primary message can be taken for a reply ([transaction_reply]), one late
    answer makes a Modbus client deaf ([late_reply_desync]), and the validator
    takes going online for a violation ([tables_exact]).  The lemmas
    [select_close_race], [zero_id_reply], [reject_offending_masked],
    [rebind_dangles], [set_ec_nan], [short_reply_pads], [byte_count_wraps],
    [request_bodies_warned], [stop_done], [faults_received], [stale_reply],
    [faults_ineffective], [reader_clears], [half_pair_ignored], [tab_unscrapable],
    [reconnect_leaks], [late_tenths] and [unary_undecodable] record further cases.

    ** Fuel

    [decodeItem] and the loop of [DecodeMulti] take one more than the number of
    bytes, enough since every item consumes at least two.  The parser of the
    notation takes one more than the number of characters, of which every item
    consumes one; the quotation of a text takes the number of its bytes, of which
    every rune consumes one.  [decode_total] and [parse_total] prove that the fuel
    of the parsers never runs out, [quote_reversible] that the quotation is
    complete.  The reader of the metrics, which is not part of the program, takes
    the length of the text.

    ** Not modelled

    TCP, TLS handshakes, HTTP framing and WebSocket upgrades, timers and goroutine
    scheduling below the steps of a session: they are outcomes the operations are
    given, or steps that may happen at any moment.  Third-party code is parameters:
    the MQTT, OPC UA, YAML and gRPC libraries, AES-GCM, X.509 (signatures are
    symbolic in [TestCerts]), the tables of Unicode, and the digits of floats.  The
    text that goes to the log is left out, and so are the usage text, the parsing of
    flags, the signals that stop the daemon, and the pages of the studio.  The getters
    and setters that only take a lock are the fields of the records.  The function
    behind a remote command is a function of its parameters: what it does to the
    equipment is outside. *)

From stdpp Require Import prelude gmap strings list.
From Stdlib Require Import ZArith Lia SpecFloat.

#[local] Open Scope Z_scope.

(** ** Outcomes of Go calls

    A Go function that returns [(value, error)] ends in one of three ways: it
    returns a value, it returns a non-nil error, or it panics.  [OutOfFuel] is
    the only outcome that does not exist in the program: it marks a recursion
    whose fuel argument was too small, and every client proves it away. *)

Inductive panic := NilDeref | IndexOutOfRange | TypeAssertion | CloseOfClosed.

Inductive result (E A : Type) :=
| Ok (a : A)
| Err (e : E)
| Panic (p : panic)
| OutOfFuel.

Arguments Ok {E A} a.
Arguments Err {E A} e.
Arguments Panic {E A} p.
Arguments OutOfFuel {E A}.

#[global] Instance panic_eq_dec : EqDecision panic.
Proof. solve_decision. Defined.

#[global] Instance result_eq_dec {E A} `{EqDecision E, EqDecision A} : EqDecision (result E A).
Proof. solve_decision. Defined.

#[global] Instance result_ret {E} : MRet (result E) := fun A a => Ok a.

#[global] Instance result_bind {E} : MBind (result E) := fun A B f m =>
  match m with
  | Ok a => f a
  | Err e => Err e
  | Panic p => Panic p
  | OutOfFuel => OutOfFuel
  end.

#[global] Instance result_fmap {E} : FMap (result E) := fun A B f m =>
  match m with
  | Ok a => Ok (f a)
  | Err e => Err e
  | Panic p => Panic p
  | OutOfFuel => OutOfFuel
  end.

(** [fmt.Errorf("...: %w", err)]: the error is wrapped, the rest goes through. *)
Definition wrap_err {E E' A} (g : E -> E') (m : result E A) : result E' A :=
  match m with
  | Ok a => Ok a
  | Err e => Err (g e)
  | Panic p => Panic p
  | OutOfFuel => OutOfFuel
  end.

(** A call whose error is tested but not returned: [x, err := f()]. *)
Definition attempt {E E' A} (m : result E A) : result E' (option A) :=
  match m with
  | Ok a => Ok (Some a)
  | Err _ => Ok None
  | Panic p => Panic p
  | OutOfFuel => OutOfFuel
  end.

(** An update whose error the caller drops: the old state stays. *)
Definition keep {E A} (m : result E A) (a : A) : A := match m with Ok a' => a' | _ => a end.

Definition is_ok {E A} (m : result E A) : bool := match m with Ok _ => true | _ => false end.
Definition is_err {E A} (m : result E A) : bool := match m with Err _ => true | _ => false end.
Definition panics {E A} (m : result E A) : bool := match m with Panic _ => true | _ => false end.

(** A call that comes back to its caller: a value or an error, no panic, no
    missing fuel. *)
Definition returns {E A} (m : result E A) : bool :=
  match m with Ok _ | Err _ => true | _ => false end.

(** [post m Q]: [m] returns, and when it returns a value the value satisfies
    [Q]. *)
Definition post {E A} (m : result E A) (Q : A -> Prop) : Prop :=
  match m with Ok a => Q a | Err _ => True | Panic _ => False | OutOfFuel => False end.

(** ** Slices, bytes and machine integers

    A [[]byte] is a [list Z] whose elements lie in [0, 256); a Go string is a
    Rocq [string], which is a sequence of 8-bit characters as well. *)

Definition len {A} (l : list A) : Z := Z.of_nat (length l).

(** [l[i]] *)
Definition idx {E A} (l : list A) (i : Z) : result E A :=
  if i <? 0 then Panic IndexOutOfRange
  else match l !! Z.to_nat i with
       | Some x => Ok x
       | None => Panic IndexOutOfRange
       end.

(** [l[a:b]].  Go checks [b] against the capacity; the model checks it against
    the length, which is the stronger requirement. *)
Definition slice {E A} (l : list A) (a b : Z) : result E (list A) :=
  if (0 <=? a) && (a <=? b) && (b <=? len l)
  then Ok (take (Z.to_nat (b - a)) (drop (Z.to_nat a) l))
  else Panic IndexOutOfRange.

(** [l[a:]] *)
Definition slice_from {E A} (l : list A) (a : Z) : result E (list A) := slice l a (len l).

(** [for i := range n { vals[i] = f(i) }], from index [i] on. *)
Fixpoint for_from {E A} (f : Z -> result E A) (n : nat) (i : Z) : result E (list A) :=
  match n with
  | O => Ok []
  | S n' =>
      match f i with
      | Ok x => match for_from f n' (i + 1) with
                | Ok xs => Ok (x :: xs)
                | e => e
                end
      | Err e => Err e
      | Panic p => Panic p
      | OutOfFuel => OutOfFuel
      end
  end.

Definition for_range {E A} (n : Z) (f : Z -> result E A) : result E (list A) :=
  for_from f (Z.to_nat n) 0.

(** Conversion to an unsigned or signed integer type of [w] bits. *)
Definition wrap (w z : Z) : Z := z mod 2 ^ w.
Definition swrap (w z : Z) : Z := (z + 2 ^ (w - 1)) mod 2 ^ w - 2 ^ (w - 1).

Definition in_unsigned (w z : Z) : bool := (0 <=? z) && (z <? 2 ^ w).
Definition in_signed (w z : Z) : bool := (- 2 ^ (w - 1) <=? z) && (z <? 2 ^ (w - 1)).

Definition is_byte (z : Z) : bool := in_unsigned 8 z.
Definition bytes_ok (l : list Z) : bool := forallb is_byte l.

(** [float64(z)] for an integer: rounded to nearest even. *)
Definition f64_of_Z (z : Z) : spec_float := binary_normalize 53 1024 z 0 false.

(** [time.Duration(d).Seconds()] *)
Definition Seconds (d : Z) : spec_float :=
  SFadd 53 1024 (f64_of_Z (Z.quot d 1000000000))
    (SFdiv 53 1024 (f64_of_Z (Z.rem d 1000000000)) (f64_of_Z 1000000000)).

(** An integer conversion of a [float64]: towards zero; [None] outside the numbers. *)
Definition trunc_f64 (f : spec_float) : option Z :=
  match f with
  | S754_zero _ => Some 0
  | S754_finite s m e =>
      let z := if 0 <=? e then Z.shiftl (Z.pos m) e else Z.shiftr (Z.pos m) (- e) in
      Some (if s then - z else z)
  | _ => None
  end.

(** [byte(z)]: the low eight bits. *)
Definition to_byte (z : Z) : Z := Z.land z 255.

(** [binary.BigEndian.AppendUintN]/[PutUintN]: the [n] bytes of [z]. *)
Fixpoint be_bytes (n : nat) (z : Z) : list Z :=
  match n with
  | O => []
  | S n' => to_byte (Z.shiftr z (8 * Z.of_nat n')) :: be_bytes n' z
  end.

(** The value of a big-endian byte sequence. *)
Definition be_val (l : list Z) : Z := foldl (fun acc b => 256 * acc + b) 0 l.

(** [binary.BigEndian.UintN(b)]: panics when [b] is too short. *)
Definition be_uint {E} (n : nat) (b : list Z) : result E Z :=
  if Nat.leb n (length b) then Ok (be_val (take n b)) else Panic IndexOutOfRange.

(** [[]byte(s)] and [string(b)] *)
Fixpoint bytes_of_string (s : string) : list Z :=
  match s with
  | EmptyString => []
  | String a s' => Z.of_N (Ascii.N_of_ascii a) :: bytes_of_string s'
  end.

Fixpoint string_of_bytes (l : list Z) : string :=
  match l with
  | [] => EmptyString
  | b :: l' => String (Ascii.ascii_of_N (Z.to_N b)) (string_of_bytes l')
  end.

(** ** Lemmas on outcomes *)

(** [injection] without reducing the values. *)
Lemma Ok_inj {E A} (a b : A) : Ok (E:=E) a = Ok b -> a = b.
Proof. congruence. Qed.

Section outcomes.
Context {E A : Type}.
Implicit Types (m : result E A) (Q R : A -> Prop).

Lemma post_returns m Q : post m Q -> returns m = true.
  Proof. by destruct m. Qed.

Lemma post_ok m Q a : post m Q -> m = Ok a -> Q a.
  Proof. intros H ->. exact H. Qed.

Lemma post_mono m Q R : (forall a, Q a -> R a) -> post m Q -> post m R.
  Proof. destruct m; simpl; auto. Qed.

Lemma post_bind {B} m (f : A -> result E B) Q (R : B -> Prop) :
    post m Q -> (forall a, Q a -> post (f a) R) -> post (m ≫= f) R.
  Proof. destruct m; simpl; auto; contradiction. Qed.

Lemma post_wrap {E'} (g : E -> E') m Q : post m Q -> post (wrap_err g m) Q.
  Proof. by destruct m. Qed.

Lemma bind_ok {B} m (f : A -> result E B) b :
    m ≫= f = Ok b -> exists a, m = Ok a /\ f a = Ok b.
  Proof. destruct m; simpl; try discriminate. eauto. Qed.

Lemma wrap_err_ok {E'} (g : E -> E') m a : wrap_err g m = Ok a <-> m = Ok a.
  Proof. destruct m; simpl; split; congruence. Qed.

Lemma returns_cases m : returns m = true <-> (exists a, m = Ok a) \/ (exists e, m = Err e).
  Proof.
    destruct m; simpl; split; eauto; intros H; try discriminate;
      destruct H as [[? ?]|[? ?]]; discriminate.
  Qed.
End outcomes.

(** ** Lemmas on slices *)

Section slices.
Context {E A : Type}.
Implicit Types (l pre mid suf : list A).

Lemma len_nonneg l : 0 <= len l.
  Proof. unfold len. lia. Qed.

Lemma len_nil : len (@nil A) = 0.
  Proof. done. Qed.

Lemma len_cons x l : len (x :: l) = 1 + len l.
  Proof. unfold len. simpl. lia. Qed.

Lemma len_app l l' : len (l ++ l') = len l + len l'.
  Proof. unfold len. rewrite length_app. lia. Qed.

Lemma idx_post l i (Q : A -> Prop) :
    0 <= i < len l -> (forall x, l !! Z.to_nat i = Some x -> Q x) -> post (idx (E:=E) l i) Q.
  Proof.
    unfold idx, len. intros Hi HQ.
    destruct (Z.ltb_spec i 0); [lia |].
    destruct (lookup_lt_is_Some_2 l (Z.to_nat i) ltac:(lia)) as [x Hx].
    rewrite Hx. simpl. auto.
  Qed.

Lemma idx_app pre x suf i : len pre = i -> idx (E:=E) (pre ++ x :: suf) i = Ok x.
  Proof.
    unfold idx, len. intros <-.
    destruct (Z.ltb_spec (Z.of_nat (length pre)) 0); [lia |].
    rewrite Nat2Z.id, lookup_app_r, Nat.sub_diag by lia. done.
  Qed.

Lemma idx_inv l i x : idx (E:=E) l i = Ok x -> 0 <= i /\ l !! Z.to_nat i = Some x.
  Proof.
    unfold idx. destruct (Z.ltb_spec i 0); [done |].
    destruct (l !! Z.to_nat i); [| done]. intros [= ->]. auto.
  Qed.

Lemma slice_ok l a b :
    0 <= a -> a <= b -> b <= len l ->
    slice (E:=E) l a b = Ok (take (Z.to_nat (b - a)) (drop (Z.to_nat a) l)).
  Proof.
    intros ???. unfold slice.
    rewrite !(proj2 (Z.leb_le _ _)) by done. done.
  Qed.

Lemma slice_post l a b (Q : list A -> Prop) :
    0 <= a -> a <= b -> b <= len l ->
    (forall s, len s = b - a -> (forall x, x ∈ s -> x ∈ l) -> Q s) ->
    post (slice (E:=E) l a b) Q.
  Proof.
    intros Ha Hab Hb HQ. rewrite slice_ok by done. simpl. apply HQ.
    - unfold len in *. rewrite length_take, length_drop. lia.
    - intros x Hx. rewrite <- (take_drop (Z.to_nat a) l).
      rewrite <- (take_drop (Z.to_nat (b - a)) (drop (Z.to_nat a) l)).
      set_solver.
  Qed.

Lemma slice_app pre mid suf a b :
    len pre = a -> b = a + len mid -> slice (E:=E) (pre ++ mid ++ suf) a b = Ok mid.
  Proof.
    intros Ha ->. assert (0 <= len mid) by apply len_nonneg.
    assert (0 <= a) by (rewrite <- Ha; apply len_nonneg).
    rewrite slice_ok; [| done | lia | rewrite !len_app, Ha; pose proof (len_nonneg suf); lia].
    f_equal. replace (a + len mid - a) with (len mid) by lia.
    rewrite <- Ha. unfold len. rewrite !Nat2Z.id, drop_app_length, take_app_length. done.
  Qed.

Lemma slice_from_app pre suf a :
    len pre = a -> slice_from (E:=E) (pre ++ suf) a = Ok suf.
  Proof.
    intros Ha. unfold slice_from. rewrite <- (app_nil_r suf) at 1.
    apply slice_app; [done |]. rewrite len_app. lia.
  Qed.

Lemma for_from_post (f : Z -> result E A) (Q : A -> Prop) n i :
    (forall j, i <= j < i + Z.of_nat n -> post (f j) Q) ->
    post (for_from f n i) (fun xs => length xs = n /\ Forall Q xs).
  Proof.
    revert i. induction n as [|n IH]; intros i Hf; simpl; [by split |].
    pose proof (Hf i ltac:(lia)) as Hi. destruct (f i); simpl in *; try done.
    specialize (IH (i + 1) ltac:(intros; apply Hf; lia)).
    destruct (for_from f n (i + 1)); simpl in *; try done.
    destruct IH as [<- ?]. split; [done | by constructor].
  Qed.

Lemma for_range_post (f : Z -> result E A) (Q : A -> Prop) n :
    0 <= n ->
    (forall j, 0 <= j < n -> post (f j) Q) ->
    post (for_range n f) (fun xs => len xs = n /\ Forall Q xs).
  Proof.
    intros Hn Hf. eapply post_mono; [| apply for_from_post; intros; apply Hf; lia].
    intros xs [Hl ?]. split; [unfold len; lia | done].
  Qed.

Lemma for_from_ok (f : Z -> result E A) xs i :
    (forall k x, xs !! k = Some x -> f (i + Z.of_nat k) = Ok x) ->
    for_from f (length xs) i = Ok xs.
  Proof.
    revert i. induction xs as [|x xs IH]; intros i Hf; [done |]. simpl.
    replace (f i) with (Ok (E:=E) x) by (rewrite <- (Hf 0%nat x) by done; f_equal; lia).
    rewrite IH; [done |]. intros k y Hk. rewrite <- (Hf (S k) y) by done. f_equal. lia.
  Qed.
End slices.

(** ** Lemmas on bytes and machine integers *)

Lemma in_unsigned_spec w z : in_unsigned w z = true <-> 0 <= z < 2 ^ w.
Proof. unfold in_unsigned. rewrite andb_true_iff, Z.leb_le, Z.ltb_lt. done. Qed.

Lemma in_signed_spec w z : in_signed w z = true <-> - 2 ^ (w - 1) <= z < 2 ^ (w - 1).
Proof. unfold in_signed. rewrite andb_true_iff, Z.leb_le, Z.ltb_lt. done. Qed.

Lemma is_byte_spec z : is_byte z = true <-> 0 <= z < 256.
Proof. apply in_unsigned_spec. Qed.

Lemma bytes_ok_spec l : bytes_ok l = true <-> Forall (fun b => 0 <= b < 256) l.
Proof.
  unfold bytes_ok. rewrite forallb_forall, List.Forall_forall.
  setoid_rewrite is_byte_spec. done.
Qed.

Lemma bytes_ok_app l1 l2 : bytes_ok (l1 ++ l2) = bytes_ok l1 && bytes_ok l2.
Proof. apply forallb_app. Qed.

Lemma pow2_pos w : 0 <= w -> 0 < 2 ^ w.
Proof. intros. apply Z.pow_pos_nonneg; lia. Qed.

Lemma wrap_small w z : 0 <= z < 2 ^ w -> wrap w z = z.
Proof. apply Z.mod_small. Qed.

Lemma wrap_range w z : 0 <= w -> 0 <= wrap w z < 2 ^ w.
Proof. intros. apply Z.mod_pos_bound, pow2_pos. done. Qed.

Lemma swrap_range w z : 0 < w -> - 2 ^ (w - 1) <= swrap w z < 2 ^ (w - 1).
Proof.
  intros. unfold swrap. pose proof (Z.mod_pos_bound (z + 2 ^ (w - 1)) (2 ^ w) ltac:(apply pow2_pos; lia)).
  assert (2 ^ w = 2 * 2 ^ (w - 1)) by (rewrite <- Z.pow_succ_r by lia; f_equal; lia). lia.
Qed.

Lemma swrap_wrap w z : 0 < w -> - 2 ^ (w - 1) <= z < 2 ^ (w - 1) -> swrap w (wrap w z) = z.
Proof.
  intros Hw Hz. unfold swrap, wrap.
  assert (2 ^ w = 2 * 2 ^ (w - 1)) by (rewrite <- Z.pow_succ_r by lia; f_equal; lia).
  rewrite Zplus_mod_idemp_l, Z.mod_small by lia. lia.
Qed.

Lemma wrap_swrap w z : 0 < w -> 0 <= z < 2 ^ w -> wrap w (swrap w z) = z.
Proof.
  intros Hw Hz. unfold swrap, wrap.
  rewrite Zminus_mod_idemp_l. replace (z + 2 ^ (w - 1) - 2 ^ (w - 1)) with z by lia.
  apply Z.mod_small. done.
Qed.

Lemma to_byte_mod z : to_byte z = z mod 256.
Proof. unfold to_byte. change 255 with (Z.ones 8). rewrite Z.land_ones by lia. done. Qed.

Lemma to_byte_range z : 0 <= to_byte z < 256.
Proof. rewrite to_byte_mod. apply Z.mod_pos_bound. lia. Qed.

Lemma to_byte_small z : 0 <= z < 256 -> to_byte z = z.
Proof. rewrite to_byte_mod. apply Z.mod_small. Qed.

Lemma length_be_bytes n z : length (be_bytes n z) = n.
Proof. induction n; simpl; congruence. Qed.

Lemma len_be_bytes n z : len (be_bytes n z) = Z.of_nat n.
Proof. unfold len. by rewrite length_be_bytes. Qed.

Lemma be_bytes_ok n z : bytes_ok (be_bytes n z) = true.
Proof.
  induction n; [done |]. simpl. rewrite IHn, (proj2 (is_byte_spec _)) by apply to_byte_range.
  done.
Qed.

Lemma foldl_be_val l acc :
  foldl (fun acc b => 256 * acc + b) acc l = 256 ^ len l * acc + be_val l.
Proof.
  unfold be_val. revert acc. induction l as [|b l IH]; intros acc.
  - rewrite len_nil. simpl. lia.
  - cbn [foldl]. rewrite IH, (IH (256 * 0 + b)), len_cons, Z.pow_add_r by (try apply len_nonneg; lia).
    rewrite Z.pow_1_r. ring.
Qed.

Lemma be_val_cons b l : be_val (b :: l) = 256 ^ len l * b + be_val l.
Proof. unfold be_val at 1. cbn [foldl]. rewrite foldl_be_val. f_equal. Qed.

Lemma be_val_be_bytes_mod n z : be_val (be_bytes n z) = z mod 256 ^ Z.of_nat n.
Proof.
  induction n as [|n IH].
  - simpl. rewrite Z.mod_1_r. done.
  - cbn [be_bytes]. rewrite be_val_cons, IH, len_be_bytes, to_byte_mod.
    rewrite Z.shiftr_div_pow2 by lia. rewrite Z.pow_mul_r by lia. change (2 ^ 8) with 256.
    rewrite Nat2Z.inj_succ, Z.pow_succ_r, (Z.mul_comm 256), Z.rem_mul_r by lia. lia.
Qed.

Lemma be_val_be_bytes n z : 0 <= z < 256 ^ Z.of_nat n -> be_val (be_bytes n z) = z.
Proof. intros. rewrite be_val_be_bytes_mod. by apply Z.mod_small. Qed.

Lemma be_val_bound l : bytes_ok l = true -> 0 <= be_val l < 256 ^ len l.
Proof.
  rewrite bytes_ok_spec. induction 1 as [|b l Hb _ IH]; [done |].
  rewrite be_val_cons, len_cons, Z.pow_add_r by (try apply len_nonneg; lia).
  rewrite Z.pow_1_r. nia.
Qed.

Lemma be_bytes_high n k b v :
  (n <= k)%nat -> be_bytes n (256 ^ Z.of_nat k * b + v) = be_bytes n v.
Proof.
  induction n as [|n IHn]; intros Hk; [done |]. cbn [be_bytes]. rewrite IHn by lia. f_equal.
  rewrite !to_byte_mod, !Z.shiftr_div_pow2, !Z.pow_mul_r by lia. change (2 ^ 8) with 256.
  replace (Z.of_nat k) with (Z.of_nat n + 1 + (Z.of_nat k - Z.of_nat n - 1)) by lia.
  rewrite !Z.pow_add_r, Z.pow_1_r by lia.
  replace (256 ^ Z.of_nat n * 256 * 256 ^ (Z.of_nat k - Z.of_nat n - 1) * b + v)
    with ((256 ^ (Z.of_nat k - Z.of_nat n - 1) * b * 256) * 256 ^ Z.of_nat n + v) by ring.
  rewrite Z.div_add_l, Z.add_comm, Z.mod_add by lia. done.
Qed.

Lemma be_bytes_be_val l : bytes_ok l = true -> be_bytes (length l) (be_val l) = l.
Proof.
  induction l as [|b l IH]; [done |]. simpl. rewrite andb_true_iff. intros [Hb Hl].
  apply is_byte_spec in Hb. pose proof (be_val_bound l Hl) as Hv.
  rewrite be_val_cons. fold (len l). f_equal.
  - rewrite to_byte_mod, Z.shiftr_div_pow2, Z.pow_mul_r by (pose proof (len_nonneg l); lia).
    change (2 ^ 8) with 256. rewrite (Z.mul_comm (256 ^ len l)), Z.div_add_l by lia.
    rewrite Z.div_small, Z.add_0_r by done. by apply Z.mod_small.
  - unfold len. rewrite be_bytes_high by done. exact (IH Hl).
Qed.

Lemma be_uint_app {E} n z rest :
  0 <= z < 256 ^ Z.of_nat n -> be_uint (E:=E) n (be_bytes n z ++ rest) = Ok z.
Proof.
  intros Hz. unfold be_uint. rewrite length_app, length_be_bytes.
  rewrite (proj2 (Nat.leb_le _ _)) by lia.
  rewrite take_app_length' by (by rewrite length_be_bytes). by rewrite be_val_be_bytes.
Qed.

Lemma be_uint_post {E} n b :
  (n <= length b)%nat -> bytes_ok b = true ->
  post (be_uint (E:=E) n b) (fun v => 0 <= v < 256 ^ Z.of_nat n).
Proof.
  intros Hn Hb. unfold be_uint. rewrite (proj2 (Nat.leb_le _ _)) by done. simpl.
  rewrite <- (take_drop n b), bytes_ok_app, andb_true_iff in Hb.
  pose proof (be_val_bound _ (proj1 Hb)) as Hv. unfold len in Hv.
  rewrite length_take, Nat.min_l in Hv by done. done.
Qed.

Lemma bytes_of_string_ok s : bytes_ok (bytes_of_string s) = true.
Proof.
  induction s as [|a s IH]; [done |]. simpl. rewrite IH, andb_true_r. apply is_byte_spec.
  pose proof (Ascii.N_ascii_bounded a). lia.
Qed.

Lemma string_of_bytes_of_string s : string_of_bytes (bytes_of_string s) = s.
Proof.
  induction s as [|a s IH]; [done |]. simpl. by rewrite IH, N2Z.id, Ascii.ascii_N_embedding.
Qed.

Lemma bytes_of_string_of_bytes l : bytes_ok l = true -> bytes_of_string (string_of_bytes l) = l.
Proof.
  induction l as [|b l IH]; [done |]. simpl. rewrite andb_true_iff, is_byte_spec. intros [Hb Hl].
  rewrite (IH Hl). f_equal. rewrite Ascii.N_ascii_embedding by lia. lia.
Qed.

Lemma len_bytes_of_string s : len (bytes_of_string s) = Z.of_nat (String.length s).
Proof. induction s as [|a s IH]; [done |]. cbn [bytes_of_string String.length]. rewrite len_cons, IH. lia. Qed.

Lemma length_string_of_bytes l : String.length (string_of_bytes l) = length l.
Proof. induction l as [|b l IH]; [done |]. cbn. by rewrite IH. Qed.

Lemma lor_shiftl_add a b k :
  0 <= k -> 0 <= b < 2 ^ k -> Z.lor (Z.shiftl a k) b = a * 2 ^ k + b.
Proof.
  intros Hk Hb.
  assert (Hland : Z.land (Z.shiftl a k) b = 0).
  { apply Z.bits_inj'. intros n Hn. rewrite Z.land_spec, Z.shiftl_spec, Z.bits_0 by lia.
    destruct (Z.lt_ge_cases n k) as [Hnk|Hnk].
    - by rewrite Z.testbit_neg_r by lia.
    - rewrite <- (Z.mod_small b (2 ^ k)) by lia.
      rewrite Z.mod_pow2_bits_high by lia. by rewrite andb_false_r. }
  rewrite <- Z.lxor_lor, <- Z.add_nocarry_lxor, Z.shiftl_mul_pow2 by done. done.
Qed.

Lemma be_val_2 b0 b1 : 0 <= b1 < 256 -> Z.lor (Z.shiftl b0 8) b1 = be_val [b0; b1].
Proof. intros. rewrite lor_shiftl_add by (done || lia). unfold be_val. cbn [foldl]. lia. Qed.

Lemma be_val_3 b0 b1 b2 :
  0 <= b1 < 256 -> 0 <= b2 < 256 ->
  Z.lor (Z.lor (Z.shiftl b0 16) (Z.shiftl b1 8)) b2 = be_val [b0; b1; b2].
Proof.
  intros H1 H2. change 16 with (8 + 8). rewrite <- Z.shiftl_shiftl, <- Z.shiftl_lor by lia.
  rewrite (be_val_2 b0 b1) by done. rewrite lor_shiftl_add by (done || lia).
  unfold be_val. cbn [foldl]. lia.
Qed.

Lemma idx_mid {E A} (pre mid suf : list A) i :
  0 <= i < len mid -> idx (E:=E) (pre ++ mid ++ suf) (len pre + i) = idx mid i.
Proof.
  intros Hi. unfold idx. pose proof (len_nonneg pre).
  rewrite (proj2 (Z.ltb_ge _ _)), (proj2 (Z.ltb_ge i 0)) by lia.
  rewrite lookup_app_r by (unfold len in *; lia).
  replace (Z.to_nat (len pre + i) - length pre)%nat with (Z.to_nat i) by (unfold len in *; lia).
  rewrite lookup_app_l by (unfold len in *; lia). done.
Qed.

Lemma idx_nat {E A} (l : list A) k i x :
  l !! k = Some x -> i = Z.of_nat k -> idx (E:=E) l i = Ok x.
Proof.
  intros Hk ->. unfold idx. rewrite (proj2 (Z.ltb_ge _ _)) by lia. by rewrite Nat2Z.id, Hk.
Qed.

(** ** Automation *)

(** Evaluates the indexing of an explicit list at a closed position. *)
Ltac eval_idx :=
  repeat match goal with
  | |- context [idx (?x :: ?l) ?i] =>
      let k := eval vm_compute in (Z.to_nat i) in
      rewrite (idx_nat (x :: l) k i _ eq_refl eq_refl); cbn [mbind result_bind]
  end.

(** Decides the comparisons between closed integers left by a dispatch on a
    code, and takes the branch. *)
Ltac eval_codes :=
  repeat match goal with
  | |- context [?a =? ?b] =>
      let v := eval vm_compute in (a =? b) in
      match v with
      | true => change (a =? b) with true
      | false => change (a =? b) with false
      end
  end; cbv iota.

(** One step of a [post] proof: [lem] gives the postcondition of the first
    call, [x] and [Hx] name its value and what is known of it. *)
Tactic Notation "post_step" uconstr(lem) "as" simple_intropattern(x) ident(Hx) :=
  eapply post_bind; [eapply lem | intros x Hx; cbv beta in Hx |- *].

(** ** Ranging over a Go map

    [for k, v := range m] visits every entry once, in an order the language
    leaves open.  A development client is given a [MapOrder] and may use only its
    law. *)

Class MapOrder (K : Type) `{Countable K} := {
  range_map : forall {A}, gmap K A -> list (K * A);
  range_map_perm : forall {A} (m : gmap K A), range_map m ≡ₚ map_to_list m;
}.

Section map_order.
Context {K A : Type} `{MapOrder K}.
Implicit Types m : gmap K A.

Lemma elem_of_range_map m k x : (k, x) ∈ range_map m <-> m !! k = Some x.
Proof. by rewrite range_map_perm, elem_of_map_to_list. Qed.

Lemma length_range_map m : length (range_map m) = size m.
Proof. by rewrite range_map_perm, length_map_to_list. Qed.

Lemma range_map_keys_NoDup m : NoDup (range_map m).*1.
Proof. rewrite range_map_perm. apply NoDup_fst_map_to_list. Qed.

Lemma elem_of_range_keys m k : k ∈ (range_map m).*1 <-> is_Some (m !! k).
Proof.
  rewrite list_elem_of_fmap. split.
  - intros ([k' x] & -> & Hx). exists x. by apply elem_of_range_map.
  - intros [x Hx]. exists (k, x). split; [done |]. by apply elem_of_range_map.
Qed.
End map_order.

(** One of the orders: that of [map_to_list]. *)
Definition some_order (K : Type) `{Countable K} : MapOrder K :=
  {| range_map := fun A m => map_to_list m; range_map_perm := fun A m => reflexivity _ |}.

(** ** Reading bytes *)

Lemma lookup_byte data i x :
  bytes_ok data = true -> data !! i = Some x -> 0 <= x < 256.
Proof. rewrite bytes_ok_spec. intros Hd Hi. by apply (Forall_lookup_1 _ _ _ _ Hd Hi). Qed.

Lemma idx_byte_post {E} data i :
  bytes_ok data = true -> 0 <= i < len data -> post (idx (E:=E) data i) (fun b => 0 <= b < 256).
Proof. intros Hd Hi. apply idx_post; [done |]. intros x. by apply lookup_byte. Qed.

Lemma slice_bytes_post {E} data a n :
  bytes_ok data = true -> 0 <= a -> 0 <= n -> a + n <= len data ->
  post (slice (E:=E) data a (a + n)) (fun b => len b = n /\ bytes_ok b = true).
Proof.
  intros Hd Ha Hn Hle. apply slice_post; [lia.. |]. intros s Hs Hin. split; [lia |].
  apply bytes_ok_spec, Forall_forall. intros x Hx.
  apply bytes_ok_spec in Hd. rewrite Forall_forall in Hd. auto.
Qed.

Lemma slice_uint_post {E} n data a b :
  bytes_ok data = true -> 0 <= a -> b = a + Z.of_nat n -> b <= len data ->
  post (s ← slice (E:=E) data a b; be_uint n s) (fun v => 0 <= v < 256 ^ Z.of_nat n).
Proof.
  intros Hd Ha -> Hle. post_step slice_bytes_post as s Hs; [done | lia.. |].
  destruct Hs as [Hs Hok]. apply be_uint_post; [unfold len in Hs; lia | done].
Qed.

Create HintDb gofactory.
#[export] Hint Resolve len_nonneg be_bytes_ok bytes_of_string_ok to_byte_range : gofactory.
Create Rewrite HintDb gofactory_len.
#[export] Hint Rewrite @len_app @len_cons @len_nil len_be_bytes len_bytes_of_string : gofactory_len.
