(* ===== verification/GoStrings.v ===== *)
(** * Strings as Go handles them

    What the program uses of the packages [strings], [strconv], [net] and
    [net/url].  A Go string is a sequence of bytes, a Rocq [string].  The parts
    that need the Unicode tables or a full address parser are the methods of the
    classes [Unicode] and [Net]. *)

From stdpp Require Import prelude strings pretty list.
From Stdlib Require Import ZArith Lia Ascii.
From S2P Require Import Prelude.

#[local] Open Scope Z_scope.

(** ** Characters *)

Definition code (c : ascii) : Z := Z.of_N (N_of_ascii c).

(** [c | ('x' - 'X')] *)
Definition lower (c : ascii) : Z := Z.lor (code c) 32.

Definition between (lo hi z : Z) : bool := (lo <=? z) && (z <=? hi).

Fixpoint chars (s : string) : list ascii :=
  match s with EmptyString => [] | String c s => c :: chars s end.

Fixpoint string_of (l : list ascii) : string :=
  match l with [] => EmptyString | c :: l => String c (string_of l) end.

(** ** [fmt] *)

(** [%02X] of a byte. *)
Definition hex_upper (n : Z) : string :=
  match String.get (Z.to_nat n) "0123456789ABCDEF" with Some c => String c "" | None => "" end.
Definition hex2 (b : Z) : string := hex_upper (b / 16) +:+ hex_upper (b mod 16).

(** [%v] of a bool and of a slice of bytes. *)
Definition bool_text (b : bool) : string := if b then "true" else "false".
Fixpoint spaced (l : list string) : string :=
  match l with [] => "" | [x] => x | x :: l => x +:+ " " +:+ spaced l end.
Definition bytes_text (l : list Z) : string := "[" +:+ spaced (pretty <$> l) +:+ "]".

Lemma append_assoc (a b c : string) : a +:+ (b +:+ c) = (a +:+ b) +:+ c.
Proof. induction a as [|x a IH]; [done|]. exact (f_equal (String x) IH). Qed.

(** ** [strings] *)

(** [fold_runes] is the comparison [EqualFold] falls back to at the first byte that
    is not ASCII. *)
Class Unicode := {
  fold_runes : string -> string -> bool;
  fold_runes_refl s : fold_runes s s = true;
}.

(** Equal, or the two cases of one ASCII letter. *)
Definition fold_ascii (a b : Z) : bool :=
  let '(lo, hi) := if b <? a then (b, a) else (a, b) in
  (lo =? hi) || (between 65 90 lo && (hi =? lo + 32)).

Fixpoint EqualFold `{Unicode} (s t : string) : bool :=
  match s, t with
  | EmptyString, EmptyString => true
  | String a s', String b t' =>
      if 128 <=? Z.lor (code a) (code b) then fold_runes s t
      else fold_ascii (code a) (code b) && EqualFold s' t'
  | _, _ => false
  end.

(** Unicode white space by the length of its UTF-8 encoding. *)
Definition space1 (a : ascii) : bool := between 9 13 (code a) || (code a =? 32).
Definition space2 (a b : ascii) : bool := (code a =? 194) && ((code b =? 133) || (code b =? 160)).
Definition space3 (a b c : ascii) : bool :=
  match code a with
  | 225 => (code b =? 154) && (code c =? 128)
  | 226 => (code b =? 128) && (between 128 138 (code c) || (code c =? 168) || (code c =? 169) || (code c =? 175))
           || (code b =? 129) && (code c =? 159)
  | 227 => (code b =? 128) && (code c =? 128)
  | _ => false
  end.

(** Drop the white space at the front, with the tests for one, two and three
    characters. *)
Fixpoint trim_front (p1 : ascii -> bool) (p2 : ascii -> ascii -> bool) (p3 : ascii -> ascii -> ascii -> bool)
    (l : list ascii) : list ascii :=
  match l with
  | [] => []
  | a :: l1 =>
      if p1 a then trim_front p1 p2 p3 l1
      else match l1 with
           | [] => l
           | b :: l2 =>
               if p2 a b then trim_front p1 p2 p3 l2
               else match l2 with
                    | [] => l
                    | c :: l3 => if p3 a b c then trim_front p1 p2 p3 l3 else l
                    end
           end
  end.

Definition trim_left (l : list ascii) : list ascii := trim_front space1 space2 space3 l.
Definition trim_right (l : list ascii) : list ascii :=
  rev (trim_front space1 (fun b a => space2 a b) (fun c b a => space3 a b c) (rev l)).

Definition TrimSpace (s : string) : string := string_of (trim_right (trim_left (chars s))).

Definition HasPrefix (s prefix : string) : bool := String.prefix prefix s.

(** [strings.Split(s, sep)] for a separator of one character. *)
Fixpoint split_at (sep : ascii) (l : list ascii) : list ascii * list (list ascii) :=
  match l with
  | [] => ([], [])
  | c :: l =>
      let '(w, ws) := split_at sep l in
      if decide (c = sep) then ([], w :: ws) else (c :: w, ws)
  end.

Definition Split (s : string) (sep : ascii) : list string :=
  let '(w, ws) := split_at sep (chars s) in map string_of (w :: ws).

Definition TrimChars (cut : ascii -> bool) (s : string) : string :=
  let never2 := fun _ _ => false in
  let never3 := fun _ _ _ => false in
  string_of (rev (trim_front cut never2 never3 (rev (trim_front cut never2 never3 (chars s))))).

(** ** [strconv]

    [None] is an error, whichever it is: the program only looks whether there is
    one. *)

Definition digit_of (c : ascii) : option Z :=
  let z := code c in
  if between 48 57 z then Some (z - 48)
  else if between 97 122 (lower c) then Some (lower c - 97 + 10)
  else None.

(** The value of the digits after [n]; [base0] allows underscores. *)
Fixpoint digits (base0 : bool) (base maxVal n : Z) (l : list ascii) : option Z :=
  match l with
  | [] => Some n
  | c :: l =>
      if base0 && (code c =? 95) then digits base0 base maxVal n l
      else
        d ← digit_of c;
        if base <=? d then None
        else if maxVal <? n * base + d then None
        else digits base0 base maxVal (n * base + d) l
  end.

(** [underscoreOK]: [saw] is what came last. *)
Inductive saw := SawStart | SawDigit | SawUnderscore | SawOther.

Fixpoint underscores (hex : bool) (last : saw) (l : list ascii) : bool :=
  match l with
  | [] => match last with SawUnderscore => false | _ => true end
  | c :: l =>
      if between 48 57 (code c) || hex && between 97 102 (lower c) then underscores hex SawDigit l
      else if code c =? 95 then match last with SawDigit => underscores hex SawUnderscore l | _ => false end
      else match last with SawUnderscore => false | _ => underscores hex SawOther l end
  end.

(** The base a prefix announces, when there is room for a digit after it. *)
Definition prefix_base (l : list ascii) : option Z :=
  match l with
  | z :: c :: _ :: _ =>
      if code z =? 48 then
        if lower c =? 98 then Some 2 else if lower c =? 111 then Some 8 else if lower c =? 120 then Some 16 else None
      else None
  | _ => None
  end.

Definition underscoreOK (l : list ascii) : bool :=
  let l := match l with c :: l' => if (code c =? 43) || (code c =? 45) then l' else l | [] => l end in
  match l with
  | z :: c :: rest =>
      if (code z =? 48) && ((lower c =? 98) || (lower c =? 111) || (lower c =? 120))
      then underscores (lower c =? 120) SawDigit rest
      else underscores false SawStart l
  | _ => underscores false SawStart l
  end.

Definition parse_uint (l : list ascii) (base bitSize : Z) : option Z :=
  match l with
  | [] => None
  | c :: l' =>
      let maxVal := 2 ^ bitSize - 1 in
      if base =? 0 then
        n ← match prefix_base l with
            | Some b => digits true b maxVal 0 (drop 2 l)
            | None => if code c =? 48 then digits true 8 maxVal 0 l' else digits true 10 maxVal 0 l
            end;
        if existsb (fun c => code c =? 95) l && negb (underscoreOK l) then None else Some n
      else digits false base maxVal 0 l
  end.

Definition ParseUint (s : string) (base bitSize : Z) : option Z := parse_uint (chars s) base bitSize.

Definition ParseInt (s : string) (base bitSize : Z) : option Z :=
  let '(neg, l) := match chars s with
                   | c :: l => if code c =? 43 then (false, l) else if code c =? 45 then (true, l) else (false, c :: l)
                   | [] => (false, [])
                   end in
  un ← parse_uint l base bitSize;
  let cutoff := 2 ^ (bitSize - 1) in
  if neg then (if cutoff <? un then None else Some (- un))
  else if cutoff <=? un then None else Some un.

(** ** [net] *)

(** [ParseIP] gives the sixteen bytes of the address. *)
Class Net := { ParseIP : string -> option (list Z) }.

Definition char_is (z : Z) (c : ascii) : bool := code c =? z.

(** Cut at the first character that satisfies [p]. *)
Fixpoint cut (p : ascii -> bool) (l : list ascii) : option (list ascii * list ascii) :=
  match l with
  | [] => None
  | c :: l => if p c then Some ([], l) else '(a, b) ← cut p l; Some (c :: a, b)
  end.

(** The host of [net.SplitHostPort]. *)
Definition SplitHost (s : string) : option string :=
  let l := chars s in
  '(after, before) ← cut (char_is 58) (rev l);
  match l with
  | c :: l' =>
      if char_is 91 c then
        '(host, rest) ← cut (char_is 93) l';
        match rest with
        | colon :: port =>
            if char_is 58 colon && negb (existsb (char_is 58) port) && negb (existsb (char_is 91) l') && negb (existsb (char_is 93) port)
            then Some (string_of host) else None
        | [] => None
        end
      else if existsb (char_is 58) before || existsb (char_is 91) l || existsb (char_is 93) l then None
      else Some (string_of (rev before))
  | [] => None
  end.

Definition v4_in_v6 : list Z := replicate 10 0 ++ [255; 255].

Definition IsLoopback (ip : list Z) : bool :=
  if decide (take 12 ip = v4_in_v6) then bool_decide (ip !! 12%nat = Some 127)
  else bool_decide (ip = replicate 15 0 ++ [1]).

(** ** [net/url] and paths *)

Definition hex_digit (c : ascii) : option Z := d ← digit_of c; if d <? 16 then Some d else None.

(** Percent-decoding; [None] is an invalid escape. *)
Fixpoint unescape (l : list ascii) : option (list ascii) :=
  match l with
  | [] => Some []
  | c :: l1 =>
      if char_is 37 c then
        match l1 with
        | a :: b :: l2 =>
            x ← hex_digit a; y ← hex_digit b; r ← unescape l2;
            Some (ascii_of_N (Z.to_N (16 * x + y)) :: r)
        | _ => None
        end
      else r ← unescape l1; Some (c :: r)
  end.

(** ** Lemmas *)

Lemma string_of_chars s : string_of (chars s) = s.
Proof. induction s as [|c s IH]; simpl; congruence. Qed.

Lemma chars_string_of l : chars (string_of l) = l.
Proof. induction l as [|c l IH]; simpl; congruence. Qed.

Lemma chars_app s t : chars (s +:+ t) = chars s ++ chars t.
Proof. induction s as [|c s IH]; [done |]. simpl. by f_equal. Qed.

#[global] Instance chars_inj : Inj (=) (=) chars.
Proof. intros s t H. by rewrite <- (string_of_chars s), H, string_of_chars. Qed.

#[global] Instance string_of_inj : Inj (=) (=) string_of.
Proof. intros l l' H. by rewrite <- (chars_string_of l), H, chars_string_of. Qed.

Lemma code_range c : 0 <= code c < 256.
Proof. unfold code. pose proof (N_ascii_bounded c). lia. Qed.

Lemma char_is_spec z c : char_is z c = true <-> code c = z.
Proof. apply Z.eqb_eq. Qed.

Lemma EqualFold_refl `{Unicode} s : EqualFold s s = true.
Proof.
  induction s as [|c s IH]; [done |]. cbn [EqualFold]. rewrite IH, fold_runes_refl.
  unfold fold_ascii. rewrite Z.ltb_irrefl, Z.eqb_refl. by destruct (128 <=? _).
Qed.

Lemma HasPrefix_app p x : HasPrefix (p +:+ x) p = true.
Proof.
  unfold HasPrefix. induction p as [|c p IH]; [by destruct x |]. change (String c p +:+ x) with (String c (p +:+ x)).
  cbn. destruct (ascii_dec c c); [exact IH | done].
Qed.

(** Numbers in range come out, and only those. *)
Lemma digits_bound base0 base maxVal l : forall n v,
  0 <= base -> 0 <= n <= maxVal -> digits base0 base maxVal n l = Some v -> 0 <= v <= maxVal.
Proof.
  induction l as [|c l IH]; intros n v Hb Hn; cbn [digits]; [by intros [= <-] |].
  destruct (base0 && _); [by apply IH |].
  destruct (digit_of c) as [d|] eqn:Hd; cbn; [| done].
  assert (0 <= d).
  { unfold digit_of, between in Hd. repeat case_match; simplify_eq; rewrite ?andb_true_iff, ?Z.leb_le in *; lia. }
  destruct (base <=? d); [done |]. destruct (Z.ltb_spec maxVal (n * base + d)); [done |].
  apply IH; [done |]. nia.
Qed.

Lemma parse_uint_bound l base bitSize v :
  0 <= base -> 0 <= bitSize -> parse_uint l base bitSize = Some v -> 0 <= v < 2 ^ bitSize.
Proof.
  intros Hb Hs. pose proof (pow2_pos bitSize Hs). unfold parse_uint. destruct l as [|c l]; [done |].
  assert (Hdig : forall b0 b l' v', 0 <= b -> digits b0 b (2 ^ bitSize - 1) 0 l' = Some v' -> 0 <= v' < 2 ^ bitSize)
    by (intros b0 b l' v' Hb' Hd; apply digits_bound in Hd; lia).
  destruct (base =? 0); [| intros Hd; exact (Hdig _ _ _ _ Hb Hd)].
  destruct (prefix_base (c :: l)) as [b|] eqn:Hp; cbn [mbind option_bind].
  - assert (0 <= b) by (clear -Hp; unfold prefix_base in Hp; repeat case_match; simplify_eq; lia).
    destruct (digits _ _ _ _ (drop 2 _)) eqn:Hd; [| done]. cbn. case_match; [done |]. intros [= <-]. exact (Hdig _ _ _ _ H0 Hd).
  - destruct (code c =? 48); (destruct (digits _ _ _ _ _) eqn:Hd; [| done]);
      cbn; (case_match; [done |]); intros [= <-]; eapply Hdig; try exact Hd; lia.
Qed.

Lemma ParseInt_bound s base bitSize v :
  0 <= base -> 0 < bitSize -> ParseInt s base bitSize = Some v -> - 2 ^ (bitSize - 1) <= v < 2 ^ (bitSize - 1).
Proof.
  intros Hb Hs. unfold ParseInt. destruct (match chars s with [] => _ | _ => _ end) as [neg l].
  destruct (parse_uint l base bitSize) as [u|] eqn:Hu; [| done]. apply parse_uint_bound in Hu; [| lia..]. cbn.
  pose proof (pow2_pos (bitSize - 1) ltac:(lia)).
  destruct neg; case_match eqn:Hc; try done; intros [= <-]; apply Z.ltb_ge in Hc || apply Z.leb_gt in Hc; lia.
Qed.

(** Decimal numbers are read back from the text [%d] gives them. *)
Lemma digits_app base maxVal l : forall n l',
  digits false base maxVal n (l ++ l') = (v ← digits false base maxVal n l; digits false base maxVal v l').
Proof.
  induction l as [|c l IH]; intros n l'; [done |]. cbn [digits app andb].
  destruct (digit_of c) as [d|]; [| done]. cbn. by repeat case_match.
Qed.

Lemma digit_of_pretty x : (x < 10)%N -> digit_of (pretty_N_char x) = Some (Z.of_N x).
Proof.
  intros Hx. destruct x as [|p]; [reflexivity |].
  do 4 (destruct p as [p|p|]; try first [lia | reflexivity]).
Qed.

Lemma pretty_N_go_app x : forall s, pretty_N_go x s = pretty_N_go x "" +:+ s.
Proof.
  induction (N.lt_wf_0 x) as [x _ IH]. intros s.
  destruct (decide (x = 0)%N) as [->|Hx]; [by rewrite !pretty_N_go_0 |].
  rewrite !(pretty_N_go_step x) by lia. assert (x `div` 10 < x)%N by (apply N.div_lt; lia).
  rewrite (IH _ H), (IH _ H (String _ "")).
  by rewrite <- (string_of_chars (_ +:+ s)), <- (string_of_chars (_ +:+ String _ s)), !chars_app, <- app_assoc.
Qed.

Lemma digits_pretty_go maxVal x :
  Z.of_N x <= maxVal -> digits false 10 maxVal 0 (chars (pretty_N_go x "")) = Some (Z.of_N x).
Proof.
  induction (N.lt_wf_0 x) as [x _ IH]. intros Hx.
  destruct (decide (x = 0)%N) as [->|Hnz]; [by rewrite pretty_N_go_0 |].
  rewrite pretty_N_go_step by lia. assert (x `div` 10 < x)%N by (apply N.div_lt; lia).
  rewrite pretty_N_go_app, chars_app, digits_app, IH by lia. cbn [mbind option_bind chars digits andb].
  pose proof (N.div_mod x 10 ltac:(lia)). pose proof (N.mod_lt x 10 ltac:(lia)).
  rewrite digit_of_pretty by done. cbn [mbind option_bind].
  rewrite (proj2 (Z.leb_gt _ _)), (proj2 (Z.ltb_ge _ _)) by lia. f_equal. lia.
Qed.

Lemma ParseUint_pretty bitSize z : 0 <= z < 2 ^ bitSize -> ParseUint (pretty z) 10 bitSize = Some z.
Proof.
  intros Hz. unfold ParseUint. destruct z as [|p|p]; [| | lia].
  - cbn. change (digit_of "0") with (Some 0). cbn -[Z.ltb]. by rewrite (proj2 (Z.ltb_ge _ _)) by lia.
  - change (pretty (Z.pos p)) with (pretty (N.pos p)). unfold pretty, pretty_N. rewrite decide_False by done.
    pose proof (digits_pretty_go (2 ^ bitSize - 1) (N.pos p) ltac:(lia)) as Hd.
    unfold parse_uint. destruct (chars (pretty_N_go (N.pos p) "")) as [|c l]; [done |]. exact Hd.
Qed.

(** Decoding goes through a slash. *)
Lemma unescape_app l l' r :
  unescape l = Some r -> unescape (l ++ "/"%char :: l') = (fun r' => r ++ "/"%char :: r') <$> unescape l'.
Proof.
  remember (length l) as n eqn:Hn. revert l r Hn.
  induction (Nat.lt_wf_0 n) as [n _ IH]. intros [|c l] r ->; cbn [unescape app].
  - intros [= <-]. by destruct (unescape l').
  - destruct (char_is 37 c).
    + destruct l as [|a [|b l2]]; try done. cbn [app].
      destruct (hex_digit a) as [x|]; [| done]. destruct (hex_digit b) as [y|]; [| done].
      destruct (unescape l2) as [r2|] eqn:Hr; [| done]. cbn. intros [= <-].
      rewrite (IH (length l2)) with (r := r2); [by destruct (unescape l') | simpl; lia | done | done].
    + destruct (unescape l) as [r2|] eqn:Hr; [| done]. cbn. intros [= <-].
      rewrite (IH (length l)) with (r := r2); [by destruct (unescape l') | simpl; lia | done | done].
Qed.

Lemma unescape_app_inv l l' q :
  unescape (l ++ "/"%char :: l') = Some q ->
  exists r r', unescape l = Some r /\ unescape l' = Some r' /\ q = r ++ "/"%char :: r'.
Proof.
  remember (length l) as n eqn:Hn. revert l q Hn.
  induction (Nat.lt_wf_0 n) as [n _ IH]. intros [|c l] q ->; cbn [unescape app].
  - destruct (unescape l') as [r'|] eqn:Hr'; [| done]. intros [= <-]. by exists [], r'.
  - destruct (char_is 37 c).
    + destruct l as [|a [|b l2]]; cbn [app].
      * by destruct l'.
      * change (hex_digit "/") with (@None Z). by destruct (hex_digit a).
      * destruct (hex_digit a) as [x|]; [| done]. destruct (hex_digit b) as [y|]; [| done]. cbn [mbind option_bind].
        destruct (unescape (l2 ++ _)) as [q2|] eqn:Hq; [| done]. intros [= <-].
        apply (IH (length l2)) in Hq as (r & r' & -> & -> & ->); [| simpl; lia | done]. by do 2 eexists.
    + destruct (unescape (l ++ _)) as [q2|] eqn:Hq; [| done]. intros [= <-].
      apply (IH (length l)) in Hq as (r & r' & -> & -> & ->); [| simpl; lia | done]. by do 2 eexists.
Qed.

(** Splitting at a separator, and putting the parts together. *)
Fixpoint join (sep : ascii) (w : list ascii) (ws : list (list ascii)) : list ascii :=
  match ws with [] => w | w' :: ws => w ++ sep :: join sep w' ws end.

Lemma split_at_join sep l : forall w ws, split_at sep l = (w, ws) -> join sep w ws = l.
Proof.
  induction l as [|c l IH]; intros w ws; cbn [split_at]; [by intros [= <- <-] |].
  destruct (split_at sep l) as [w' ws'] eqn:Hs. specialize (IH _ _ eq_refl).
  case_decide as Hc; intros [= <- <-]; [subst c; simpl; by f_equal |]. destruct ws'; simpl in *; by f_equal.
Qed.

Lemma unescape_join w ws : forall q,
  unescape (join "/" w ws) = Some q ->
  Forall (fun w => is_Some (unescape w)) (w :: ws)
  /\ q = join "/" (default w (unescape w)) (map (fun w => default w (unescape w)) ws).
Proof.
  revert w. induction ws as [|w' ws IH]; intros w q; simpl.
  - intros Hq. rewrite Hq. split; [apply Forall_singleton; eauto | done].
  - intros (r & r' & Hr & Hr' & ->)%unescape_app_inv. apply IH in Hr' as [Hall ->].
    split; [constructor; eauto | by rewrite Hr].
Qed.

Example parse_examples :
  ParseUint "0xFF" 0 8 = Some 255 /\ ParseUint "256" 10 8 = None /\ ParseUint "1_000" 0 16 = Some 1000
  /\ ParseUint "1__0" 0 16 = None /\ ParseInt "-128" 0 8 = Some (-128) /\ ParseInt "-129" 0 8 = None
  /\ TrimSpace "  a b " = "a b" /\ Split "a,,b" ","%char = ["a"; ""; "b"]
  /\ SplitHost "[::1]:80" = Some "::1" /\ SplitHost "::1" = None /\ SplitHost ":8080" = Some "".
Proof. vm_compute. done. Qed.

(** Decimal numbers in a path: nothing to unescape, nothing to split. *)
Lemma digits_decimal l : forall maxVal n v,
  digits false 10 maxVal n l = Some v -> Forall (fun c => 48 <= code c <= 57) l.
Proof.
  induction l as [|c l IH]; intros maxVal n v; cbn [digits andb]; [by constructor |].
  destruct (digit_of c) as [d|] eqn:Hd; [| done]. cbn. destruct (Z.leb_spec 10 d); [done |]. case_match; [done |].
  intros H'%IH. constructor; [| done]. unfold digit_of, between in Hd.
  repeat case_match; simplify_eq; rewrite ?andb_true_iff, ?Z.leb_le in *; lia.
Qed.

Lemma ParseUint_decimal x bitSize n :
  ParseUint x 10 bitSize = Some n -> x <> "" /\ Forall (fun c => 48 <= code c <= 57) (chars x).
Proof.
  unfold ParseUint, parse_uint. destruct (chars x) as [|c l] eqn:Hx; [done |]. intros Hd%digits_decimal.
  split; [by intros -> | done].
Qed.

Lemma unescape_plain l : Forall (fun c => 48 <= code c <= 57) l -> unescape l = Some l.
Proof.
  induction 1 as [|c l Hc _ IH]; [done |]. cbn [unescape]. unfold char_is.
  rewrite (proj2 (Z.eqb_neq _ _)) by lia. by rewrite IH.
Qed.

Lemma split_at_plain l : Forall (fun c => 48 <= code c <= 57) l -> split_at "/"%char l = (l, []).
Proof.
  induction 1 as [|c l Hc _ IH]; [done |]. cbn [split_at]. rewrite IH, decide_False; [done |].
  intros ->. change (code "/"%char) with 47 in Hc. lia.
Qed.

(** The text [%d] gives for an integer, as characters. *)
Definition decimal (z : Z) : list ascii := chars (pretty z).

Lemma decimal_pos p : decimal (Z.pos p) = chars (pretty_N_go (N.pos p) "").
Proof.
  unfold decimal. change (pretty (Z.pos p)) with (pretty (N.pos p)). unfold pretty, pretty_N. by rewrite decide_False.
Qed.

Lemma decimal_neg p : decimal (Z.neg p) = "-"%char :: decimal (Z.pos p).
Proof. unfold decimal. change (pretty (Z.neg p)) with ("-" +:+ pretty (N.pos p)). by rewrite chars_app. Qed.

Lemma digits_value maxVal p : Z.pos p <= maxVal -> digits false 10 maxVal 0 (decimal (Z.pos p)) = Some (Z.pos p).
Proof. intros Hp. rewrite decimal_pos. by apply digits_pretty_go. Qed.

Lemma decimal_digits z : 0 <= z -> Forall (fun c => 48 <= code c <= 57) (decimal z).
Proof.
  intros Hz. destruct z as [|p|p]; [| | lia].
  - apply Forall_singleton. change (code "0"%char) with 48. lia.
  - by eapply (digits_decimal _ (Z.pos p) 0), digits_value.
Qed.

(** No leading zero. *)
Lemma pretty_head x : (x <> 0)%N -> exists c l, chars (pretty_N_go x "") = c :: l /\ 49 <= code c <= 57.
Proof.
  induction (N.lt_wf_0 x) as [x _ IH]. intros Hx. rewrite pretty_N_go_step, pretty_N_go_app, chars_app by lia.
  destruct (decide (x < 10)%N) as [Hlt|Hge].
  - rewrite N.div_small, pretty_N_go_0, N.mod_small by done. cbn. do 2 eexists. split; [done |].
    pose proof (digit_of_pretty x Hlt) as Hd. destruct x as [|p]; [done |].
    do 4 (destruct p as [p|p|]; try first [lia | vm_compute; split; congruence]).
  - destruct (IH (x `div` 10)%N) as (c & l & -> & Hc); [apply N.div_lt; lia | |].
    + intros H0. apply N.div_small_iff in H0; lia.
    + cbn. by do 2 eexists.
Qed.

Lemma digits_base0 base maxVal l : forall n,
  Forall (fun c => 48 <= code c <= 57) l -> digits true base maxVal n l = digits false base maxVal n l.
Proof.
  induction l as [|c l IH]; intros n Hl; [done |]. apply Forall_cons in Hl as [Hc Hl]. cbn [digits].
  rewrite (proj2 (Z.eqb_neq (code c) 95)) by lia. cbn [andb].
  destruct (digit_of c); [| done]. cbn. destruct (base <=? _); [done |]. destruct (_ <? _); [done | by apply IH].
Qed.

(** A decimal text is a decimal number also where a prefix could choose the base. *)
Lemma parse_uint_decimal bitSize z : 0 <= z < 2 ^ bitSize -> parse_uint (decimal z) 0 bitSize = Some z.
Proof.
  intros Hz. pose proof (decimal_digits z ltac:(lia)) as Hd. destruct z as [|p|p]; [| | lia].
  { unfold decimal, parse_uint. reflexivity. }
  pose proof (digits_value (2 ^ bitSize - 1) p ltac:(lia)) as Hv.
  destruct (pretty_head (N.pos p)) as (c & l & Hc & Hhead); [done |]. rewrite <- decimal_pos in Hc.
  unfold parse_uint. rewrite Hc in Hd, Hv |- *. rewrite Z.eqb_refl.
  assert (Hp : prefix_base (c :: l) = None).
  { unfold prefix_base. destruct l as [|? [|]]; try done. by rewrite (proj2 (Z.eqb_neq (code c) 48)) by lia. }
  rewrite Hp, (proj2 (Z.eqb_neq (code c) 48)), digits_base0, Hv by (done || lia). cbn [mbind option_bind].
  assert (Hu : existsb (fun c => code c =? 95) (c :: l) = false).
  { apply not_true_is_false. intros (x & Hx & Hx95%Z.eqb_eq)%existsb_exists.
    rewrite Forall_forall in Hd. apply list_elem_of_In, Hd in Hx. lia. }
  by rewrite Hu.
Qed.

Lemma ParseInt_decimal bitSize z :
  0 < bitSize -> - 2 ^ (bitSize - 1) <= z < 2 ^ (bitSize - 1) -> ParseInt (string_of (decimal z)) 0 bitSize = Some z.
Proof.
  intros Hb Hz. assert (H2 : 2 ^ bitSize = 2 * 2 ^ (bitSize - 1)) by (rewrite <- Z.pow_succ_r by lia; f_equal; lia).
  unfold ParseInt. rewrite chars_string_of. destruct z as [|p|p].
  - assert (H0 : parse_uint ["0"%char] 0 bitSize = Some 0) by done.
    change (decimal 0) with ["0"%char]. cbv iota beta. change (code "0"%char =? 43) with false. change (code "0"%char =? 45) with false.
    cbv iota beta. rewrite H0. cbn [mbind option_bind]. by rewrite (proj2 (Z.leb_gt _ _)) by lia.
  - destruct (pretty_head (N.pos p)) as (c & l & Hc & Hhead); [done |]. rewrite <- decimal_pos in Hc.
    pose proof (parse_uint_decimal bitSize (Z.pos p) ltac:(lia)) as Hu. rewrite Hc in Hu |- *.
    rewrite !(proj2 (Z.eqb_neq _ _)) by lia. rewrite Hu. cbn. by rewrite (proj2 (Z.leb_gt _ _)) by lia.
  - rewrite decimal_neg. change (code "-"%char =? 43) with false. change (code "-"%char =? 45) with true. cbv iota beta.
    rewrite parse_uint_decimal by lia. cbn. by rewrite (proj2 (Z.ltb_ge _ _)) by lia.
Qed.

(** Text without white space at its ends is its own trimming. *)
Lemma trim_front_stop p1 p2 p3 a l :
  p1 a = false -> (forall b, p2 a b = false) -> (forall b c, p3 a b c = false) -> trim_front p1 p2 p3 (a :: l) = a :: l.
Proof.
  intros H1 H2 H3. cbn [trim_front]. rewrite H1. destruct l as [|b l]; [done |]. rewrite H2. destruct l; [done |]. by rewrite H3.
Qed.

Lemma trim_front_length p1 p2 p3 l : (length (trim_front p1 p2 p3 l) <= length l)%nat.
Proof.
  remember (length l) as n eqn:Hn. revert l Hn. induction (Nat.lt_wf_0 n) as [n _ IH].
  assert (Hs : forall l k, (length l < n)%nat -> (length l <= k)%nat -> (length (trim_front p1 p2 p3 l) <= k)%nat)
    by (intros l k Hl Hk; etransitivity; [by apply (IH (length l)) | done]).
  intros [|a [|b [|c l]]] ->; cbn [trim_front]; repeat case_match; simpl; try lia; apply Hs; simpl; lia.
Qed.

Definition solid (c : ascii) : Prop := 32 < code c < 128.

Lemma solid_first a : solid a -> space1 a = false /\ (forall b, space2 a b = false) /\ (forall b c, space3 a b c = false).
Proof.
  unfold solid, space1, space2, space3, between. intros Ha. split_and!; [lia | intros b; lia |].
  intros b c. destruct (code a) as [|p|p]; [done | | done].
  do 8 (destruct p as [p|p|]; try done); lia.
Qed.

Lemma solid_last c : solid c -> (forall b, space2 b c = false) /\ (forall a b, space3 a b c = false).
Proof.
  unfold solid, space2, space3, between. intros Hc. split; [intros b; lia |].
  intros a b. destruct (code a) as [|p|p]; [done | | done].
  do 8 (destruct p as [p|p|]; try done); lia.
Qed.

Lemma TrimSpace_solid a b l :
  solid a -> solid b -> head l = Some a -> last l = Some b -> TrimSpace (string_of l) = string_of l.
Proof.
  intros Ha Hb Hh Hl. unfold TrimSpace. rewrite chars_string_of. f_equal.
  assert (Hleft : trim_left l = l).
  { destruct l as [|a' l]; [done |]. injection Hh as ->. by apply trim_front_stop; apply solid_first. }
  rewrite Hleft. unfold trim_right. destruct l as [|l x _] using rev_ind; [done |].
  rewrite last_snoc in Hl. injection Hl as ->. rewrite rev_app_distr. cbn [rev app].
  destruct (solid_last b Hb) as [H2 H3]. destruct (solid_first b Hb) as [H1 _].
  rewrite trim_front_stop by auto. cbn [rev]. by rewrite rev_involutive.
Qed.
