(* ===== verification/Secs2Item.v ===== *)
(** * SECS-II items

    The data model of [src/pkg/message/secs2]: format codes ([format.go]), the
    [Item] tree with its dynamically typed values, its constructors, accessors
    and [Validate] ([item.go]).  A [*Item] is an [option item]; a method called
    on a nil pointer or a failed type assertion is a [Panic]. *)

From stdpp Require Import prelude gmap strings list.
From Stdlib Require Import ZArith Lia.
From S2P Require Import Prelude.

#[local] Open Scope Z_scope.

(** ** Format codes ([format.go]) *)

Definition FormatList : Z := 0.
Definition FormatBinary : Z := 32.
Definition FormatBoolean : Z := 36.
Definition FormatASCII : Z := 64.
Definition FormatJIS8 : Z := 68.
Definition FormatI8 : Z := 96.
Definition FormatI1 : Z := 100.
Definition FormatI2 : Z := 104.
Definition FormatI4 : Z := 112.
Definition FormatF8 : Z := 128.
Definition FormatF4 : Z := 144.
Definition FormatU8 : Z := 160.
Definition FormatU1 : Z := 164.
Definition FormatU2 : Z := 168.
Definition FormatU4 : Z := 176.

Definition formatMask : Z := 252.
Definition lengthBitsMask : Z := 3.

Definition Format_String (f : Z) : string :=
  if f =? FormatList then "L"
  else if f =? FormatBinary then "B"
  else if f =? FormatBoolean then "BOOLEAN"
  else if f =? FormatASCII then "A"
  else if f =? FormatJIS8 then "J"
  else if f =? FormatI8 then "I8"
  else if f =? FormatI1 then "I1"
  else if f =? FormatI2 then "I2"
  else if f =? FormatI4 then "I4"
  else if f =? FormatF8 then "F8"
  else if f =? FormatF4 then "F4"
  else if f =? FormatU8 then "U8"
  else if f =? FormatU1 then "U1"
  else if f =? FormatU2 then "U2"
  else if f =? FormatU4 then "U4"
  else "UNKNOWN".

Definition itemSize (f : Z) : Z :=
  if (f =? FormatBoolean) || (f =? FormatBinary) || (f =? FormatI1) || (f =? FormatU1) then 1
  else if (f =? FormatI2) || (f =? FormatU2) then 2
  else if (f =? FormatI4) || (f =? FormatU4) || (f =? FormatF4) then 4
  else if (f =? FormatI8) || (f =? FormatU8) || (f =? FormatF8) then 8
  else 0.

(** ** Items ([item.go])

    [gval] is the part of [interface{}] the package stores in [Item.values].
    Floats are their IEEE-754 bit patterns, which is what [math.Float32bits]
    and [math.Float32frombits] exchange. *)

Inductive item := Item (format : Z) (values : list gval)
with gval :=
| VItem (p : option item)
| VString (s : string)
| VBytes (b : list Z)
| VBool (b : bool)
| VInt8 (z : Z)
| VInt16 (z : Z)
| VInt32 (z : Z)
| VInt64 (z : Z)
| VUint8 (z : Z)
| VUint16 (z : Z)
| VUint32 (z : Z)
| VUint64 (z : Z)
| VFloat32 (bits : Z)
| VFloat64 (bits : Z).

Definition format (it : item) : Z := let 'Item f _ := it in f.
Definition values (it : item) : list gval := let 'Item _ vs := it in vs.

(** A method call through a [*Item]. *)
Definition deref {E} (p : option item) : result E item :=
  match p with Some it => Ok it | None => Panic NilDeref end.

(** *** Constructors *)

Definition NewList (items : list (option item)) : item := Item FormatList (VItem <$> items).
Definition NewASCII (s : string) : item := Item FormatASCII [VString s].
Definition NewBinary (data : list Z) : item := Item FormatBinary [VBytes data].
Definition NewBoolean (vals : list bool) : item := Item FormatBoolean (VBool <$> vals).
Definition NewI1 (vals : list Z) : item := Item FormatI1 (VInt8 <$> vals).
Definition NewI2 (vals : list Z) : item := Item FormatI2 (VInt16 <$> vals).
Definition NewI4 (vals : list Z) : item := Item FormatI4 (VInt32 <$> vals).
Definition NewI8 (vals : list Z) : item := Item FormatI8 (VInt64 <$> vals).
Definition NewU1 (vals : list Z) : item := Item FormatU1 (VUint8 <$> vals).
Definition NewU2 (vals : list Z) : item := Item FormatU2 (VUint16 <$> vals).
Definition NewU4 (vals : list Z) : item := Item FormatU4 (VUint32 <$> vals).
Definition NewU8 (vals : list Z) : item := Item FormatU8 (VUint64 <$> vals).
Definition NewF4 (vals : list Z) : item := Item FormatF4 (VFloat32 <$> vals).
Definition NewF8 (vals : list Z) : item := Item FormatF8 (VFloat64 <$> vals).

(** *** Type assertions [v.(T)] *)

Definition as_item {E} (v : gval) : result E (option item) :=
  match v with VItem p => Ok p | _ => Panic TypeAssertion end.
Definition as_string {E} (v : gval) : result E string :=
  match v with VString s => Ok s | _ => Panic TypeAssertion end.
Definition as_bytes {E} (v : gval) : result E (list Z) :=
  match v with VBytes b => Ok b | _ => Panic TypeAssertion end.
Definition as_bool {E} (v : gval) : result E bool :=
  match v with VBool b => Ok b | _ => Panic TypeAssertion end.

(** *** Accessors *)

(** "item is %s, not ..." *)
Inductive access_error := ItemIsNot (got : Z) (want : string).

Definition Len {E} (it : item) : result E Z :=
  if format it =? FormatASCII then
    match values it with
    | [] => Ok 0
    | v :: _ => s ← as_string v; Ok (Z.of_nat (String.length s))
    end
  else if format it =? FormatBinary then
    match values it with
    | [] => Ok 0
    | v :: _ => b ← as_bytes v; Ok (len b)
    end
  else Ok (len (values it)).

Definition Items {E} (it : item) : result E (list (option item)) :=
  if negb (format it =? FormatList) then Ok []
  else mapM as_item (values it).

Definition ItemAt {E} (it : item) (i : Z) : result E (option item) :=
  if negb (format it =? FormatList) || (i <? 0) || (len (values it) <=? i) then Ok None
  else v ← idx (values it) i; as_item v.

Definition ToASCII (it : item) : result access_error string :=
  if negb (format it =? FormatASCII) then Err (ItemIsNot (format it) "ASCII")
  else match values it with
       | [] => Ok ""
       | v :: _ => as_string v
       end.

Definition ToBinary (it : item) : result access_error (list Z) :=
  if negb (format it =? FormatBinary) then Err (ItemIsNot (format it) "Binary")
  else match values it with
       | [] => Ok []
       | v :: _ => as_bytes v
       end.

Definition ToBooleans (it : item) : result access_error (list bool) :=
  if negb (format it =? FormatBoolean) then Err (ItemIsNot (format it) "Boolean")
  else mapM as_bool (values it).

(** The type switch looks at the values, not at the format: an item of any
    format without values converts to the empty slice. *)
Definition ToUint64s (it : item) : result access_error (list Z) :=
  mapM (fun v => match v with
                 | VUint8 n | VUint16 n | VUint32 n | VUint64 n => Ok n
                 | _ => Err (ItemIsNot (format it) "unsigned integer")
                 end) (values it).

Definition ToInt64s (it : item) : result access_error (list Z) :=
  mapM (fun v => match v with
                 | VInt8 n | VInt16 n | VInt32 n | VInt64 n => Ok n
                 | _ => Err (ItemIsNot (format it) "signed integer")
                 end) (values it).

(** [float64(n)] for a [float32]: exact; a NaN becomes quiet. *)
Definition f32_to_f64 (bits : Z) : Z :=
  let s := Z.shiftl (Z.shiftr bits 31) 63 in
  let e := Z.land (Z.shiftr bits 23) 255 in
  let m := Z.land bits (Z.ones 23) in
  if e =? 255 then
    Z.lor s (Z.lor (Z.shiftl 2047 52)
      (if m =? 0 then 0 else Z.lor (Z.shiftl m 29) (Z.shiftl 1 51)))
  else if e =? 0 then
    if m =? 0 then s
    else let k := Z.log2 m in
         Z.lor s (Z.lor (Z.shiftl (k - 149 + 1023) 52) (Z.shiftl (m - Z.shiftl 1 k) (52 - k)))
  else Z.lor s (Z.lor (Z.shiftl (e - 127 + 1023) 52) (Z.shiftl m 29)).

Definition ToFloat64s (it : item) : result access_error (list Z) :=
  mapM (fun v => match v with
                 | VFloat32 b => Ok (f32_to_f64 b)
                 | VFloat64 b => Ok b
                 | _ => Err (ItemIsNot (format it) "float")
                 end) (values it).

(** *** Validate *)

Inductive validate_error :=
| NilItem
| ElementNotItem (i : Z)
| ElementInvalid (i : Z) (e : validate_error)
| TooManyValues (f n : Z)
| NotFinite (f i : Z).

(** [math.IsNaN(f) || math.IsInf(f, 0)]: the exponent field is all ones. *)
Definition f32_not_finite (bits : Z) : bool := Z.land (Z.shiftr bits 23) 255 =? 255.
Definition f64_not_finite (bits : Z) : bool := Z.land (Z.shiftr bits 52) 2047 =? 2047.

Fixpoint validate_floats (f : Z) (notfinite : gval -> result validate_error bool)
    (i : Z) (vs : list gval) : result validate_error () :=
  match vs with
  | [] => Ok ()
  | v :: vs' => b ← notfinite v;
      if (b : bool) then Err (NotFinite f i) else validate_floats f notfinite (i + 1) vs'
  end.

Definition validate_list (validate : item -> result validate_error ())
  : Z -> list gval -> result validate_error () :=
  fix go i vs :=
    match vs with
    | [] => Ok ()
    | v :: vs' =>
        match v with
        | VItem p =>
            match match p with Some c => validate c | None => Err NilItem end with
            | Err e => Err (ElementInvalid i e)
            | Ok _ => go (i + 1) vs'
            | e => e
            end
        | _ => Err (ElementNotItem i)
        end
    end.

Fixpoint validate_item (it : item) : result validate_error () :=
  match it with
  | Item f vs =>
      if f =? FormatList then validate_list validate_item 0 vs
      else if f =? FormatASCII then
        if 1 <? len vs then Err (TooManyValues f (len vs)) else Ok ()
      else if f =? FormatBinary then
        if 1 <? len vs then Err (TooManyValues f (len vs)) else Ok ()
      else if f =? FormatF4 then
        validate_floats f (fun v => match v with
                                    | VFloat32 b => Ok (f32_not_finite b)
                                    | _ => Panic TypeAssertion end) 0 vs
      else if f =? FormatF8 then
        validate_floats f (fun v => match v with
                                    | VFloat64 b => Ok (f64_not_finite b)
                                    | _ => Panic TypeAssertion end) 0 vs
      else Ok ()
  end.

Definition Validate (p : option item) : result validate_error () :=
  match p with None => Err NilItem | Some it => validate_item it end.

(** ** Well-formed items

    [well_formed it]: the tree has no nil child, every value has the dynamic
    type and the range its format calls for, and every payload fits the
    three-byte length field. *)

Definition max_payload : Z := 16777215.

Definition is_scalar (f : Z) : bool :=
  existsb (Z.eqb f)
    [FormatBoolean; FormatI1; FormatI2; FormatI4; FormatI8;
     FormatU1; FormatU2; FormatU4; FormatU8; FormatF4; FormatF8].

Definition value_ok (f : Z) (v : gval) : bool :=
  match v with
  | VBool _ => f =? FormatBoolean
  | VInt8 z => (f =? FormatI1) && in_signed 8 z
  | VInt16 z => (f =? FormatI2) && in_signed 16 z
  | VInt32 z => (f =? FormatI4) && in_signed 32 z
  | VInt64 z => (f =? FormatI8) && in_signed 64 z
  | VUint8 z => (f =? FormatU1) && in_unsigned 8 z
  | VUint16 z => (f =? FormatU2) && in_unsigned 16 z
  | VUint32 z => (f =? FormatU4) && in_unsigned 32 z
  | VUint64 z => (f =? FormatU8) && in_unsigned 64 z
  | VFloat32 b => (f =? FormatF4) && in_unsigned 32 b
  | VFloat64 b => (f =? FormatF8) && in_unsigned 64 b
  | _ => false
  end.

Definition all_children (ok : item -> bool) : list gval -> bool :=
  fix go vs :=
    match vs with
    | [] => true
    | v :: vs' => match v with VItem (Some c) => ok c && go vs' | _ => false end
    end.

Fixpoint well_formed (it : item) : bool :=
  match it with
  | Item f vs =>
      if f =? FormatList then (len vs <=? max_payload) && all_children well_formed vs
      else if f =? FormatASCII then
        match vs with
        | [] => true
        | [VString s] => Z.of_nat (String.length s) <=? max_payload
        | _ => false
        end
      else if f =? FormatBinary then
        match vs with
        | [] => true
        | [VBytes b] => bytes_ok b && (len b <=? max_payload)
        | _ => false
        end
      else is_scalar f && forallb (value_ok f) vs && (len vs * itemSize f <=? max_payload)
  end.

(** [normalize] drops the one difference the wire cannot carry: an empty string
    or byte slice held as a value against no value at all. *)
Definition normalize_children (norm : item -> item) : list gval -> list gval :=
  fix go vs :=
    match vs with
    | [] => []
    | v :: vs' => match v with VItem (Some c) => VItem (Some (norm c)) | _ => v end :: go vs'
    end.

Fixpoint normalize (it : item) : item :=
  match it with
  | Item f vs =>
      if f =? FormatList then Item f (normalize_children normalize vs)
      else if f =? FormatASCII then
        match vs with [VString EmptyString] => Item f [] | _ => it end
      else if f =? FormatBinary then
        match vs with [VBytes []] => Item f [] | _ => it end
      else it
  end.

(** ** Induction over item trees *)

Section item_ind.
Variable P : item -> Prop.
Hypothesis step : forall f vs, (forall c, VItem (Some c) ∈ vs -> P c) -> P (Item f vs).

Fixpoint item_tree_ind (it : item) : P it.
  Proof.
    destruct it as [f vs]. apply step. induction vs as [|v vs IH]; intros c Hc.
    - exfalso. by apply elem_of_nil in Hc.
    - destruct v as [[d|]| | | | | | | | | | | | |];
        try (apply IH; apply elem_of_cons in Hc as [Hc|Hc]; [discriminate Hc | exact Hc]).
      pose proof (item_tree_ind d) as Hd.
      apply elem_of_cons in Hc as [[= ->]|Hc]; [exact Hd | exact (IH c Hc)].
  Defined.
End item_ind.

Lemma all_children_spec ok vs :
  all_children ok vs = true <-> exists cs, vs = (VItem ∘ Some) <$> cs /\ forallb ok cs = true.
Proof.
  induction vs as [|v vs IH]; simpl.
  - split; [by exists [] | done].
  - split.
    + destruct v as [[c|]| | | | | | | | | | | | |]; try done.
      rewrite andb_true_iff, IH. intros [Hc (cs & -> & Hcs)].
      exists (c :: cs). simpl. by rewrite Hc, Hcs.
    + intros ([|c cs] & Heq & Hcs); [done |]. injection Heq as -> ->. simpl in Hcs.
      apply andb_true_iff in Hcs as [-> Hcs]. simpl. apply IH. eauto.
Qed.

(** The cases of a well-formed item. *)
Inductive wf_cases (f : Z) (vs : list gval) : Prop :=
| wf_list cs :
    f = FormatList -> vs = (VItem ∘ Some) <$> cs -> len vs <= max_payload ->
    forallb well_formed cs = true -> wf_cases f vs
| wf_ascii s :
    f = FormatASCII -> vs = [VString s] -> Z.of_nat (String.length s) <= max_payload -> wf_cases f vs
| wf_binary b :
    f = FormatBinary -> vs = [VBytes b] -> bytes_ok b = true -> len b <= max_payload -> wf_cases f vs
| wf_empty : f = FormatASCII \/ f = FormatBinary -> vs = [] -> wf_cases f vs
| wf_scalar :
    is_scalar f = true -> forallb (value_ok f) vs = true ->
    len vs * itemSize f <= max_payload -> wf_cases f vs.

Lemma well_formed_cases f vs : well_formed (Item f vs) = true -> wf_cases f vs.
Proof.
  simpl. destruct (Z.eqb_spec f FormatList) as [->|?].
  { rewrite andb_true_iff, Z.leb_le, all_children_spec. intros [? (cs & ? & ?)]. by eapply wf_list. }
  destruct (Z.eqb_spec f FormatASCII) as [->|?].
  { destruct vs as [|[] [|]]; try done; intros H.
    - by apply wf_empty; [left |].
    - eapply wf_ascii; [done..|]. by apply Z.leb_le. }
  destruct (Z.eqb_spec f FormatBinary) as [->|?].
  { destruct vs as [|[] [|]]; try done; intros H.
    - by apply wf_empty; [right |].
    - apply andb_true_iff in H as [? ?]. eapply wf_binary; [done..|]. by apply Z.leb_le. }
  rewrite !andb_true_iff, Z.leb_le. intros [[? ?] ?]. by apply wf_scalar.
Qed.

(** Two items are equivalent when they differ at most by what [normalize]
    drops. *)
Definition item_equiv (a b : item) : Prop := normalize a = normalize b.

#[global] Instance item_equiv_equivalence : Equivalence item_equiv.
Proof. split; unfold item_equiv; congruence || (intros ? ** ; congruence). Qed.
