(* ===== verification/Secs2Codec.v ===== *)
(** * SECS-II codec

    [Encode] and [Decode] of [src/pkg/message/secs2] ([encode.go], [decode.go])
    and the [Codec] of [codec.go].  The recursion of [decodeItem] is on fuel;
    [decode_fuel] is enough for every input. *)

From stdpp Require Import prelude gmap strings list.
From Stdlib Require Import ZArith Lia.
From S2P Require Import Prelude Secs2Item.

#[local] Open Scope Z_scope.

(** ** Encoding ([encode.go]) *)

Inductive encode_error :=
| EncNilItem
| EncUnsupportedFormat (f : Z)
| EncTooLong (dataLen : Z)
| EncElementNotItem (i : Z)
| EncElement (i : Z) (e : encode_error).

Definition encodeHeader (buf : list Z) (format dataLen : Z) : result encode_error (list Z) :=
  if 16777215 <? dataLen then Err (EncTooLong dataLen)
  else
    let numLenBytes :=
      if dataLen <=? 255 then 1 else if dataLen <=? 65535 then 2 else 3 in
    let formatByte := Z.lor format numLenBytes in
    let buf := buf ++ [formatByte] in
    Ok (if numLenBytes =? 3 then
          buf ++ [to_byte (Z.shiftr dataLen 16)]
              ++ [to_byte (Z.shiftr dataLen 8)] ++ [to_byte dataLen]
        else if numLenBytes =? 2 then
          buf ++ [to_byte (Z.shiftr dataLen 8)] ++ [to_byte dataLen]
        else buf ++ [to_byte dataLen]).

(** [for _, v := range item.values { buf = append(buf, emit(v)...) }] *)
Fixpoint append_each (emit : gval -> result encode_error (list Z))
    (vs : list gval) (buf : list Z) : result encode_error (list Z) :=
  match vs with
  | [] => Ok buf
  | v :: vs' => bs ← emit v; append_each emit vs' (buf ++ bs)
  end.

(** The shape the encoders of the fixed-size formats share: the header with
    [len(item.values) * size], then every value. *)
Definition encode_fixed (f size : Z) (emit : gval -> result encode_error (list Z))
    (it : item) (buf : list Z) : result encode_error (list Z) :=
  let dataLen := len (values it) * size in
  buf ← encodeHeader buf f dataLen;
  append_each emit (values it) buf.

Definition emit_bool (v : gval) : result encode_error (list Z) :=
  match v with VBool b => Ok [if b then 1 else 0] | _ => Panic TypeAssertion end.
Definition emit_i1 (v : gval) : result encode_error (list Z) :=
  match v with VInt8 z => Ok [to_byte z] | _ => Panic TypeAssertion end.
Definition emit_i2 (v : gval) : result encode_error (list Z) :=
  match v with VInt16 z => Ok (be_bytes 2 (wrap 16 z)) | _ => Panic TypeAssertion end.
Definition emit_i4 (v : gval) : result encode_error (list Z) :=
  match v with VInt32 z => Ok (be_bytes 4 (wrap 32 z)) | _ => Panic TypeAssertion end.
Definition emit_i8 (v : gval) : result encode_error (list Z) :=
  match v with VInt64 z => Ok (be_bytes 8 (wrap 64 z)) | _ => Panic TypeAssertion end.
Definition emit_u1 (v : gval) : result encode_error (list Z) :=
  match v with VUint8 z => Ok [z] | _ => Panic TypeAssertion end.
Definition emit_u2 (v : gval) : result encode_error (list Z) :=
  match v with VUint16 z => Ok (be_bytes 2 z) | _ => Panic TypeAssertion end.
Definition emit_u4 (v : gval) : result encode_error (list Z) :=
  match v with VUint32 z => Ok (be_bytes 4 z) | _ => Panic TypeAssertion end.
Definition emit_u8 (v : gval) : result encode_error (list Z) :=
  match v with VUint64 z => Ok (be_bytes 8 z) | _ => Panic TypeAssertion end.
Definition emit_f4 (v : gval) : result encode_error (list Z) :=
  match v with VFloat32 bits => Ok (be_bytes 4 bits) | _ => Panic TypeAssertion end.
Definition emit_f8 (v : gval) : result encode_error (list Z) :=
  match v with VFloat64 bits => Ok (be_bytes 8 bits) | _ => Panic TypeAssertion end.

Definition encodeBoolean := encode_fixed FormatBoolean 1 emit_bool.
Definition encodeI1 := encode_fixed FormatI1 1 emit_i1.
Definition encodeI2 := encode_fixed FormatI2 2 emit_i2.
Definition encodeI4 := encode_fixed FormatI4 4 emit_i4.
Definition encodeI8 := encode_fixed FormatI8 8 emit_i8.
Definition encodeU1 := encode_fixed FormatU1 1 emit_u1.
Definition encodeU2 := encode_fixed FormatU2 2 emit_u2.
Definition encodeU4 := encode_fixed FormatU4 4 emit_u4.
Definition encodeU8 := encode_fixed FormatU8 8 emit_u8.
Definition encodeF4 := encode_fixed FormatF4 4 emit_f4.
Definition encodeF8 := encode_fixed FormatF8 8 emit_f8.

Definition encodeASCII (it : item) (buf : list Z) : result encode_error (list Z) :=
  s ← match values it with [] => Ok EmptyString | v :: _ => as_string v end;
  buf ← encodeHeader buf FormatASCII (Z.of_nat (String.length s));
  Ok (buf ++ bytes_of_string s).

Definition encodeBinary (it : item) (buf : list Z) : result encode_error (list Z) :=
  data ← match values it with [] => Ok [] | v :: _ => as_bytes v end;
  buf ← encodeHeader buf FormatBinary (len data);
  Ok (buf ++ data).

(** The loop of [encodeList]; [enc] is [encodeItem]. *)
Definition encode_elements (enc : item -> list Z -> result encode_error (list Z))
  : Z -> list gval -> list Z -> result encode_error (list Z) :=
  fix go i vs buf :=
    match vs with
    | [] => Ok buf
    | v :: vs' =>
        match v with
        | VItem p =>
            match match p with Some c => enc c buf | None => Panic NilDeref end with
            | Ok buf => go (i + 1) vs' buf
            | Err e => Err (EncElement i e)
            | e => e
            end
        | _ => Err (EncElementNotItem i)
        end
    end.

Definition encodeList (enc : item -> list Z -> result encode_error (list Z))
    (vs : list gval) (buf : list Z) : result encode_error (list Z) :=
  let count := len vs in
  match encodeHeader buf FormatList count with
  | Ok buf => encode_elements enc 0 vs buf
  | e => e
  end.

Fixpoint encodeItem (it : item) (buf : list Z) : result encode_error (list Z) :=
  match it with
  | Item f vs =>
      if f =? FormatList then encodeList encodeItem vs buf
      else if f =? FormatASCII then encodeASCII it buf
      else if f =? FormatBinary then encodeBinary it buf
      else if f =? FormatBoolean then encodeBoolean it buf
      else if f =? FormatI1 then encodeI1 it buf
      else if f =? FormatI2 then encodeI2 it buf
      else if f =? FormatI4 then encodeI4 it buf
      else if f =? FormatI8 then encodeI8 it buf
      else if f =? FormatU1 then encodeU1 it buf
      else if f =? FormatU2 then encodeU2 it buf
      else if f =? FormatU4 then encodeU4 it buf
      else if f =? FormatU8 then encodeU8 it buf
      else if f =? FormatF4 then encodeF4 it buf
      else if f =? FormatF8 then encodeF8 it buf
      else Err (EncUnsupportedFormat f)
  end.

Definition Encode (p : option item) : result encode_error (list Z) :=
  match p with
  | None => Err EncNilItem
  | Some it => encodeItem it []
  end.

(** ** Decoding ([decode.go]) *)

Inductive decode_error :=
| DecUnexpectedEnd (offset : Z)
| DecNoLengthBytes (offset : Z)
| DecShortLengthBytes (offset : Z)
| DecUnsupportedFormat (f offset : Z)
| DecNotEnoughData (f : Z)
| DecNotMultiple (f dataLen size : Z)
| DecElement (i : Z) (e : decode_error)
| DecTrailingData (n total : Z)
| DecAtOffset (offset : Z) (e : decode_error).

(** The shape the decoders of the fixed-size formats share; [read] is the
    conversion of the bytes at an offset.  The divisibility check is there for
    the sizes above one only. *)
Definition decode_fixed (f size : Z) (read : list Z -> Z -> result decode_error gval)
    (data : list Z) (offset dataLen : Z) : result decode_error (item * Z) :=
  if negb (Z.rem dataLen size =? 0) then Err (DecNotMultiple f dataLen size)
  else if len data <? offset + dataLen then Err (DecNotEnoughData f)
  else
    let count := Z.quot dataLen size in
    vals ← for_range count (fun i => read data (offset + i * size));
    Ok (Item f vals, offset + dataLen).

Definition read_at1 (g : Z -> gval) (data : list Z) (o : Z) : result decode_error gval :=
  b ← idx data o; Ok (g b).

(** [binary.BigEndian.UintN(data[o:])] *)
Definition read_be (n : nat) (g : Z -> gval) (data : list Z) (o : Z) : result decode_error gval :=
  s ← slice_from data o; v ← be_uint n s; Ok (g v).

Definition read_bool := read_at1 (fun b => VBool (negb (b =? 0))).
Definition read_i1 := read_at1 (fun b => VInt8 (swrap 8 b)).
Definition read_u1 := read_at1 VUint8.
Definition read_i2 := read_be 2 (fun v => VInt16 (swrap 16 v)).
Definition read_i4 := read_be 4 (fun v => VInt32 (swrap 32 v)).
Definition read_i8 := read_be 8 (fun v => VInt64 (swrap 64 v)).
Definition read_u2 := read_be 2 VUint16.
Definition read_u4 := read_be 4 VUint32.
Definition read_u8 := read_be 8 VUint64.
Definition read_f4 := read_be 4 VFloat32.
Definition read_f8 := read_be 8 VFloat64.

Definition decodeBoolean := decode_fixed FormatBoolean 1 read_bool.
Definition decodeI1 := decode_fixed FormatI1 1 read_i1.
Definition decodeI2 := decode_fixed FormatI2 2 read_i2.
Definition decodeI4 := decode_fixed FormatI4 4 read_i4.
Definition decodeI8 := decode_fixed FormatI8 8 read_i8.
Definition decodeU1 := decode_fixed FormatU1 1 read_u1.
Definition decodeU2 := decode_fixed FormatU2 2 read_u2.
Definition decodeU4 := decode_fixed FormatU4 4 read_u4.
Definition decodeU8 := decode_fixed FormatU8 8 read_u8.
Definition decodeF4 := decode_fixed FormatF4 4 read_f4.
Definition decodeF8 := decode_fixed FormatF8 8 read_f8.

Definition decodeASCII (data : list Z) (offset dataLen : Z) : result decode_error (item * Z) :=
  if len data <? offset + dataLen then Err (DecNotEnoughData FormatASCII)
  else
    b ← slice data offset (offset + dataLen);
    let s := string_of_bytes b in
    Ok (Item FormatASCII (if 0 <? dataLen then [VString s] else []), offset + dataLen).

Definition decodeBinary (data : list Z) (offset dataLen : Z) : result decode_error (item * Z) :=
  if len data <? offset + dataLen then Err (DecNotEnoughData FormatBinary)
  else
    b ← slice data offset (offset + dataLen);
    Ok (Item FormatBinary (if 0 <? dataLen then [VBytes b] else []), offset + dataLen).

(** The loop of [decodeList]; [dec] is [decodeItem data]. *)
Fixpoint decode_elements (dec : Z -> result decode_error (item * Z)) (n : nat) (i offset : Z)
  : result decode_error (list gval * Z) :=
  match n with
  | O => Ok ([], offset)
  | S n' =>
      '(child, offset) ← wrap_err (DecElement i) (dec offset);
      '(vs, offset) ← decode_elements dec n' (i + 1) offset;
      Ok (VItem (Some child) :: vs, offset)
  end.

Definition decodeList (dec : Z -> result decode_error (item * Z)) (offset count : Z)
  : result decode_error (item * Z) :=
  '(vs, offset) ← decode_elements dec (Z.to_nat count) 0 offset;
  Ok (Item FormatList vs, offset).

(** The format byte and the length bytes: the format, the payload length and
    the offset of the payload. *)
Definition decode_header (data : list Z) (offset : Z) : result decode_error (Z * Z * Z) :=
  if len data <=? offset then Err (DecUnexpectedEnd offset)
  else
    formatByte ← idx data offset;
    let format := Z.land formatByte formatMask in
    let numLenBytes := Z.land formatByte lengthBitsMask in
    let offset := offset + 1 in
    if numLenBytes =? 0 then Err (DecNoLengthBytes (offset - 1))
    else if len data <? offset + numLenBytes then Err (DecShortLengthBytes offset)
    else
      dataLen ←
        (if numLenBytes =? 1 then idx data offset
         else if numLenBytes =? 2 then
           b0 ← idx data offset; b1 ← idx data (offset + 1);
           Ok (Z.lor (Z.shiftl b0 8) b1)
         else
           b0 ← idx data offset; b1 ← idx data (offset + 1); b2 ← idx data (offset + 2);
           Ok (Z.lor (Z.lor (Z.shiftl b0 16) (Z.shiftl b1 8)) b2));
      Ok (format, dataLen, offset + numLenBytes).

(** The switch on the format; [dec] is [decodeItem data]. *)
Definition decode_payload (dec : Z -> result decode_error (item * Z)) (data : list Z)
    (format dataLen offset : Z) : result decode_error (item * Z) :=
  if format =? FormatList then decodeList dec offset dataLen
  else if format =? FormatASCII then decodeASCII data offset dataLen
  else if format =? FormatBinary then decodeBinary data offset dataLen
  else if format =? FormatBoolean then decodeBoolean data offset dataLen
  else if format =? FormatI1 then decodeI1 data offset dataLen
  else if format =? FormatI2 then decodeI2 data offset dataLen
  else if format =? FormatI4 then decodeI4 data offset dataLen
  else if format =? FormatI8 then decodeI8 data offset dataLen
  else if format =? FormatU1 then decodeU1 data offset dataLen
  else if format =? FormatU2 then decodeU2 data offset dataLen
  else if format =? FormatU4 then decodeU4 data offset dataLen
  else if format =? FormatU8 then decodeU8 data offset dataLen
  else if format =? FormatF4 then decodeF4 data offset dataLen
  else if format =? FormatF8 then decodeF8 data offset dataLen
  else Err (DecUnsupportedFormat format offset).

Fixpoint decodeItem (fuel : nat) (data : list Z) (offset : Z) : result decode_error (item * Z) :=
  match fuel with
  | O => OutOfFuel
  | S fuel =>
      '(format, dataLen, offset) ← decode_header data offset;
      decode_payload (decodeItem fuel data) data format dataLen offset
  end.

(** Every nested item is at least two bytes long, so the nesting depth stays
    below the length of the input. *)
Definition decode_fuel (data : list Z) : nat := S (length data).

Definition Decode (data : list Z) : result decode_error item :=
  '(it, n) ← decodeItem (decode_fuel data) data 0;
  if negb (n =? len data) then Err (DecTrailingData n (len data)) else Ok it.

(** [for offset < len(data)]: one item per round. *)
Fixpoint decode_multi_loop (fuel : nat) (data : list Z) (offset : Z)
  : result decode_error (list item) :=
  match fuel with
  | O => OutOfFuel
  | S fuel =>
      if offset <? len data then
        '(it, n) ← wrap_err (DecAtOffset offset) (decodeItem (decode_fuel data) data offset);
        items ← decode_multi_loop fuel data n;
        Ok (it :: items)
      else Ok []
  end.

Definition DecodeMulti (data : list Z) : result decode_error (list item) :=
  decode_multi_loop (decode_fuel data) data 0.

(** ** The header *)

Definition header_len_bytes (n : Z) : nat :=
  if n <=? 255 then 1%nat else if n <=? 65535 then 2%nat else 3%nat.

(** The header as one expression. *)
Definition header (f n : Z) : list Z :=
  Z.lor f (Z.of_nat (header_len_bytes n)) :: be_bytes (header_len_bytes n) n.

Definition supported (f : Z) : bool :=
  (f =? FormatList) || (f =? FormatASCII) || (f =? FormatBinary) || is_scalar f.

Lemma supported_cases (P : Z -> Prop) :
  P FormatList -> P FormatASCII -> P FormatBinary -> P FormatBoolean ->
  P FormatI1 -> P FormatI2 -> P FormatI4 -> P FormatI8 ->
  P FormatU1 -> P FormatU2 -> P FormatU4 -> P FormatU8 -> P FormatF4 -> P FormatF8 ->
  forall f, supported f = true -> P f.
Proof.
  intros ?????????????? f. unfold supported, is_scalar. cbn [existsb].
  rewrite !orb_true_iff, !Z.eqb_eq. intros H'.
  repeat match goal with H : _ \/ _ |- _ => destruct H end; subst; done.
Qed.

Lemma header_byte f k :
  supported f = true -> (k = 1 \/ k = 2 \/ k = 3) ->
  is_byte (Z.lor f k) = true /\ Z.land (Z.lor f k) formatMask = f
  /\ Z.land (Z.lor f k) lengthBitsMask = k.
Proof.
  intros Hf Hk. revert f Hf. apply supported_cases; destruct Hk as [->|[->| ->]]; by vm_compute.
Qed.

Lemma header_len_bytes_cases n :
  (header_len_bytes n = 1%nat /\ n <= 255)
  \/ (header_len_bytes n = 2%nat /\ 255 < n <= 65535)
  \/ (header_len_bytes n = 3%nat /\ 65535 < n).
Proof.
  unfold header_len_bytes. destruct (Z.leb_spec n 255), (Z.leb_spec n 65535); lia.
Qed.

Lemma encodeHeader_ok buf f n :
  n <= max_payload -> encodeHeader buf f n = Ok (buf ++ header f n).
Proof.
  unfold max_payload, encodeHeader, header, header_len_bytes. intros Hn.
  destruct (Z.ltb_spec 16777215 n); [lia |].
  destruct (Z.leb_spec n 255), (Z.leb_spec n 65535); try lia;
    cbn [Z.eqb Pos.eqb Z.of_nat be_bytes]; rewrite <- !app_assoc; simpl; rewrite ?Z.shiftr_0_r; done.
Qed.

Lemma encodeHeader_too_long buf f n :
  max_payload < n -> encodeHeader buf f n = Err (EncTooLong n).
Proof.
  unfold max_payload, encodeHeader. intros Hn. by rewrite (proj2 (Z.ltb_lt _ _)).
Qed.

Lemma header_ok f n : supported f = true -> bytes_ok (header f n) = true.
Proof.
  intros Hf. unfold header. cbn [bytes_ok forallb]. fold (bytes_ok (be_bytes (header_len_bytes n) n)).
  rewrite be_bytes_ok, andb_true_r. apply header_byte; [done |].
  destruct (header_len_bytes_cases n) as [[-> _]|[[-> _]|[-> _]]]; simpl; lia.
Qed.

Lemma header_len f n : 2 <= len (header f n).
Proof.
  unfold header. rewrite len_cons, len_be_bytes.
  destruct (header_len_bytes_cases n) as [[-> _]|[[-> _]|[-> _]]]; lia.
Qed.

Lemma header_len_eq f n : len (header f n) = 1 + Z.of_nat (header_len_bytes n).
Proof. unfold header. by rewrite len_cons, len_be_bytes. Qed.

Lemma decode_header_ok pre f n suf :
  supported f = true -> 0 <= n <= max_payload ->
  decode_header (pre ++ header f n ++ suf) (len pre) = Ok (f, n, len pre + len (header f n)).
Proof.
  unfold max_payload. intros Hf Hn. unfold decode_header.
  pose proof (len_nonneg suf) as Hs. pose proof (header_len_eq f n) as Hh.
  set (k := header_len_bytes n) in *.
  assert (Hk : k = 1%nat /\ n < 256 \/ k = 2%nat /\ n < 65536 \/ k = 3%nat)
    by (unfold k; pose proof (header_len_bytes_cases n); lia).
  destruct (header_byte f (Z.of_nat k) Hf ltac:(lia)) as (_ & Hmask & Hbits).
  rewrite !len_app, (proj2 (Z.leb_gt _ _)) by lia.
  assert (Hidx : forall i, 0 <= i <= Z.of_nat k ->
    idx (E:=decode_error) (pre ++ header f n ++ suf) (len pre + i) = idx (header f n) i)
    by (intros; apply idx_mid; lia).
  rewrite <- (Z.add_0_r (len pre)) at 1. rewrite (Hidx 0) by lia.
  replace (idx (header f n) 0) with (Ok (E:=decode_error) (Z.lor f (Z.of_nat k))) by done.
  cbn [mbind result_bind]. rewrite Hmask, Hbits.
  rewrite (proj2 (Z.ltb_ge _ _)), (proj2 (Z.eqb_neq (Z.of_nat k) 0)) by lia.
  assert (Hi1 := Hidx 1 ltac:(lia)). rewrite Hi1.
  assert (Hval : be_val (be_bytes k n) = n).
  { apply be_val_be_bytes. destruct Hk as [[-> ?]|[[-> ?]| ->]]; cbn; lia. }
  rewrite Hh. replace (header f n) with (Z.lor f (Z.of_nat k) :: be_bytes k n) in Hidx, Hi1 |- * by done.
  clearbody k. clear Hmask Hbits Hh.
  destruct Hk as [[-> ?]|[[-> _]| ->]]; cbn [be_bytes] in *; eval_codes;
    rewrite <- ?Z.add_assoc, ?Hidx by lia; eval_idx.
  - by rewrite Z.shiftr_0_r, to_byte_small by lia.
  - rewrite be_val_2 by apply to_byte_range. by rewrite Hval.
  - rewrite be_val_3 by apply to_byte_range. by rewrite Hval.
Qed.

Lemma low_bits_range b : 0 <= Z.land b lengthBitsMask <= 3.
Proof.
  change lengthBitsMask with (Z.ones 2). rewrite Z.land_ones by lia.
  pose proof (Z.mod_pos_bound b (2 ^ 2) eq_refl). lia.
Qed.

Lemma decode_header_post data offset :
  bytes_ok data = true -> 0 <= offset ->
  post (decode_header data offset)
    (fun '(_, n, o) => offset + 2 <= o <= len data /\ 0 <= n <= max_payload).
Proof.
  intros Hd Ho. unfold decode_header, max_payload.
  destruct (Z.leb_spec (len data) offset) as [|Hlt]; [done |].
  assert (Hidx : forall i, 0 <= i < len data -> post (idx (E:=decode_error) data i) (fun b => 0 <= b < 256))
    by (intros; by apply idx_byte_post).
  post_step Hidx as fb Hfb; [lia |].
  pose proof (low_bits_range fb) as Hk. set (k := Z.land fb lengthBitsMask) in *.
  destruct (Z.eqb_spec k 0) as [|Hk0]; [done |].
  destruct (Z.ltb_spec (len data) (offset + 1 + k)); [done |].
  eapply (post_bind _ _ (fun n => 0 <= n <= 16777215));
    [| intros n Hn; simpl; lia].
  destruct (Z.eqb_spec k 1) as [Hk1|Hk1]; [| destruct (Z.eqb_spec k 2) as [Hk2|Hk2]].
  - eapply post_mono, Hidx; [| lia]. intros b Hb. simpl in *. lia.
  - post_step Hidx as b0 Hb0; [lia |]. post_step Hidx as b1 Hb1; [lia |]. simpl.
    rewrite be_val_2 by done. unfold be_val. cbn [foldl]. lia.
  - post_step Hidx as b0 Hb0; [lia |]. post_step Hidx as b1 Hb1; [lia |].
    post_step Hidx as b2 Hb2; [lia |]. simpl.
    rewrite be_val_3 by done. unfold be_val. cbn [foldl]. lia.
Qed.

(** ** The fixed-size formats

    What the encoder and the decoder of one fixed-size format promise each
    other, as an interface: the round trip of the whole format is proved once
    against it. *)

Class FixedCodec (f size : Z) (emit : gval -> result encode_error (list Z))
    (read : list Z -> Z -> result decode_error gval) : Prop := {
  fc_scalar : is_scalar f = true;
  fc_size : itemSize f = size;
  fc_emit : forall v, value_ok f v = true ->
    exists bs, emit v = Ok bs /\ len bs = size /\ bytes_ok bs = true
      /\ forall pre suf, read (pre ++ bs ++ suf) (len pre) = Ok v;
  fc_read : forall data o, bytes_ok data = true -> 0 <= o -> o + size <= len data ->
    post (read data o) (fun v => value_ok f v = true);
}.

Lemma read_be_app n g pre z suf :
  0 <= z < 256 ^ Z.of_nat n ->
  read_be n g (pre ++ be_bytes n z ++ suf) (len pre) = Ok (g z).
Proof.
  intros Hz. unfold read_be. rewrite slice_from_app by done. cbn [mbind result_bind].
  by rewrite be_uint_app.
Qed.

Lemma read_be_post n g data o (Q : gval -> Prop) :
  bytes_ok data = true -> 0 <= o -> o + Z.of_nat n <= len data ->
  (forall z, 0 <= z < 256 ^ Z.of_nat n -> Q (g z)) ->
  post (read_be n g data o) Q.
Proof.
  intros Hd Ho Hn HQ. unfold read_be, slice_from.
  eapply (post_bind _ _ (fun s => (n <= length s)%nat /\ bytes_ok s = true)).
  - apply slice_post; [lia.. |]. intros s Hs Hin. split; [unfold len in *; lia |].
    apply bytes_ok_spec, List.Forall_forall. intros x Hx.
    apply bytes_ok_spec in Hd. rewrite List.Forall_forall in Hd. apply Hd.
    apply list_elem_of_In, Hin, list_elem_of_In. done.
  - intros s [Hs Hok]. eapply post_bind; [by apply be_uint_post |]. intros z Hz. simpl. auto.
Qed.

Lemma read_at1_app g pre z suf : read_at1 g (pre ++ [z] ++ suf) (len pre) = Ok (g z).
Proof. unfold read_at1. simpl. by rewrite idx_app. Qed.

Lemma read_at1_post g data o (Q : gval -> Prop) :
  bytes_ok data = true -> 0 <= o -> o + 1 <= len data ->
  (forall z, 0 <= z < 256 -> Q (g z)) -> post (read_at1 g data o) Q.
Proof.
  intros Hd Ho Hn HQ. unfold read_at1.
  eapply post_bind; [apply idx_byte_post; [done | lia] |]. intros z Hz. simpl. auto.
Qed.

(** A value of the right type for a closed format: its range. *)
Ltac value_cases v Hv :=
  destruct v; simpl in Hv; try discriminate Hv;
  try first [apply in_signed_spec in Hv | apply in_unsigned_spec in Hv].

Ltac solve_emit z :=
  eexists; split_and!; [reflexivity | by rewrite ?len_be_bytes | | ];
  [ by rewrite ?be_bytes_ok
  | intros pre suf; unfold read_i2, read_i4, read_i8, read_u2, read_u4, read_u8, read_f4, read_f8;
    rewrite read_be_app by
      (first [exact z | change 256 with (2 ^ 8); rewrite <- Z.pow_mul_r by lia; apply wrap_range; lia]);
    rewrite ?swrap_wrap by (done || lia); reflexivity ].

Ltac solve_read :=
  intros data o Hd Ho Hn; first [apply read_be_post | apply read_at1_post];
  [done..|]; intros z Hz; simpl;
  try (apply in_unsigned_spec; exact Hz); try (apply in_signed_spec, swrap_range; done); done.

#[export] Instance codec_i2 : FixedCodec FormatI2 2 emit_i2 read_i2.
Proof. split; [done..| |solve_read]. intros v Hv. value_cases v Hv. solve_emit Hv. Qed.
#[export] Instance codec_i4 : FixedCodec FormatI4 4 emit_i4 read_i4.
Proof. split; [done..| |solve_read]. intros v Hv. value_cases v Hv. solve_emit Hv. Qed.
#[export] Instance codec_i8 : FixedCodec FormatI8 8 emit_i8 read_i8.
Proof. split; [done..| |solve_read]. intros v Hv. value_cases v Hv. solve_emit Hv. Qed.
#[export] Instance codec_u2 : FixedCodec FormatU2 2 emit_u2 read_u2.
Proof. split; [done..| |solve_read]. intros v Hv. value_cases v Hv. solve_emit Hv. Qed.
#[export] Instance codec_u4 : FixedCodec FormatU4 4 emit_u4 read_u4.
Proof. split; [done..| |solve_read]. intros v Hv. value_cases v Hv. solve_emit Hv. Qed.
#[export] Instance codec_u8 : FixedCodec FormatU8 8 emit_u8 read_u8.
Proof. split; [done..| |solve_read]. intros v Hv. value_cases v Hv. solve_emit Hv. Qed.
#[export] Instance codec_f4 : FixedCodec FormatF4 4 emit_f4 read_f4.
Proof. split; [done..| |solve_read]. intros v Hv. value_cases v Hv. solve_emit Hv. Qed.
#[export] Instance codec_f8 : FixedCodec FormatF8 8 emit_f8 read_f8.
Proof. split; [done..| |solve_read]. intros v Hv. value_cases v Hv. solve_emit Hv. Qed.

#[export] Instance codec_u1 : FixedCodec FormatU1 1 emit_u1 read_u1.
Proof.
  split; [done..| |solve_read]. intros v Hv. value_cases v Hv.
  exists [z]. split_and!; [done.. | |].
  - simpl. by rewrite (proj2 (is_byte_spec z)).
  - intros. apply read_at1_app.
Qed.

#[export] Instance codec_i1 : FixedCodec FormatI1 1 emit_i1 read_i1.
Proof.
  split; [done..| |solve_read]. intros v Hv. value_cases v Hv.
  exists [to_byte z]. split_and!; [done.. | |].
  - simpl. by rewrite (proj2 (is_byte_spec _)) by apply to_byte_range.
  - intros. unfold read_i1. rewrite read_at1_app, to_byte_mod.
    change (z mod 256) with (wrap 8 z). by rewrite swrap_wrap.
Qed.

#[export] Instance codec_bool : FixedCodec FormatBoolean 1 emit_bool read_bool.
Proof.
  split; [done..| |solve_read]. intros v Hv. value_cases v Hv.
  exists [if b then 1 else 0]. split_and!; [done.. | by destruct b |].
  intros. unfold read_bool. rewrite read_at1_app. by destruct b.
Qed.

Section fixed.
Context {f size : Z} {emit : gval -> result encode_error (list Z)}
          {read : list Z -> Z -> result decode_error gval} `{!FixedCodec f size emit read}.

Lemma fc_size_pos : 0 < size.
  Proof.
    destruct FixedCodec0 as [Hs <- _ _]. revert Hs. unfold is_scalar. cbn [existsb].
    rewrite !orb_true_iff, !Z.eqb_eq. intros H.
    repeat match goal with H : _ \/ _ |- _ => destruct H end; subst; done.
  Qed.

  (** The values of an item as bytes, and the loop that reads them back. *)
Lemma append_each_ok vs :
    forallb (value_ok f) vs = true ->
    exists body, (forall buf, append_each emit vs buf = Ok (buf ++ body))
      /\ len body = len vs * size /\ bytes_ok body = true
      /\ forall pre suf off i, len pre = off + i * size ->
           for_from (fun j => read (pre ++ body ++ suf) (off + j * size)) (length vs) i = Ok vs.
  Proof.
    induction vs as [|v vs IH]; simpl.
    - intros _. exists []. split_and!; try done. intros buf. by rewrite app_nil_r.
    - rewrite andb_true_iff. intros [Hv Hvs].
      destruct (IH Hvs) as (body & Happ & Hlen & Hok & Hread).
      destruct (fc_emit v Hv) as (bs & Hemit & Hbs & Hbok & Hrd).
      exists (bs ++ body). split_and!.
      + intros buf. rewrite Hemit. cbn [mbind result_bind]. by rewrite Happ, app_assoc.
      + rewrite len_app, len_cons. lia.
      + by rewrite bytes_ok_app, Hbok.
      + intros pre suf off i Hoff. rewrite <- Hoff, <- app_assoc, Hrd.
        specialize (Hread (pre ++ bs) suf off (i + 1)).
        rewrite <- app_assoc in Hread. rewrite Hread; [done |]. rewrite len_app. lia.
  Qed.

Lemma decode_fixed_post data offset dataLen :
    bytes_ok data = true -> 0 <= offset -> 0 <= dataLen <= max_payload ->
    post (decode_fixed f size read data offset dataLen)
      (fun '(it, o) => o = offset + dataLen /\ o <= len data /\ format it = f
         /\ forallb (value_ok f) (values it) = true /\ len (values it) * size <= max_payload).
  Proof.
    intros Hd Ho Hn. unfold decode_fixed. pose proof fc_size_pos as Hsz.
    rewrite Z.rem_mod_nonneg, Z.quot_div_nonneg by lia.
    destruct (Z.eqb_spec (dataLen mod size) 0) as [Hm|]; [simpl | done].
    destruct (Z.ltb_spec (len data) (offset + dataLen)); [done |].
    pose proof (Z.div_mod dataLen size ltac:(lia)) as Hdm.
    assert (0 <= dataLen / size) by (apply Z.div_pos; lia).
    post_step (for_range_post _ (fun v => value_ok f v = true)) as vs Hvs; [done | |].
    - intros j Hj. apply fc_read; [done | nia | nia].
    - destruct Hvs as [Hlen Hall]. simpl. split_and!; [lia | lia | done | | nia].
      apply forallb_forall. by apply List.Forall_forall.
  Qed.
End fixed.

(** ** Round trip of one item

    [encodes it bs]: [bs] is what [encodeItem] appends for [it], and
    [decodeItem] reads it back, up to [normalize], wherever it stands. *)
Definition encodes (it : item) (bs : list Z) : Prop :=
  (forall buf, encodeItem it buf = Ok (buf ++ bs))
  /\ 2 <= len bs /\ bytes_ok bs = true
  /\ forall pre suf fuel, (length bs <= fuel)%nat ->
       decodeItem fuel (pre ++ bs ++ suf) (len pre) = Ok (normalize it, len pre + len bs).

Lemma payload_fuel (h body : list Z) fuel :
  2 <= len h -> (length (h ++ body) <= fuel)%nat ->
  exists fuel', fuel = S fuel' /\ (length body <= fuel')%nat.
Proof.
  intros Hh Hf. rewrite length_app in Hf. unfold len in Hh.
  destruct fuel as [|fuel']; [lia |]. exists fuel'. split; [done | lia].
Qed.

(** The obligations of [encodes] for an item that is a header and a payload. *)
Lemma encodes_intro f n it body :
  supported f = true -> 0 <= n <= max_payload -> bytes_ok body = true ->
  (forall buf, encodeItem it buf = Ok (buf ++ header f n ++ body)) ->
  (forall pre suf fuel, (length body <= fuel)%nat ->
     decode_payload (decodeItem fuel (pre ++ body ++ suf)) (pre ++ body ++ suf) f n (len pre)
     = Ok (normalize it, len pre + len body)) ->
  encodes it (header f n ++ body).
Proof.
  intros Hf Hn Hbody Henc Hdec. pose proof (header_len f n) as Hh.
  split_and!; [done | rewrite len_app; pose proof (len_nonneg body); lia
              | by rewrite bytes_ok_app, header_ok | ].
  intros pre suf fuel Hfuel.
  destruct (payload_fuel _ _ _ Hh Hfuel) as (fuel' & -> & Hfuel').
  cbn [decodeItem]. rewrite <- app_assoc, decode_header_ok by done. cbn [mbind result_bind].
  specialize (Hdec (pre ++ header f n) suf fuel' Hfuel').
  rewrite <- !app_assoc, len_app in Hdec. rewrite Hdec. do 2 f_equal. rewrite len_app. lia.
Qed.

Lemma fixed_encodes f size emit read `{!FixedCodec f size emit read} vs :
  forallb (value_ok f) vs = true -> len vs * itemSize f <= max_payload ->
  (forall buf, encodeItem (Item f vs) buf = encode_fixed f size emit (Item f vs) buf) ->
  (forall dec data n o, decode_payload dec data f n o = decode_fixed f size read data o n) ->
  normalize (Item f vs) = Item f vs ->
  exists bs, encodes (Item f vs) bs.
Proof.
  intros Hvs Hmax Henc Hdec Hnorm. rewrite (fc_size (f:=f)) in Hmax.
  pose proof (fc_size_pos (f:=f)) as Hsz. pose proof (len_nonneg vs) as Hlen.
  destruct (append_each_ok vs Hvs) as (body & Happ & Hbody & Hok & Hread).
  exists (header f (len vs * size) ++ body). apply encodes_intro.
  - unfold supported. by rewrite (fc_scalar (f:=f)), orb_true_r.
  - nia.
  - done.
  - intros buf. rewrite Henc. unfold encode_fixed. cbn [values].
    rewrite encodeHeader_ok by done. cbn [mbind result_bind]. by rewrite Happ, <- app_assoc.
  - intros pre suf fuel _. rewrite Hdec, Hnorm. unfold decode_fixed.
    rewrite Z.rem_mod_nonneg, Z.quot_div_nonneg, Z.mod_mul, Z.div_mul by nia. cbn [Z.eqb negb].
    rewrite !len_app, Hbody, (proj2 (Z.ltb_ge _ _)) by (pose proof (len_nonneg suf); lia).
    unfold for_range. replace (Z.to_nat (len vs)) with (length vs) by (unfold len; lia).
    by rewrite Hread by lia.
Qed.

Lemma scalar_encodes f vs :
  is_scalar f = true -> forallb (value_ok f) vs = true -> len vs * itemSize f <= max_payload ->
  exists bs, encodes (Item f vs) bs.
Proof.
  unfold is_scalar. cbn [existsb]. rewrite !orb_true_iff, !Z.eqb_eq. intros Hf Hvs Hmax.
  assert (Hnorm : normalize (Item f vs) = Item f vs)
    by (by repeat match goal with H : _ \/ _ |- _ => destruct H end; subst).
  repeat match goal with H : _ \/ _ |- _ => destruct H end; subst; try done;
    (eapply fixed_encodes; [apply _ | done..]).
Qed.

Lemma ascii_encodes s :
  Z.of_nat (String.length s) <= max_payload -> exists bs, encodes (NewASCII s) bs.
Proof.
  intros Hs. set (n := Z.of_nat (String.length s)).
  assert (Hn : len (bytes_of_string s) = n) by apply len_bytes_of_string.
  exists (header FormatASCII n ++ bytes_of_string s). apply encodes_intro; [done | lia | | |].
  - apply bytes_of_string_ok.
  - intros buf. change (encodeItem (NewASCII s) buf) with (encodeASCII (NewASCII s) buf).
    unfold encodeASCII. cbn [values NewASCII as_string mbind result_bind].
    rewrite encodeHeader_ok by done. cbn [mbind result_bind]. by rewrite <- app_assoc.
  - intros pre suf fuel _. change (decode_payload ?d ?a FormatASCII n ?o) with (decodeASCII a o n).
    unfold decodeASCII. rewrite !len_app, Hn, (proj2 (Z.ltb_ge _ _))
      by (pose proof (len_nonneg suf); lia).
    rewrite slice_app by (done || lia). cbn [mbind result_bind]. rewrite string_of_bytes_of_string.
    destruct s as [|a s]; [done |]. by rewrite (proj2 (Z.ltb_lt 0 n)) by (unfold n; simpl; lia).
Qed.

Lemma binary_encodes b :
  bytes_ok b = true -> len b <= max_payload -> exists bs, encodes (NewBinary b) bs.
Proof.
  intros Hok Hb. pose proof (len_nonneg b).
  exists (header FormatBinary (len b) ++ b). apply encodes_intro; [done | lia | done | |].
  - intros buf. change (encodeItem (NewBinary b) buf) with (encodeBinary (NewBinary b) buf).
    unfold encodeBinary. cbn [values NewBinary as_bytes mbind result_bind].
    rewrite encodeHeader_ok by done. cbn [mbind result_bind]. by rewrite <- app_assoc.
  - intros pre suf fuel _.
    change (decode_payload ?d ?a FormatBinary (len b) ?o) with (decodeBinary a o (len b)).
    unfold decodeBinary. rewrite !len_app, (proj2 (Z.ltb_ge _ _))
      by (pose proof (len_nonneg suf); lia).
    rewrite slice_app by (done || lia). cbn [mbind result_bind].
    destruct b; [done |]. by rewrite (proj2 (Z.ltb_lt _ _)) by (rewrite len_cons; pose proof (len_nonneg b); lia).
Qed.

Lemma empty_encodes f : f = FormatASCII \/ f = FormatBinary -> exists bs, encodes (Item f []) bs.
Proof.
  intros Hf. exists (header f 0 ++ []). apply encodes_intro; try done.
  - by destruct Hf; subst.
  - intros buf. rewrite app_nil_r. destruct Hf; subst.
    + change (encodeHeader buf FormatASCII 0 ≫= (fun b => Ok (b ++ [])) = Ok (buf ++ header FormatASCII 0)).
      rewrite encodeHeader_ok by done. cbn [mbind result_bind]. by rewrite app_nil_r.
    + change (encodeHeader buf FormatBinary 0 ≫= (fun b => Ok (b ++ [])) = Ok (buf ++ header FormatBinary 0)).
      rewrite encodeHeader_ok by done. cbn [mbind result_bind]. by rewrite app_nil_r.
  - intros pre suf fuel _. destruct Hf; subst.
    + change (decode_payload ?d ?a FormatASCII 0 ?o) with (decodeASCII a o 0). unfold decodeASCII.
      rewrite (proj2 (Z.ltb_ge _ _)) by (rewrite !len_app; pose proof (len_nonneg suf); change (len (@nil Z)) with 0; lia).
      rewrite slice_app by (rewrite ?len_nil; lia || done). done.
    + change (decode_payload ?d ?a FormatBinary 0 ?o) with (decodeBinary a o 0). unfold decodeBinary.
      rewrite (proj2 (Z.ltb_ge _ _)) by (rewrite !len_app; pose proof (len_nonneg suf); change (len (@nil Z)) with 0; lia).
      rewrite slice_app by (rewrite ?len_nil; lia || done). done.
Qed.

(** The loop over the children of a list. *)
Lemma elements_encode cs :
  Forall (fun c => exists bs, encodes c bs) cs ->
  exists body, (forall i buf, encode_elements encodeItem i ((VItem ∘ Some) <$> cs) buf = Ok (buf ++ body))
    /\ bytes_ok body = true
    /\ forall pre suf fuel i, (length body <= fuel)%nat ->
         decode_elements (decodeItem fuel (pre ++ body ++ suf)) (length cs) i (len pre)
         = Ok (normalize_children normalize ((VItem ∘ Some) <$> cs), len pre + len body).
Proof.
  induction 1 as [|c cs (bs & Henc & _ & Hok & Hdec) _ (body & Hencs & Hoks & Hdecs)].
  - exists []. split_and!; [intros; cbn; by rewrite app_nil_r | done |].
    intros. cbn. do 2 f_equal. rewrite len_nil. lia.
  - exists (bs ++ body). split_and!.
    + intros i buf. cbn [fmap list_fmap encode_elements compose]. by rewrite Henc, Hencs, app_assoc.
    + by rewrite bytes_ok_app, Hok.
    + intros pre suf fuel i Hfuel. rewrite length_app in Hfuel.
      cbn [length decode_elements fmap list_fmap normalize_children compose].
      rewrite <- app_assoc, Hdec by lia. cbn [wrap_err mbind result_bind].
      specialize (Hdecs (pre ++ bs) suf fuel (i + 1) ltac:(lia)).
      rewrite <- app_assoc, len_app in Hdecs. rewrite Hdecs. cbn [mbind result_bind].
      do 2 f_equal. rewrite len_app. lia.
Qed.

Lemma list_encodes cs :
  len cs <= max_payload -> Forall (fun c => exists bs, encodes c bs) cs ->
  exists bs, encodes (NewList (Some <$> cs)) bs.
Proof.
  intros Hmax Hcs. destruct (elements_encode cs Hcs) as (body & Henc & Hok & Hdec).
  assert (Hvs : VItem <$> (Some <$> cs) = (VItem ∘ Some) <$> cs) by (by rewrite list_fmap_compose).
  assert (Hlen : len ((VItem ∘ Some) <$> cs) = len cs) by (unfold len; by rewrite length_fmap).
  exists (header FormatList (len cs) ++ body). unfold NewList. rewrite Hvs.
  pose proof (len_nonneg cs). apply encodes_intro; [done | lia | done | |].
  - intros buf. set (vs := (VItem ∘ Some) <$> cs) in *.
    change (encodeItem (Item FormatList vs) buf) with (encodeList encodeItem vs buf).
    unfold encodeList. rewrite Hlen, encodeHeader_ok by done. by rewrite Henc, <- app_assoc.
  - intros pre suf fuel Hfuel.
    change (decode_payload ?d ?a FormatList (len cs) ?o) with (decodeList d o (len cs)).
    unfold decodeList. replace (Z.to_nat (len cs)) with (length cs) by (unfold len; lia).
    by rewrite Hdec.
Qed.

Theorem item_encodes it : well_formed it = true -> exists bs, encodes it bs.
Proof.
  induction it as [f vs IH] using item_tree_ind. intros Hwf.
  destruct (well_formed_cases _ _ Hwf) as [cs -> -> Hmax Hcs|s -> -> Hs|b -> -> Hb Hlen|Hf ->|Hf Hvs Hmax].
  - assert (Hlen : len ((VItem ∘ Some) <$> cs) = len cs) by (unfold len; by rewrite length_fmap).
    destruct (list_encodes cs) as [bs Hbs]; [lia | |].
    + apply Forall_forall. intros c Hc. apply IH.
      * apply list_elem_of_fmap. eauto.
      * rewrite forallb_forall in Hcs. by apply Hcs, list_elem_of_In.
    + exists bs. unfold NewList in Hbs. by rewrite <- list_fmap_compose in Hbs.
  - by apply ascii_encodes.
  - by apply binary_encodes.
  - by apply empty_encodes.
  - by apply scalar_encodes.
Qed.

(** ** What [decodeItem] returns *)

Definition decoded (data : list Z) (offset : Z) (r : item * Z) : Prop :=
  let '(it, o) := r in
  offset <= o <= len data /\ well_formed it = true /\ normalize it = it.

Lemma elements_post data dec lo n :
  (forall o, lo <= o -> post (dec o) (decoded data o)) ->
  forall i offset, lo <= offset -> offset <= len data ->
  post (decode_elements dec n i offset)
    (fun '(vs, o) => offset <= o <= len data /\ length vs = n
       /\ all_children well_formed vs = true /\ normalize_children normalize vs = vs).
Proof.
  intros Hdec. induction n as [|n IH]; intros i offset Ho Hle; simpl; [by split_and! |].
  eapply (post_bind _ _ (decoded data offset)); [by apply post_wrap, Hdec |].
  intros [c o] (Hc1 & Hwf & Hnorm). eapply post_bind; [apply IH; lia |].
  intros [vs o'] (Ho' & Hlen & Hall & Hnorms). simpl.
  rewrite Hwf, Hnorm, Hnorms. split_and!; [lia | lia | congruence | done | done].
Qed.

Lemma scalar_well_formed f vs :
  is_scalar f = true -> forallb (value_ok f) vs = true -> len vs * itemSize f <= max_payload ->
  well_formed (Item f vs) = true /\ normalize (Item f vs) = Item f vs.
Proof.
  intros Hf Hvs Hmax. assert (Hf' := Hf). unfold is_scalar in Hf'. cbn [existsb] in Hf'.
  rewrite !orb_true_iff, !Z.eqb_eq in Hf'. split.
  - cbn [well_formed]. rewrite Hf, Hvs, (proj2 (Z.leb_le _ _) Hmax).
    by repeat match goal with H : _ \/ _ |- _ => destruct H end; subst.
  - by repeat match goal with H : _ \/ _ |- _ => destruct H end; subst.
Qed.

Lemma fixed_decoded f size emit read `{!FixedCodec f size emit read} data offset n :
  bytes_ok data = true -> 0 <= offset -> 0 <= n <= max_payload ->
  post (decode_fixed f size read data offset n) (decoded data offset).
Proof.
  intros Hd Ho Hn. eapply post_mono; [| by apply (decode_fixed_post (f:=f))].
  intros [[f' vs] o] (-> & Hle & Hf & Hvs & Hmax). simpl in Hf, Hvs, Hmax. subst f'.
  destruct (scalar_well_formed f vs) as [Hwf Hnorm];
    [apply fc_scalar | done | by rewrite (fc_size (f:=f)) |].
  split_and!; [lia | lia | done | done].
Qed.

Lemma ascii_decoded data offset n :
  bytes_ok data = true -> 0 <= offset -> 0 <= n <= max_payload ->
  post (decodeASCII data offset n) (decoded data offset).
Proof.
  intros Hd Ho Hn. unfold decodeASCII.
  destruct (Z.ltb_spec (len data) (offset + n)); [done |].
  post_step slice_bytes_post as b Hb; [done | lia.. |]. destruct Hb as [Hlen _]. simpl.
  split; [lia |]. destruct (Z.ltb_spec 0 n); [| done].
  destruct b as [|x b]; [rewrite len_nil in Hlen; lia |]. cbn [string_of_bytes]. split; [| done].
  simpl. apply Z.leb_le. rewrite length_string_of_bytes. rewrite len_cons in Hlen. unfold len in Hlen. lia.
Qed.

Lemma binary_decoded data offset n :
  bytes_ok data = true -> 0 <= offset -> 0 <= n <= max_payload ->
  post (decodeBinary data offset n) (decoded data offset).
Proof.
  intros Hd Ho Hn. unfold decodeBinary.
  destruct (Z.ltb_spec (len data) (offset + n)); [done |].
  post_step slice_bytes_post as b Hb; [done | lia.. |]. destruct Hb as [Hlen Hok]. simpl.
  split; [lia |]. destruct (Z.ltb_spec 0 n); [| done].
  destruct b as [|x b]; [rewrite len_nil in Hlen; lia |]. split; [| done].
  cbn [well_formed]. eval_codes. rewrite Hok, Hlen. apply Z.leb_le. lia.
Qed.

Lemma payload_post data dec f n offset :
  bytes_ok data = true -> 0 <= offset <= len data -> 0 <= n <= max_payload ->
  (forall o, offset <= o -> post (dec o) (decoded data o)) ->
  post (decode_payload dec data f n offset) (decoded data offset).
Proof.
  intros Hd Ho Hn Hdec. unfold decode_payload.
  destruct (Z.eqb_spec f FormatList).
  { unfold decodeList. eapply post_bind; [eapply elements_post; [exact Hdec | lia..] |].
    intros [vs o] (Hle & Hlen & Hwf & Hnorm). simpl. rewrite Hwf, Hnorm.
    split_and!; [lia | lia | | done]. rewrite andb_true_r. apply Z.leb_le. unfold len. lia. }
  destruct (Z.eqb_spec f FormatASCII); [apply ascii_decoded; done || lia |].
  destruct (Z.eqb_spec f FormatBinary); [apply binary_decoded; done || lia |].
  repeat match goal with
  | |- post (if ?b then _ else _) _ => destruct b; [eapply fixed_decoded; [apply _ | done | lia | done] |]
  end.
  done.
Qed.

Lemma decodeItem_post fuel data offset :
  bytes_ok data = true -> 0 <= offset -> len data - offset < Z.of_nat fuel -> (0 < fuel)%nat ->
  post (decodeItem fuel data offset) (fun r => offset + 2 <= r.2 /\ decoded data offset r).
Proof.
  intros Hd. revert offset. induction fuel as [|fuel IH]; intros offset Ho Hf Hpos; [lia | simpl].
  post_step decode_header_post as [[f n] o] Hh; [done | done |]. destruct Hh as [Ho2 Hn].
  eapply post_mono; [| apply payload_post; [done | lia | done |]].
  - intros [it o'] (Ho' & ? & ?). simpl. split_and!; [lia.. | done | done].
  - intros o' Ho'. eapply post_mono; [| apply IH; lia]. by intros r [_ ?].
Qed.

Lemma decode_multi_post fuel data offset :
  bytes_ok data = true -> 0 <= offset -> len data - offset < Z.of_nat fuel -> (0 < fuel)%nat ->
  post (decode_multi_loop fuel data offset) (Forall (fun it => well_formed it = true)).
Proof.
  intros Hd. revert offset. induction fuel as [|fuel IH]; intros offset Ho Hf Hpos; [lia | simpl].
  destruct (Z.ltb_spec offset (len data)); [| by simpl].
  assert (Hitem := decodeItem_post (decode_fuel data) data offset Hd Ho).
  unfold decode_fuel in *. specialize (Hitem ltac:(unfold len; lia) ltac:(lia)).
  eapply post_bind; [by apply post_wrap |]. intros [it n] (Hn & Hrange & Hwf & _).
  eapply post_bind; [apply IH; simpl in *; lia |]. intros its Hits. simpl. by constructor.
Qed.

(** Dropping an empty value is invisible to the encoder. *)
Lemma encode_elements_normalize vs i buf :
  (forall c, VItem (Some c) ∈ vs -> forall b, encodeItem (normalize c) b = encodeItem c b) ->
  encode_elements encodeItem i (normalize_children normalize vs) buf
  = encode_elements encodeItem i vs buf.
Proof.
  revert i buf. induction vs as [|v vs IH]; intros i buf Hc; [done |].
  assert (Hvs : forall c, VItem (Some c) ∈ vs -> forall b, encodeItem (normalize c) b = encodeItem c b)
    by (intros; apply Hc; set_solver).
  destruct v as [[c|]| | | | | | | | | | | | |]; try done.
  cbn [normalize_children encode_elements]. rewrite (Hc c) by set_solver.
  destruct (encodeItem c buf); try done. by apply IH.
Qed.

Lemma length_normalize_children vs : length (normalize_children normalize vs) = length vs.
Proof. induction vs; simpl; congruence. Qed.

Lemma encodeItem_normalize it buf : encodeItem (normalize it) buf = encodeItem it buf.
Proof.
  revert buf. induction it as [f vs IH] using item_tree_ind. intros buf. cbn [normalize].
  destruct (Z.eqb_spec f FormatList) as [->|].
  { change (encodeList encodeItem (normalize_children normalize vs) buf = encodeList encodeItem vs buf).
    unfold encodeList, len. rewrite length_normalize_children.
    destruct (encodeHeader buf FormatList _); [| done..]. by apply encode_elements_normalize. }
  destruct (Z.eqb_spec f FormatASCII) as [->|].
  { by destruct vs as [|[| [|]| | | | | | | | | | | |] [|]]. }
  destruct (Z.eqb_spec f FormatBinary) as [->|]; [| done].
  by destruct vs as [|[| | [|]| | | | | | | | | | |] [|]].
Qed.

#[export] Instance encodeItem_proper : Proper (item_equiv ==> eq ==> eq) encodeItem.
Proof. intros a b Hab buf ? <-. by rewrite <- encodeItem_normalize, Hab, encodeItem_normalize. Qed.

Lemma well_formed_encode it :
  well_formed it = true ->
  exists bs, Encode (Some it) = Ok bs /\ bytes_ok bs = true /\ Decode bs = Ok (normalize it).
Proof.
  intros Hwf. destruct (item_encodes it Hwf) as (bs & Henc & _ & Hok & Hdec).
  exists bs. split_and!; [by apply Henc | done |].
  unfold Decode, decode_fuel. specialize (Hdec [] [] (S (length bs)) ltac:(lia)).
  rewrite app_nil_r, len_nil in Hdec. cbn [app] in Hdec. rewrite Hdec.
  cbn [mbind result_bind]. by rewrite Z.eqb_refl.
Qed.

Lemma Decode_post data :
  bytes_ok data = true ->
  post (Decode data) (fun it => well_formed it = true /\ normalize it = it).
Proof.
  intros Hd. unfold Decode, decode_fuel.
  eapply post_bind; [apply decodeItem_post; [done | lia | unfold len; lia | lia] |].
  intros [it n] (_ & _ & Hwf & Hnorm). by destruct (negb _); simpl.
Qed.

(** ** The codec as [message.Codec] ([codec.go])

    [any] is the [interface{}] a caller hands to the codec: a [*Item] or a
    value of another type. *)

Inductive any := AnyItem (p : option item) | AnyOther.

Inductive codec_error :=
| ErrInvalidBody
| CodecEncode (e : encode_error)
| CodecDecode (e : decode_error).

Definition Codec_Encode (body : any) : result codec_error (list Z) :=
  match body with
  | AnyItem p => wrap_err CodecEncode (Encode p)
  | AnyOther => Err ErrInvalidBody
  end.

Definition Codec_Decode (data : list Z) : result codec_error any :=
  it ← wrap_err CodecDecode (Decode data); Ok (AnyItem (Some it)).

(** What a [message.Codec] promises its users: a valid body survives the wire
    up to [body_equiv], and no input makes the decoder panic. *)
Class MessageCodec (Err Body : Type) := {
  mc_encode : Body -> result Err (list Z);
  mc_decode : list Z -> result Err Body;
  mc_valid : Body -> Prop;
  mc_equiv : Body -> Body -> Prop;
  mc_round_trip : forall b, mc_valid b -> exists bs b',
    mc_encode b = Ok bs /\ mc_decode bs = Ok b' /\ mc_equiv b b';
  mc_total : forall bs, bytes_ok bs = true -> returns (mc_decode bs) = true;
}.

Definition any_equiv (a b : any) : Prop :=
  match a, b with
  | AnyItem (Some x), AnyItem (Some y) => item_equiv x y
  | _, _ => False
  end.

Lemma normalize_idem_wf it : well_formed it = true -> normalize (normalize it) = normalize it.
Proof.
  intros Hwf. destruct (well_formed_encode it Hwf) as (bs & _ & Hok & Hdec).
  pose proof (Decode_post bs Hok) as Hp. rewrite Hdec in Hp. apply Hp.
Qed.

#[export] Instance secs2_codec : MessageCodec codec_error any.
Proof.
  refine {| mc_encode := Codec_Encode; mc_decode := Codec_Decode;
            mc_valid b := match b with AnyItem (Some it) => well_formed it = true | _ => False end;
            mc_equiv := any_equiv |}.
  - intros [[it|]|] Hwf; try done. destruct (well_formed_encode it Hwf) as (bs & Henc & _ & Hdec).
    exists bs, (AnyItem (Some (normalize it))). unfold Codec_Encode, Codec_Decode.
    rewrite Henc, Hdec. split_and!; try done. symmetry. by apply normalize_idem_wf.
  - intros bs Hok. unfold Codec_Decode. pose proof (Decode_post bs Hok) as Hp.
    by destruct (Decode bs).
Defined.

(** ** Properties *)

Definition sample_item : item :=
  NewList [Some (NewASCII "MDLN"); Some (NewList []); Some (NewASCII "");
           Some (NewU4 [1; 4294967295]); Some (NewI2 [-2]); Some (NewBinary [0; 255]);
           Some (NewBoolean [true; false]); Some (NewF4 [1065353216])].

(** C4: every well-formed item tree encodes, and decoding the bytes gives the
    item back, up to the empty string or byte slice the wire does not carry. *)
Theorem encode_decode it :
  well_formed it = true ->
  exists bs, Encode (Some it) = Ok bs /\ Decode bs = Ok (normalize it).
Proof.
  intros Hwf. destruct (well_formed_encode it Hwf) as (bs & Henc & _ & Hdec). eauto.
Qed.

Lemma encode_decode_witness :
  well_formed sample_item = true
  /\ exists bs, Encode (Some sample_item) = Ok bs /\ Decode bs = Ok (normalize sample_item).
Proof. split; [by vm_compute | apply (encode_decode sample_item); by vm_compute]. Defined.

(** C5: [Decode] comes back on every byte sequence with an item or an error: it
    does not index out of range, it does not panic, and its recursion ends. *)
Theorem decode_total data : bytes_ok data = true -> returns (Decode data) = true.
Proof. intros Hd. exact (post_returns _ _ (Decode_post data Hd)). Qed.

Lemma decode_total_witness :
  bytes_ok [1; 2; 165; 1; 7; 37] = true /\ returns (Decode [1; 2; 165; 1; 7; 37]) = true.
Proof. split; [by vm_compute | apply decode_total; by vm_compute]. Defined.

(** C13: what [Decode] accepts is a well-formed item in normal form, and
    encoding it again gives bytes that decode to the same item. *)
Theorem decode_encode data it :
  bytes_ok data = true -> Decode data = Ok it ->
  well_formed it = true /\ normalize it = it
  /\ exists bs, Encode (Some it) = Ok bs /\ Decode bs = Ok it.
Proof.
  intros Hd Hdec. destruct (post_ok _ _ _ (Decode_post data Hd) Hdec) as [Hwf Hnorm].
  destruct (well_formed_encode it Hwf) as (bs & Henc & _ & Hdec').
  rewrite Hnorm in Hdec'. eauto.
Qed.

(** The two length bytes are not minimal and the boolean is not 0 or 1. *)
Lemma decode_encode_witness :
  bytes_ok [38; 0; 1; 9] = true /\ Decode [38; 0; 1; 9] = Ok (NewBoolean [true])
  /\ well_formed (NewBoolean [true]) = true.
Proof.
  assert (H : bytes_ok [38; 0; 1; 9] = true) by by vm_compute.
  assert (H' : Decode [38; 0; 1; 9] = Ok (NewBoolean [true])) by by vm_compute.
  split_and!; [exact H | exact H' | exact (proj1 (decode_encode _ _ H H'))].
Defined.

(** two well-formed items have the same encoding exactly when they are
    equivalent. *)
Theorem encode_injective a b :
  well_formed a = true -> well_formed b = true ->
  (Encode (Some a) = Encode (Some b) <-> item_equiv a b).
Proof.
  intros Ha Hb. split.
  - destruct (well_formed_encode a Ha) as (x & Hx & _ & Hda).
    destruct (well_formed_encode b Hb) as (y & Hy & _ & Hdb).
    rewrite Hx, Hy. intros [= ->]. unfold item_equiv. congruence.
  - intros Hab. simpl. by rewrite Hab.
Qed.

Lemma encode_injective_witness :
  Encode (Some (NewASCII "")) = Encode (Some (Item FormatASCII [])) <-> item_equiv (NewASCII "") (Item FormatASCII []).
Proof. apply encode_injective; by vm_compute. Defined.

(** [DecodeMulti] comes back on every byte sequence, and the items it
    returns are well-formed. *)
Theorem decode_multi_total data :
  bytes_ok data = true ->
  post (DecodeMulti data) (Forall (fun it => well_formed it = true)).
Proof.
  intros Hd. apply decode_multi_post; [done | lia | unfold decode_fuel, len; lia | unfold decode_fuel; lia].
Qed.

Lemma decode_multi_total_witness :
  bytes_ok [65; 1; 88; 165; 1; 7] = true
  /\ DecodeMulti [65; 1; 88; 165; 1; 7] = Ok [NewASCII "X"; NewU1 [7]]
  /\ post (DecodeMulti [65; 1; 88; 165; 1; 7]) (Forall (fun it => well_formed it = true)).
Proof. split_and!; [by vm_compute | by vm_compute | apply decode_multi_total; by vm_compute]. Defined.

(** A payload over the three-byte limit is an error, never a truncated
    header: strings, byte slices, and lists of any children. *)
Theorem encode_too_long :
  (forall s, max_payload < Z.of_nat (String.length s) ->
     Encode (Some (NewASCII s)) = Err (EncTooLong (Z.of_nat (String.length s))))
  /\ (forall b, max_payload < len b -> Encode (Some (NewBinary b)) = Err (EncTooLong (len b)))
  /\ (forall cs, max_payload < len cs -> Encode (Some (NewList cs)) = Err (EncTooLong (len cs)))
  /\ (forall ns, max_payload < len ns * 4 -> Encode (Some (NewU4 ns)) = Err (EncTooLong (len ns * 4))).
Proof.
  split_and!.
  - intros s Hs. change (encodeASCII (NewASCII s) [] = Err (EncTooLong (Z.of_nat (String.length s)))).
    unfold encodeASCII. cbn [values NewASCII as_string mbind result_bind].
    by rewrite encodeHeader_too_long.
  - intros b Hb. change (encodeBinary (NewBinary b) [] = Err (EncTooLong (len b))).
    unfold encodeBinary. cbn [values NewBinary as_bytes mbind result_bind].
    by rewrite encodeHeader_too_long.
  - intros cs Hcs. change (encodeList encodeItem (VItem <$> cs) [] = Err (EncTooLong (len cs))).
    unfold encodeList. replace (len (VItem <$> cs)) with (len cs) by (unfold len; by rewrite length_fmap).
    by rewrite encodeHeader_too_long.
  - intros ns Hns. change (encodeU4 (NewU4 ns) [] = Err (EncTooLong (len ns * 4))).
    unfold encodeU4, encode_fixed, NewU4. cbn [values].
    replace (len (VUint32 <$> ns)) with (len ns) by (unfold len; by rewrite length_fmap).
    by rewrite encodeHeader_too_long.
Qed.

Lemma encode_too_long_witness :
  let cs := replicate (Z.to_nat (max_payload + 1)) (@None item) in
  max_payload < len cs /\ Encode (Some (NewList cs)) = Err (EncTooLong (len cs)).
Proof.
  intros cs. assert (H : max_payload < len cs)
    by (unfold cs, len; rewrite length_replicate, Z2Nat.id; unfold max_payload; lia).
  split; [exact H | exact (proj1 (proj2 (proj2 encode_too_long)) cs H)].
Defined.
