(* ===== verification/HsmsMessage.v ===== *)
(** * HSMS messages

    The wire format of [src/pkg/transport/hsms/message.go]: the ten-byte
    header, [MarshalBinary], [UnmarshalBinary] and the constructors of the
    control messages. *)

From stdpp Require Import prelude gmap strings list pretty.
From Stdlib Require Import ZArith Lia.
From S2P Require Import Prelude.

#[local] Open Scope Z_scope.

(** ** Message types *)

Definition STypeDataMessage : Z := 0.
Definition STypeSelectReq : Z := 1.
Definition STypeSelectRsp : Z := 2.
Definition STypeDeselectReq : Z := 3.
Definition STypeDeselectRsp : Z := 4.
Definition STypeLinktestReq : Z := 5.
Definition STypeLinktestRsp : Z := 6.
Definition STypeRejectReq : Z := 7.
Definition STypeSeparateReq : Z := 9.

Definition SType_String (s : Z) : string :=
  if s =? STypeDataMessage then "DataMessage"
  else if s =? STypeSelectReq then "Select.req"
  else if s =? STypeSelectRsp then "Select.rsp"
  else if s =? STypeDeselectReq then "Deselect.req"
  else if s =? STypeDeselectRsp then "Deselect.rsp"
  else if s =? STypeLinktestReq then "Linktest.req"
  else if s =? STypeLinktestRsp then "Linktest.rsp"
  else if s =? STypeRejectReq then "Reject.req"
  else if s =? STypeSeparateReq then "Separate.req"
  else "Unknown(" +:+ pretty s +:+ ")".

Definition SelectStatusSuccess : Z := 0.
Definition SelectStatusAlreadyActive : Z := 1.
Definition SelectStatusNotReady : Z := 2.
Definition SelectStatusAlreadyUsed : Z := 3.

Record Header := mkHeader {
  SessionID : Z;  (* uint16 *)
  WBit : bool;
  Stream : Z;     (* byte *)
  Function : Z;   (* byte *)
  PType : Z;      (* byte *)
  SType : Z;      (* byte *)
  SystemID : Z;   (* uint32 *)
}.

Record Message := mkMessage { hdr : Header; Data : list Z }.

#[global] Instance Header_eq_dec : EqDecision Header.
Proof. solve_decision. Defined.
#[global] Instance Message_eq_dec : EqDecision Message.
Proof. solve_decision. Defined.

Definition headerLen : Z := 10.
Definition minMessageLen : Z := 14.

(** [&Message{}] *)
Definition zeroMessage : Message := mkMessage (mkHeader 0 false 0 0 0 0 0) [].

Definition IsControlMessage (m : Message) : bool := negb (SType (hdr m) =? STypeDataMessage).

(** ** Serialization *)

Inductive hsms_error :=
| TooShort (n : Z)
| LengthExceedsData (msgLen size : Z)
| LengthTooSmall (msgLen : Z).

(** [copy(make([]byte, n), src)] *)
Definition copy_into (n : Z) (src : list Z) : list Z :=
  take (Z.to_nat n) src ++ replicate (Z.to_nat n - length src) 0.

(** The header fields as they go on the wire, bytes 4 to 13. *)
Definition header_bytes (h : Header) : list Z :=
  let b6 := Z.land (Stream h) 127 in
  let b6 := if WBit h then Z.lor b6 128 else b6 in
  be_bytes 2 (SessionID h) ++ [b6; Function h; PType h; SType h] ++ be_bytes 4 (SystemID h).

(** [msgLen] and the buffer size are [uint32] and may wrap; a buffer too small
    for the header makes [PutUint32] or an index panic. *)
Definition MarshalBinary (m : Message) : result hsms_error (list Z) :=
  let msgLen := wrap 32 (headerLen + len (Data m)) in
  let size := wrap 32 (4 + msgLen) in
  if size <? minMessageLen then Panic IndexOutOfRange
  else Ok (be_bytes 4 msgLen ++ header_bytes (hdr m) ++ copy_into (size - minMessageLen) (Data m)).

(** [m.UnmarshalBinary(data)]: the new value of [*m].  [m.Data] keeps its old
    value when the message carries no data. *)
Definition UnmarshalBinary (m : Message) (data : list Z) : result hsms_error Message :=
  if len data <? minMessageLen then Err (TooShort (len data))
  else
    msgLen ← (b ← slice data 0 4; be_uint 4 b);
    if len data <? msgLen + 4 then Err (LengthExceedsData msgLen (len data - 4))
    else if msgLen <? headerLen then Err (LengthTooSmall msgLen)
    else
      sessionID ← (b ← slice data 4 6; be_uint 2 b);
      b6 ← idx data 6;
      function ← idx data 7;
      ptype ← idx data 8;
      stype ← idx data 9;
      systemID ← (b ← slice data 10 14; be_uint 4 b);
      let h := mkHeader sessionID (negb (Z.land b6 128 =? 0)) (Z.land b6 127)
                 function ptype stype systemID in
      let dataLen := msgLen - headerLen in
      if 0 <? dataLen then
        d ← slice data 14 (14 + dataLen);
        Ok (mkMessage h d)
      else Ok (mkMessage h (Data m)).

(** ** Constructors *)

Definition NewSelectReq (sessionID systemID : Z) : Message :=
  mkMessage (mkHeader sessionID false 0 0 0 STypeSelectReq systemID) [].

Definition NewSelectRsp (sessionID systemID status : Z) : Message :=
  mkMessage (mkHeader sessionID false status 0 0 STypeSelectRsp systemID) [].

Definition NewDeselectReq (sessionID systemID : Z) : Message :=
  mkMessage (mkHeader sessionID false 0 0 0 STypeDeselectReq systemID) [].

Definition NewDeselectRsp (sessionID systemID status : Z) : Message :=
  mkMessage (mkHeader sessionID false status 0 0 STypeDeselectRsp systemID) [].

Definition NewLinktestReq (systemID : Z) : Message :=
  mkMessage (mkHeader 65535 false 0 0 0 STypeLinktestReq systemID) [].

Definition NewLinktestRsp (systemID : Z) : Message :=
  mkMessage (mkHeader 65535 false 0 0 0 STypeLinktestRsp systemID) [].

Definition NewSeparateReq (sessionID systemID : Z) : Message :=
  mkMessage (mkHeader sessionID false 0 0 0 STypeSeparateReq systemID) [].

Definition RejectReasonSTypeNotSupported : Z := 1.
Definition RejectReasonPTypeNotSupported : Z := 2.
Definition RejectReasonTransactionNotOpen : Z := 3.
Definition RejectReasonEntityNotSelected : Z := 4.

Definition NewRejectReq (sessionID systemID offending reason : Z) : Message :=
  mkMessage (mkHeader sessionID false offending reason 0 STypeRejectReq systemID) [].

Definition NewDataMessage (sessionID stream function : Z) (wbit : bool) (systemID : Z)
    (data : list Z) : Message :=
  mkMessage (mkHeader sessionID wbit stream function 0 STypeDataMessage systemID) data.

(** ** Lemmas *)

(** The field ranges of a Go [Message] whose frame length fits [uint32]. *)
Definition header_ok (h : Header) : bool :=
  in_unsigned 16 (SessionID h) && is_byte (Stream h) && is_byte (Function h) && is_byte (PType h)
  && is_byte (SType h) && in_unsigned 32 (SystemID h).

Definition message_ok (m : Message) : bool :=
  header_ok (hdr m) && bytes_ok (Data m) && (len (Data m) <? 2 ^ 32 - 14).

(** The stream number has seven bits on the wire. *)
Definition mask_header (h : Header) : Header :=
  mkHeader (SessionID h) (WBit h) (Z.land (Stream h) 127) (Function h) (PType h) (SType h) (SystemID h).

Definition on_wire (m : Message) : Message := mkMessage (mask_header (hdr m)) (Data m).

Lemma copy_into_all src : copy_into (len src) src = src.
Proof.
  unfold copy_into, len. rewrite Nat2Z.id, Nat.sub_diag, firstn_all. simpl. apply app_nil_r.
Qed.

Lemma len_header_bytes h : len (header_bytes h) = 10.
Proof. unfold header_bytes. by rewrite !len_app, !len_be_bytes. Qed.

Lemma stream_byte w s :
  let b6 := Z.land s 127 in let b := if (w : bool) then Z.lor b6 128 else b6 in
  Z.land b 127 = Z.land s 127 /\ negb (Z.land b 128 =? 0) = w /\ 0 <= b < 256.
Proof.
  cbv zeta. assert (Hs : 0 <= Z.land s 127 < 128).
  { change 127 with (Z.ones 7). rewrite Z.land_ones by lia. by apply Z.mod_pos_bound. }
  assert (Hadd : Z.lor (Z.land s 127) 128 = 128 + Z.land s 127).
  { rewrite Z.lor_comm. exact (lor_shiftl_add 1 (Z.land s 127) 7 ltac:(lia) Hs). }
  assert (Hself : Z.land (Z.land s 127) 127 = Z.land s 127) by (rewrite <- Z.land_assoc; done).
  assert (Hzero : Z.land (Z.land s 127) 128 = 0) by (rewrite <- Z.land_assoc; apply Z.land_0_r).
  destruct w.
  - rewrite !Z.land_lor_distr_l, Hself, Hzero, Hadd.
    change (Z.land 128 127) with 0. change (Z.land 128 128) with 128. rewrite Z.lor_0_r.
    split_and!; [done | done | lia..].
  - rewrite Hself, Hzero. split_and!; [done | done | lia..].
Qed.

(** The fixed part of a frame, field by field. *)
Lemma unmarshal_frame m msgLen h data tl :
  header_ok h = true -> 10 <= msgLen < 2 ^ 32 -> msgLen = 10 + len data ->
  UnmarshalBinary m (be_bytes 4 msgLen ++ header_bytes h ++ data ++ tl)
  = Ok (mkMessage (mask_header h) (if 0 <? len data then data else Data m)).
Proof.
  unfold header_ok, is_byte. rewrite !andb_true_iff, !in_unsigned_spec.
  intros (((((Hsid & Hst) & Hfn) & Hpt) & Hsty) & Hsys) Hml Heq.
  destruct (stream_byte (WBit h) (Stream h)) as (Hb1 & Hb2 & Hb3). cbv zeta in Hb1, Hb2, Hb3.
  unfold header_bytes. set (b6 := if WBit h then _ else _) in *.
  pose proof (len_nonneg data) as Hd. pose proof (len_nonneg tl) as Ht.
  set (fixed := [b6; Function h; PType h; SType h]).
  set (frame := be_bytes 4 msgLen ++ _).
  assert (Hframe : len frame = 14 + len data + len tl).
  { unfold frame, fixed. rewrite !len_app, !len_be_bytes, !len_cons, len_nil. lia. }
  unfold UnmarshalBinary, minMessageLen, headerLen.
  rewrite Hframe, (proj2 (Z.ltb_ge (14 + len data + len tl) 14)) by lia.
  assert (Hs0 : slice (E:=hsms_error) frame 0 4 = Ok (be_bytes 4 msgLen))
    by (apply (slice_app []); [done | by rewrite len_be_bytes]).
  assert (Hs4 : slice (E:=hsms_error) frame 4 6 = Ok (be_bytes 2 (SessionID h))).
  { unfold frame. rewrite <- !app_assoc. apply slice_app; by rewrite len_be_bytes. }
  assert (Hs10 : slice (E:=hsms_error) frame 10 14 = Ok (be_bytes 4 (SystemID h))).
  { replace frame with ((be_bytes 4 msgLen ++ be_bytes 2 (SessionID h) ++ fixed)
      ++ be_bytes 4 (SystemID h) ++ data ++ tl) by (unfold frame; by rewrite <- !app_assoc).
    apply slice_app; [by rewrite !len_app, !len_be_bytes | by rewrite len_be_bytes]. }
  assert (Hdat : slice (E:=hsms_error) frame 14 (14 + (msgLen - 10)) = Ok data).
  { replace frame with ((be_bytes 4 msgLen ++ be_bytes 2 (SessionID h) ++ fixed
      ++ be_bytes 4 (SystemID h)) ++ data ++ tl) by (unfold frame; by rewrite <- !app_assoc).
    apply slice_app; [by rewrite !len_app, !len_be_bytes | lia]. }
  assert (Hidx : forall i, 0 <= i < 4 -> idx (E:=hsms_error) frame (6 + i) = idx fixed i).
  { intros i Hi. replace frame with ((be_bytes 4 msgLen ++ be_bytes 2 (SessionID h)) ++ fixed
      ++ be_bytes 4 (SystemID h) ++ data ++ tl) by (unfold frame; by rewrite <- !app_assoc).
    apply (idx_mid (E:=hsms_error) (be_bytes 4 msgLen ++ be_bytes 2 (SessionID h)) fixed).
    done. }
  assert (Huint : forall n v, 0 <= v < 256 ^ Z.of_nat n ->
            be_uint (E:=hsms_error) n (be_bytes n v) = Ok v).
  { intros n v Hv. rewrite <- (app_nil_r (be_bytes n v)). by apply be_uint_app. }
  rewrite Hs0. cbn [mbind result_bind]. rewrite Huint by lia. cbn [mbind result_bind].
  rewrite (proj2 (Z.ltb_ge (14 + len data + len tl) (msgLen + 4))), (proj2 (Z.ltb_ge msgLen 10)) by lia.
  rewrite Hs4. cbn [mbind result_bind]. rewrite Huint by lia. cbn [mbind result_bind].
  rewrite (Hidx 0 ltac:(lia) : idx frame 6 = _), (Hidx 1 ltac:(lia) : idx frame 7 = _),
    (Hidx 2 ltac:(lia) : idx frame 8 = _), (Hidx 3 ltac:(lia) : idx frame 9 = _). unfold fixed. eval_idx.
  rewrite Hs10. cbn [mbind result_bind]. rewrite Huint by lia. cbn [mbind result_bind].
  rewrite Hb1, Hb2. replace (0 <? msgLen - 10) with (0 <? len data) by (rewrite Heq; f_equal; lia).
  destruct (0 <? len data); [| done]. by rewrite Hdat.
Qed.

(** What a marshalled message is: the prefix, the header, the data. *)
Lemma marshal_frame m :
  len (Data m) < 2 ^ 32 - 14 ->
  MarshalBinary m = Ok (be_bytes 4 (10 + len (Data m)) ++ header_bytes (hdr m) ++ Data m).
Proof.
  intros Hd. pose proof (len_nonneg (Data m)). unfold MarshalBinary, headerLen, minMessageLen.
  rewrite (wrap_small 32 (10 + _)), (wrap_small 32 (4 + _)) by lia.
  rewrite (proj2 (Z.ltb_ge (4 + (10 + len (Data m))) 14)) by lia.
  replace (4 + (10 + len (Data m)) - 14) with (len (Data m)) by lia. by rewrite copy_into_all.
Qed.

(** ** Properties *)

(** A message is read back from its own bytes, whatever follows them in the
    buffer, with the stream number cut to seven bits; the constructors' stream
    numbers below 128 come back unchanged. *)
Theorem marshal_unmarshal m frame tl :
  message_ok m = true -> MarshalBinary m = Ok frame ->
  UnmarshalBinary zeroMessage (frame ++ tl) = Ok (on_wire m)
  /\ (Stream (hdr m) < 128 -> on_wire m = m).
Proof.
  unfold message_ok. rewrite !andb_true_iff, Z.ltb_lt. intros [[Hh Hb] Hl].
  rewrite marshal_frame by done. intros <-%Ok_inj. pose proof (len_nonneg (Data m)). split.
  - rewrite <- !app_assoc, unmarshal_frame by (done || lia). unfold on_wire. do 2 f_equal.
    destruct (Z.ltb_spec 0 (len (Data m))) as [|Hz]; [done |].
    destruct (Data m) as [|x l]; [done |]. rewrite len_cons in Hz. pose proof (len_nonneg l). lia.
  - intros Hs. destruct m as [[sid w st fn pt sty sys] d]. unfold on_wire, mask_header. simpl in *.
    unfold header_ok in Hh. rewrite !andb_true_iff in Hh. simpl in Hh.
    destruct Hh as (((((_ & Hst) & _) & _) & _) & _). apply is_byte_spec in Hst.
    change 127 with (Z.ones 7). by rewrite Z.land_ones, Z.mod_small by lia.
Qed.

Lemma marshal_unmarshal_witness :
  let m := NewDataMessage 1 6 11 true 77 [1; 2; 3] in
  message_ok m = true
  /\ UnmarshalBinary zeroMessage (default [] (match MarshalBinary m with Ok f => Some f | _ => None end) ++ [9; 9])
     = Ok m.
Proof.
  cbv zeta. split; [reflexivity |].
  destruct (marshal_unmarshal (NewDataMessage 1 6 11 true 77 [1; 2; 3]) _ [9; 9] eq_refl eq_refl)
    as [H1 H2].
  rewrite H2 in H1 by reflexivity. exact H1.
Defined.

(** [UnmarshalBinary] returns on every byte sequence, and an accepted
    message has its fields in range, a stream number below 128, and data that
    lie inside the buffer; on an empty body the receiver's old data stay. *)
Theorem unmarshal_total m data :
  bytes_ok data = true -> len data < 2 ^ 32 -> message_ok m = true ->
  post (UnmarshalBinary m data) (fun m' =>
    message_ok m' = true /\ Stream (hdr m') < 128
    /\ (Data m' = Data m \/ 14 + len (Data m') <= len data)).
Proof.
  intros Hb Hlen Hm. unfold UnmarshalBinary, minMessageLen, headerLen.
  destruct (Z.ltb_spec (len data) 14) as [|H14]; [done |].
  post_step (slice_uint_post 4 data 0 4) as msgLen Hml; [done | lia.. |].
  destruct (Z.ltb_spec (len data) (msgLen + 4)); [done |].
  destruct (Z.ltb_spec msgLen 10); [done |].
  post_step (slice_uint_post 2 data 4 6) as sid Hsid; [done | lia.. |].
  post_step (idx_byte_post data 6) as b6 Hb6; [done | lia |].
  post_step (idx_byte_post data 7) as fn Hfn; [done | lia |].
  post_step (idx_byte_post data 8) as pt Hpt; [done | lia |].
  post_step (idx_byte_post data 9) as st Hst; [done | lia |].
  post_step (slice_uint_post 4 data 10 14) as sys Hsys; [done | lia.. |].
  assert (Hm' : forall d, bytes_ok d = true -> len d < 2 ^ 32 - 14 ->
    message_ok (mkMessage (mkHeader sid (negb (Z.land b6 128 =? 0)) (Z.land b6 127) fn pt st sys) d) = true
    /\ Z.land b6 127 < 128).
  { intros d Hd Hl. assert (0 <= Z.land b6 127 < 128).
    { change 127 with (Z.ones 7). rewrite Z.land_ones by lia. by apply Z.mod_pos_bound. }
    split; [| lia]. unfold message_ok, header_ok. simpl. rewrite !andb_true_iff, Z.ltb_lt.
    rewrite !is_byte_spec, !in_unsigned_spec. split_and!; (done || lia). }
  unfold message_ok in Hm. rewrite !andb_true_iff, Z.ltb_lt in Hm. destruct Hm as [[_ Hmb] Hml'].
  destruct (Z.ltb_spec 0 (msgLen - 10)).
  - post_step slice_bytes_post as d Hd; [done | lia.. |]. destruct Hd as [Hdl Hdb]. simpl.
    destruct (Hm' d Hdb ltac:(lia)) as [? ?]. split_and!; [done | done | right; lia].
  - simpl. destruct (Hm' (Data m) Hmb Hml') as [? ?]. split_and!; [done | done | by left].
Qed.

Lemma unmarshal_total_witness :
  let data := [0; 0; 0; 12; 0; 1; 134; 11; 0; 0; 0; 0; 0; 77; 5; 6] in
  bytes_ok data = true
  /\ post (UnmarshalBinary zeroMessage data) (fun m' =>
       message_ok m' = true /\ Stream (hdr m') < 128
       /\ (Data m' = [] \/ 14 + len (Data m') <= len data)).
Proof.
  intros data. split; [reflexivity |].
  exact (unmarshal_total zeroMessage data eq_refl eq_refl eq_refl).
Defined.

(** The offending type of a [Reject.req] shares byte 6 with the wait bit: a type
    of 128 or more reaches the peer with its top bit cut. *)
Lemma reject_offending_masked sessionID systemID offending reason :
  Stream (hdr (on_wire (NewRejectReq sessionID systemID offending reason))) = Z.land offending 127.
Proof. done. Qed.
