(* ===== verification/Transport.v ===== *)
(** * The transport a message handler sends through

    [src/pkg/transport/transport.go] and the part of
    [src/pkg/transport/hsms/session.go] its clients use: [Sender] is the
    interface the GEM handler is verified against, and [HsmsSession] implements
    it. *)

From stdpp Require Import prelude strings list.
From Stdlib Require Import ZArith Lia.
From S2P Require Import Prelude HsmsMessage.

#[local] Open Scope Z_scope.

Inductive State := StateDisconnected | StateConnecting | StateConnected | StateSelected.

#[global] Instance State_eq_dec : EqDecision State.
Proof. solve_decision. Defined.

Definition State_String (s : State) : string :=
  match s with
  | StateDisconnected => "DISCONNECTED"
  | StateConnecting => "CONNECTING"
  | StateConnected => "CONNECTED"
  | StateSelected => "SELECTED"
  end.

Inductive send_error :=
| CannotSendIn (s : State)
| NoConnection
| WriteFailed
| ReplyTimeout (systemID : Z)
| Cancelled.

(** [msg.Header.SystemID = id] *)
Definition with_system_id (id : Z) (m : Message) : Message :=
  let h := hdr m in
  mkMessage (mkHeader (SessionID h) (WBit h) (Stream h) (Function h) (PType h) (SType h) id) (Data m).

(** [send_message] is [Session.SendMessage]; [written] lists the messages put on
    the wire, oldest first.  A sender writes the message it is given at most
    once, unchanged but for a zero system id, and reports success only when it
    has written it. *)
Class Sender (T : Type) := {
  send_message : Message -> T -> result send_error (option Message) * T;
  written : T -> list Message;
  send_effect : forall m t,
    (written (send_message m t).2 = written t /\ is_ok (send_message m t).1 = false)
    \/ exists id, written (send_message m t).2 = written t ++ [with_system_id id m]
         /\ (SystemID (hdr m) <> 0 -> id = SystemID (hdr m));
}.

Lemma with_own_system_id m : with_system_id (SystemID (hdr m)) m = m.
Proof. by destruct m as [[]]. Qed.
