(* ===== verification/Policy.v ===== *)
(** * Session access policies

    [src/pkg/security/policy.go]: which stream/function pairs a session may
    send.  [*SessionPolicy] is an [option SessionPolicy]; [None] is the nil
    pointer, which restricts nothing. *)

From stdpp Require Import prelude list.
From Stdlib Require Import ZArith Lia.
From S2P Require Import Prelude.

#[local] Open Scope Z_scope.

Record SFPair := mkSF { sf_Stream : Z; sf_Function : Z }.

#[global] Instance SFPair_eq_dec : EqDecision SFPair.
Proof. solve_decision. Defined.

Record SessionPolicy := mkPolicy {
  AllowedMessages : list SFPair;   (* nil and empty both mean: no allow list *)
  DeniedMessages : list SFPair;
  ReadOnly : bool;
}.

Definition writeMessages : list SFPair :=
  [mkSF 2 15; mkSF 2 33; mkSF 2 35; mkSF 2 37; mkSF 2 41; mkSF 1 15; mkSF 1 17; mkSF 5 3].

(** The loops [for _, x := range l { if x == sf { ... } }]. *)
Definition contains (l : list SFPair) (sf : SFPair) : bool :=
  existsb (fun x => bool_decide (x = sf)) l.

Definition IsAllowed (p : option SessionPolicy) (stream function : Z) : bool :=
  match p with
  | None => true
  | Some p =>
      let sf := mkSF stream function in
      if ReadOnly p && contains writeMessages sf then false
      else if contains (DeniedMessages p) sf then false
      else if (0 <? len (AllowedMessages p)) then contains (AllowedMessages p) sf
      else true
  end.

Definition ReadOnlyPolicy : option SessionPolicy := Some (mkPolicy [] [] true).

Definition MonitorPolicy : option SessionPolicy :=
  Some (mkPolicy [mkSF 1 1; mkSF 1 3; mkSF 1 11; mkSF 1 13; mkSF 2 13; mkSF 2 29; mkSF 5 5; mkSF 5 7]
          [] false).

Definition FullAccessPolicy : option SessionPolicy := None.

(** ** Lemmas *)

Lemma contains_spec l sf : contains l sf = true <-> sf ∈ l.
Proof.
  unfold contains. rewrite existsb_exists. setoid_rewrite <- list_elem_of_In. split.
  - intros (x & Hx & ->%bool_decide_eq_true). done.
  - intros H. exists sf. by rewrite bool_decide_eq_true.
Qed.

Lemma contains_false l sf : contains l sf = false <-> sf ∉ l.
Proof. rewrite <- contains_spec. by destruct (contains l sf). Qed.

(** What a policy promises: a denial by the read-only rule or by the deny list
    is final, and a non-empty allow list is exhaustive. *)
Definition permits (p : SessionPolicy) (sf : SFPair) : Prop :=
  (ReadOnly p = true -> sf ∉ writeMessages) /\ sf ∉ DeniedMessages p
  /\ (AllowedMessages p <> [] -> sf ∈ AllowedMessages p).

(** [IsAllowed] decides the declarative meaning of a policy, the deny rules
    taking precedence over the allow list; a nil policy permits everything. *)
Theorem is_allowed_spec p stream function :
  IsAllowed p stream function = true
  <-> match p with None => True | Some p => permits p (mkSF stream function) end.
Proof.
  destruct p as [p|]; [| done]. unfold IsAllowed, permits.
  pose proof (contains_spec writeMessages (mkSF stream function)) as Hw.
  pose proof (contains_spec (DeniedMessages p) (mkSF stream function)) as Hd.
  pose proof (contains_spec (AllowedMessages p) (mkSF stream function)) as Ha.
  assert (He : (0 <? len (AllowedMessages p)) = true <-> AllowedMessages p <> []).
  { destruct (AllowedMessages p) as [|x l]; [by split |].
    rewrite len_cons, Z.ltb_lt. pose proof (len_nonneg l). split; [done | lia]. }
  rewrite <- Hw, <- Hd, <- Ha, <- He. clear.
  destruct (ReadOnly p), (contains writeMessages _), (contains (DeniedMessages p) _),
    (0 <? len (AllowedMessages p)), (contains (AllowedMessages p) _); simpl; intuition congruence.
Qed.

(** The default policy of a new handler admits none of the write messages. *)
Lemma monitor_denies_writes stream function :
  mkSF stream function ∈ writeMessages -> IsAllowed MonitorPolicy stream function = false.
Proof.
  unfold writeMessages. rewrite !elem_of_cons, elem_of_nil.
  intros H. repeat destruct H as [[= -> ->]|H]; done.
Qed.

Lemma readonly_denies_exactly stream function :
  IsAllowed ReadOnlyPolicy stream function = negb (contains writeMessages (mkSF stream function)).
Proof. unfold IsAllowed, ReadOnlyPolicy. simpl ReadOnly. by destruct (contains writeMessages _). Qed.
