(* ===== verification/Lifecycle.v ===== *)
(** * Lifecycles

    What the E40, E94, E87 and E90 managers of [src/pkg/driver/gem] share: the
    loop that looks the current state up among the expected ones, and the
    passage from single calls to sequences of calls.  [step] relates a manager
    to the manager after one call, [proj] is the state of one object of it. *)

From stdpp Require Import prelude relations list.
From Stdlib Require Import ZArith Lia.
From S2P Require Import Prelude.

(** [for _, s := range expected { if x.State == s { valid = true; break } }] *)
Definition in_states {S} `{EqDecision S} (s : S) (expected : list S) : bool :=
  existsb (fun s' => bool_decide (s = s')) expected.

Lemma in_states_spec {S} `{EqDecision S} (s : S) expected : in_states s expected = true <-> s ∈ expected.
Proof.
  unfold in_states. rewrite existsb_exists. setoid_rewrite <- list_elem_of_In. split.
  - by intros (s' & Hs & <-%bool_decide_eq_true).
  - intros Hs. exists s. by rewrite bool_decide_eq_true.
Qed.

(** What every call preserves holds of every reachable manager. *)
Lemma invariant_rtc {M} (step : M -> M -> Prop) (I : M -> Prop) m m' :
  (forall x y, step x y -> I x -> I y) -> I m -> rtc step m m' -> I m'.
Proof. intros Hstep HI Hm. induction Hm; eauto. Qed.

Section lifecycle.
Context {M S : Type} (step : M -> M -> Prop) (proj : M -> option S) (edge : S -> S -> Prop).

(** A graph whose edges raise a rank has no long path. *)
Lemma nsteps_rank (rank : S -> nat) n s s' :
  (forall x y, edge x y -> rank x < rank y) -> nsteps edge n s s' -> n + rank s <= rank s'.
Proof.
  intros Hrank. induction 1 as [|n x y z Hxy _ IH]; [done |]. specialize (Hrank x y Hxy). lia.
Qed.

Hypothesis step_edge : forall m m' s,
  step m m' -> proj m = Some s -> exists s', proj m' = Some s' /\ (s' = s \/ edge s s').

Lemma steps_edges m m' s :
  rtc step m m' -> proj m = Some s -> exists s' n, proj m' = Some s' /\ nsteps edge n s s'.
Proof.
  intros Hm. revert s. induction Hm as [m|m m1 m' Hm _ IH]; intros s Hs.
  - exists s, 0. split; [done | constructor].
  - destruct (step_edge m m1 s Hm Hs) as (s1 & Hs1 & Hor).
    destruct (IH s1 Hs1) as (s' & n & Hs' & Hn).
    destruct Hor as [->|He]; [by exists s', n | exists s', (1 + n)].
    split; [done |]. by apply nsteps_l with s1.
Qed.

(** A state without outgoing edges is final. *)
Lemma steps_final m m' s :
  (forall s', ~ edge s s') -> rtc step m m' -> proj m = Some s -> proj m' = Some s.
Proof.
  intros Hfinal Hm Hs. destruct (steps_edges m m' s Hm Hs) as (s' & n & Hs' & Hn).
  destruct Hn as [|n x y z Hxy _]; [done |]. by destruct (Hfinal y).
Qed.
End lifecycle.
