(* ===== verification/HsmsSession.v ===== *)
(** * HSMS sessions

    [src/pkg/transport/hsms/session.go] and [config.go]: framing on the byte
    stream, the routing of incoming messages, the select, deselect, linktest and
    separate procedures, transactions, the not-selected timeout and shutdown.

    Each definition is what one goroutine does between two points where another
    may run; the events of [HsmsProtocol] interleave them.  [io] says whether the socket takes a
    write.  TCP, TLS, the timers and the log are outside the model; a time-out is
    a step that may happen at any moment. *)

From stdpp Require Import prelude relations gmap strings list.
From Stdlib Require Import ZArith Lia.
From S2P Require Import Prelude Lifecycle HsmsMessage Transport.
From S2P Require GoStrings.

#[local] Open Scope Z_scope.

(** ** Configuration ([config.go]) *)

Inductive Role := RoleActive | RolePassive.

#[global] Instance Role_eq_dec : EqDecision Role.
Proof. solve_decision. Defined.

Definition Role_String (r : Role) : string := if decide (r = RoleActive) then "Active" else "Passive".

Definition second : Z := 1000000000.

(** Durations are nanoseconds; an address is an opaque string, a peer its IP. *)
Record Config := mkConfig {
  Address : string;
  cfg_Role : Role;
  cfg_SessionID : Z;
  T3 : Z; T5 : Z; T6 : Z; T7 : Z; T8 : Z;
  LinktestInterval : Z;
  TLS : bool;
  AllowedPeers : list (list Z);
  MaxConnections : Z;
  MaxMessageRate : Z;
  MaxMessageSize : Z;
  SessionTTL : Z;
}.

Definition DefaultConfig (address : string) (role : Role) (sessionID : Z) : Config :=
  mkConfig address role sessionID (45 * second) (10 * second) (5 * second) (10 * second) (5 * second)
    (30 * second) false [] 0 0 0 0.

Definition SecureConfig (address : string) (role : Role) (sessionID : Z) : Config :=
  mkConfig address role sessionID (45 * second) (10 * second) (5 * second) (10 * second) (5 * second)
    (30 * second) true [] 10 1000 (16 * 1024 * 1024) (24 * 3600 * second).

Definition defaultMaxMessageSize : Z := 16 * 1024 * 1024.

Definition maxMessageSize (c : Config) : Z :=
  if 0 <? MaxMessageSize c then MaxMessageSize c else defaultMaxMessageSize.

(** [net.IP.Equal]: an IPv4 address of 4 bytes is also that address in 16. *)
Definition v4InV6Prefix : list Z := replicate 10 0 ++ [255; 255].

Definition IP_Equal (ip x : list Z) : bool :=
  if len ip =? len x then bool_decide (ip = x)
  else if (len ip =? 4) && (len x =? 16) then bool_decide (take 12 x = v4InV6Prefix) && bool_decide (ip = drop 12 x)
  else if (len ip =? 16) && (len x =? 4) then bool_decide (take 12 ip = v4InV6Prefix) && bool_decide (drop 12 ip = x)
  else false.

Definition isAllowed (ip : list Z) (allowlist : list (list Z)) : bool :=
  existsb (fun allowed => IP_Equal allowed ip) allowlist.

(** The address of a peer; the IP of one that does not parse is nil. *)
Inductive net_addr := TCPAddr (ip : list Z) | OtherAddr (text : string).

Definition extractIP `{GoStrings.Net} (addr : net_addr) : list Z :=
  match addr with
  | TCPAddr ip => ip
  | OtherAddr text => default [] (GoStrings.ParseIP (default "" (GoStrings.SplitHost text)))
  end.

(** ** Framing *)

Inductive read_error :=
| EOF                       (* [io.ReadFull] read nothing *)
| UnexpectedEOF             (* [io.ReadFull] read less than asked *)
| LengthTooSmallOnWire (msgLen : Z)
| LengthExceedsMax (msgLen maxSize : Z)
| BadMessage (e : hsms_error).

(** [io.ReadFull(conn, buf)] with [len(buf) = n]: the bytes and the rest. *)
Definition ReadFull (n : Z) (stream : list Z) : result read_error (list Z * list Z) :=
  if len stream <? n then (if len stream =? 0 then Err EOF else Err UnexpectedEOF)
  else Ok (take (Z.to_nat n) stream, drop (Z.to_nat n) stream).

Definition readMessage (c : Config) (stream : list Z) : result read_error (Message * list Z) :=
  '(lenBuf, stream) ← ReadFull 4 stream;
  msgLen ← be_uint 4 lenBuf;
  if msgLen <? headerLen then Err (LengthTooSmallOnWire msgLen)
  else if maxMessageSize c <? msgLen then Err (LengthExceedsMax msgLen (maxMessageSize c))
  else
    '(rest, stream) ← ReadFull (wrap 32 (4 + msgLen) - 4) stream;
    msg ← wrap_err BadMessage (UnmarshalBinary zeroMessage (lenBuf ++ rest));
    Ok (msg, stream).

(** ** The session *)

Inductive audit_event :=
| UnauthorizedMessage (stream function : Z)
| ConnectionRejected (reason : string)
| MalformedMessage
| RateLimited
| SessionExpired
| AuthFailed (reason : string)
| TLSHandshakeOK.

(** [conn]: [None] is no connection, [Some open] a connection.  [out] lists the
    messages written with their bytes, oldest first.  [pending] holds the reply
    channels, which have one place each.  [audit] is newest first. *)
Record Session := mkSession {
  config : Config;
  state : State;
  conn : option bool;
  out : list (Message * list Z);
  nextSystemID : Z;
  pending : gmap Z (option Message);
  inbound : list Message;
  closed : bool;
  audit : list audit_event;
}.

Definition inboundCap : Z := 256.

Definition NewSession (c : Config) : Session :=
  mkSession c StateDisconnected None [] 0 ∅ [] false [].

Definition set_state (st : State) (s : Session) : Session :=
  mkSession (config s) st (conn s) (out s) (nextSystemID s) (pending s) (inbound s) (closed s) (audit s).
Definition set_pending (p : gmap Z (option Message)) (s : Session) : Session :=
  mkSession (config s) (state s) (conn s) (out s) (nextSystemID s) p (inbound s) (closed s) (audit s).
Definition set_inbound (q : list Message) (s : Session) : Session :=
  mkSession (config s) (state s) (conn s) (out s) (nextSystemID s) (pending s) q (closed s) (audit s).
Definition set_conn (c : option bool) (s : Session) : Session :=
  mkSession (config s) (state s) c (out s) (nextSystemID s) (pending s) (inbound s) (closed s) (audit s).
Definition log_event (e : audit_event) (s : Session) : Session :=
  mkSession (config s) (state s) (conn s) (out s) (nextSystemID s) (pending s) (inbound s) (closed s) (e :: audit s).

(** [s.nextSystemID.Add(1)] *)
Definition next_id (s : Session) : Z * Session :=
  let id := wrap 32 (nextSystemID s + 1) in
  (id, mkSession (config s) (state s) (conn s) (out s) id (pending s) (inbound s) (closed s) (audit s)).

Definition writeMessage (io : bool) (msg : Message) (s : Session) : result send_error Session :=
  match MarshalBinary msg with
  | Ok data =>
      match conn s with
      | None => Err NoConnection
      | Some open =>
          if open && io then
            Ok (mkSession (config s) (state s) (conn s) (out s ++ [(msg, data)]) (nextSystemID s) (pending s)
                  (inbound s) (closed s) (audit s))
          else Err WriteFailed
      end
  | Err _ => Err WriteFailed
  | Panic p => Panic p
  | OutOfFuel => OutOfFuel
  end.

(** ** Connecting

    [dial], [handshake] and [listen] stand for the outcome of the network calls.
    [connectActive] leaves a trace of the TLS handshake also when it fails. *)

Definition connectActive (dial handshake : bool) (s : Session) : result send_error () * Session :=
  if negb dial then (Err NoConnection, s)
  else if TLS (config s) then
    if negb handshake then (Err NoConnection, log_event (AuthFailed "TLS handshake") s)
    else (Ok (), set_conn (Some true) (log_event TLSHandshakeOK s))
  else (Ok (), set_conn (Some true) s).

(** The listener is there as long as the session is connecting. *)
Definition listenPassive (listen : bool) (s : Session) : result send_error () * Session :=
  (if listen then Ok () else Err NoConnection, s).

(** What [startLoops] starts, and what an accepted connection starts besides. *)
Inductive loop := ReadLoop | LinktestLoop | T7Timer | TTLTimer.

Definition startLoops (c : Config) : list loop :=
  [ReadLoop] ++ (if 0 <? LinktestInterval c then [LinktestLoop] else []) ++ (if 0 <? T7 c then [T7Timer] else []).

Definition accepted_loops (c : Config) : list loop :=
  startLoops c ++ (if 0 <? SessionTTL c then [TTLTimer] else []).

Definition Connect (network handshake : bool) (s : Session) : result send_error () * Session :=
  if decide (state s <> StateDisconnected) then (Err (CannotSendIn (state s)), s)
  else
    let s := set_state StateConnecting s in
    match cfg_Role (config s) with
    | RoleActive =>
        let '(r, s) := connectActive network handshake s in
        (r, set_state (if is_ok r then StateConnected else StateDisconnected) s)
    | RolePassive =>
        let '(r, s) := listenPassive network s in
        (r, if is_ok r then s else set_state StateDisconnected s)
    end.

(** One connection accepted from [ip]; a rejected peer leaves the listener
    waiting. *)
Definition acceptAndRun (ip : list Z) (s : Session) : Session :=
  if (0 <? len (AllowedPeers (config s))) && negb (isAllowed ip (AllowedPeers (config s)))
  then log_event (ConnectionRejected "IP not in allowlist") s
  else set_state StateConnected (set_conn (Some true) s).

(** The connection [Accept] returns. *)
Definition accept `{GoStrings.Net} (addr : net_addr) (s : Session) : Session := acceptAndRun (extractIP addr) s.

(** [Close]: only the first call has an effect. *)
Definition Close (s : Session) : Session :=
  if closed s then s
  else
    mkSession (config s) StateDisconnected ((fun _ => false) <$> conn s) (out s) (nextSystemID s)
      (pending s) (inbound s) true (audit s).

(** ** Transactions

    [sendAndWait] registers a channel, writes the request, and waits; the wait
    ends with what the channel holds, or with a time-out or cancellation. *)

Definition sendAndWait_begin (io : bool) (msg : Message) (s : Session) : result send_error Session :=
  writeMessage io msg (set_pending (<[SystemID (hdr msg) := None]> (pending s)) s).

Inductive wait := GotReply | TimedOut | CtxDone.

Definition sendAndWait_end (w : wait) (id : Z) (s : Session) : result send_error Message * Session :=
  let s' := set_pending (delete id (pending s)) s in
  (match w, pending s !! id with
   | GotReply, Some (Some rsp) => Ok rsp
   | CtxDone, _ => Err Cancelled
   | _, _ => Err (ReplyTimeout id)
   end, s').

(** A transaction whose request is not written: the channel is taken back, the
    number of the request stays used. *)
Definition withdraw (id : Z) (s : Session) : Session := set_pending (delete id (pending s)) s.

(** [Select], in two halves around the wait. *)
Definition Select_begin (io : bool) (s : Session) : result send_error Z * Session :=
  if decide (state s <> StateConnected) then (Err (CannotSendIn (state s)), s)
  else
    let '(id, s) := next_id s in
    match sendAndWait_begin io (NewSelectReq (cfg_SessionID (config s)) id) s with
    | Ok s' => (Ok id, s')
    | Err e => (Err e, withdraw id s)
    | Panic p => (Panic p, s)
    | OutOfFuel => (OutOfFuel, s)
    end.

Inductive select_error := SelectFailed (e : send_error) | UnexpectedType (t : Z) | Rejected (status : Z).

Definition Select_end (w : wait) (id : Z) (s : Session) : result select_error () * Session :=
  let '(r, s) := sendAndWait_end w id s in
  match r with
  | Ok rsp =>
      if negb (SType (hdr rsp) =? STypeSelectRsp) then (Err (UnexpectedType (SType (hdr rsp))), s)
      else if negb (Stream (hdr rsp) =? SelectStatusSuccess) then (Err (Rejected (Stream (hdr rsp))), s)
      else (Ok (), set_state StateSelected s)
  | Err e => (Err (SelectFailed e), s)
  | Panic p => (Panic p, s)
  | OutOfFuel => (OutOfFuel, s)
  end.

(** [SendMessage] waits for control requests and for primary messages with the
    wait bit. *)
Definition expects_reply (m : Message) : bool :=
  let t := SType (hdr m) in
  (t =? STypeLinktestReq) || (t =? STypeDeselectReq) || (t =? STypeSelectReq)
  || ((t =? STypeDataMessage) && WBit (hdr m) && (Function (hdr m) mod 2 =? 1)).

(** The whole call: [io] and the answer the wait ends with come from [env]. *)
Record answer := mkAnswer { ans_io : bool; ans_wait : wait; ans_reply : option Message }.

Definition SendMessage (env : answer) (msg : Message) (s : Session)
  : result send_error (option Message) * Session :=
  if bool_decide (state s <> StateSelected) && (SType (hdr msg) =? STypeDataMessage)
  then (Err (CannotSendIn (state s)), s)
  else
    let '(msg, s) :=
      if SystemID (hdr msg) =? 0 then let '(id, s) := next_id s in (with_system_id id msg, s) else (msg, s) in
    if expects_reply msg then
      match sendAndWait_begin (ans_io env) msg s with
      | Ok s1 =>
          let s1 := set_pending (<[SystemID (hdr msg) := ans_reply env]> (pending s1)) s1 in
          let '(r, s2) := sendAndWait_end (ans_wait env) (SystemID (hdr msg)) s1 in (Some <$> r, s2)
      | Err e => (Err e, withdraw (SystemID (hdr msg)) s)
      | Panic p => (Panic p, s)
      | OutOfFuel => (OutOfFuel, s)
      end
    else
      match writeMessage (ans_io env) msg s with
      | Ok s' => (Ok None, s')
      | Err e => (Err e, s)
      | Panic p => (Panic p, s)
      | OutOfFuel => (OutOfFuel, s)
      end.

Definition ReceiveMessage (s : Session) : option (Message * Session) :=
  match inbound s with
  | [] => None
  | m :: q => Some (m, set_inbound q s)
  end.

(** [Send] and [Receive]: the data of a message without function, identifier or wait. *)
Definition Send (io : bool) (data : list Z) (s : Session) : result send_error Session :=
  if decide (state s <> StateSelected) then Err (CannotSendIn (state s))
  else writeMessage io (mkMessage (mkHeader (cfg_SessionID (config s)) false 0 0 0 STypeDataMessage 0) data) s.

Definition Receive (s : Session) : option (list Z * Session) :=
  '(m, s) ← ReceiveMessage s; Some (Data m, s).

(** ** Incoming messages *)

(** A reply the peer's socket does not take is logged and forgotten. *)
Definition try_write (io : bool) (msg : Message) (s : Session) : Session := keep (writeMessage io msg s) s.

Definition rejectNotSelected (io : bool) (msg : Message) (s : Session) : Session :=
  let s := log_event (UnauthorizedMessage (Stream (hdr msg)) (Function (hdr msg))) s in
  try_write io (NewRejectReq (SessionID (hdr msg)) (SystemID (hdr msg)) STypeDataMessage
                  RejectReasonEntityNotSelected) s.

(** [handleSelectReq]: the response, then, if it was written, the new state;
    another goroutine may run in between. *)
Definition select_status (s : Session) : Z :=
  if decide (state s = StateSelected) then SelectStatusAlreadyActive else SelectStatusSuccess.

Definition select_respond (io : bool) (msg : Message) (s : Session) : result send_error Session :=
  writeMessage io (NewSelectRsp (SessionID (hdr msg)) (SystemID (hdr msg)) (select_status s)) s.

Definition select_commit (status : Z) (s : Session) : Session :=
  if status =? SelectStatusSuccess then set_state StateSelected s else s.

Definition handleSelectReq (io : bool) (msg : Message) (s : Session) : Session :=
  match select_respond io msg s with
  | Ok s' => select_commit (select_status s) s'
  | _ => s
  end.

Definition handleDeselectReq (io : bool) (msg : Message) (s : Session) : Session :=
  match writeMessage io (NewDeselectRsp (SessionID (hdr msg)) (SystemID (hdr msg)) 0) s with
  | Ok s' => set_state StateConnected s'
  | _ => s
  end.

Definition handleMessage (io : bool) (msg : Message) (s : Session) : Session :=
  match pending s !! SystemID (hdr msg) with
  | Some ch =>
      match ch with
      | None => set_pending (<[SystemID (hdr msg) := Some msg]> (pending s)) s
      | Some _ => s                          (* the channel is full *)
      end
  | None =>
      let t := SType (hdr msg) in
      if t =? STypeDataMessage then
        if decide (state s <> StateSelected) then rejectNotSelected io msg s
        else if len (inbound s) <? inboundCap then set_inbound (inbound s ++ [msg]) s
        else s
      else if t =? STypeSelectReq then handleSelectReq io msg s
      else if t =? STypeDeselectReq then handleDeselectReq io msg s
      else if t =? STypeLinktestReq then try_write io (NewLinktestRsp (SystemID (hdr msg))) s
      else if t =? STypeSeparateReq then Close s
      else s
  end.

(** One round of [readLoop]: [allowed] is the rate limiter's verdict. *)
Definition readLoop_round (io allowed : bool) (stream : list Z) (s : Session) : Session * list Z :=
  match readMessage (config s) stream with
  | Ok (msg, rest) =>
      if negb allowed then (log_event RateLimited s, rest) else (handleMessage io msg s, rest)
  | Err EOF => (Close s, [])
  | _ => (if closed s then s else Close (log_event MalformedMessage s), [])
  end.

(** The not-selected timer fires. *)
Definition t7_fires (s : Session) : Session :=
  if decide (state s = StateSelected) then s
  else if closed s then s
  else Close (log_event (ConnectionRejected "T7 not-selected timeout") s).

Definition ttl_fires (s : Session) : Session := Close (log_event SessionExpired s).

(** The linktest loop: a request on each tick of a connected session, and a
    close when it cannot be written or is not answered. *)
Definition linktest_tick (io : bool) (s : Session) : result send_error (option Z) * Session :=
  match state s with
  | StateDisconnected | StateConnecting => (Ok None, s)
  | _ =>
      let '(id, s) := next_id s in
      match sendAndWait_begin io (NewLinktestReq id) s with
      | Ok s' => (Ok (Some id), s')
      | Err e => (Err e, Close (withdraw id s))
      | Panic p => (Panic p, s)
      | OutOfFuel => (OutOfFuel, s)
      end
  end.

Definition linktest_done (w : wait) (id : Z) (s : Session) : Session :=
  let '(r, s) := sendAndWait_end w id s in if is_ok r then s else Close s.

(** ** The session as a [Sender]

    A session with the answers its environment will give; without answers no
    write succeeds. *)

Definition no_answer : answer := mkAnswer false TimedOut None.

Record World := mkWorld { sess : Session; answers : list answer }.

Definition world_send (m : Message) (w : World) : result send_error (option Message) * World :=
  let env := match answers w with a :: _ => a | [] => no_answer end in
  let '(r, s) := SendMessage env m (sess w) in (r, mkWorld s (tail (answers w))).

(** Two addresses are equal when their 16-byte forms are. *)
Definition To16 (ip : list Z) : list Z := if len ip =? 4 then v4InV6Prefix ++ ip else ip.

Lemma IP_Equal_To16 a b : IP_Equal a b = true <-> To16 a = To16 b.
Proof.
  assert (H12 : forall x y : list Z, len y = 4 -> len x = 16 -> bool_decide (take 12 x = v4InV6Prefix) && bool_decide (drop 12 x = y) = true
    <-> x = v4InV6Prefix ++ y).
  { intros x y Hy Hx. rewrite andb_true_iff, !bool_decide_eq_true. split.
    - intros [H1 H2]. by rewrite <- (take_drop 12 x), H1, H2.
    - intros ->. done. }
  unfold IP_Equal, To16. destruct (Z.eqb_spec (len a) (len b)) as [Hl|Hl].
  - rewrite bool_decide_eq_true, <- Hl. destruct (len a =? 4); [|done]. split; [by intros -> | by intros ?%app_inv_head].
  - assert (Hlen : forall x : list Z, len x = 4 -> len (v4InV6Prefix ++ x) = 16) by (intros x Hx; rewrite len_app, Hx; reflexivity).
    destruct (Z.eqb_spec (len a) 4) as [Ha|Ha], (Z.eqb_spec (len b) 16) as [Hb|Hb]; cbn [andb].
    + replace (len b =? 4) with false by (by rewrite Hb). rewrite (bool_decide_ext (a = drop 12 b) (drop 12 b = a)) by (split; congruence).
      rewrite H12 by done. split; congruence.
    + replace (len a =? 16) with false by (symmetry; apply Z.eqb_neq; lia). cbn [andb].
      destruct (Z.eqb_spec (len b) 4); [lia|]. split; [done|]. intros <-. by rewrite Hlen in Hb.
    + destruct (Z.eqb_spec (len a) 16); [lia|]. cbn [andb]. replace (len b =? 4) with false by (by rewrite Hb). split; [done | intros ->; done].
    + destruct (Z.eqb_spec (len a) 16) as [Ha'|Ha'], (Z.eqb_spec (len b) 4) as [Hb'|Hb']; cbn [andb].
      * by apply H12.
      * split; [done | intros ->; done].
      * split; [done | intros ->; by rewrite Hlen in Ha'].
      * split; [done | intros ->; done].
Qed.

(** An active session that connects, a passive one that listens, and one that does not. *)
Lemma Connect_active s :
  state s = StateDisconnected -> cfg_Role (config s) = RoleActive ->
  exists s', Connect true true s = (Ok (), s') /\ state s' = StateConnected /\ conn s' = Some true /\ closed s' = closed s
    /\ config s' = config s.
Proof.
  intros Hs Hr. unfold Connect. rewrite decide_False by (rewrite Hs; naive_solver). change (cfg_Role _) with (cfg_Role (config s)). rewrite Hr.
  unfold connectActive. cbn [negb]. destruct (TLS (config (set_state StateConnecting s))); eexists; by split_and!.
Qed.

Lemma Connect_passive h s :
  state s = StateDisconnected -> cfg_Role (config s) = RolePassive -> Connect true h s = (Ok (), set_state StateConnecting s).
Proof.
  intros Hs Hr. unfold Connect. rewrite decide_False by (rewrite Hs; naive_solver). change (cfg_Role _) with (cfg_Role (config s)). by rewrite Hr.
Qed.

Lemma Connect_fails n h s : is_ok (Connect n h s).1 = false -> state (Connect n h s).2 = state s.
Proof.
  unfold Connect. case_decide as Hd; [done|]. assert (state s = StateDisconnected) as Hs by (by destruct (state s); try (exfalso; apply Hd)).
  rewrite Hs. change (cfg_Role _) with (cfg_Role (config s)). destruct (cfg_Role (config s)).
  - destruct (connectActive n h _) as [[]]; done.
  - destruct (listenPassive n _) as [[]]; done.
Qed.

Lemma writeMessage_ok io m s s' :
  writeMessage io m s = Ok s' ->
  exists data, MarshalBinary m = Ok data /\ conn s = Some true /\ io = true
    /\ s' = mkSession (config s) (state s) (conn s) (out s ++ [(m, data)]) (nextSystemID s) (pending s)
              (inbound s) (closed s) (audit s).
Proof.
  unfold writeMessage. destruct (MarshalBinary m) as [d| | |]; try done.
  destruct (conn s) as [[]|] eqn:Hc; try done. destruct io; [| done]. cbn [andb].
  intros <-%Ok_inj. rewrite <- Hc. eauto.
Qed.

(** [SendMessage] writes its message at most once, and reports success only for
    a message written while selected. *)
Lemma SendMessage_effect env m s :
  let '(r, s') := SendMessage env m s in
  ((out s' = out s /\ is_ok r = false)
   \/ exists id data, out s' = out s ++ [(with_system_id id m, data)]
        /\ MarshalBinary (with_system_id id m) = Ok data
        /\ (SystemID (hdr m) <> 0 -> id = SystemID (hdr m))
        /\ (SystemID (hdr m) = 0 -> id = wrap 32 (nextSystemID s + 1)))
  /\ (SType (hdr m) = STypeDataMessage -> state s <> StateSelected -> out s' = out s).
Proof.
  unfold SendMessage. destruct (bool_decide (state s <> StateSelected) && (SType (hdr m) =? STypeDataMessage)) eqn:Hg.
  { split; [by left | done]. }
  assert (Hsel : SType (hdr m) = STypeDataMessage -> state s <> StateSelected -> False).
  { intros Ht Hs. rewrite (bool_decide_eq_true_2 _ Hs), Ht in Hg. discriminate Hg. }
  assert (Hm : exists id s0, (if SystemID (hdr m) =? 0 then let '(id, s) := next_id s in (with_system_id id m, s) else (m, s))
      = (with_system_id id m, s0) /\ out s0 = out s
      /\ (SystemID (hdr m) <> 0 -> id = SystemID (hdr m)) /\ (SystemID (hdr m) = 0 -> id = wrap 32 (nextSystemID s + 1))).
  { destruct (Z.eqb_spec (SystemID (hdr m)) 0) as [Hz|Hz].
    - exists (wrap 32 (nextSystemID s + 1)). eexists. split; [reflexivity |]. by split_and!.
    - exists (SystemID (hdr m)), s. by rewrite with_own_system_id. }
  destruct Hm as (id & s0 & -> & Hout & Hid1 & Hid2). set (m' := with_system_id id m).
  assert (Hres : forall r s', (out s' = out s0 /\ is_ok r = false)
      \/ (exists data, out s' = out s0 ++ [(m', data)] /\ MarshalBinary m' = Ok data) ->
    ((out s' = out s /\ is_ok (E:=send_error) (A:=option Message) r = false)
     \/ exists id data, out s' = out s ++ [(with_system_id id m, data)]
        /\ MarshalBinary (with_system_id id m) = Ok data
        /\ (SystemID (hdr m) <> 0 -> id = SystemID (hdr m))
        /\ (SystemID (hdr m) = 0 -> id = wrap 32 (nextSystemID s + 1)))
    /\ (SType (hdr m) = STypeDataMessage -> state s <> StateSelected -> out s' = out s)).
  { intros r s' Hor. rewrite Hout in Hor. split; [| intros Ht Hs; by destruct (Hsel Ht Hs)].
    destruct Hor as [Hor|(data & Ho & Hd)]; [by left | right; exists id, data; by split_and!]. }
  destruct (expects_reply m').
  - unfold sendAndWait_begin. set (s1 := set_pending _ s0).
    destruct (writeMessage (ans_io env) m' s1) as [s2|e|p|] eqn:Hw; try (apply Hres; by left).
    apply writeMessage_ok in Hw as (data & Hd & _ & _ & ->). unfold sendAndWait_end. apply Hres.
    right. exists data. by split.
  - destruct (writeMessage (ans_io env) m' s0) as [s2|e|p|] eqn:Hw; try (apply Hres; by left).
    apply writeMessage_ok in Hw as (data & Hd & _ & _ & ->). apply Hres. right. exists data. by split.
Qed.

#[export] Program Instance session_sender : Sender World :=
  {| send_message := world_send; written := fun w => (out (sess w)).*1 |}.
Next Obligation.
  intros m w. unfold world_send. set (env := match answers w with a :: _ => a | [] => no_answer end).
  pose proof (SendMessage_effect env m (sess w)) as He.
  destruct (SendMessage env m (sess w)) as [r s]. destruct He as [[[Ho Hr]|(id & data & Ho & _ & Hid & _)] _]; simpl.
  - left. by rewrite Ho.
  - right. exists id. rewrite Ho, fmap_app. by split.
Qed.
