(* ===== verification/HsmsProtocol.v ===== *)
(** * Properties of HSMS sessions

    Framing, the select guard, routing, transactions and shutdown of the model
    in [HsmsSession] of [src/pkg/transport/hsms/session.go]. *)

From stdpp Require Import prelude relations gmap strings list.
From Stdlib Require Import ZArith Lia.
From S2P Require Import Prelude Lifecycle HsmsMessage Transport HsmsSession.

#[local] Open Scope Z_scope.

(** ** Framing *)

(** A message whose frame the receiver's size limit admits. *)
Definition frame_ok (c : Config) (m : Message) : Prop :=
  message_ok m = true /\ 10 + len (Data m) <= maxMessageSize c.

(** The frames of a list of messages, one after the other. *)
Fixpoint frames (ms : list Message) : list Z :=
  match ms with
  | [] => []
  | m :: ms' => match MarshalBinary m with Ok f => f ++ frames ms' | _ => frames ms' end
  end.

Fixpoint read_all (c : Config) (n : nat) (stream : list Z) : result read_error (list Message * list Z) :=
  match n with
  | O => Ok ([], stream)
  | S n' => '(m, rest) ← readMessage c stream; '(ms, rest) ← read_all c n' rest; Ok (m :: ms, rest)
  end.

Lemma ReadFull_app n a b : len a = n -> ReadFull n (a ++ b) = Ok (a, b).
Proof.
  intros <-. unfold ReadFull. rewrite len_app, (proj2 (Z.ltb_ge _ _)) by (pose proof (len_nonneg b); lia).
  unfold len. by rewrite Nat2Z.id, take_app_length, drop_app_length.
Qed.

Lemma read_frame c m rest :
  frame_ok c m -> exists f, MarshalBinary m = Ok f /\ readMessage c (f ++ rest) = Ok (on_wire m, rest).
Proof.
  intros [Hm Hsize]. pose proof Hm as Hm'. unfold message_ok in Hm'.
  rewrite !andb_true_iff, Z.ltb_lt in Hm'. destruct Hm' as [_ Hlen]. pose proof (len_nonneg (Data m)) as Hd.
  eexists. split; [by apply marshal_frame |].
  assert (Hun := marshal_frame m Hlen). apply (marshal_unmarshal m _ []) in Hun as [Hun _]; [| done].
  rewrite app_nil_r in Hun.
  set (lb := be_bytes 4 (10 + len (Data m))) in *. set (body := header_bytes (hdr m) ++ Data m) in *.
  assert (Hbody : len body = 10 + len (Data m)) by (unfold body; by rewrite len_app, len_header_bytes).
  unfold readMessage. rewrite <- app_assoc, ReadFull_app by apply len_be_bytes. cbn [mbind result_bind].
  replace (be_uint 4 lb) with (Ok (E:=read_error) (10 + len (Data m)))
    by (unfold lb; rewrite <- (app_nil_r (be_bytes 4 _)), be_uint_app by (simpl; lia); done).
  cbn [mbind result_bind]. unfold headerLen.
  rewrite (proj2 (Z.ltb_ge (10 + len (Data m)) 10)), (proj2 (Z.ltb_ge (maxMessageSize c) (10 + len (Data m)))) by lia.
  rewrite wrap_small by lia. rewrite ReadFull_app by lia. cbn [mbind result_bind].
  by rewrite Hun.
Qed.

(** C12: The frames of any sequence of admissible messages are read back as those
    messages, one at a time and without a byte lost or left over, whatever
    follows them on the stream. *)
Theorem stream_round_trip c ms rest :
  Forall (frame_ok c) ms -> read_all c (length ms) (frames ms ++ rest) = Ok (on_wire <$> ms, rest).
Proof.
  induction 1 as [|m ms Hm _ IH]; [done |].
  destruct (read_frame c m (frames ms ++ rest) Hm) as (f & Hf & Hr).
  cbn [frames length read_all]. rewrite Hf, <- app_assoc, Hr. cbn [mbind result_bind].
  by rewrite IH.
Qed.

Lemma stream_round_trip_witness :
  let c := DefaultConfig "" RolePassive 1 in
  let ms := [NewSelectReq 1 1; NewDataMessage 1 1 13 true 2 [1; 0]] in
  Forall (frame_ok c) ms
  /\ read_all c 2 (frames ms ++ [0; 0]) = Ok (on_wire <$> ms, [0; 0]).
Proof.
  intros c ms. assert (H : Forall (frame_ok c) ms) by (repeat constructor; by vm_compute).
  split; [exact H |]. exact (stream_round_trip c ms [0; 0] H).
Defined.

(** [readMessage] returns on every byte stream, and a message it accepts is
    well formed, consumed from the front of the stream, and no larger than the
    configured maximum, which bounds what a peer can make the session
    allocate. *)
Theorem read_total c stream :
  bytes_ok stream = true -> maxMessageSize c < 2 ^ 32 - 4 ->
  post (readMessage c stream) (fun '(m, rest) =>
    message_ok m = true /\ 10 + len (Data m) <= maxMessageSize c
    /\ exists used, stream = used ++ rest /\ 14 <= len used <= 4 + maxMessageSize c).
Proof.
  intros Hb Hmax. unfold readMessage, ReadFull.
  destruct (Z.ltb_spec (len stream) 4) as [|H4]; [by destruct (len stream =? 0) |]. cbn [mbind result_bind].
  set (lb := take (Z.to_nat 4) stream). set (rest := drop (Z.to_nat 4) stream).
  assert (Hsplit : stream = lb ++ rest) by (symmetry; apply take_drop).
  assert (Hlb : len lb = 4) by (unfold lb, len in *; rewrite length_take; lia).
  rewrite Hsplit, bytes_ok_app, andb_true_iff in Hb. destruct Hb as [Hblb Hbrest].
  post_step (be_uint_post 4 lb) as msgLen Hml; [unfold len in Hlb; lia | done |].
  unfold headerLen. destruct (Z.ltb_spec msgLen 10); [done |].
  destruct (Z.ltb_spec (maxMessageSize c) msgLen); [done |].
  rewrite wrap_small by lia. replace (4 + msgLen - 4) with msgLen by lia.
  destruct (Z.ltb_spec (len rest) msgLen); [by destruct (len rest =? 0) |]. cbn [mbind result_bind].
  set (body := take (Z.to_nat msgLen) rest). set (tl := drop (Z.to_nat msgLen) rest).
  assert (Hrest : rest = body ++ tl) by (symmetry; apply take_drop).
  assert (Hbody : len body = msgLen) by (unfold body, len in *; rewrite length_take; lia).
  rewrite Hrest, bytes_ok_app, andb_true_iff in Hbrest. destruct Hbrest as [Hbb _].
  pose proof (unmarshal_total zeroMessage (lb ++ body)) as Hu.
  rewrite bytes_ok_app, Hblb, Hbb, len_app, Hlb, Hbody in Hu. specialize (Hu eq_refl ltac:(lia) eq_refl).
  eapply post_bind; [apply post_wrap, Hu |]. intros m (Hm & _ & Hd). simpl.
  split; [done |]. split.
  - destruct Hd as [->|Hd]; [change (len (Data zeroMessage)) with 0; lia | lia].
  - exists (lb ++ body). rewrite len_app, Hlb, Hbody, Hsplit, Hrest, app_assoc. split; [done | lia].
Qed.

Lemma read_total_witness :
  let c := DefaultConfig "" RolePassive 1 in
  let stream := [255; 255; 255; 255; 0; 0] in
  bytes_ok stream = true /\ maxMessageSize c < 2 ^ 32 - 4
  /\ post (readMessage c stream) (fun '(m, rest) =>
       message_ok m = true /\ 10 + len (Data m) <= maxMessageSize c
       /\ exists used, stream = used ++ rest /\ 14 <= len used <= 4 + maxMessageSize c).
Proof.
  intros c stream. assert (H : maxMessageSize c < 2 ^ 32 - 4) by (by vm_compute).
  split_and!; [reflexivity | exact H |]. exact (read_total c stream eq_refl H).
Defined.

(** ** Routing *)

Lemma try_write_fields io m s :
  let s' := try_write io m s in
  state s' = state s /\ inbound s' = inbound s /\ pending s' = pending s /\ conn s' = conn s
  /\ closed s' = closed s /\ audit s' = audit s.
Proof.
  unfold try_write. destruct (writeMessage io m s) as [s'| | |] eqn:Hw; try by split_and!.
  apply writeMessage_ok in Hw as (? & _ & _ & _ & ->). by split_and!.
Qed.

Lemma respond_fields io m s s' :
  writeMessage io m s = Ok s' ->
  state s' = state s /\ inbound s' = inbound s /\ pending s' = pending s /\ conn s' = conn s
  /\ closed s' = closed s /\ audit s' = audit s.
Proof. intros (? & _ & _ & _ & ->)%writeMessage_ok. by split_and!. Qed.

(** The part of a session one incoming message may change. *)
Lemma handleMessage_fields io msg s :
  let s' := handleMessage io msg s in
  (inbound s' = inbound s
   \/ (pending s !! SystemID (hdr msg) = None /\ SType (hdr msg) = STypeDataMessage
       /\ state s = StateSelected /\ len (inbound s) < inboundCap /\ inbound s' = inbound s ++ [msg]))
  /\ (state s' = state s
      \/ (state s' = StateSelected /\ SType (hdr msg) = STypeSelectReq)
      \/ (state s' = StateConnected /\ SType (hdr msg) = STypeDeselectReq)
      \/ (state s' = StateDisconnected /\ SType (hdr msg) = STypeSeparateReq)).
Proof.
  unfold handleMessage. destruct (pending s !! SystemID (hdr msg)) as [[r|]|]; [by split; left.. |].
  destruct (Z.eqb_spec (SType (hdr msg)) STypeDataMessage).
  { case_decide as Hs.
    - unfold rejectNotSelected.
      destruct (try_write_fields io (NewRejectReq (SessionID (hdr msg)) (SystemID (hdr msg)) STypeDataMessage
        RejectReasonEntityNotSelected) (log_event (UnauthorizedMessage (Stream (hdr msg)) (Function (hdr msg))) s))
        as (-> & -> & _). by split; left.
    - destruct (Z.ltb_spec (len (inbound s)) inboundCap); [| by split; left].
      split; [right | by left]. split_and!; try done; by destruct (decide (state s = StateSelected)). }
  destruct (Z.eqb_spec (SType (hdr msg)) STypeSelectReq).
  { unfold handleSelectReq, select_respond. destruct (writeMessage _ _ s) as [s'| | |] eqn:Hw; [| by split; left..].
    apply respond_fields in Hw as (Hst & Hin & _). unfold select_commit.
    destruct (select_status s =? SelectStatusSuccess); cbn; [| split; by left].
    split; [by left | right; by left]. }
  destruct (Z.eqb_spec (SType (hdr msg)) STypeDeselectReq).
  { unfold handleDeselectReq. destruct (writeMessage _ _ s) as [s'| | |] eqn:Hw; [| by split; left..].
    apply respond_fields in Hw as (Hst & Hin & _). split; [by left | right; right; by left]. }
  destruct (SType (hdr msg) =? STypeLinktestReq).
  { destruct (try_write_fields io (NewLinktestRsp (SystemID (hdr msg))) s) as (-> & -> & _). by split; left. }
  destruct (Z.eqb_spec (SType (hdr msg)) STypeSeparateReq); [| by split; left].
  unfold Close. destruct (closed s); [by split; left |]. split; [by left | right; right; by right].
Qed.

(** ** Runs *)

(** What may happen to a session: incoming messages, the application's requests
    and reads, the timers, and [Close], in any order. *)
Inductive event :=
| evAccept (ip : list Z)
| evReceived (io : bool) (msg : Message)
| evDropped
| evMalformed
| evSelectBegin (io : bool)
| evSelectEnd (w : wait) (id : Z)
| evSend (env : answer) (msg : Message)
| evTake
| evT7
| evTTL
| evLinktest (io : bool)
| evLinktestDone (w : wait) (id : Z)
| evClose.

Definition run_event (e : event) (s : Session) : Session :=
  match e with
  | evAccept ip => acceptAndRun ip s
  | evReceived io msg => handleMessage io msg s
  | evDropped => log_event RateLimited s
  | evMalformed => if closed s then s else Close (log_event MalformedMessage s)
  | evSelectBegin io => (Select_begin io s).2
  | evSelectEnd w id => (Select_end w id s).2
  | evSend env msg => (SendMessage env msg s).2
  | evTake => match ReceiveMessage s with Some (_, s') => s' | None => s end
  | evT7 => t7_fires s
  | evTTL => ttl_fires s
  | evLinktest io => (linktest_tick io s).2
  | evLinktestDone w id => linktest_done w id s
  | evClose => Close s
  end.

(** Neither side has selected: no [Select.req] arrives and no [Select] ends. *)
Definition unselecting (e : event) : Prop :=
  match e with
  | evReceived _ msg => SType (hdr msg) <> STypeSelectReq
  | evSelectEnd _ _ => False
  | _ => True
  end.

Definition quiet_step (s s' : Session) : Prop := exists e, unselecting e /\ s' = run_event e s.

(** The state and the inbound queue; the other operations leave them alone or
    disconnect. *)
Definition no_data (s : Session) : Prop := state s <> StateSelected /\ inbound s = [].

Lemma no_data_close s : no_data s -> no_data (Close s).
Proof. unfold no_data, Close. intros [? ?]. by destruct (closed s). Qed.

Lemma no_data_same s s' : no_data s -> state s' = state s -> inbound s' = inbound s -> no_data s'.
Proof. unfold no_data. by intros [? ?] -> ->. Qed.

Lemma begin_fields io m s s' :
  sendAndWait_begin io m s = Ok s' -> state s' = state s /\ inbound s' = inbound s /\ closed s' = closed s.
Proof. unfold sendAndWait_begin. intros (? & ? & _ & _ & ? & _)%respond_fields. done. Qed.

Lemma Select_begin_fields io s :
  let s' := (Select_begin io s).2 in state s' = state s /\ inbound s' = inbound s /\ closed s' = closed s.
Proof.
  unfold Select_begin. case_decide; [done |]. cbn [next_id].
  destruct (sendAndWait_begin _ _ _) as [s'| | |] eqn:Hb; try done. by apply begin_fields in Hb.
Qed.

(** A tick whose request is not written closes the session. *)
Lemma linktest_tick_fields io s :
  let s' := (linktest_tick io s).2 in
  (state s' = state s /\ inbound s' = inbound s /\ closed s' = closed s)
  \/ exists s1, s' = Close s1 /\ state s1 = state s /\ inbound s1 = inbound s.
Proof.
  unfold linktest_tick. cbn [next_id].
  assert (H : forall r, r = match sendAndWait_begin io (NewLinktestReq (wrap 32 (nextSystemID s + 1))) (next_id s).2 with
    | Ok s' => (Ok (Some (wrap 32 (nextSystemID s + 1))), s')
    | Err e => (Err e, Close (withdraw (wrap 32 (nextSystemID s + 1)) (next_id s).2))
    | Panic p => (Panic p, (next_id s).2)
    | OutOfFuel => (OutOfFuel, (next_id s).2)
    end -> (state r.2 = state s /\ inbound r.2 = inbound s /\ closed r.2 = closed s)
           \/ exists s1, r.2 = Close s1 /\ state s1 = state s /\ inbound s1 = inbound s).
  { intros r ->. destruct (sendAndWait_begin _ _ _) as [s'| | |] eqn:Hb; [| right; by eexists | by left..].
    left. by apply begin_fields in Hb. }
  destruct (state s) eqn:Hs; try (left; by split_and!); rewrite <- Hs in *; by apply H.
Qed.

Lemma SendMessage_fields env m s :
  let s' := (SendMessage env m s).2 in state s' = state s /\ inbound s' = inbound s /\ closed s' = closed s.
Proof.
  unfold SendMessage. destruct (bool_decide _ && _); [done |].
  assert (Hm : forall b : bool, let r := (if b then let '(id, s) := next_id s in (with_system_id id m, s) else (m, s)) in
    state r.2 = state s /\ inbound r.2 = inbound s /\ closed r.2 = closed s) by (by intros []).
  specialize (Hm (SystemID (hdr m) =? 0)). cbv zeta in Hm.
  destruct (if SystemID (hdr m) =? 0 then _ else _) as [m' s0]. simpl in Hm. destruct Hm as (H1 & H2 & H3).
  destruct (expects_reply m').
  - destruct (sendAndWait_begin (ans_io env) m' s0) as [s1|e|p|] eqn:Hw; try (by split_and!).
    apply begin_fields in Hw as (Ha & Hb & Hc). unfold sendAndWait_end. simpl. split_and!; congruence.
  - destruct (writeMessage (ans_io env) m' s0) as [s1|e|p|] eqn:Hw; try (by split_and!).
    apply respond_fields in Hw as (Ha & Hb & _ & _ & Hc & _). simpl. split_and!; congruence.
Qed.

Lemma no_data_step s s' : quiet_step s s' -> no_data s -> no_data s'.
Proof.
  intros (e & Hq & ->) Hn. destruct e as [ip|io msg| | |io|w id|env msg| | | |io|w id|]; cbn [run_event unselecting] in *.
  - unfold acceptAndRun. destruct (_ && _); [done |]. by destruct Hn.
  - destruct (handleMessage_fields io msg s) as [Hin Hst]. destruct Hn as [Hs Hq0]. split.
    + destruct Hst as [->|[[_ ?]|[[-> _]|[-> _]]]]; done.
    + destruct Hin as [->|(_ & _ & ? & _)]; done.
  - done.
  - destruct (closed s); [done |]. by apply no_data_close.
  - destruct (Select_begin_fields io s) as (? & ? & _). by apply (no_data_same s).
  - done.
  - destruct (SendMessage_fields env msg s) as (? & ? & _). by apply (no_data_same s).
  - unfold ReceiveMessage. destruct Hn as [? Hq0]. by rewrite Hq0.
  - unfold t7_fires. case_decide; [done |]. destruct (closed s); [done |]. by apply no_data_close.
  - unfold ttl_fires. by apply no_data_close.
  - destruct (linktest_tick_fields io s) as [(? & ? & _)|(s' & -> & ? & ?)];
      [by apply (no_data_same s) | by apply no_data_close, (no_data_same s)].
  - unfold linktest_done, sendAndWait_end. destruct (is_ok _); [done |]. by apply no_data_close.
  - by apply no_data_close.
Qed.

(** ** Properties of runs *)

(** C2: No data reaches the application before the session is selected: from a
    new session, whatever a peer sends and whatever the timers and the
    application do, as long as no [Select.req] arrives and no [Select] completes,
    the session is not selected and nothing is ever queued. *)
Theorem no_data_before_select c s :
  rtc quiet_step (NewSession c) s -> state s <> StateSelected /\ inbound s = [] /\ ReceiveMessage s = None.
Proof.
  intros Hr. assert (Hn : no_data s).
  { apply (invariant_rtc quiet_step no_data (NewSession c)); [apply no_data_step | by split | done]. }
  destruct Hn as [Hs Hq]. unfold ReceiveMessage. by rewrite Hq.
Qed.

Lemma no_data_before_select_witness :
  let c := DefaultConfig "" RolePassive 1 in
  let s := handleMessage true (NewDataMessage 1 2 41 true 9 [1; 0]) (acceptAndRun [] (NewSession c)) in
  rtc quiet_step (NewSession c) s
  /\ state s <> StateSelected /\ inbound s = [] /\ ReceiveMessage s = None.
Proof.
  intros c s. assert (Hr : rtc quiet_step (NewSession c) s).
  { apply rtc_r with (acceptAndRun [] (NewSession c)); [apply rtc_once; by exists (evAccept []) |].
    exists (evReceived true (NewDataMessage 1 2 41 true 9 [1; 0])). split; [by vm_compute | reflexivity]. }
  split; [exact Hr |]. exact (no_data_before_select c s Hr).
Defined.

(** What the session does on a message that answers no pending request, by message
    type.  Types it does not know and responses nothing waits for are ignored,
    where E37 has a Reject.req for each (reasons 1 and 3 of
    [HsmsMessage]), and a [Deselect.req] is answered with status 0 also when the
    session is not selected. *)
Lemma routing_spec msg s :
  pending s !! SystemID (hdr msg) = None -> conn s = Some true ->
  let s' := handleMessage true msg s in
  let sid := SessionID (hdr msg) in
  let id := SystemID (hdr msg) in
  (SType (hdr msg) = STypeDataMessage -> state s <> StateSelected ->
     (out s').*1 = (out s).*1 ++ [NewRejectReq sid id STypeDataMessage RejectReasonEntityNotSelected]
     /\ inbound s' = inbound s /\ state s' = state s
     /\ audit s' = UnauthorizedMessage (Stream (hdr msg)) (Function (hdr msg)) :: audit s)
  /\ (SType (hdr msg) = STypeDataMessage -> state s = StateSelected ->
     inbound s' = (if len (inbound s) <? inboundCap then inbound s ++ [msg] else inbound s) /\ out s' = out s)
  /\ (SType (hdr msg) = STypeSelectReq ->
     state s' = StateSelected
     /\ (out s').*1 = (out s).*1 ++ [NewSelectRsp sid id
          (if decide (state s = StateSelected) then SelectStatusAlreadyActive else SelectStatusSuccess)])
  /\ (SType (hdr msg) = STypeDeselectReq ->
     state s' = StateConnected /\ (out s').*1 = (out s).*1 ++ [NewDeselectRsp sid id 0])
  /\ (SType (hdr msg) = STypeLinktestReq ->
     state s' = state s /\ (out s').*1 = (out s).*1 ++ [NewLinktestRsp id])
  /\ (SType (hdr msg) = STypeSeparateReq -> closed s = false -> s' = Close s /\ closed s' = true)
  /\ (SType (hdr msg) ∉ [STypeDataMessage; STypeSelectReq; STypeDeselectReq; STypeLinktestReq; STypeSeparateReq] ->
     s' = s).
Proof.
  intros Hp Hc s' sid id. unfold s', handleMessage. rewrite Hp. clear s'.
  assert (Hw : forall m s0, Data m = [] -> conn s0 = Some true ->
    exists s1, writeMessage true m s0 = Ok s1 /\ (out s1).*1 = (out s0).*1 ++ [m] /\ state s1 = state s0
      /\ inbound s1 = inbound s0 /\ audit s1 = audit s0).
  { intros m s0 Hm Hc0. unfold writeMessage. rewrite marshal_frame by (rewrite Hm; by vm_compute).
    rewrite Hc0. eexists. split; [done |]. simpl. by rewrite fmap_app. }
  split_and!; intros Ht.
  - intros Hs. rewrite Ht. eval_codes. rewrite decide_True by done. unfold rejectNotSelected, try_write.
    edestruct Hw as (s1 & -> & Ho & Hst & Hin & Hau); [done | exact Hc |]. simpl in *. by split_and!.
  - intros Hs. rewrite Ht. eval_codes. rewrite decide_False by (by intros []).
    by destruct (len (inbound s) <? inboundCap).
  - rewrite Ht. eval_codes. unfold handleSelectReq, select_respond, select_commit, select_status.
    edestruct Hw as (s1 & -> & Ho & Hst & Hin & Hau); [done | exact Hc |].
    destruct (decide (state s = StateSelected)) as [Hs|Hs]; simpl; split; try exact Ho; congruence.
  - rewrite Ht. eval_codes. unfold handleDeselectReq.
    edestruct Hw as (s1 & -> & Ho & Hst & Hin & Hau); [done | exact Hc |]. by split.
  - rewrite Ht. eval_codes. unfold try_write.
    edestruct Hw as (s1 & -> & Ho & Hst & Hin & Hau); [done | exact Hc |]. by split.
  - intros Hcl. rewrite Ht. eval_codes. unfold Close. by rewrite Hcl.
  - rewrite !not_elem_of_cons in Ht. destruct Ht as (H1 & H2 & H3 & H4 & H5 & _).
    by rewrite !(proj2 (Z.eqb_neq _ _)).
Qed.

(** ** Transactions *)

Definition receive_all (msgs : list (bool * Message)) (s : Session) : Session :=
  foldl (fun s '(io, m) => handleMessage io m s) s msgs.

Lemma handleMessage_pending io msg s id :
  id <> SystemID (hdr msg) -> pending (handleMessage io msg s) !! id = pending s !! id.
Proof.
  intros Hne. unfold handleMessage. destruct (pending s !! SystemID (hdr msg)) as [[r|]|]; [done | |].
  { simpl. by rewrite lookup_insert_ne. }
  repeat case_decide; repeat case_match; try done; unfold rejectNotSelected, handleSelectReq,
    handleDeselectReq, select_respond, select_commit, Close;
    repeat match goal with
    | |- context [try_write ?a ?b ?c] => destruct (try_write_fields a b c) as (_ & _ & -> & _)
    | |- context [writeMessage ?a ?b ?c] =>
        let H := fresh in destruct (writeMessage a b c) as [?| | |] eqn:H; [apply respond_fields in H as (_ & _ & H & _) |..]
    | |- context [if ?b then _ else _] => destruct b
    end; simpl; congruence.
Qed.

(** C19: A transaction ends with the first message that carries its system id,
    however many others arrive in between, and its channel is gone afterwards.
    The message's type is not looked at: a primary message that happens to carry
    the same id is taken for the reply, is not handled, and is not answered. *)
Theorem transaction_reply req s s1 others io rsp :
  sendAndWait_begin true req s = Ok s1 ->
  Forall (fun x => SystemID (hdr x.2) <> SystemID (hdr req)) others ->
  SystemID (hdr rsp) = SystemID (hdr req) ->
  let s2 := receive_all others s1 in
  let s3 := handleMessage io rsp s2 in
  out s3 = out s2 /\ inbound s3 = inbound s2 /\ state s3 = state s2
  /\ (sendAndWait_end GotReply (SystemID (hdr req)) s3).1 = Ok rsp
  /\ pending (sendAndWait_end GotReply (SystemID (hdr req)) s3).2 !! SystemID (hdr req) = None.
Proof.
  intros Hb Ho Hr s2 s3. set (id := SystemID (hdr req)) in *.
  assert (Hp1 : pending s1 !! id = Some None).
  { unfold sendAndWait_begin in Hb. apply respond_fields in Hb as (_ & _ & -> & _).
    simpl. by rewrite lookup_insert_eq. }
  assert (Hp2 : pending s2 !! id = Some None).
  { unfold s2. clear s2 s3. clear Hb. revert s1 Hp1. induction Ho as [|[b m] l Hm _ IH]; intros s1 Hp1; [done |].
    cbn [receive_all foldl]. apply IH. by rewrite handleMessage_pending by (simpl in Hm; congruence). }
  assert (Hs3 : s3 = set_pending (<[id := Some rsp]> (pending s2)) s2).
  { unfold s3, handleMessage. by rewrite Hr, Hp2. }
  rewrite Hs3. unfold sendAndWait_end. simpl. rewrite lookup_insert_eq. split_and!; try done.
  by rewrite lookup_delete_eq.
Qed.

Lemma transaction_reply_witness :
  let s := set_state StateSelected (set_conn (Some true) (NewSession (DefaultConfig "" RolePassive 1))) in
  let req := NewDataMessage 1 6 11 true 4 [1; 0] in
  let primary := NewDataMessage 1 1 1 true 4 [] in
  match sendAndWait_begin true req s with
  | Ok s1 =>
      let s3 := handleMessage true primary s1 in
      out s3 = out s1 /\ inbound s3 = [] /\ (sendAndWait_end GotReply 4 s3).1 = Ok primary
  | _ => False
  end.
Proof.
  intros s req primary. destruct (sendAndWait_begin true req s) as [s1| | |] eqn:E; [| by vm_compute in E..].
  destruct (transaction_reply req s s1 [] true primary E (Forall_nil_2 _) eq_refl) as (H1 & H2 & _ & H4 & _).
  cbn [receive_all foldl] in *. cbv zeta. split_and!; [exact H1 | | exact H4].
  rewrite H2. unfold sendAndWait_begin in E. apply respond_fields in E as (_ & -> & _). reflexivity.
Defined.

(** ** Two sessions

    The frames that one session writes, read by the other. *)

















(** ** Closed sessions *)

(** Closed, disconnected, and with no open connection left. *)
Definition shut (s : Session) : Prop :=
  closed s = true /\ state s = StateDisconnected /\ conn s <> Some true.

Lemma shut_no_write io m s : conn s <> Some true -> forall s', writeMessage io m s <> Ok s'.
Proof. intros Hc s' (? & _ & Hc' & _)%writeMessage_ok. done. Qed.

Lemma shut_Close s : closed s = true -> Close s = s.
Proof. intros H. unfold Close. by rewrite H. Qed.

Lemma shut_try_write io m s : conn s <> Some true -> try_write io m s = s.
Proof.
  intros Hc. unfold try_write. destruct (writeMessage io m s) eqn:E; try done.
  by destruct (shut_no_write io m s Hc _ E).
Qed.

Lemma shut_handle io msg s :
  shut s -> shut (handleMessage io msg s) /\ out (handleMessage io msg s) = out s.
Proof.
  intros (Hcl & Hst & Hco). assert (Hs : shut s) by done. unfold handleMessage.
  destruct (pending s !! SystemID (hdr msg)) as [[r|]|]; [done | done |].
  destruct (_ =? STypeDataMessage).
  { rewrite decide_True by by rewrite Hst. unfold rejectNotSelected. by rewrite shut_try_write. }
  destruct (_ =? STypeSelectReq).
  { unfold handleSelectReq, select_respond. destruct (writeMessage _ _ s) eqn:E; try done.
    by destruct (shut_no_write _ _ _ Hco _ E). }
  destruct (_ =? STypeDeselectReq).
  { unfold handleDeselectReq. destruct (writeMessage _ _ s) eqn:E; try done.
    by destruct (shut_no_write _ _ _ Hco _ E). }
  destruct (_ =? STypeLinktestReq); [by rewrite shut_try_write |].
  destruct (_ =? STypeSeparateReq); [by rewrite shut_Close | done].
Qed.

Lemma shut_send env m s : shut s -> shut (SendMessage env m s).2 /\ out (SendMessage env m s).2 = out s.
Proof.
  intros Hs. assert (Hm : forall b : bool,
    let r := (if b then let '(id, s) := next_id s in (with_system_id id m, s) else (m, s)) in
    shut r.2 /\ out r.2 = out s) by (by intros []).
  unfold SendMessage. destruct (bool_decide _ && _); [done |].
  specialize (Hm (SystemID (hdr m) =? 0)). cbv zeta in Hm.
  destruct (if SystemID (hdr m) =? 0 then _ else _) as [m' s0]. simpl in Hm. destruct Hm as [H1 H2].
  assert (Hco : conn s0 <> Some true) by apply H1.
  destruct (expects_reply m').
  - unfold sendAndWait_begin. destruct (writeMessage _ m' _) eqn:E; try done.
    by destruct (shut_no_write (ans_io env) m' (set_pending (<[SystemID (hdr m') := None]> (pending s0)) s0) Hco _ E).
  - destruct (writeMessage _ m' s0) eqn:E; try done. by destruct (shut_no_write _ _ _ Hco _ E).
Qed.

Lemma shut_event e s :
  shut s -> match e with evAccept _ | evSelectEnd _ _ => False | _ => True end ->
  shut (run_event e s) /\ out (run_event e s) = out s.
Proof.
  intros Hs He. pose proof Hs as (Hcl & Hst & _).
  destruct e as [ip|io msg| | |io|w id|env msg| | | |io|w id|]; cbn [run_event]; try done.
  - by apply shut_handle.
  - by rewrite Hcl.
  - unfold Select_begin. by rewrite Hst.
  - by apply shut_send.
  - unfold ReceiveMessage. by destruct (inbound s).
  - unfold t7_fires. by rewrite Hst, Hcl.
  - unfold ttl_fires. by rewrite shut_Close.
  - unfold linktest_tick. by rewrite Hst.
  - unfold linktest_done, sendAndWait_end. destruct (is_ok _); [done | by rewrite shut_Close].
  - by rewrite shut_Close.
Qed.

(** [Close] is idempotent and final: it leaves the session disconnected with
    its connection closed, and afterwards no incoming message, time-out or
    request changes that or sends anything. *)
Theorem closed_is_final s0 events :
  closed s0 = false ->
  Forall (fun e => match e with evAccept _ | evSelectEnd _ _ => False | _ => True end) events ->
  let s := foldl (fun s e => run_event e s) (Close s0) events in
  shut s /\ out s = out s0 /\ Close s = s.
Proof.
  intros Hc He. cbv zeta. assert (Hs : shut (Close s0) /\ out (Close s0) = out s0).
  { unfold Close. rewrite Hc. split; [| done]. split_and!; try done. simpl. by destruct (conn s0). }
  revert Hs. generalize (Close s0). induction He as [|e es He _ IH]; intros s [Hs Ho]; simpl.
  - split_and!; [apply Hs.. | done |]. apply shut_Close, Hs.
  - apply IH. destruct (shut_event e s Hs He) as [? Ho']. by rewrite Ho'.
Qed.

Lemma closed_is_final_witness :
  let s0 := set_state StateSelected (set_conn (Some true) (NewSession (DefaultConfig "" RolePassive 1))) in
  let events := [evReceived true (NewSelectReq 1 3); evT7; evClose] in
  closed s0 = false /\ shut (foldl (fun s e => run_event e s) (Close s0) events).
Proof.
  intros s0 events. split; [reflexivity |].
  exact (proj1 (closed_is_final s0 events eq_refl ltac:(repeat constructor))).
Defined.

(** [Close] by another goroutine between the two halves of [handleSelectReq]
    leaves a closed session that reports itself selected. *)
Lemma select_close_race io msg s s1 :
  closed s = false -> state s = StateConnected -> select_respond io msg s = Ok s1 ->
  let s' := select_commit (select_status s) (Close s1) in
  closed s' = true /\ state s' = StateSelected.
Proof.
  intros Hc Hs Hr. unfold select_status. rewrite Hs. simpl. split; [| done].
  apply respond_fields in Hr as (_ & _ & _ & _ & Hcl & _). unfold Close. by rewrite Hcl, Hc.
Qed.

(** A reply to a request without a system id goes out under a fresh one. *)
Lemma zero_id_reply env m s :
  SystemID (hdr m) = 0 -> is_ok (SendMessage env m s).1 = true ->
  exists data, out (SendMessage env m s).2 = out s ++ [(with_system_id (wrap 32 (nextSystemID s + 1)) m, data)].
Proof.
  intros Hz Hok. pose proof (SendMessage_effect env m s) as He.
  destruct (SendMessage env m s) as [r s']. simpl in *.
  destruct He as [[[_ Hf]|(id & data & Ho & _ & _ & Hid)] _]; [congruence |].
  exists data. by rewrite Ho, (Hid Hz).
Qed.

(** What [Send] writes is a message without an identifier, so no reply to it is awaited,
    and a selected peer that waits for nothing under identifier 0 receives its data. *)
Theorem send_receive io data s s' :
  Send io data s = Ok s' ->
  exists m frame, out s' = out s ++ [(m, frame)] /\ expects_reply m = false
  /\ forall p, state p = StateSelected -> pending p !! 0 = None -> inbound p = [] ->
     exists p', Receive (handleMessage io m p) = Some (data, p').
Proof.
  unfold Send. case_decide; [done|]. intros Hw. apply writeMessage_ok in Hw as (frame & _ & _ & _ & ->).
  do 2 eexists. split; [reflexivity|]. split; [reflexivity|]. intros p Hp Hn Hi.
  unfold handleMessage. cbn [hdr SystemID SType]. rewrite Hn. cbn. rewrite decide_False by (rewrite Hp; naive_solver).
  rewrite Hi. cbn. by eexists.
Qed.
