(* ===== verification/GemVariables.v ===== *)
(** * Equipment constants and status variables

    [src/pkg/driver/gem/variable.go].  [govalue] is the part of [interface{}]
    the gem package looks into.  The store owns the structures it is given: a
    caller of [DefineEC] or [DefineSV] does not keep the pointer.  A dynamic
    status variable's provider is a function of the instant of the call. *)

From stdpp Require Import prelude gmap strings list.
From Stdlib Require Import ZArith Lia.
From S2P Require Import Prelude Secs2Item.

#[local] Open Scope Z_scope.

(** ** Values

    Floats are bit patterns, as in [Secs2Item].  [GOther repr] is any other
    dynamic type, with the text [fmt.Sprintf("%v", v)] gives for it. *)

Inductive govalue :=
| GNil
| GItem (p : option item)
| GString (s : string)
| GInt (z : Z) | GInt8 (z : Z) | GInt16 (z : Z) | GInt32 (z : Z) | GInt64 (z : Z)
| GUint (z : Z) | GUint8 (z : Z) | GUint16 (z : Z) | GUint32 (z : Z) | GUint64 (z : Z)
| GFloat32 (bits : Z) | GFloat64 (bits : Z)
| GBool (b : bool)
| GBytes (b : list Z)
| GOther (repr : string).

(** ** [float64]

    The value of a [float64]: [FNum m e] is [m * 2^e].  Comparison is the IEEE
    one: every comparison with a NaN is false, the two zeros are equal. *)

Inductive float64 := FNaN | FInf (neg : bool) | FNum (m e : Z).

Definition float64_of_bits (b : Z) : float64 :=
  let e := Z.land (Z.shiftr b 52) 2047 in
  let m := Z.land b (Z.ones 52) in
  let s := if Z.testbit b 63 then -1 else 1 in
  if e =? 2047 then (if m =? 0 then FInf (Z.testbit b 63) else FNaN)
  else if e =? 0 then FNum (s * m) (-1074)
  else FNum (s * (m + 2 ^ 52)) (e - 1075).

(** [float64(n)] of an integer: round to 53 bits, ties to even. *)
Definition float64_of_int (z : Z) : float64 :=
  let a := Z.abs z in
  if a <? 2 ^ 53 then FNum z 0
  else
    let k := Z.log2 a - 52 in
    let q := Z.shiftr a k in
    let r := Z.land a (Z.ones k) in
    let half := Z.shiftl 1 (k - 1) in
    let q := if r <? half then q else if half <? r then q + 1 else q + Z.land q 1 in
    FNum (Z.sgn z * q) k.

Definition float64_ltb (x y : float64) : bool :=
  match x, y with
  | FNaN, _ | _, FNaN => false
  | FInf true, FInf true => false
  | FInf true, _ => true
  | FInf false, _ => false
  | FNum _ _, FInf neg => negb neg
  | FNum m1 e1, FNum m2 e2 =>
      let e := Z.min e1 e2 in Z.shiftl m1 (e1 - e) <? Z.shiftl m2 (e2 - e)
  end.

(** [numeric(v)] *)
Definition numeric (v : govalue) : option float64 :=
  match v with
  | GFloat64 b => Some (float64_of_bits b)
  | GFloat32 b => Some (float64_of_bits (f32_to_f64 b))
  | GInt n | GInt8 n | GInt16 n | GInt32 n | GInt64 n
  | GUint n | GUint8 n | GUint16 n | GUint32 n | GUint64 n => Some (float64_of_int n)
  | _ => None
  end.

Definition is_nil (v : govalue) : bool := match v with GNil => true | _ => false end.

(** ** The store *)

Record EquipmentConstant := mkEC {
  ECID : Z;
  ec_Name : string;
  ec_Value : govalue;
  MinValue : govalue;
  MaxValue : govalue;
  ec_Units : string;
}.

Record StatusVariable := mkSV {
  SVID : Z;
  sv_Name : string;
  sv_Value : govalue;
  sv_Units : string;
  update : option (Z -> govalue);
}.

Record VariableStore := mkVars {
  ecs : gmap Z EquipmentConstant;
  svs : gmap Z StatusVariable;
}.

Inductive var_error :=
| UnknownECID (ecid : Z)
| NotNumeric (ecid : Z) (v : govalue)
| BelowMinimum (ecid : Z) (v min : govalue)
| AboveMaximum (ecid : Z) (v max : govalue)
| UnknownSVID (svid : Z).

Definition NewVariableStore : VariableStore := mkVars ∅ ∅.

Definition DefineEC (ec : EquipmentConstant) (vs : VariableStore) : VariableStore :=
  mkVars (<[ECID ec := ec]> (ecs vs)) (svs vs).

Definition GetEC (vs : VariableStore) (ecid : Z) : option EquipmentConstant := ecs vs !! ecid.

Definition checkECRange (ec : EquipmentConstant) (value : govalue) : result var_error () :=
  match numeric value with
  | None =>
      if negb (is_nil (MinValue ec)) || negb (is_nil (MaxValue ec))
      then Err (NotNumeric (ECID ec) value) else Ok ()
  | Some v =>
      if match numeric (MinValue ec) with Some min => float64_ltb v min | None => false end
      then Err (BelowMinimum (ECID ec) value (MinValue ec))
      else if match numeric (MaxValue ec) with Some max => float64_ltb max v | None => false end
      then Err (AboveMaximum (ECID ec) value (MaxValue ec))
      else Ok ()
  end.

Definition set_ec_value (value : govalue) (ec : EquipmentConstant) : EquipmentConstant :=
  mkEC (ECID ec) (ec_Name ec) value (MinValue ec) (MaxValue ec) (ec_Units ec).

Definition SetEC (ecid : Z) (value : govalue) (vs : VariableStore) : result var_error VariableStore :=
  match ecs vs !! ecid with
  | None => Err (UnknownECID ecid)
  | Some ec =>
      match checkECRange ec value with
      | Ok _ => Ok (mkVars (<[ecid := set_ec_value value ec]> (ecs vs)) (svs vs))
      | Err e => Err e
      | Panic p => Panic p
      | OutOfFuel => OutOfFuel
      end
  end.

Definition ListECIDs `{!MapOrder Z} (vs : VariableStore) : list Z := (range_map (ecs vs)).*1.

Definition DefineSV (sv : StatusVariable) (vs : VariableStore) : VariableStore :=
  mkVars (ecs vs) (<[SVID sv := sv]> (svs vs)).

Definition DefineSVDynamic (svid : Z) (name units : string) (fn : option (Z -> govalue))
    (vs : VariableStore) : VariableStore :=
  mkVars (ecs vs) (<[svid := mkSV svid name GNil units fn]> (svs vs)).

(** [(value, ok)]: an unknown SVID gives [(nil, false)]. *)
Definition GetSV (vs : VariableStore) (now : Z) (svid : Z) : govalue * bool :=
  match svs vs !! svid with
  | None => (GNil, false)
  | Some sv => match update sv with
               | Some fn => (fn now, true)
               | None => (sv_Value sv, true)
               end
  end.

Definition SetSV (svid : Z) (value : govalue) (vs : VariableStore) : result var_error VariableStore :=
  match svs vs !! svid with
  | None => Err (UnknownSVID svid)
  | Some sv =>
      Ok (mkVars (ecs vs)
            (<[svid := mkSV (SVID sv) (sv_Name sv) value (sv_Units sv) (update sv)]> (svs vs)))
  end.

Definition ListSVIDs `{!MapOrder Z} (vs : VariableStore) : list Z := (range_map (svs vs)).*1.

Definition GetSVInfo (vs : VariableStore) (svid : Z) : option StatusVariable := svs vs !! svid.
Definition GetECInfo (vs : VariableStore) (ecid : Z) : option EquipmentConstant := ecs vs !! ecid.

(** ** Lemmas *)

(** The declared range of a constant: a value is admitted when it does not
    compare below the minimum or above the maximum, and a constant that declares
    a bound admits numbers only. *)
Definition admits (ec : EquipmentConstant) (value : govalue) : Prop :=
  match numeric value with
  | None => MinValue ec = GNil /\ MaxValue ec = GNil
  | Some v =>
      (forall lo, numeric (MinValue ec) = Some lo -> float64_ltb v lo = false)
      /\ (forall hi, numeric (MaxValue ec) = Some hi -> float64_ltb hi v = false)
  end.

Lemma checkECRange_spec ec value :
  match checkECRange ec value with
  | Ok _ => admits ec value
  | Err _ => ~ admits ec value
  | _ => False
  end.
Proof.
  unfold checkECRange, admits. destruct (numeric value) as [v|].
  - destruct (numeric (MinValue ec)) as [lo|]; [destruct (float64_ltb v lo) eqn:Hlo |];
      try (intros [H _]; specialize (H lo eq_refl); congruence);
      (destruct (numeric (MaxValue ec)) as [hi|]; [destruct (float64_ltb hi v) eqn:Hhi |]);
      try (intros [_ H]; specialize (H hi eq_refl); congruence); naive_solver.
  - destruct (MinValue ec), (MaxValue ec); simpl; naive_solver.
Qed.

Lemma float64_of_int_exact z : Z.abs z < 2 ^ 53 -> float64_of_int z = FNum z 0.
Proof. intros H. unfold float64_of_int. by rewrite (proj2 (Z.ltb_lt (Z.abs z) (2 ^ 53))). Qed.

Lemma float64_ltb_int x y :
  Z.abs x < 2 ^ 53 -> Z.abs y < 2 ^ 53 ->
  float64_ltb (float64_of_int x) (float64_of_int y) = (x <? y).
Proof. intros Hx Hy. rewrite !float64_of_int_exact by done. simpl. by rewrite !Z.shiftl_0_r. Qed.

Lemma float64_ltb_nan x : float64_ltb FNaN x = false /\ float64_ltb x FNaN = false.
Proof. split; [done |]. by destruct x as [|[]|]. Qed.

Lemma SetEC_returns ecid value vs : returns (SetEC ecid value vs) = true.
Proof. unfold SetEC, checkECRange. by repeat case_match. Qed.

(** The outcome of a write by what is stored under the identifier. *)
Lemma set_ec_outcome ecid value vs :
  match SetEC ecid value vs with
  | Ok vs' => exists ec, ecs vs !! ecid = Some ec /\ ecs vs' !! ecid = Some (set_ec_value value ec)
  | Err (UnknownECID i) => i = ecid /\ ecs vs !! ecid = None
  | Err _ => exists ec, ecs vs !! ecid = Some ec
  | _ => False
  end.
Proof.
  unfold SetEC. destruct (ecs vs !! ecid) as [ec|] eqn:Hec; [| done].
  destruct (checkECRange ec value) as [[]|e| |] eqn:E; unfold checkECRange in E; repeat case_match; simplify_eq; eauto;
    exists ec; cbn; by rewrite lookup_insert_eq.
Qed.

(** ** Properties *)

(** [SetEC] succeeds exactly on a known constant that admits the value, and
    then changes that constant's value and nothing else; a refused write leaves
    the store alone and says why. *)
Theorem set_ec_spec ecid value vs :
  match SetEC ecid value vs with
  | Ok vs' => exists ec, ecs vs !! ecid = Some ec /\ admits ec value
      /\ ecs vs' !! ecid = Some (set_ec_value value ec)
      /\ (forall i, i <> ecid -> ecs vs' !! i = ecs vs !! i) /\ svs vs' = svs vs
  | Err (UnknownECID i) => i = ecid /\ ecs vs !! ecid = None
  | Err _ => exists ec, ecs vs !! ecid = Some ec /\ ~ admits ec value
  | _ => False
  end.
Proof.
  unfold SetEC. destruct (ecs vs !! ecid) as [ec|] eqn:Hec; [| done].
  pose proof (checkECRange_spec ec value) as Hr. destruct (checkECRange ec value) as [[]|e| |] eqn:E; [| | done..].
  - exists ec. simpl. rewrite lookup_insert_eq. split_and!; try done.
    intros i Hi. by rewrite lookup_insert_ne.
  - assert (forall i, e <> UnknownECID i).
    { intros i ->. revert E. unfold checkECRange.
      repeat (case_match; try done). }
    destruct e; naive_solver.
Qed.

(** On a constant with integer bounds, an integer write is accepted exactly
    when it lies between the bounds (all below 2^53 in magnitude, where
    [float64] is exact). *)
Theorem set_ec_integer_range ecid ec z lo hi vs :
  ecs vs !! ecid = Some ec -> MinValue ec = GInt lo -> MaxValue ec = GInt hi ->
  Z.abs lo < 2 ^ 53 -> Z.abs hi < 2 ^ 53 -> Z.abs z < 2 ^ 53 ->
  is_ok (SetEC ecid (GInt z) vs) = true <-> lo <= z <= hi.
Proof.
  intros Hec Hmin Hmax Hlo Hhi Hz. unfold SetEC, checkECRange.
  rewrite Hec, Hmin, Hmax. cbn [numeric]. rewrite !float64_ltb_int by done.
  destruct (Z.ltb_spec z lo), (Z.ltb_spec hi z); simpl; split; (done || lia).
Qed.

Lemma set_ec_integer_range_witness :
  let ec := mkEC 7 "Temp" (GInt 20) (GInt 0) (GInt 100) "C" in
  let vs := DefineEC ec NewVariableStore in
  (is_ok (SetEC 7 (GInt 101) vs) = true <-> 0 <= 101 <= 100)
  /\ (is_ok (SetEC 7 (GInt 100) vs) = true <-> 0 <= 100 <= 100).
Proof.
  intros ec vs. split.
  - by apply (set_ec_integer_range 7 ec 101 0 100 vs).
  - by apply (set_ec_integer_range 7 ec 100 0 100 vs).
Defined.

(** A NaN compares false with every bound, so a bounded constant accepts it. *)
Lemma set_ec_nan ecid ec b vs :
  ecs vs !! ecid = Some ec -> float64_of_bits b = FNaN -> is_ok (SetEC ecid (GFloat64 b) vs) = true.
Proof.
  intros Hec Hb. unfold SetEC, checkECRange. rewrite Hec. cbn [numeric]. rewrite Hb.
  destruct (numeric (MinValue ec)), (numeric (MaxValue ec)); simpl;
    rewrite ?(proj2 (float64_ltb_nan _)); done.
Qed.

(** An item is never numeric: a constant with bounds refuses every item. *)
Lemma set_ec_item_refused ecid ec p vs :
  ecs vs !! ecid = Some ec -> is_nil (MinValue ec) = false ->
  SetEC ecid (GItem p) vs = Err (NotNumeric (ECID ec) (GItem p)).
Proof. intros Hec Hmin. unfold SetEC, checkECRange. by rewrite Hec, Hmin. Qed.
