(* ===== verification/Interfaces.v ===== *)
(** * The interfaces of the packages

    What [src/pkg/message], [src/pkg/driver] and [src/pkg/transport] declare for others
    to implement or exchange: the protocol-agnostic message with its two kinds, the data a
    driver reports, and the byte transport as a class with what its users rely on.  The
    HSMS session is a transport; the codec interface is [Secs2Codec.MessageCodec]. *)

From stdpp Require Import prelude strings list.
From Stdlib Require Import ZArith Lia.
From S2P Require Import Prelude Secs2Item HsmsMessage Transport HsmsSession HsmsProtocol GemVariables.

#[local] Open Scope Z_scope.

(** ** Messages ([message/types.go]) *)

Module Messages.
Record Message (B : Type) := mkMessage { Stream : Z; Function : Z; WBit : bool; SystemID : Z; Body : B }.
Arguments mkMessage {B}. Arguments Function {B}.

Inductive Direction := HostToEquipment | EquipmentToHost.

Definition IsReply {B} (m : Message B) : bool := Function m mod 2 =? 0.
Definition IsPrimary {B} (m : Message B) : bool := Function m mod 2 =? 1.

(** A message is one of the two, and the function after a primary's, which is a byte, is a
    reply's. *)
Lemma kinds {B} (m : Message B) st w id (b : B) :
  IsPrimary m = negb (IsReply m) /\ IsReply (mkMessage st (wrap 8 (Function m + 1)) w id b) = IsPrimary m.
Proof.
  unfold IsPrimary, IsReply, wrap. cbn [Function]. rewrite Z.mod_mod_divide by (exists 128; lia).
  pose proof (Z.mod_pos_bound (Function m) 2 ltac:(lia)). rewrite (Z.add_mod (Function m) 1 2) by lia.
  assert (Function m mod 2 = 0 \/ Function m mod 2 = 1) as [-> | ->] by lia; done.
Qed.
End Messages.

(** ** What a driver deals in ([driver/driver.go]) *)

Module Drivers.
Record Config := mkConfig { SessionID : Z; Address : string; ModelName : string; SoftwareRevision : string }.
Record Variable_ := mkVariable { VID : Z; Value : govalue }.
Record Report := mkReport { RPTID : Z; Variables_ : list Variable_ }.
Record Event := mkEvent { CEID : Z; Reports : list Report }.
End Drivers.

(** ** Transports ([transport/transport.go]) *)

(** [env] is what the network does in a call.  What was handed to [Send] successfully has
    been transmitted; [Receive] takes what waits in its order; a transport in use stays
    closed. *)
Class ByteTransport (env err T : Type) := {
  connect : env -> T -> result err () * T;
  send : env -> list Z -> T -> result err T;
  receive : T -> option (list Z * T);
  close : T -> T;
  current : T -> State;
  transmitted : T -> list (list Z);
  waiting : T -> list (list Z);
  usable : T -> bool;
  connect_once e t : current t <> StateDisconnected -> is_ok (connect e t).1 = false /\ (connect e t).2 = t;
  connect_fails e t : is_ok (connect e t).1 = false -> current (connect e t).2 = current t;
  send_transmits e d t t' : send e d t = Ok t' -> transmitted t' = transmitted t ++ [d] /\ waiting t' = waiting t;
  receive_waiting t : match receive t with
    | None => waiting t = []
    | Some (d, t') => waiting t = d :: waiting t' /\ transmitted t' = transmitted t
    end;
  close_ends e d t : usable t = true -> current (close t) = StateDisconnected /\ is_ok (send e d (close t)) = false;
  close_again t : close (close t) = close t;
}.

(** The session: [env] says whether the network call and the handshake succeed. *)
#[export] Program Instance hsms_transport : ByteTransport (bool * bool) send_error Session := {|
  connect e := HsmsSession.Connect e.1 e.2;
  send e := HsmsSession.Send e.1;
  receive := HsmsSession.Receive;
  close := HsmsSession.Close;
  current := HsmsSession.state;
  transmitted s := (fun m => Data m.1) <$> out s;
  waiting s := Data <$> inbound s;
  usable s := negb (closed s);
|}.
Next Obligation. intros e s Hs. unfold HsmsSession.Connect. by rewrite decide_True. Qed.
Next Obligation. intros e s. apply Connect_fails. Qed.
Next Obligation.
  intros e d s s' Hs. unfold HsmsSession.Send in Hs. case_decide; [done|]. apply writeMessage_ok in Hs as (f & _ & _ & _ & ->).
  cbn. by rewrite fmap_app.
Qed.
Next Obligation. intros s. unfold HsmsSession.Receive, ReceiveMessage. destruct (inbound s) as [|m q] eqn:Hq; cbn; [done|by rewrite ?Hq]. Qed.
Next Obligation. intros e d s Hc%negb_true_iff. unfold HsmsSession.Close. rewrite Hc. split; [done|]. unfold HsmsSession.Send. by rewrite decide_True. Qed.
Next Obligation. intros s. apply shut_Close. unfold HsmsSession.Close. by destruct (closed s) eqn:Hc. Qed.

(** ** A client of the interface *)

Section client.
Context {env err T : Type} `{ByteTransport env err T}.

(** One [Send] after the other, as far as they go. *)
Fixpoint send_all (es : list env) (ds : list (list Z)) (t : T) : T :=
  match es, ds with
  | e :: es, d :: ds => match send e d t with Ok t' => send_all es ds t' | _ => t end
  | _, _ => t
  end.

Fixpoint receive_all (n : nat) (t : T) : list (list Z) * T :=
  match n with
  | O => ([], t)
  | S n => match receive t with None => ([], t) | Some (d, t') => let '(l, t') := receive_all n t' in (d :: l, t') end
  end.

Lemma send_all_prefix es ds t : exists k, transmitted (send_all es ds t) = transmitted t ++ take k ds.
Proof.
  revert ds t. induction es as [|e es IH]; intros ds t; [exists 0%nat; by rewrite app_nil_r|].
  destruct ds as [|d ds]; cbn; [exists 0%nat; by rewrite app_nil_r|]. destruct (send e d t) as [t'|x|p|] eqn:Hs; try (exists 0%nat; by rewrite app_nil_r).
  destruct (IH ds t') as [k Hk]. exists (S k). by rewrite Hk, (proj1 (send_transmits e d t t' Hs)), <- app_assoc.
Qed.

Lemma receive_all_takes n t : (receive_all n t).1 = take n (waiting t) /\ waiting (receive_all n t).2 = drop n (waiting t).
Proof.
  revert t. induction n as [|n IH]; intros t; [done|]. cbn. pose proof (receive_waiting t) as Hr. destruct (receive t) as [[d t']|].
  - destruct Hr as [-> _], (IH t') as [H1 H2]. destruct (receive_all n t') as [l t'']. cbn in *. by rewrite H1.
  - by rewrite Hr.
Qed.
End client.
