(* ===== verification/GemEvents.v ===== *)
(** * Collection events, reports and their links

    [src/pkg/driver/gem/event.go].  The manager owns the structures in its maps,
    and the identifier slices handed to it are not written afterwards. *)

From stdpp Require Import prelude gmap strings list.
From Stdlib Require Import ZArith Lia.
From S2P Require Import Prelude.

#[local] Open Scope Z_scope.

Record CollectionEvent := mkCE {
  CEID : Z;
  ce_Name : string;
  ce_Enabled : bool;
  ReportIDs : list Z;
}.

Record ReportDef := mkReport { RPTID : Z; VIDs : list Z }.

(** [ReportVIDs] has the same two fields. *)
Record ReportVIDs := mkRV { rv_RPTID : Z; rv_VIDs : list Z }.

Record EventManager := mkEM {
  events : gmap Z CollectionEvent;
  reports : gmap Z ReportDef;
}.

Inductive event_error := UnknownCEID (ceid : Z) | UnknownRPTID (rptid : Z).

Definition NewEventManager : EventManager := mkEM ∅ ∅.

Definition DefineReport (rptid : Z) (vids : list Z) (em : EventManager) : EventManager :=
  mkEM (events em) (<[rptid := mkReport rptid vids]> (reports em)).

Definition DeleteReport (rptid : Z) (em : EventManager) : EventManager :=
  mkEM (events em) (delete rptid (reports em)).

Definition set_links (ids : list Z) (ce : CollectionEvent) : CollectionEvent :=
  mkCE (CEID ce) (ce_Name ce) (ce_Enabled ce) ids.
Definition set_enabled (b : bool) (ce : CollectionEvent) : CollectionEvent :=
  mkCE (CEID ce) (ce_Name ce) b (ReportIDs ce).

Definition DeleteAllReports (em : EventManager) : EventManager :=
  mkEM (set_links [] <$> events em) ∅.

Definition GetReport (em : EventManager) (rptid : Z) : option ReportDef := reports em !! rptid.

Definition DefineEvent (ceid : Z) (name : string) (em : EventManager) : EventManager :=
  mkEM (<[ceid := mkCE ceid name true []]> (events em)) (reports em).

Definition GetEvent (em : EventManager) (ceid : Z) : option CollectionEvent := events em !! ceid.

(** The loop that verifies the report identifiers. *)
Fixpoint check_reports (em : EventManager) (rptids : list Z) : result event_error () :=
  match rptids with
  | [] => Ok ()
  | r :: rest => match reports em !! r with
                 | None => Err (UnknownRPTID r)
                 | Some _ => check_reports em rest
                 end
  end.

Definition LinkEventReport (ceid : Z) (rptids : list Z) (em : EventManager)
  : result event_error EventManager :=
  match events em !! ceid with
  | None => Err (UnknownCEID ceid)
  | Some ce =>
      _ ← check_reports em rptids;
      Ok (mkEM (<[ceid := set_links rptids ce]> (events em)) (reports em))
  end.

Definition EnableEvent (ceid : Z) (enabled : bool) (em : EventManager)
  : result event_error EventManager :=
  match events em !! ceid with
  | None => Err (UnknownCEID ceid)
  | Some ce => Ok (mkEM (<[ceid := set_enabled enabled ce]> (events em)) (reports em))
  end.

Definition EnableAllEvents (enabled : bool) (em : EventManager) : EventManager :=
  mkEM (set_enabled enabled <$> events em) (reports em).

Definition IsEventEnabled (em : EventManager) (ceid : Z) : bool :=
  match events em !! ceid with None => false | Some ce => ce_Enabled ce end.

(** The loop over [ce.ReportIDs]: a report deleted since is skipped. *)
Fixpoint collect_reports (em : EventManager) (rptids : list Z) : list ReportVIDs :=
  match rptids with
  | [] => []
  | r :: rest => match reports em !! r with
                 | None => collect_reports em rest
                 | Some rpt => mkRV (RPTID rpt) (VIDs rpt) :: collect_reports em rest
                 end
  end.

Definition GetEventReportVIDs (em : EventManager) (ceid : Z) : result event_error (list ReportVIDs) :=
  match events em !! ceid with
  | None => Err (UnknownCEID ceid)
  | Some ce => if negb (ce_Enabled ce) then Ok [] else Ok (collect_reports em (ReportIDs ce))
  end.

(** ** Operations and reachable managers *)

Inductive op :=
| opDefineReport (rptid : Z) (vids : list Z)
| opDeleteReport (rptid : Z)
| opDeleteAll
| opDefineEvent (ceid : Z) (name : string)
| opLink (ceid : Z) (rptids : list Z)
| opEnable (ceid : Z) (enabled : bool)
| opEnableAll (enabled : bool).

Definition call (o : op) (em : EventManager) : EventManager :=
  match o with
  | opDefineReport r v => DefineReport r v em
  | opDeleteReport r => DeleteReport r em
  | opDeleteAll => DeleteAllReports em
  | opDefineEvent c n => DefineEvent c n em
  | opLink c rs => keep (LinkEventReport c rs em) em
  | opEnable c b => keep (EnableEvent c b em) em
  | opEnableAll b => EnableAllEvents b em
  end.

Inductive reachable : EventManager -> Prop :=
| reach_new : reachable NewEventManager
| reach_call o em : reachable em -> reachable (call o em).

(** Every structure carries the identifier it is stored under. *)
Definition ids_ok (em : EventManager) : Prop :=
  map_Forall (fun i ce => CEID ce = i) (events em) /\ map_Forall (fun i r => RPTID r = i) (reports em).

(** ** Lemmas *)

Lemma check_reports_spec em rptids :
  match check_reports em rptids with
  | Ok _ => Forall (fun r => is_Some (reports em !! r)) rptids
  | Err (UnknownRPTID r) => r ∈ rptids /\ reports em !! r = None
  | _ => False
  end.
Proof.
  induction rptids as [|r rest IH]; simpl; [done |].
  destruct (reports em !! r) as [rpt|] eqn:Hr; [| set_solver].
  destruct (check_reports em rest) as [|[]| |]; try done; [by constructor; eauto | set_solver].
Qed.

Lemma collect_reports_omap em rptids :
  collect_reports em rptids
  = omap (fun r => (fun rpt => mkRV (RPTID rpt) (VIDs rpt)) <$> reports em !! r) rptids.
Proof. induction rptids as [|r rest IH]; [done |]. cbn. rewrite IH. by destruct (reports em !! r). Qed.

Lemma ids_ok_call o em : ids_ok em -> ids_ok (call o em).
Proof.
  intros [He Hr]. destruct o as [r v|r| |c n|c rs|c b|b]; cbn [call].
  - split; [done |]. by apply map_Forall_insert_2.
  - split; [done |]. by apply map_Forall_delete.
  - split; [| apply map_Forall_empty]. apply map_Forall_fmap. exact He.
  - split; [| done]. by apply map_Forall_insert_2.
  - unfold LinkEventReport. destruct (events em !! c) as [ce|] eqn:Hc; [| by split].
    destruct (check_reports em rs); simpl; try by split.
    split; [| done]. apply map_Forall_insert_2; [| done]. by apply (He c ce).
  - unfold EnableEvent. destruct (events em !! c) as [ce|] eqn:Hc; [| by split].
    split; [| done]. apply map_Forall_insert_2; [| done]. by apply (He c ce).
  - split; [| done]. apply map_Forall_fmap. exact He.
Qed.

Lemma ids_ok_reachable em : reachable em -> ids_ok em.
Proof.
  induction 1; [split; apply map_Forall_empty | by apply ids_ok_call].
Qed.

(** ** Properties *)

(** In a reachable manager, an enabled event's report is its linked
    identifiers that are still defined, in link order, each with its own
    variables; a disabled event reports nothing, an unknown one is an error. *)
Theorem event_report_spec em ceid :
  reachable em ->
  match events em !! ceid with
  | None => GetEventReportVIDs em ceid = Err (UnknownCEID ceid)
  | Some ce =>
      if ce_Enabled ce then
        exists rs, GetEventReportVIDs em ceid = Ok rs
          /\ map rv_RPTID rs = filter (fun r => is_Some (reports em !! r)) (ReportIDs ce)
          /\ Forall (fun rv => reports em !! rv_RPTID rv = Some (mkReport (rv_RPTID rv) (rv_VIDs rv))) rs
      else GetEventReportVIDs em ceid = Ok []
  end.
Proof.
  intros Hreach. destruct (ids_ok_reachable em Hreach) as [_ Hids].
  unfold GetEventReportVIDs. destruct (events em !! ceid) as [ce|]; [| done].
  destruct (ce_Enabled ce); [| done]. simpl. eexists; split; [done |].
  induction (ReportIDs ce) as [|r rest [IH1 IH2]]; [by split |].
  cbn [collect_reports]. rewrite filter_cons.
  destruct (reports em !! r) as [[i vids]|] eqn:Hr.
  - pose proof (Hids r _ Hr) as Hi. simpl in Hi. subst i.
    rewrite decide_True by eauto. simpl. rewrite IH1. split; [done |]. by constructor.
  - rewrite decide_False by (by intros [? ?]). by split.
Qed.

Lemma event_report_spec_witness :
  let em := call (opDeleteReport 2) (call (opLink 10 [1; 2; 3])
    (call (opDefineReport 3 [300]) (call (opDefineReport 2 [200]) (call (opDefineReport 1 [100; 101])
    (call (opDefineEvent 10 "Done") NewEventManager))))) in
  reachable em
  /\ exists rs, GetEventReportVIDs em 10 = Ok rs
       /\ map rv_RPTID rs = filter (fun r => is_Some (reports em !! r)) [1; 2; 3]
       /\ Forall (fun rv => reports em !! rv_RPTID rv = Some (mkReport (rv_RPTID rv) (rv_VIDs rv))) rs.
Proof.
  intros em. assert (H : reachable em) by (do 6 apply reach_call; apply reach_new).
  split; [exact H |]. exact (event_report_spec em 10 H).
Defined.

(** Linking succeeds exactly when the event and every report exist; the
    event then carries those links, keeps its enabled flag, and nothing else
    changes; after [DeleteAllReports] no event reports anything. *)
Theorem link_spec em ceid rptids :
  match LinkEventReport ceid rptids em with
  | Ok em' => exists ce, events em !! ceid = Some ce
      /\ Forall (fun r => is_Some (reports em !! r)) rptids
      /\ events em' = <[ceid := set_links rptids ce]> (events em) /\ reports em' = reports em
  | Err (UnknownCEID c) => c = ceid /\ events em !! ceid = None
  | Err (UnknownRPTID r) => is_Some (events em !! ceid) /\ r ∈ rptids /\ reports em !! r = None
  | _ => False
  end
  /\ GetEventReportVIDs (DeleteAllReports em) ceid
     = match events em !! ceid with None => Err (UnknownCEID ceid) | Some _ => Ok [] end.
Proof.
  split.
  - unfold LinkEventReport. destruct (events em !! ceid) as [ce|] eqn:Hc; [| done].
    pose proof (check_reports_spec em rptids) as Hs.
    destruct (check_reports em rptids) as [|[]| |]; simpl; try done; by first [exists ce | split; eauto].
  - unfold GetEventReportVIDs, DeleteAllReports. simpl. rewrite lookup_fmap.
    destruct (events em !! ceid) as [[i n [] l]|]; done.
Qed.
