(* ===== verification/GemAlarms.v ===== *)
(** * Alarms and the safety interlock

    [src/pkg/driver/gem/alarm.go] and [src/pkg/driver/gem/safety.go].  The
    interlock's state machine is passed to [Evaluate], which returns its new
    value: [cmd/secsgem] builds the interlock on the handler's own machine. *)

From stdpp Require Import prelude gmap strings list.
From Stdlib Require Import ZArith Lia.
From S2P Require Import Prelude GemState.

#[local] Open Scope Z_scope.

(** ** Alarms *)

Definition AlarmPersonalSafety : Z := Z.shiftl 1 7.
Definition AlarmEquipSafety : Z := Z.shiftl 1 6.
Definition AlarmParameter : Z := Z.shiftl 1 5.
Definition AlarmProcess : Z := Z.shiftl 1 4.
Definition AlarmEquipStatus : Z := Z.shiftl 1 3.
Definition AlarmAttention : Z := Z.shiftl 1 2.
Definition AlarmReserved1 : Z := Z.shiftl 1 1.
Definition AlarmReserved0 : Z := 1.

Inductive AlarmState := AlarmCleared | AlarmSet.

#[global] Instance AlarmState_eq_dec : EqDecision AlarmState.
Proof. solve_decision. Defined.

Definition AlarmState_String (s : AlarmState) : string :=
  if decide (s = AlarmSet) then "SET" else "CLEARED".

Record Alarm := mkAlarm {
  ALID : Z;
  al_Name : string;
  al_Text : string;
  Severity : Z;           (* byte *)
  al_State : AlarmState;
  al_Enabled : bool;
  al_CEID : Z;
  ClearCEID : Z;
}.

Record AlarmManager := mkAM { alarms : gmap Z Alarm }.

Inductive alarm_error := UnknownALID (alid : Z).

Definition NewAlarmManager : AlarmManager := mkAM ∅.

Definition set_state (s : AlarmState) (a : Alarm) : Alarm :=
  mkAlarm (ALID a) (al_Name a) (al_Text a) (Severity a) s (al_Enabled a) (al_CEID a) (ClearCEID a).
Definition set_enabled (b : bool) (a : Alarm) : Alarm :=
  mkAlarm (ALID a) (al_Name a) (al_Text a) (Severity a) (al_State a) b (al_CEID a) (ClearCEID a).

Definition DefineAlarm (alarm : Alarm) (am : AlarmManager) : AlarmManager :=
  let alarm := if eqb (al_Enabled alarm) false then set_enabled true alarm else alarm in
  mkAM (<[ALID alarm := alarm]> (alarms am)).

Definition GetAlarm (am : AlarmManager) (alid : Z) : option Alarm := alarms am !! alid.

(** The alarm returned is the stored structure, after the update. *)
Definition SetAlarm (alid : Z) (am : AlarmManager) : result alarm_error (Alarm * AlarmManager) :=
  match alarms am !! alid with
  | None => Err (UnknownALID alid)
  | Some a => let a' := set_state AlarmSet a in Ok (a', mkAM (<[alid := a']> (alarms am)))
  end.

Definition ClearAlarm (alid : Z) (am : AlarmManager) : result alarm_error (Alarm * AlarmManager) :=
  match alarms am !! alid with
  | None => Err (UnknownALID alid)
  | Some a => let a' := set_state AlarmCleared a in Ok (a', mkAM (<[alid := a']> (alarms am)))
  end.

Definition EnableAlarm (alid : Z) (enabled : bool) (am : AlarmManager) : result alarm_error AlarmManager :=
  match alarms am !! alid with
  | None => Err (UnknownALID alid)
  | Some a => Ok (mkAM (<[alid := set_enabled enabled a]> (alarms am)))
  end.

Definition EnableAllAlarms (enabled : bool) (am : AlarmManager) : AlarmManager :=
  mkAM (set_enabled enabled <$> alarms am).

Definition ListAlarms `{!MapOrder Z} (am : AlarmManager) : list Alarm := (range_map (alarms am)).*2.

Definition ListActiveAlarms `{!MapOrder Z} (am : AlarmManager) : list Alarm :=
  filter (fun a => al_State a = AlarmSet) (range_map (alarms am)).*2.

(** ** The safety interlock *)

Inductive AlarmAction := AlarmActionLogOnly | AlarmActionForceIdle | AlarmActionForceOffline.

#[global] Instance AlarmAction_eq_dec : EqDecision AlarmAction.
Proof. solve_decision. Defined.

Definition AlarmAction_String (a : AlarmAction) : string :=
  match a with
  | AlarmActionLogOnly => "LOG_ONLY"
  | AlarmActionForceIdle => "FORCE_IDLE"
  | AlarmActionForceOffline => "FORCE_OFFLINE"
  end.

(** [OnSafetyAlarm] is a function value, named by a number; [fired] records the
    calls made to it, newest first. *)
Record SafetyInterlock := mkSI {
  Threshold : Z;
  Action : AlarmAction;
  OnSafetyAlarm : option nat;
  fired : list (nat * Alarm * AlarmAction);
}.

Definition NewSafetyInterlock : SafetyInterlock := mkSI AlarmEquipSafety AlarmActionForceOffline None [].

(** The early returns of [Evaluate]. *)
Definition triggers (threshold : Z) (alarm : Alarm) : bool :=
  if decide (al_State alarm <> AlarmSet) then false
  else if (Z.land (Severity alarm) threshold =? 0) && (Severity alarm <? threshold) then false
  else true.

Definition Evaluate (alarm : Alarm) (si : SafetyInterlock) (state : StateMachine)
  : bool * SafetyInterlock * StateMachine :=
  if negb (triggers (Threshold si) alarm) then (false, si, state)
  else
    let state :=
      match Action si with
      | AlarmActionForceOffline =>
          if IsOnline state then match GoOffline state with Ok s => s | _ => state end else state
      | AlarmActionForceIdle | AlarmActionLogOnly => state
      end in
    let si :=
      match OnSafetyAlarm si with
      | None => si
      | Some fn => mkSI (Threshold si) (Action si) (OnSafetyAlarm si) ((fn, alarm, Action si) :: fired si)
      end in
    (true, si, state).

Definition SetThreshold (threshold : Z) (si : SafetyInterlock) : SafetyInterlock :=
  mkSI threshold (Action si) (OnSafetyAlarm si) (fired si).
Definition SetAction (action : AlarmAction) (si : SafetyInterlock) : SafetyInterlock :=
  mkSI (Threshold si) action (OnSafetyAlarm si) (fired si).

(** ** Lemmas *)

Lemma land_pow2 a k : 0 <= k -> 0 <= a -> Z.land a (2 ^ k) <> 0 -> 2 ^ k <= a.
Proof.
  intros Hk Ha Hland. destruct (Z.le_gt_cases (2 ^ k) a) as [|Hlt]; [done |]. destruct Hland.
  apply Z.bits_inj'. intros n Hn. rewrite Z.land_spec, Z.bits_0, Z.pow2_bits_eqb by lia.
  destruct (Z.eqb_spec k n) as [<-|]; [| apply andb_false_r].
  rewrite <- (Z.mod_small a (2 ^ k)) by lia. by rewrite Z.mod_pow2_bits_high by lia.
Qed.

Lemma ListAlarms_elem `{!MapOrder Z} am a :
  a ∈ ListAlarms am <-> exists alid, alarms am !! alid = Some a.
Proof.
  unfold ListAlarms. rewrite list_elem_of_fmap. split.
  - intros ([i x] & -> & Hx). exists i. by apply elem_of_range_map in Hx.
  - intros [i Hi]. exists (i, a). split; [done |]. by apply elem_of_range_map.
Qed.

(** ** Properties *)

(** With a threshold on one severity bit, a set alarm triggers the interlock
    exactly when its severity is at least the threshold; a cleared one never
    does. *)
Theorem triggers_threshold k alarm :
  0 <= k -> 0 <= Severity alarm ->
  triggers (2 ^ k) alarm = true <-> al_State alarm = AlarmSet /\ 2 ^ k <= Severity alarm.
Proof.
  intros Hk Hs. unfold triggers. case_decide as Hst; [split; [done | naive_solver] |].
  assert (al_State alarm = AlarmSet) as -> by (destruct (al_State alarm); [by destruct Hst | done]).
  destruct (Z.eqb_spec (Z.land (Severity alarm) (2 ^ k)) 0) as [|Hl]; simpl.
  - destruct (Z.ltb_spec (Severity alarm) (2 ^ k)); split; (done || lia).
  - apply land_pow2 in Hl; done.
Qed.

Lemma triggers_threshold_witness :
  let a := mkAlarm 1 "Door" "door open" 96 AlarmSet true 0 0 in
  (triggers (2 ^ 6) a = true <-> al_State a = AlarmSet /\ 2 ^ 6 <= Severity a)
  /\ triggers (2 ^ 6) a = true.
Proof.
  intros a. split; [| reflexivity]. apply (triggers_threshold 6 a); [lia | by simpl; lia].
Defined.

(** An interlock that forces offline leaves no triggered alarm with the
    equipment online, calls its callback once, and never touches the
    communication state; an alarm that does not trigger changes nothing. *)
Lemma evaluate_safe alarm si state :
  let '(fires, si', state') := Evaluate alarm si state in
  fires = triggers (Threshold si) alarm
  /\ commState state' = commState state
  /\ (fires = true -> Action si = AlarmActionForceOffline -> IsOnline state' = false)
  /\ (fires = true -> fired si' = match OnSafetyAlarm si with
                                  | None => fired si
                                  | Some fn => (fn, alarm, Action si) :: fired si end)
  /\ (fires = false -> si' = si /\ state' = state).
Proof.
  unfold Evaluate. destruct (triggers (Threshold si) alarm); simpl; [| done].
  split_and!; try done; [| | by destruct (OnSafetyAlarm si)].
  - destruct (Action si); try done. destruct (IsOnline state); [| done].
    unfold GoOffline. case_decide; [done |]. by rewrite notifyChange_comm.
  - intros _ ->. pose proof (keep_offline state) as Hk. unfold keep in Hk.
    destruct (IsOnline state) eqn:E; [| done]. done.
Qed.
