(* ===== verification/GemCommands.v ===== *)
(** * Remote commands

    [src/pkg/driver/gem/command.go].  A registered handler is a function from
    the parameters to a status byte. *)

From stdpp Require Import prelude gmap strings list pretty.
From Stdlib Require Import ZArith Lia.
From S2P Require Import Prelude GemVariables.

#[local] Open Scope Z_scope.

Definition CommandOK : Z := 0.
Definition CommandInvalidCommand : Z := 1.
Definition CommandCannotPerform : Z := 2.
Definition CommandParameterError : Z := 3.
Definition CommandAckFinishLater : Z := 4.
Definition CommandRejected : Z := 5.

Definition CommandStatus_String (s : Z) : string :=
  if s =? CommandOK then "OK"
  else if s =? CommandInvalidCommand then "INVALID_COMMAND"
  else if s =? CommandCannotPerform then "CANNOT_PERFORM"
  else if s =? CommandParameterError then "PARAMETER_ERROR"
  else if s =? CommandAckFinishLater then "ACK_FINISH_LATER"
  else if s =? CommandRejected then "REJECTED"
  else "UNKNOWN(" +:+ pretty s +:+ ")".

Record CommandParam := mkParam { cp_Name : string; cp_Value : govalue }.

Definition CommandHandlerFunc : Type := list CommandParam -> Z.

Record CommandManager := mkCM { commands : gmap string CommandHandlerFunc }.

Definition NewCommandManager : CommandManager := mkCM ∅.

Definition Register (name : string) (handler : CommandHandlerFunc) (cm : CommandManager) : CommandManager :=
  mkCM (<[name := handler]> (commands cm)).

Definition Execute (cm : CommandManager) (name : string) (params : list CommandParam) : Z :=
  match commands cm !! name with
  | None => CommandInvalidCommand
  | Some handler => handler params
  end.

Definition ListCommands `{!MapOrder string} (cm : CommandManager) : list string := (range_map (commands cm)).*1.

Definition HasCommand (cm : CommandManager) (name : string) : bool := bool_decide (is_Some (commands cm !! name)).

(** [ListCommands] and [HasCommand] agree. *)
Lemma ListCommands_has `{!MapOrder string} cm name :
  name ∈ ListCommands cm <-> HasCommand cm name = true.
Proof. unfold ListCommands, HasCommand. by rewrite elem_of_range_keys, bool_decide_eq_true. Qed.

Lemma execute_unknown cm name params : HasCommand cm name = false -> Execute cm name params = CommandInvalidCommand.
Proof.
  unfold HasCommand, Execute. rewrite bool_decide_eq_false. intros H.
  destruct (commands cm !! name); [destruct H; eauto | done].
Qed.

Lemma execute_register cm name f params : Execute (Register name f cm) name params = f params.
Proof. unfold Execute, Register. simpl. by rewrite lookup_insert_eq. Qed.

Lemma execute_register_other cm name name' f params :
  name' <> name -> Execute (Register name f cm) name' params = Execute cm name' params.
Proof. intros. unfold Execute, Register. simpl. by rewrite lookup_insert_ne. Qed.
