(* ===== verification/Carrier.v ===== *)
(** * E87 carriers and load ports

    [src/pkg/driver/gem/carrier.go].  Time and callbacks as in [ProcessJob]. *)

From stdpp Require Import prelude relations gmap strings list.
From Stdlib Require Import ZArith Lia.
From S2P Require Import Prelude Lifecycle.

#[local] Open Scope Z_scope.

Inductive CarrierState :=
| CarrierNotAccessed | CarrierWaitingForHost | CarrierInAccess
| CarrierCarrierComplete | CarrierStopped | CarrierReadyToUnload.

#[global] Instance CarrierState_eq_dec : EqDecision CarrierState.
Proof. solve_decision. Defined.

Definition CarrierState_String (s : CarrierState) : string :=
  match s with
  | CarrierNotAccessed => "NOT_ACCESSED"
  | CarrierWaitingForHost => "WAITING_FOR_HOST"
  | CarrierInAccess => "IN_ACCESS"
  | CarrierCarrierComplete => "CARRIER_COMPLETE"
  | CarrierStopped => "STOPPED"
  | CarrierReadyToUnload => "READY_TO_UNLOAD"
  end.

Inductive LoadPortState :=
| PortOutOfService | PortTransferBlocked | PortReadyToLoad | PortTransferReady | PortReadyToUnload.

#[global] Instance LoadPortState_eq_dec : EqDecision LoadPortState.
Proof. solve_decision. Defined.

Definition LoadPortState_String (s : LoadPortState) : string :=
  match s with
  | PortOutOfService => "OUT_OF_SERVICE"
  | PortTransferBlocked => "TRANSFER_BLOCKED"
  | PortReadyToLoad => "READY_TO_LOAD"
  | PortTransferReady => "TRANSFER_READY"
  | PortReadyToUnload => "READY_TO_UNLOAD"
  end.

(** [SlotState] is a [byte]. *)
Definition SlotEmpty : Z := 0.
Definition SlotOccupied : Z := 1.
Definition SlotDoubleSlotted : Z := 2.
Definition SlotCrossSlotted : Z := 3.
Definition SlotUnknown : Z := 4.

Definition SlotState_String (s : Z) : string :=
  if s =? SlotEmpty then "EMPTY"
  else if s =? SlotOccupied then "OCCUPIED"
  else if s =? SlotDoubleSlotted then "DOUBLE_SLOTTED"
  else if s =? SlotCrossSlotted then "CROSS_SLOTTED"
  else if s =? SlotUnknown then "UNKNOWN"
  else "INVALID".

Record Carrier := mkCarrier {
  CarrierID : string;
  c_State : CarrierState;
  SlotMap : list Z;        (* [25]SlotState *)
  c_PortID : Z;
  LotID : string;
  Usage : string;
  CreatedAt : option Z;
  AccessedAt : option Z;
}.

Definition WaferCount (c : Carrier) : Z :=
  foldl (fun count s => if s =? SlotOccupied then count + 1 else count) 0 (SlotMap c).

Record LoadPort := mkPort {
  PortID : Z;
  p_State : LoadPortState;
  p_CarrierID : string;    (* "" when empty *)
}.

Record CarrierManager := mkCM {
  carriers : gmap string Carrier;
  ports : gmap Z LoadPort;
  onChange : option nat;
  calls : list (nat * string * CarrierState * CarrierState);
}.

Inductive carrier_error :=
| UnknownPort (portID : Z)
| PortHasCarrier (portID : Z) (carrierID : string)
| PortNotReady (portID : Z) (s : LoadPortState)
| UnknownCarrier (carrierID : string)
| NotReadyToUnbind (carrierID : string) (s : CarrierState)
| CannotTransition (carrierID : string) (from to : CarrierState).

Definition NewCarrierManager : CarrierManager := mkCM ∅ ∅ None [].

Definition OnCarrierStateChange (fn : option nat) (cm : CarrierManager) : CarrierManager :=
  mkCM (carriers cm) (ports cm) fn (calls cm).

Definition set_carriers (m : gmap string Carrier) (cm : CarrierManager) : CarrierManager :=
  mkCM m (ports cm) (onChange cm) (calls cm).
Definition set_ports (m : gmap Z LoadPort) (cm : CarrierManager) : CarrierManager :=
  mkCM (carriers cm) m (onChange cm) (calls cm).
Definition set_port_state (s : LoadPortState) (p : LoadPort) : LoadPort :=
  mkPort (PortID p) s (p_CarrierID p).

Definition DefinePort (portID : Z) (cm : CarrierManager) : CarrierManager :=
  set_ports (<[portID := mkPort portID PortOutOfService ""]> (ports cm)) cm.

Definition SetPortInService (portID : Z) (cm : CarrierManager) : result carrier_error CarrierManager :=
  match ports cm !! portID with
  | None => Err (UnknownPort portID)
  | Some port => Ok (set_ports (<[portID := set_port_state PortReadyToLoad port]> (ports cm)) cm)
  end.

Definition SetPortOutOfService (portID : Z) (cm : CarrierManager) : result carrier_error CarrierManager :=
  match ports cm !! portID with
  | None => Err (UnknownPort portID)
  | Some port =>
      if negb (String.eqb (p_CarrierID port) "") then Err (PortHasCarrier portID (p_CarrierID port))
      else Ok (set_ports (<[portID := set_port_state PortOutOfService port]> (ports cm)) cm)
  end.

Definition BindCarrier (now : Z) (carrierID : string) (portID : Z) (lotID usage : string)
    (cm : CarrierManager) : result carrier_error CarrierManager :=
  match ports cm !! portID with
  | None => Err (UnknownPort portID)
  | Some port =>
      if decide (p_State port <> PortReadyToLoad) then Err (PortNotReady portID (p_State port))
      else if negb (String.eqb (p_CarrierID port) "") then Err (PortHasCarrier portID (p_CarrierID port))
      else
        let c := mkCarrier carrierID CarrierNotAccessed (replicate 25 SlotUnknown) portID lotID usage
                   (Some now) None in
        Ok (mkCM (<[carrierID := c]> (carriers cm))
              (<[portID := mkPort (PortID port) PortTransferReady carrierID]> (ports cm))
              (onChange cm) (calls cm))
  end.

Definition UnbindCarrier (carrierID : string) (cm : CarrierManager) : result carrier_error CarrierManager :=
  match carriers cm !! carrierID with
  | None => Err (UnknownCarrier carrierID)
  | Some c =>
      if decide (c_State c <> CarrierReadyToUnload /\ c_State c <> CarrierNotAccessed)
      then Err (NotReadyToUnbind carrierID (c_State c))
      else
        let ports' := match ports cm !! c_PortID c with
                      | Some port => <[c_PortID c := mkPort (PortID port) PortReadyToLoad ""]> (ports cm)
                      | None => ports cm
                      end in
        Ok (mkCM (delete carrierID (carriers cm)) ports' (onChange cm) (calls cm))
  end.

Definition enter (now : Z) (newState : CarrierState) (c : Carrier) : Carrier :=
  mkCarrier (CarrierID c) newState (SlotMap c) (c_PortID c) (LotID c) (Usage c) (CreatedAt c)
    (if decide (newState = CarrierInAccess) then Some now else AccessedAt c).

Definition transitionCarrier (now : Z) (carrierID : string) (expected : list CarrierState)
    (newState : CarrierState) (cm : CarrierManager) : result carrier_error CarrierManager :=
  match carriers cm !! carrierID with
  | None => Err (UnknownCarrier carrierID)
  | Some c =>
      if negb (in_states (c_State c) expected)
      then Err (CannotTransition carrierID (c_State c) newState)
      else
        Ok (mkCM (<[carrierID := enter now newState c]> (carriers cm)) (ports cm) (onChange cm)
              (match onChange cm with
               | None => calls cm
               | Some fn => (fn, carrierID, c_State c, newState) :: calls cm
               end))
  end.

Definition StartAccess (now : Z) (carrierID : string) :=
  transitionCarrier now carrierID [CarrierWaitingForHost] CarrierInAccess.
Definition ProceedWithCarrier (now : Z) (carrierID : string) :=
  transitionCarrier now carrierID [CarrierNotAccessed] CarrierWaitingForHost.
Definition CompleteAccess (now : Z) (carrierID : string) :=
  transitionCarrier now carrierID [CarrierInAccess] CarrierCarrierComplete.
Definition StopCarrier (now : Z) (carrierID : string) :=
  transitionCarrier now carrierID [CarrierInAccess] CarrierStopped.
Definition ResumeCarrier (now : Z) (carrierID : string) :=
  transitionCarrier now carrierID [CarrierStopped] CarrierInAccess.

(** The second half of [ReadyToUnload], which takes the lock again: other calls
    may come between the two halves. *)
Definition mark_port_unload (carrierID : string) (cm : CarrierManager) : CarrierManager :=
  match carriers cm !! carrierID with
  | None => cm
  | Some c =>
      match ports cm !! c_PortID c with
      | None => cm
      | Some port => set_ports (<[c_PortID c := set_port_state PortReadyToUnload port]> (ports cm)) cm
      end
  end.

Definition begin_unload (now : Z) (carrierID : string) :=
  transitionCarrier now carrierID [CarrierCarrierComplete; CarrierStopped; CarrierNotAccessed]
    CarrierReadyToUnload.

Definition ReadyToUnload (now : Z) (carrierID : string) (cm : CarrierManager)
  : result carrier_error CarrierManager :=
  cm' ← begin_unload now carrierID cm; Ok (mark_port_unload carrierID cm').

Definition SetSlotMap (carrierID : string) (slots : list Z) (cm : CarrierManager)
  : result carrier_error CarrierManager :=
  match carriers cm !! carrierID with
  | None => Err (UnknownCarrier carrierID)
  | Some c =>
      let c' := mkCarrier (CarrierID c) (c_State c) slots (c_PortID c) (LotID c) (Usage c)
                  (CreatedAt c) (AccessedAt c) in
      Ok (set_carriers (<[carrierID := c']> (carriers cm)) cm)
  end.

Definition GetCarrier (cm : CarrierManager) (carrierID : string) : option Carrier := carriers cm !! carrierID.
Definition GetPort (cm : CarrierManager) (portID : Z) : option LoadPort := ports cm !! portID.
Definition ListCarriers `{!MapOrder string} (cm : CarrierManager) : list Carrier := (range_map (carriers cm)).*2.
Definition ListPorts `{!MapOrder Z} (cm : CarrierManager) : list LoadPort := (range_map (ports cm)).*2.

(** ** Operations and reachable managers *)

Inductive event := evProceed | evStart | evComplete | evStop | evResume | evUnload.

Definition fire (e : event) : Z -> string -> CarrierManager -> result carrier_error CarrierManager :=
  match e with
  | evProceed => ProceedWithCarrier
  | evStart => StartAccess
  | evComplete => CompleteAccess
  | evStop => StopCarrier
  | evResume => ResumeCarrier
  | evUnload => begin_unload
  end.

(** One locked region of a call.  [ReadyToUnload] is its two regions, [Fire evUnload]
    and [MarkUnload], with other calls possible in between. *)
Inductive action :=
| Define (portID : Z)
| InService (portID : Z)
| OutOfService (portID : Z)
| Bind (now : Z) (carrierID : string) (portID : Z) (lotID usage : string)
| Unbind (carrierID : string)
| Fire (e : event) (now : Z) (carrierID : string)
| MarkUnload (carrierID : string)
| Slots (carrierID : string) (slots : list Z)
| Callback (fn : option nat).

Definition attempt (a : action) (cm : CarrierManager) : result carrier_error CarrierManager :=
  match a with
  | Define p => Ok (DefinePort p cm)
  | InService p => SetPortInService p cm
  | OutOfService p => SetPortOutOfService p cm
  | Bind now c p lot us => BindCarrier now c p lot us cm
  | Unbind c => UnbindCarrier c cm
  | Fire e now c => fire e now c cm
  | MarkUnload c => Ok (mark_port_unload c cm)
  | Slots c slots => SetSlotMap c slots cm
  | Callback fn => Ok (OnCarrierStateChange fn cm)
  end.

(** A call that answers an error leaves the manager as it was. *)
Definition act (a : action) (cm : CarrierManager) : CarrierManager :=
  match attempt a cm with Ok cm' => cm' | _ => cm end.

Definition run (l : list action) (cm : CarrierManager) : CarrierManager :=
  foldl (fun cm a => act a cm) cm l.

(** Any call at all, with any arguments. *)
Definition step (cm cm' : CarrierManager) : Prop := exists a, cm' = act a cm.

Definition reachable (cm : CarrierManager) : Prop := rtc step NewCarrierManager cm.

(** ** The graph of the access calls *)

Definition source (e : event) : list CarrierState :=
  match e with
  | evProceed => [CarrierNotAccessed]
  | evStart => [CarrierWaitingForHost]
  | evComplete | evStop => [CarrierInAccess]
  | evResume => [CarrierStopped]
  | evUnload => [CarrierCarrierComplete; CarrierStopped; CarrierNotAccessed]
  end.

Definition target (e : event) : CarrierState :=
  match e with
  | evProceed => CarrierWaitingForHost
  | evStart | evResume => CarrierInAccess
  | evComplete => CarrierCarrierComplete
  | evStop => CarrierStopped
  | evUnload => CarrierReadyToUnload
  end.

(** Carriers and ports agree: a bound carrier's port names it, a port's carrier
    is bound to that port, and only an empty port is out of service. *)
Record consistent (cm : CarrierManager) : Prop := {
  bound : forall id c, carriers cm !! id = Some c ->
    id <> "" /\ exists p, ports cm !! c_PortID c = Some p /\ p_CarrierID p = id;
  held : forall pid p, ports cm !! pid = Some p -> p_CarrierID p <> "" ->
    p_State p <> PortOutOfService
    /\ exists c, carriers cm !! p_CarrierID p = Some c /\ c_PortID c = pid;
}.

(** What holds of ports whatever the calls: a carrier's port is defined, an
    occupied port is in service. *)
Record grounded (cm : CarrierManager) : Prop := {
  on_port : forall id c, carriers cm !! id = Some c -> is_Some (ports cm !! c_PortID c);
  in_service : forall pid p, ports cm !! pid = Some p -> p_CarrierID p <> "" -> p_State p <> PortOutOfService;
}.

(** The two things the calls do not check: [DefinePort] on a port that holds a
    carrier forgets it, and [BindCarrier] takes the empty name or a carrier that
    is bound already. *)
Definition orderly (a : action) (cm : CarrierManager) : Prop :=
  match a with
  | Define p => forall port, ports cm !! p = Some port -> p_CarrierID port = ""
  | Bind now c p lot us =>
      (exists cm', BindCarrier now c p lot us cm = Ok cm') -> c <> "" /\ carriers cm !! c = None
  | _ => True
  end.

Fixpoint orderly_run (l : list action) (cm : CarrierManager) : Prop :=
  match l with
  | [] => True
  | a :: l => orderly a cm /\ orderly_run l (act a cm)
  end.

(** ** Lemmas *)

Lemma carrier_fire_transition e now c cm : fire e now c cm = transitionCarrier now c (source e) (target e) cm.
Proof. by destruct e. Qed.

(** A port changes its state but not its carrier. *)
Lemma consistent_port cm pid p s :
  consistent cm -> ports cm !! pid = Some p -> (s = PortOutOfService -> p_CarrierID p = "") ->
  consistent (set_ports (<[pid := set_port_state s p]> (ports cm)) cm).
Proof.
  intros [Hb Hh] Hp Hs. split.
  - intros id c Hc. destruct (Hb id c Hc) as (Hne & q & Hq & Hid). split; [done |]. simpl.
    destruct (decide (pid = c_PortID c)) as [->|Hneq].
    + rewrite lookup_insert_eq. eexists; split; [done |]. simpl. congruence.
    + rewrite lookup_insert_ne by done. eauto.
  - simpl. intros pid' p' Hp' Hne'. destruct (decide (pid = pid')) as [->|Hneq].
    + rewrite lookup_insert_eq in Hp'. injection Hp' as <-. simpl in *.
      destruct (Hh pid' p Hp Hne') as [_ Hc]. split; [| done]. intros ->. by destruct (Hne' (Hs eq_refl)).
    + rewrite lookup_insert_ne in Hp' by done. eauto.
Qed.

(** A carrier changes but stays on its port. *)
Lemma consistent_carrier cm id c c' :
  consistent cm -> carriers cm !! id = Some c -> c_PortID c' = c_PortID c ->
  forall fn l, consistent (mkCM (<[id := c']> (carriers cm)) (ports cm) fn l).
Proof.
  intros [Hb Hh] Hc Hport fn l. split; simpl.
  - intros id' d Hd. destruct (decide (id = id')) as [->|Hneq].
    + rewrite lookup_insert_eq in Hd. injection Hd as <-. rewrite Hport. by apply Hb.
    + rewrite lookup_insert_ne in Hd by done. by apply Hb.
  - intros pid p Hp Hne. destruct (Hh pid p Hp Hne) as (Hs & d & Hd & Hpid). split; [done |].
    destruct (decide (id = p_CarrierID p)) as [->|Hneq].
    + rewrite lookup_insert_eq. eexists; split; [done |]. congruence.
    + rewrite lookup_insert_ne by done. eauto.
Qed.

Lemma consistent_bind now id pid lot us cm cm' :
  consistent cm -> id <> "" -> carriers cm !! id = None -> BindCarrier now id pid lot us cm = Ok cm' ->
  consistent cm'.
Proof.
  intros [Hb Hh] Hne Hnew. unfold BindCarrier.
  destruct (ports cm !! pid) as [port|] eqn:Hport; [| done]. case_decide; [done |].
  destruct (String.eqb_spec (p_CarrierID port) "") as [Hempty|]; [| done].
  intros <-%Ok_inj. split; simpl.
  - intros id' c Hc. destruct (decide (id = id')) as [->|Hneq].
    + rewrite lookup_insert_eq in Hc. injection Hc as <-. split; [done |]. simpl.
      rewrite lookup_insert_eq. by eexists.
    + rewrite lookup_insert_ne in Hc by done. destruct (Hb id' c Hc) as (Hne' & p & Hp & Hid).
      split; [done |]. rewrite lookup_insert_ne; [by eauto |]. intros ->. congruence.
  - intros pid' p Hp Hpne. destruct (decide (pid = pid')) as [->|Hneq].
    + rewrite lookup_insert_eq in Hp. injection Hp as <-. simpl. split; [done |].
      rewrite lookup_insert_eq. by eexists.
    + rewrite lookup_insert_ne in Hp by done. destruct (Hh pid' p Hp Hpne) as (Hs & c & Hc & Hpid).
      split; [done |]. rewrite lookup_insert_ne by congruence. eauto.
Qed.

Lemma consistent_unbind id cm cm' :
  consistent cm -> UnbindCarrier id cm = Ok cm' -> consistent cm'.
Proof.
  intros [Hb Hh]. unfold UnbindCarrier. destruct (carriers cm !! id) as [c|] eqn:Hc; [| done].
  case_decide; [done |]. intros <-%Ok_inj.
  destruct (Hb id c Hc) as (Hne & port & Hport & Hid). rewrite Hport. split; simpl.
  - intros id' d Hd. apply lookup_delete_Some in Hd as [Hneq Hd].
    destruct (Hb id' d Hd) as (Hne' & q & Hq & Hid'). split; [done |].
    rewrite lookup_insert_ne; [by eauto |]. intros Heq. rewrite Heq in Hport. congruence.
  - intros pid p Hp Hpne. destruct (decide (c_PortID c = pid)) as [Heq|Hneq].
    + rewrite Heq, lookup_insert_eq in Hp. injection Hp as <-. done.
    + rewrite lookup_insert_ne in Hp by done. destruct (Hh pid p Hp Hpne) as (Hs & d & Hd & Hpid).
      split; [done |]. rewrite lookup_delete_ne; [by eauto |]. intros ->. congruence.
Qed.

Lemma consistent_define p cm :
  consistent cm -> consistent (DefinePort p cm) <-> orderly (Define p) cm.
Proof.
  intros [Hb Hh]. split.
  - intros [Hb' _] port Hport. destruct (decide (p_CarrierID port = "")) as [|Hne]; [done |].
    destruct (Hh p port Hport Hne) as (_ & c & Hc & <-).
    destruct (Hb' _ c Hc) as (_ & q & Hq & Hid). simpl in Hq. rewrite lookup_insert_eq in Hq.
    injection Hq as <-. by rewrite <- Hid in Hne.
  - intros Hnew. split; simpl.
    + intros id c Hid. destruct (Hb id c Hid) as (Hne & q & Hq & Heq). split; [done |].
      rewrite lookup_insert_ne; [by eauto |]. intros ->. rewrite (Hnew q Hq) in Heq. congruence.
    + intros pid q Hq Hne. destruct (decide (p = pid)) as [->|Hneq].
      * rewrite lookup_insert_eq in Hq. by injection Hq as <-.
      * rewrite lookup_insert_ne in Hq by done. eauto.
Qed.

(** A carrier that is bound again leaves its first port naming it. *)
Lemma consistent_bind_inv now id pid lot us cm cm' :
  consistent cm -> BindCarrier now id pid lot us cm = Ok cm' -> consistent cm' ->
  id <> "" /\ carriers cm !! id = None.
Proof.
  intros [Hb Hh] Hbind [Hb' Hh']. unfold BindCarrier in Hbind.
  destruct (ports cm !! pid) as [port|] eqn:Hport; [| done]. case_decide; [done |].
  destruct (String.eqb_spec (p_CarrierID port) "") as [Hempty|]; [| done].
  apply Ok_inj in Hbind as <-. simpl in *. split.
  - edestruct (Hb' id) as [Hne _]; [by rewrite lookup_insert_eq | done].
  - destruct (carriers cm !! id) as [c|] eqn:Hc; [| done].
    destruct (Hb id c Hc) as (Hne & p & Hp & Hid).
    assert (Hneq : pid <> c_PortID c) by (intros ->; congruence).
    destruct (Hh' (c_PortID c) p) as (_ & d & Hd & Hpid).
    + by rewrite lookup_insert_ne.
    + congruence.
    + rewrite Hid, lookup_insert_eq in Hd. injection Hd as <-. done.
Qed.

(** Every call but the two keeps the agreement, and those two exactly when
    they are orderly. *)
Lemma consistent_act a cm : consistent cm -> consistent (act a cm) <-> orderly a cm.
Proof.
  intros Hc. unfold act. destruct a as [p|p|p|now c p lot us|c|e now c|c|c slots|fn]; cbn [attempt orderly].
  - by apply consistent_define.
  - unfold SetPortInService. destruct (ports cm !! p) eqn:Hp; [| done]. split; [done |]. intros _. by apply consistent_port.
  - unfold SetPortOutOfService. destruct (ports cm !! p) eqn:Hp; [| done].
    destruct (String.eqb_spec (p_CarrierID l) ""); simpl; [| done]. split; [done |]. intros _. by apply consistent_port.
  - destruct (BindCarrier now c p lot us cm) as [cm'|err|msg|] eqn:Hbind.
    + split; [intros Hc' _; by apply (consistent_bind_inv now c p lot us cm cm') |].
      intros Ho. destruct Ho as [Hne Hnew]; [by eexists |]. by apply (consistent_bind now c p lot us cm).
    + split; [intros _ [? ?]; done | done].
    + split; [intros _ [? ?]; done | done].
    + split; [intros _ [? ?]; done | done].
  - destruct (UnbindCarrier c cm) eqn:H; [| done..]. split; [done |]. intros _. by apply (consistent_unbind c cm).
  - rewrite carrier_fire_transition. unfold transitionCarrier.
    destruct (carriers cm !! c) as [x|] eqn:Hx; [| done]. destruct (in_states _ _); [| done].
    split; [done |]. intros _. by apply consistent_carrier with x.
  - unfold mark_port_unload. destruct (carriers cm !! c) as [x|]; [| done].
    destruct (ports cm !! c_PortID x) as [port|] eqn:Hp; [| done]. split; [done |]. intros _. by apply consistent_port.
  - unfold SetSlotMap. destruct (carriers cm !! c) as [x|] eqn:Hx; [| done].
    split; [done |]. intros _. by apply consistent_carrier with x.
  - split; [done |]. intros _. by destruct Hc.
Qed.

Lemma consistent_run l cm :
  consistent cm -> (forall n, consistent (run (take n l) cm)) <-> orderly_run l cm.
Proof.
  revert cm. induction l as [|a l IH]; intros cm Hc; simpl.
  - split; [done |]. intros _ n. by rewrite take_nil.
  - split.
    + intros H. pose proof (H 1%nat) as H1. cbn in H1. split.
      * by apply consistent_act.
      * apply IH; [done |]. intros n. exact (H (S n)).
    + intros [Ha Hl] [|n]; [done |]. simpl. apply IH; [| done]. by apply consistent_act.
Qed.

Lemma consistent_New : consistent NewCarrierManager.
Proof. by split. Qed.

Lemma consistent_alone cm i1 i2 c1 c2 :
  consistent cm -> carriers cm !! i1 = Some c1 -> carriers cm !! i2 = Some c2 ->
  c_PortID c1 = c_PortID c2 -> i1 = i2.
Proof.
  intros [Hb _] H1 H2 Hp.
  destruct (Hb i1 c1 H1) as (_ & p1 & Hp1 & <-), (Hb i2 c2 H2) as (_ & p2 & Hp2 & <-). congruence.
Qed.

(** A port entry is written; the carriers stay. *)
Lemma grounded_insert cm pid p :
  grounded cm -> (p_CarrierID p <> "" -> p_State p <> PortOutOfService) ->
  grounded (set_ports (<[pid := p]> (ports cm)) cm).
Proof.
  intros [Hon Hin] Hp. split; simpl.
  - intros id c Hc. apply lookup_insert_is_Some'. right. by eapply Hon.
  - intros pid' q [[<- <-]|[_ Hq]]%lookup_insert_Some; [done | by eapply Hin].
Qed.

(** A carrier entry is written, on a defined port; the ports stay. *)
Lemma grounded_carrier cm id c fn l :
  grounded cm -> is_Some (ports cm !! c_PortID c) -> grounded (mkCM (<[id := c]> (carriers cm)) (ports cm) fn l).
Proof.
  intros [Hon Hin] Hc. split; simpl; [| done].
  intros id' c' [[<- <-]|[_ Hc']]%lookup_insert_Some; [done | by eapply Hon].
Qed.

Lemma grounded_bind now id pid lot us cm cm' :
  grounded cm -> BindCarrier now id pid lot us cm = Ok cm' -> grounded cm'.
Proof.
  intros Hg. unfold BindCarrier. destruct (ports cm !! pid) as [port|] eqn:Hp; [| done].
  case_decide; [done |]. destruct (negb _); [done |]. intros <-%Ok_inj.
  refine (grounded_carrier (set_ports (<[pid := mkPort (PortID port) PortTransferReady id]> (ports cm)) cm)
    id _ (onChange cm) (calls cm) _ _); [by apply grounded_insert |]. simpl. by rewrite lookup_insert_eq.
Qed.

Lemma grounded_unbind id cm cm' : grounded cm -> UnbindCarrier id cm = Ok cm' -> grounded cm'.
Proof.
  intros Hg. unfold UnbindCarrier. destruct (carriers cm !! id) as [c|] eqn:Hc; [| done].
  case_decide; [done |]. intros <-%Ok_inj.
  assert (grounded (mkCM (delete id (carriers cm)) (ports cm) (onChange cm) (calls cm))) as Hd.
  { destruct Hg as [Hon Hin]. split; simpl; [| done]. intros id' c' [_ Hc']%lookup_delete_Some. by eapply Hon. }
  destruct (ports cm !! c_PortID c) as [port|]; [| done].
  by apply (grounded_insert _ (c_PortID c) (mkPort (PortID port) PortReadyToLoad "") Hd).
Qed.

Lemma grounded_act a cm : grounded cm -> grounded (act a cm).
Proof.
  intros Hg. unfold act. destruct a as [p|p|p|now c p lot us|c|e now c|c|c slots|fn]; cbn [attempt orderly].
  - by apply grounded_insert.
  - unfold SetPortInService. destruct (ports cm !! p) as [port|]; [| done].
    by apply (grounded_insert cm p (set_port_state PortReadyToLoad port)).
  - unfold SetPortOutOfService. destruct (ports cm !! p); [| done].
    destruct (String.eqb_spec (p_CarrierID l) ""); simpl; [| done].
    by apply (grounded_insert cm p (set_port_state PortOutOfService l)).
  - destruct (BindCarrier _ _ _ _ _ _) eqn:H; [by eapply grounded_bind | done..].
  - destruct (UnbindCarrier _ _) eqn:H; [by eapply grounded_unbind | done..].
  - rewrite carrier_fire_transition. unfold transitionCarrier.
    destruct (carriers cm !! c) as [x|] eqn:Hx; [| done]. destruct (in_states _ _); [| done]. simpl.
    apply grounded_carrier; [done |]. exact (on_port cm Hg c x Hx).
  - unfold mark_port_unload. destruct (carriers cm !! c) as [x|]; [| done].
    destruct (ports cm !! c_PortID x) as [port|]; [| done].
    by apply (grounded_insert cm (c_PortID x) (set_port_state PortReadyToUnload port)).
  - unfold SetSlotMap. destruct (carriers cm !! c) as [x|] eqn:Hx; [| done].
    apply grounded_carrier; [done |]. exact (on_port cm Hg c x Hx).
  - by destruct Hg.
Qed.

Lemma grounded_run l cm : grounded cm -> grounded (run l cm).
Proof.
  revert cm. induction l as [|a l IH]; intros cm Hg; [done |]. simpl. by apply IH, grounded_act.
Qed.

Lemma foldl_count l n :
  foldl (fun count s => if s =? SlotOccupied then count + 1 else count) n l
  = n + len (filter (fun s => s = SlotOccupied) l).
Proof.
  revert n. induction l as [|s l IH]; intros n; [by rewrite filter_nil, len_nil, Z.add_0_r |]. cbn [foldl]. rewrite IH, filter_cons.
  destruct (Z.eqb_spec s SlotOccupied); [rewrite decide_True, len_cons by done; lia | by rewrite decide_False].
Qed.

Lemma WaferCount_spec c : WaferCount c = len (filter (fun s => s = SlotOccupied) (SlotMap c)).
Proof. apply foldl_count. Qed.

(** ** Properties *)

(** C16: Over any sequence of calls with any arguments, refused ones included: a
    bound carrier's port is defined and an occupied port is never out of service.
    Carriers and ports agree in both directions at every point of the sequence
    exactly when no call redefines a port that holds a carrier and no successful
    bind takes the empty name or a carrier that is bound already, which the code
    does not check; and then no two carriers share a port. *)
Theorem ports_consistent (l : list action) :
  grounded (run l NewCarrierManager)
  /\ ((forall n, consistent (run (take n l) NewCarrierManager)) <-> orderly_run l NewCarrierManager)
  /\ (orderly_run l NewCarrierManager -> forall i1 i2 c1 c2,
        carriers (run l NewCarrierManager) !! i1 = Some c1 ->
        carriers (run l NewCarrierManager) !! i2 = Some c2 -> c_PortID c1 = c_PortID c2 -> i1 = i2).
Proof.
  pose proof (consistent_run l NewCarrierManager consistent_New) as Hiff. split_and!.
  - apply grounded_run. by split.
  - exact Hiff.
  - intros Ho i1 i2 c1 c2. apply consistent_alone.
    rewrite <- (firstn_all l). by apply Hiff.
Qed.

Lemma ports_consistent_witness :
  let l := [Define 1; InService 1; Bind 0 "FOUP1" 1 "LOT" "PRODUCT"] in
  orderly_run l NewCarrierManager
  /\ is_Some (carriers (run l NewCarrierManager) !! "FOUP1")
  /\ forall n, consistent (run (take n l) NewCarrierManager).
Proof.
  intros l. assert (Ho : orderly_run l NewCarrierManager) by (split_and!; done).
  split_and!; [exact Ho | by eexists |]. exact (proj2 (proj1 (proj2 (ports_consistent l))) Ho).
Defined.

(** Each access call follows the graph above: it succeeds exactly on a
    carrier in a source state, moves that carrier alone and reports the move;
    a carrier is unbound only before access or once it is ready to unload, and
    then its port is free for the next one. *)
Theorem carrier_spec e now id cm :
  match fire e now id cm with
  | Ok cm' => exists c, carriers cm !! id = Some c /\ c_State c ∈ source e
      /\ carriers cm' = <[id := enter now (target e) c]> (carriers cm) /\ ports cm' = ports cm
      /\ (forall fn, onChange cm = Some fn -> calls cm' = (fn, id, c_State c, target e) :: calls cm)
  | Err (UnknownCarrier i) => i = id /\ carriers cm !! id = None
  | Err (CannotTransition i s s') => i = id /\ s' = target e /\ s ∉ source e
      /\ c_State <$> carriers cm !! id = Some s
  | _ => False
  end
  /\ (forall cm', UnbindCarrier id cm = Ok cm' -> consistent cm ->
        exists c p, carriers cm !! id = Some c
          /\ (c_State c = CarrierReadyToUnload \/ c_State c = CarrierNotAccessed)
          /\ carriers cm' !! id = None
          /\ ports cm' !! c_PortID c = Some p /\ p_CarrierID p = "" /\ p_State p = PortReadyToLoad).
Proof.
  split.
  - rewrite carrier_fire_transition. unfold transitionCarrier.
    destruct (carriers cm !! id) as [c|] eqn:Hc; [| done].
    destruct (in_states (c_State c) (source e)) eqn:Hin; simpl.
    + apply in_states_spec in Hin. exists c. simpl. split_and!; try done. by intros fn ->.
    + split_and!; try done. rewrite <- in_states_spec. by rewrite Hin.
  - intros cm' Hun [Hb _]. unfold UnbindCarrier in Hun.
    destruct (carriers cm !! id) as [c|] eqn:Hc; [| done]. case_decide as Hst; [done |].
    apply Ok_inj in Hun as <-. destruct (Hb id c Hc) as (_ & port & Hport & _). rewrite Hport. simpl.
    exists c. eexists. rewrite lookup_delete_eq, lookup_insert_eq. split_and!; try done.
    destruct (decide (c_State c = CarrierReadyToUnload)); [by left | right].
    destruct (decide (c_State c = CarrierNotAccessed)); [done | by destruct Hst].
Qed.

Lemma carrier_spec_witness :
  let c := mkCarrier "F" CarrierNotAccessed [] 1 "" "" None None in
  let cm := mkCM {["F" := c]} {[1 := mkPort 1 PortTransferReady "F"]} None [] in
  let cm' := mkCM ∅ {[1 := mkPort 1 PortReadyToLoad ""]} None [] in
  UnbindCarrier "F" cm = Ok cm' /\
  exists c p, carriers cm !! "F" = Some c
    /\ (c_State c = CarrierReadyToUnload \/ c_State c = CarrierNotAccessed)
    /\ carriers cm' !! "F" = None
    /\ ports cm' !! c_PortID c = Some p /\ p_CarrierID p = "" /\ p_State p = PortReadyToLoad.
Proof.
  intros c cm cm'. assert (H : UnbindCarrier "F" cm = Ok cm') by reflexivity. split; [exact H |].
  apply (proj2 (carrier_spec evProceed 0 "F" cm) cm' H). split.
  - intros id x. unfold cm. simpl. rewrite lookup_singleton_Some. intros [<- <-]. split; [done |].
    by eexists.
  - intros pid p. unfold cm. simpl. rewrite lookup_singleton_Some. intros [<- <-] _. split; [done |].
    by eexists.
Defined.

(** [BindCarrier] does not look whether the carrier is bound: the first port goes
    on naming a carrier that is elsewhere.  [DefinePort] on an occupied port lets
    a second carrier onto it. *)
Lemma rebind_dangles :
  (let cm := run [Define 1; InService 1; Bind 0 "F" 1 "" ""; Define 2; InService 2; Bind 0 "F" 2 "" ""]
               NewCarrierManager in
   p_CarrierID <$> ports cm !! 1 = Some "F" /\ c_PortID <$> carriers cm !! "F" = Some 2)
  /\ (let cm := run [Define 1; InService 1; Bind 0 "F" 1 "" ""; Define 1; InService 1; Bind 0 "G" 1 "" ""]
               NewCarrierManager in
   c_PortID <$> carriers cm !! "F" = Some 1 /\ c_PortID <$> carriers cm !! "G" = Some 1).
Proof. split; by vm_compute. Qed.
