(* ===== verification/ProcessJob.v ===== *)
(** * E40 process jobs

    [src/pkg/driver/gem/processjob.go].  [now] is the instant [time.Now()]
    returns, [None] the zero [time.Time].  The callback is a function value
    named by a number; [calls] records the calls made to it, newest first. *)

From stdpp Require Import prelude relations gmap strings list.
From Stdlib Require Import ZArith Lia.
From S2P Require Import Prelude Lifecycle.

#[local] Open Scope Z_scope.

Inductive ProcessJobState :=
| PJQueued | PJSettingUp | PJWaitingForStart | PJProcessing | PJProcessComplete
| PJStopping | PJStopped | PJAborting | PJAborted.

#[global] Instance ProcessJobState_eq_dec : EqDecision ProcessJobState.
Proof. solve_decision. Defined.

Definition ProcessJobState_String (s : ProcessJobState) : string :=
  match s with
  | PJQueued => "QUEUED"
  | PJSettingUp => "SETTING_UP"
  | PJWaitingForStart => "WAITING_FOR_START"
  | PJProcessing => "PROCESSING"
  | PJProcessComplete => "PROCESS_COMPLETE"
  | PJStopping => "STOPPING"
  | PJStopped => "STOPPED"
  | PJAborting => "ABORTING"
  | PJAborted => "ABORTED"
  end.

Record ProcessJob := mkPJ {
  JobID : string;
  State : ProcessJobState;
  RecipeID : string;
  CarrierID : string;
  Slots : list Z;
  Priority : Z;
  Params : gmap string string;
  ParentJob : string;     (* field ControlJob *)
  CreatedAt : option Z;
  StartedAt : option Z;
  CompletedAt : option Z;
}.

Record ProcessJobManager := mkPJM {
  jobs : gmap string ProcessJob;
  onChange : option nat;
  calls : list (nat * string * ProcessJobState * ProcessJobState);
}.

Inductive job_error :=
| AlreadyExists (jobID : string)
| UnknownJob (jobID : string)
| CannotTransition (jobID : string) (from to : ProcessJobState)
| NotTerminal (jobID : string) (s : ProcessJobState).

Definition NewProcessJobManager : ProcessJobManager := mkPJM ∅ None [].

Definition OnStateChange (fn : option nat) (pm : ProcessJobManager) : ProcessJobManager :=
  mkPJM (jobs pm) fn (calls pm).

Definition Create (now : Z) (jobID recipeID carrierID : string) (slots : list Z)
    (params : gmap string string) (pm : ProcessJobManager) : result job_error ProcessJobManager :=
  match jobs pm !! jobID with
  | Some _ => Err (AlreadyExists jobID)
  | None =>
      let job := mkPJ jobID PJQueued recipeID carrierID slots 0 params "" (Some now) None None in
      Ok (mkPJM (<[jobID := job]> (jobs pm)) (onChange pm) (calls pm))
  end.

(** [job.State = newState] and the timestamps of the [switch]. *)
Definition enter (now : Z) (newState : ProcessJobState) (j : ProcessJob) : ProcessJob :=
  let started := match newState with PJProcessing => Some now | _ => StartedAt j end in
  let completed := match newState with
                   | PJProcessComplete | PJStopped | PJAborted => Some now
                   | _ => CompletedAt j end in
  mkPJ (JobID j) newState (RecipeID j) (CarrierID j) (Slots j) (Priority j) (Params j) (ParentJob j)
    (CreatedAt j) started completed.

Definition transition (now : Z) (jobID : string) (expected : list ProcessJobState)
    (newState : ProcessJobState) (pm : ProcessJobManager) : result job_error ProcessJobManager :=
  match jobs pm !! jobID with
  | None => Err (UnknownJob jobID)
  | Some job =>
      if negb (in_states (State job) expected)
      then Err (CannotTransition jobID (State job) newState)
      else
        Ok (mkPJM (<[jobID := enter now newState job]> (jobs pm)) (onChange pm)
              (match onChange pm with
               | None => calls pm
               | Some fn => (fn, jobID, State job, newState) :: calls pm
               end))
  end.

Definition Setup (now : Z) (jobID : string) := transition now jobID [PJQueued] PJSettingUp.
Definition SetupComplete (now : Z) (jobID : string) := transition now jobID [PJSettingUp] PJWaitingForStart.
Definition Start (now : Z) (jobID : string) := transition now jobID [PJWaitingForStart] PJProcessing.
Definition Complete (now : Z) (jobID : string) := transition now jobID [PJProcessing] PJProcessComplete.
Definition Stop (now : Z) (jobID : string) := transition now jobID [PJProcessing] PJStopping.
Definition StopDone (now : Z) (jobID : string) := transition now jobID [PJStopping] PJStopped.
Definition Abort (now : Z) (jobID : string) :=
  transition now jobID [PJQueued; PJSettingUp; PJWaitingForStart; PJProcessing; PJStopping] PJAborting.
Definition AbortDone (now : Z) (jobID : string) := transition now jobID [PJAborting] PJAborted.

Definition is_terminal (s : ProcessJobState) : bool :=
  negb (bool_decide (s <> PJProcessComplete) && bool_decide (s <> PJStopped) && bool_decide (s <> PJAborted)).

Definition Remove (jobID : string) (pm : ProcessJobManager) : result job_error ProcessJobManager :=
  match jobs pm !! jobID with
  | None => Err (UnknownJob jobID)
  | Some job =>
      if negb (is_terminal (State job)) then Err (NotTerminal jobID (State job))
      else Ok (mkPJM (delete jobID (jobs pm)) (onChange pm) (calls pm))
  end.

Definition GetJob (pm : ProcessJobManager) (jobID : string) : option ProcessJob := jobs pm !! jobID.

Definition ListJobs `{!MapOrder string} (pm : ProcessJobManager) : list ProcessJob :=
  (range_map (jobs pm)).*2.

Definition ListActiveJobs `{!MapOrder string} (pm : ProcessJobManager) : list ProcessJob :=
  filter (fun j => negb (is_terminal (State j)) = true) (range_map (jobs pm)).*2.

(** ** Operations and reachable managers *)

Inductive event := evSetup | evSetupComplete | evStart | evComplete | evStop | evStopDone | evAbort | evAbortDone.

Definition fire (e : event) : Z -> string -> ProcessJobManager -> result job_error ProcessJobManager :=
  match e with
  | evSetup => Setup
  | evSetupComplete => SetupComplete
  | evStart => Start
  | evComplete => Complete
  | evStop => Stop
  | evStopDone => StopDone
  | evAbort => Abort
  | evAbortDone => AbortDone
  end.

(** One successful call. *)
Inductive step : ProcessJobManager -> ProcessJobManager -> Prop :=
| step_create now j r c sl p pm pm' : Create now j r c sl p pm = Ok pm' -> step pm pm'
| step_fire e now j pm pm' : fire e now j pm = Ok pm' -> step pm pm'
| step_remove j pm pm' : Remove j pm = Ok pm' -> step pm pm'
| step_callback fn pm : step pm (OnStateChange fn pm).

(** A successful call that does not remove job [j]. *)
Definition step_keeping (j : string) (pm pm' : ProcessJobManager) : Prop :=
  step pm pm' /\ is_Some (jobs pm' !! j).

Definition reachable (pm : ProcessJobManager) : Prop := rtc step NewProcessJobManager pm.

(** ** The graph of the calls *)

Definition source (e : event) : list ProcessJobState :=
  match e with
  | evSetup => [PJQueued]
  | evSetupComplete => [PJSettingUp]
  | evStart => [PJWaitingForStart]
  | evComplete | evStop => [PJProcessing]
  | evStopDone => [PJStopping]
  | evAbort => [PJQueued; PJSettingUp; PJWaitingForStart; PJProcessing; PJStopping]
  | evAbortDone => [PJAborting]
  end.

Definition target (e : event) : ProcessJobState :=
  match e with
  | evSetup => PJSettingUp
  | evSetupComplete => PJWaitingForStart
  | evStart => PJProcessing
  | evComplete => PJProcessComplete
  | evStop => PJStopping
  | evStopDone => PJStopped
  | evAbort => PJAborting
  | evAbortDone => PJAborted
  end.

Definition edge (s s' : ProcessJobState) : Prop := exists e, s ∈ source e /\ s' = target e.

Definition rank (s : ProcessJobState) : nat :=
  match s with
  | PJQueued => 0 | PJSettingUp => 1 | PJWaitingForStart => 2 | PJProcessing => 3
  | PJProcessComplete => 4 | PJStopping => 4 | PJStopped => 5 | PJAborting => 5 | PJAborted => 6
  end.

Definition state_of (j : string) (pm : ProcessJobManager) : option ProcessJobState := State <$> jobs pm !! j.

(** ** Lemmas *)

Lemma pj_fire_transition e now j pm : fire e now j pm = transition now j (source e) (target e) pm.
Proof. by destruct e. Qed.

Lemma pj_is_terminal_spec s : is_terminal s = true <-> s = PJProcessComplete \/ s = PJStopped \/ s = PJAborted.
Proof. by destruct s; vm_compute; naive_solver. Qed.

Lemma edge_rank s s' : edge s s' -> (rank s < rank s')%nat.
Proof.
  intros (e & Hs & ->). destruct e; cbn in Hs; rewrite ?elem_of_cons, elem_of_nil in Hs;
    repeat destruct Hs as [->|Hs]; try done; cbn; lia.
Qed.

Lemma pj_terminal_final s s' : is_terminal s = true -> ~ edge s s'.
Proof.
  rewrite pj_is_terminal_spec. intros Ht (e & Hs & _). destruct e; cbn in Hs; set_solver.
Qed.

Lemma pj_transition_ok now j expected new pm pm' :
  transition now j expected new pm = Ok pm' ->
  exists job, jobs pm !! j = Some job /\ State job ∈ expected
    /\ jobs pm' = <[j := enter now new job]> (jobs pm) /\ onChange pm' = onChange pm.
Proof.
  unfold transition. destruct (jobs pm !! j) as [job|] eqn:Hj; [| done].
  destruct (in_states (State job) expected) eqn:Hin; [| done]. apply in_states_spec in Hin.
  intros <-%Ok_inj. by exists job.
Qed.

Lemma pj_step_edge j pm pm' s :
  step_keeping j pm pm' -> state_of j pm = Some s ->
  exists s', state_of j pm' = Some s' /\ (s' = s \/ edge s s').
Proof.
  unfold state_of. intros [Hstep Hkeep] Hs. destruct Hstep as [now j' r c sl p pm pm' H|e now j' pm pm' H|j' pm pm' H|fn pm].
  - unfold Create in H. destruct (jobs pm !! j') eqn:Hj'; [done |]. apply Ok_inj in H. subst pm'. simpl.
    rewrite lookup_insert_ne by (intros ->; by rewrite Hj' in Hs). eauto.
  - rewrite pj_fire_transition in H. apply pj_transition_ok in H as (job & Hj' & Hin & -> & _).
    destruct (decide (j' = j)) as [->|Hne].
    + rewrite lookup_insert_eq. rewrite Hj' in Hs. simpl in *. injection Hs as <-.
      eexists; split; [done |]. right. by exists e.
    + rewrite lookup_insert_ne by done. eauto.
  - unfold Remove in H. destruct (jobs pm !! j') as [job|]; [| done].
    destruct (is_terminal (State job)); [| done]. apply Ok_inj in H. subst pm'. simpl in *.
    destruct (decide (j' = j)) as [->|Hne]; [by rewrite lookup_delete_eq in Hkeep; destruct Hkeep |].
    rewrite lookup_delete_ne by done. eauto.
  - eauto.
Qed.

Lemma pj_fire_state e now j pm s :
  state_of j pm = Some s -> s ∈ source e ->
  exists pm', fire e now j pm = Ok pm' /\ state_of j pm' = Some (target e).
Proof.
  unfold state_of. rewrite pj_fire_transition. unfold transition. intros Hs Hin.
  destruct (jobs pm !! j) as [job|]; simplify_eq/=.
  apply in_states_spec in Hin. rewrite Hin. simpl. eexists. split; [done |]. simpl. by rewrite lookup_insert_eq.
Qed.

Lemma terminal_refuses e now j pm s :
  state_of j pm = Some s -> is_terminal s = true -> fire e now j pm = Err (CannotTransition j s (target e)).
Proof.
  unfold state_of. rewrite pj_fire_transition. unfold transition. intros Hs Ht.
  destruct (jobs pm !! j) as [job|]; simplify_eq/=.
  destruct (in_states (State job) (source e)) eqn:Hin; [| done]. apply in_states_spec in Hin. exfalso.
  apply (pj_terminal_final _ (target e) Ht). by exists e.
Qed.

Lemma abort_ends j pm s t1 t2 :
  state_of j pm = Some s -> is_terminal s = false ->
  (s <> PJAborting -> exists pm1, Abort t1 j pm = Ok pm1)
  /\ (let pm1 := match Abort t1 j pm with Ok pm1 => pm1 | _ => pm end in
      exists pm2, AbortDone t2 j pm1 = Ok pm2 /\ state_of j pm2 = Some PJAborted).
Proof.
  intros Hs Ht. destruct (decide (s = PJAborting)) as [->|Hne].
  - split; [done |]. assert (Abort t1 j pm = Err (CannotTransition j PJAborting PJAborting)) as ->.
    { unfold Abort, transition. unfold state_of in Hs. destruct (jobs pm !! j) as [job|]; [| done].
      simpl in Hs. injection Hs as ->. done. }
    apply (pj_fire_state evAbortDone t2 j pm PJAborting); [done | set_solver].
  - destruct (pj_fire_state evAbort t1 j pm s Hs) as (pm1 & H1 & Hs1); [destruct s; (done || set_solver) |].
    change (Abort t1 j pm = Ok pm1) in H1. split; [by eexists |]. rewrite H1.
    apply (pj_fire_state evAbortDone t2 j pm1 PJAborting); [done | set_solver].
Qed.

(** The timestamps follow the state: a job has started once it is processing,
    and is completed exactly in a terminal state. *)
Definition timestamps_ok (j : ProcessJob) : Prop :=
  (State j = PJProcessing \/ State j = PJProcessComplete \/ State j = PJStopping \/ State j = PJStopped ->
     is_Some (StartedAt j))
  /\ (is_Some (CompletedAt j) <-> is_terminal (State j) = true).

Lemma enter_timestamps now e job :
  State job ∈ source e -> timestamps_ok job -> timestamps_ok (enter now (target e) job).
Proof.
  unfold timestamps_ok. intros Hs [H1 H2].
  assert (Hnt : is_terminal (State job) = false).
  { destruct (is_terminal (State job)) eqn:E; [| reflexivity]. exfalso.
    apply (pj_terminal_final _ (target e) E). exists e. split; [exact Hs | reflexivity]. }
  rewrite Hnt in H2. split.
  - destruct e; cbn [target enter State StartedAt]; cbn [source] in Hs;
      try (intros [|[|[|]]]; discriminate); intros _; try (by eexists);
      apply list_elem_of_singleton in Hs; apply H1; rewrite Hs; auto.
  - destruct e; cbn; rewrite ?H2; split; (done || by intros [? ?] || by eexists).
Qed.

Lemma reachable_timestamps pm : reachable pm -> map_Forall (fun i j => JobID j = i /\ timestamps_ok j) (jobs pm).
Proof.
  unfold reachable.
  apply (invariant_rtc step (fun pm => map_Forall (fun i j => JobID j = i /\ timestamps_ok j) (jobs pm)));
    [| apply map_Forall_empty].
  clear. intros pm pm' Hstep IH. destruct Hstep as [now j r c sl p pm pm' H|e now j pm pm' H|j pm pm' H|fn pm].
  - unfold Create in H. destruct (jobs pm !! j); [done |]. apply Ok_inj in H. subst pm'.
    apply map_Forall_insert_2; [| done]. split; [done |]. split; simpl; [naive_solver |].
    split; [by intros [? ?] | done].
  - rewrite pj_fire_transition in H. apply pj_transition_ok in H as (job & Hj & Hin & -> & _).
    destruct (IH j job Hj) as [Hid Hts]. apply map_Forall_insert_2; [| done].
    split; [done |]. by apply enter_timestamps.
  - unfold Remove in H. destruct (jobs pm !! j) as [job|]; [| done].
    destruct (is_terminal (State job)); [| done]. apply Ok_inj in H. subst pm'. by apply map_Forall_delete.
  - done.
Qed.

(** ** Properties *)

(** Each call follows the graph above: it succeeds exactly on a job that
    is in a source state of its event, and then moves that job alone to the
    target state and reports the move to the callback. *)
Theorem pj_fire_spec e now j pm :
  match fire e now j pm with
  | Ok pm' => exists job, jobs pm !! j = Some job /\ State job ∈ source e
      /\ jobs pm' = <[j := enter now (target e) job]> (jobs pm)
      /\ (forall fn, onChange pm = Some fn -> calls pm' = (fn, j, State job, target e) :: calls pm)
      /\ (onChange pm = None -> calls pm' = calls pm)
  | Err (UnknownJob i) => i = j /\ jobs pm !! j = None
  | Err (CannotTransition i s s') => i = j /\ s' = target e /\ state_of j pm = Some s /\ s ∉ source e
  | _ => False
  end.
Proof.
  rewrite pj_fire_transition. unfold transition, state_of.
  destruct (jobs pm !! j) as [job|] eqn:Hj; [| done].
  destruct (in_states (State job) (source e)) eqn:Hin; simpl.
  - apply in_states_spec in Hin. exists job. simpl. split_and!; try done; by intros fn ->||intros ->.
  - split_and!; try done. rewrite <- in_states_spec. by rewrite Hin.
Qed.

(** C17: Whatever calls are made, a job that is not removed changes state at most
    six times, each time along an edge of the job graph.  In a terminal state it
    stays, and every call on it is refused.  In any other state the two calls
    [Abort] and [AbortDone] end it: [Abort] succeeds unless the job is aborting
    already, and then [AbortDone] succeeds and leaves it aborted. *)
Theorem job_terminates j pm pm' s :
  state_of j pm = Some s -> rtc (step_keeping j) pm pm' ->
  exists s' n, state_of j pm' = Some s' /\ nsteps edge n s s' /\ (n <= 6)%nat
    /\ (is_terminal s = true -> s' = s)
    /\ (is_terminal s' = true -> forall e now, fire e now j pm' = Err (CannotTransition j s' (target e)))
    /\ (is_terminal s' = false -> forall t1 t2,
          (s' <> PJAborting -> exists pm1, Abort t1 j pm' = Ok pm1)
          /\ (let pm1 := match Abort t1 j pm' with Ok pm1 => pm1 | _ => pm' end in
              exists pm2, AbortDone t2 j pm1 = Ok pm2 /\ state_of j pm2 = Some PJAborted)).
Proof.
  intros Hs Hm. destruct (steps_edges _ _ _ (pj_step_edge j) pm pm' s Hm Hs) as (s' & n & Hs' & Hn).
  exists s', n. split_and!; [done | done | | | |].
  - pose proof (nsteps_rank edge rank n s s' edge_rank Hn). destruct s'; cbn in *; lia.
  - intros Ht. enough (state_of j pm' = Some s) by congruence.
    apply (steps_final _ _ _ (pj_step_edge j) pm pm'); [| done | done].
    intros s1. by apply pj_terminal_final.
  - intros Ht e now. by apply terminal_refuses.
  - intros Ht t1 t2. by apply abort_ends.
Qed.

Lemma job_terminates_witness :
  let pm := match Create 0 "J1" "R" "C" [1] ∅ NewProcessJobManager with Ok pm => pm | _ => NewProcessJobManager end in
  let pm' := match Setup 5 "J1" pm with Ok pm' => pm' | _ => pm end in
  state_of "J1" pm = Some PJQueued /\ rtc (step_keeping "J1") pm pm'
  /\ exists s' n, state_of "J1" pm' = Some s' /\ nsteps edge n PJQueued s' /\ (n <= 6)%nat.
Proof.
  intros pm pm'. assert (Hs : state_of "J1" pm = Some PJQueued) by reflexivity.
  assert (Hm : rtc (step_keeping "J1") pm pm').
  { apply rtc_once. split; [by apply (step_fire evSetup 5 "J1") | by eexists]. }
  split_and!; [exact Hs | exact Hm |].
  destruct (job_terminates "J1" pm pm' PJQueued Hs Hm) as (s' & n & H1 & H2 & H3 & _).
  exists s', n. split_and!; assumption.
Defined.

(** In a reachable manager a job is stored under its own id, has a start
    time once it is processing, and has a completion time exactly when its state
    is terminal; only terminal jobs can be removed. *)
Theorem timestamps_reachable pm j job :
  reachable pm -> jobs pm !! j = Some job ->
  JobID job = j /\ timestamps_ok job
  /\ (is_ok (Remove j pm) = true <-> is_Some (CompletedAt job)).
Proof.
  intros Hr Hj. destruct (reachable_timestamps pm Hr j job Hj) as [Hid Hts].
  split_and!; [done | done |]. unfold Remove. rewrite Hj. destruct Hts as [_ ->].
  by destruct (is_terminal (State job)).
Qed.

Lemma timestamps_reachable_witness :
  let pm := match Create 0 "J1" "R" "C" [1] ∅ NewProcessJobManager with Ok pm => pm | _ => NewProcessJobManager end in
  let job := mkPJ "J1" PJQueued "R" "C" [1] 0 ∅ "" (Some 0) None None in
  reachable pm /\ jobs pm !! "J1" = Some job
  /\ (is_ok (Remove "J1" pm) = true <-> is_Some (CompletedAt job)).
Proof.
  intros pm job. assert (Hr : reachable pm) by (apply rtc_once; by apply (step_create 0 "J1" "R" "C" [1] ∅)).
  assert (Hj : jobs pm !! "J1" = Some job) by reflexivity.
  split_and!; [exact Hr | exact Hj |]. exact (proj2 (proj2 (timestamps_reachable pm "J1" job Hr Hj))).
Defined.
