(* ===== verification/ControlJob.v ===== *)
(** * E94 control jobs

    [src/pkg/driver/gem/controljob.go].  Time and callbacks as in
    [ProcessJob]. *)

From stdpp Require Import prelude relations gmap strings list.
From Stdlib Require Import ZArith Lia.
From S2P Require Import Prelude Lifecycle.

#[local] Open Scope Z_scope.

Inductive ControlJobState :=
| CJQueued | CJSelected | CJWaitingForStart | CJExecuting | CJPausing | CJPaused
| CJCompleted | CJStopping | CJStopped.

#[global] Instance ControlJobState_eq_dec : EqDecision ControlJobState.
Proof. solve_decision. Defined.

Definition ControlJobState_String (s : ControlJobState) : string :=
  match s with
  | CJQueued => "QUEUED"
  | CJSelected => "SELECTED"
  | CJWaitingForStart => "WAITING_FOR_START"
  | CJExecuting => "EXECUTING"
  | CJPausing => "PAUSING"
  | CJPaused => "PAUSED"
  | CJCompleted => "COMPLETED"
  | CJStopping => "STOPPING"
  | CJStopped => "STOPPED"
  end.

Record ControlJob := mkCJ {
  JobID : string;
  State : ControlJobState;
  ProcessJobs : list string;
  Priority : Z;
  CreatedAt : option Z;
  StartedAt : option Z;
  CompletedAt : option Z;
}.

Record ControlJobManager := mkCJM {
  jobs : gmap string ControlJob;
  onChange : option nat;
  calls : list (nat * string * ControlJobState * ControlJobState);
}.

Inductive job_error :=
| AlreadyExists (jobID : string)
| UnknownJob (jobID : string)
| CannotTransition (jobID : string) (from to : ControlJobState)
| NotTerminal (jobID : string) (s : ControlJobState).

Definition NewControlJobManager : ControlJobManager := mkCJM ∅ None [].

Definition OnStateChange (fn : option nat) (cjm : ControlJobManager) : ControlJobManager :=
  mkCJM (jobs cjm) fn (calls cjm).

Definition Create (now : Z) (jobID : string) (processJobIDs : list string) (priority : Z)
    (cjm : ControlJobManager) : result job_error ControlJobManager :=
  match jobs cjm !! jobID with
  | Some _ => Err (AlreadyExists jobID)
  | None =>
      let job := mkCJ jobID CJQueued processJobIDs priority (Some now) None None in
      Ok (mkCJM (<[jobID := job]> (jobs cjm)) (onChange cjm) (calls cjm))
  end.

Definition enter (now : Z) (newState : ControlJobState) (j : ControlJob) : ControlJob :=
  let started := match newState with CJExecuting => Some now | _ => StartedAt j end in
  let completed := match newState with CJCompleted | CJStopped => Some now | _ => CompletedAt j end in
  mkCJ (JobID j) newState (ProcessJobs j) (Priority j) (CreatedAt j) started completed.

Definition transition (now : Z) (jobID : string) (expected : list ControlJobState)
    (newState : ControlJobState) (cjm : ControlJobManager) : result job_error ControlJobManager :=
  match jobs cjm !! jobID with
  | None => Err (UnknownJob jobID)
  | Some job =>
      if negb (in_states (State job) expected)
      then Err (CannotTransition jobID (State job) newState)
      else
        Ok (mkCJM (<[jobID := enter now newState job]> (jobs cjm)) (onChange cjm)
              (match onChange cjm with
               | None => calls cjm
               | Some fn => (fn, jobID, State job, newState) :: calls cjm
               end))
  end.

Definition Select (now : Z) (jobID : string) := transition now jobID [CJQueued] CJSelected.
Definition WaitForStart (now : Z) (jobID : string) := transition now jobID [CJSelected] CJWaitingForStart.
Definition Execute (now : Z) (jobID : string) := transition now jobID [CJWaitingForStart; CJPaused] CJExecuting.
Definition Complete (now : Z) (jobID : string) := transition now jobID [CJExecuting] CJCompleted.
Definition Pause (now : Z) (jobID : string) := transition now jobID [CJExecuting] CJPausing.
Definition PauseDone (now : Z) (jobID : string) := transition now jobID [CJPausing] CJPaused.
Definition Stop (now : Z) (jobID : string) :=
  transition now jobID [CJQueued; CJSelected; CJWaitingForStart; CJExecuting; CJPausing; CJPaused] CJStopping.
Definition StopDone (now : Z) (jobID : string) := transition now jobID [CJStopping] CJStopped.

Definition is_terminal (s : ControlJobState) : bool :=
  negb (bool_decide (s <> CJCompleted) && bool_decide (s <> CJStopped)).

Definition Remove (jobID : string) (cjm : ControlJobManager) : result job_error ControlJobManager :=
  match jobs cjm !! jobID with
  | None => Err (UnknownJob jobID)
  | Some job =>
      if negb (is_terminal (State job)) then Err (NotTerminal jobID (State job))
      else Ok (mkCJM (delete jobID (jobs cjm)) (onChange cjm) (calls cjm))
  end.

Definition GetJob (cjm : ControlJobManager) (jobID : string) : option ControlJob := jobs cjm !! jobID.

Definition ListJobs `{!MapOrder string} (cjm : ControlJobManager) : list ControlJob :=
  (range_map (jobs cjm)).*2.

(** ** Operations *)

Inductive event := evSelect | evWaitForStart | evExecute | evComplete | evPause | evPauseDone | evStop | evStopDone.

Definition fire (e : event) : Z -> string -> ControlJobManager -> result job_error ControlJobManager :=
  match e with
  | evSelect => Select
  | evWaitForStart => WaitForStart
  | evExecute => Execute
  | evComplete => Complete
  | evPause => Pause
  | evPauseDone => PauseDone
  | evStop => Stop
  | evStopDone => StopDone
  end.

Inductive step : ControlJobManager -> ControlJobManager -> Prop :=
| step_create now j ps p cjm cjm' : Create now j ps p cjm = Ok cjm' -> step cjm cjm'
| step_fire e now j cjm cjm' : fire e now j cjm = Ok cjm' -> step cjm cjm'
| step_remove j cjm cjm' : Remove j cjm = Ok cjm' -> step cjm cjm'
| step_callback fn cjm : step cjm (OnStateChange fn cjm).

Definition step_keeping (j : string) (cjm cjm' : ControlJobManager) : Prop :=
  step cjm cjm' /\ is_Some (jobs cjm' !! j).

(** ** The graph of the calls *)

Definition source (e : event) : list ControlJobState :=
  match e with
  | evSelect => [CJQueued]
  | evWaitForStart => [CJSelected]
  | evExecute => [CJWaitingForStart; CJPaused]
  | evComplete | evPause => [CJExecuting]
  | evPauseDone => [CJPausing]
  | evStop => [CJQueued; CJSelected; CJWaitingForStart; CJExecuting; CJPausing; CJPaused]
  | evStopDone => [CJStopping]
  end.

Definition target (e : event) : ControlJobState :=
  match e with
  | evSelect => CJSelected
  | evWaitForStart => CJWaitingForStart
  | evExecute => CJExecuting
  | evComplete => CJCompleted
  | evPause => CJPausing
  | evPauseDone => CJPaused
  | evStop => CJStopping
  | evStopDone => CJStopped
  end.

Definition edge (s s' : ControlJobState) : Prop := exists e, s ∈ source e /\ s' = target e.

Definition state_of (j : string) (cjm : ControlJobManager) : option ControlJobState :=
  State <$> jobs cjm !! j.

(** A job only pauses and resumes before it stops or completes. *)
Definition phase (s : ControlJobState) : nat :=
  match s with
  | CJQueued => 0 | CJSelected => 1 | CJWaitingForStart => 2
  | CJExecuting | CJPausing | CJPaused => 3
  | CJStopping => 4 | CJCompleted | CJStopped => 5
  end.

(** ** Lemmas *)

Lemma cj_fire_transition e now j cjm : fire e now j cjm = transition now j (source e) (target e) cjm.
Proof. by destruct e. Qed.

Lemma cj_is_terminal_spec s : is_terminal s = true <-> s = CJCompleted \/ s = CJStopped.
Proof. by destruct s; vm_compute; naive_solver. Qed.

Lemma edge_cases s s' : edge s s' -> exists e, In s (source e) /\ s' = target e.
Proof. intros (e & Hs & Ht). exists e. split; [by apply list_elem_of_In | done]. Qed.

Lemma edge_phase s s' : edge s s' -> (phase s <= phase s')%nat.
Proof.
  intros (e & Hs & ->)%edge_cases. destruct e; cbn in Hs;
    repeat destruct Hs as [<-|Hs]; try done; cbn; lia.
Qed.

Lemma cj_terminal_final s s' : is_terminal s = true -> ~ edge s s'.
Proof.
  rewrite cj_is_terminal_spec. intros Ht (e & Hs & _)%edge_cases. destruct e; cbn in Hs; intuition congruence.
Qed.

Lemma cj_transition_ok now j expected new cjm cjm' :
  transition now j expected new cjm = Ok cjm' ->
  exists job, jobs cjm !! j = Some job /\ State job ∈ expected
    /\ jobs cjm' = <[j := enter now new job]> (jobs cjm).
Proof.
  unfold transition. destruct (jobs cjm !! j) as [job|] eqn:Hj; [| done].
  destruct (in_states (State job) expected) eqn:Hin; [| done]. apply in_states_spec in Hin.
  intros <-%Ok_inj. by exists job.
Qed.

Lemma cj_step_edge j cjm cjm' s :
  step_keeping j cjm cjm' -> state_of j cjm = Some s ->
  exists s', state_of j cjm' = Some s' /\ (s' = s \/ edge s s').
Proof.
  unfold state_of. intros [Hstep Hkeep] Hs.
  destruct Hstep as [now j' ps p cjm cjm' H|e now j' cjm cjm' H|j' cjm cjm' H|fn cjm].
  - unfold Create in H. destruct (jobs cjm !! j') eqn:Hj'; [done |]. apply Ok_inj in H. subst cjm'. simpl.
    rewrite lookup_insert_ne by (intros ->; by rewrite Hj' in Hs). eauto.
  - rewrite cj_fire_transition in H. apply cj_transition_ok in H as (job & Hj' & Hin & ->).
    destruct (decide (j' = j)) as [->|Hne].
    + rewrite lookup_insert_eq. rewrite Hj' in Hs. simpl in *. injection Hs as <-.
      eexists; split; [done |]. right. by exists e.
    + rewrite lookup_insert_ne by done. eauto.
  - unfold Remove in H. destruct (jobs cjm !! j') as [job|]; [| done].
    destruct (is_terminal (State job)); [| done]. apply Ok_inj in H. subst cjm'. simpl in *.
    destruct (decide (j' = j)) as [->|Hne]; [by rewrite lookup_delete_eq in Hkeep; destruct Hkeep |].
    rewrite lookup_delete_ne by done. eauto.
  - eauto.
Qed.

Lemma nsteps_phase n s s' : nsteps edge n s s' -> (phase s <= phase s')%nat.
Proof. induction 1 as [|n x y z Hxy _ IH]; [done |]. apply edge_phase in Hxy. lia. Qed.

(** ** Properties *)

(** Each call follows the graph above: it succeeds exactly on a job in a
    source state of its event, moves that job alone to the target state and
    reports the move; resuming a paused job restarts its start time. *)
Theorem cj_fire_spec e now j cjm :
  match fire e now j cjm with
  | Ok cjm' => exists job, jobs cjm !! j = Some job /\ State job ∈ source e
      /\ jobs cjm' = <[j := enter now (target e) job]> (jobs cjm)
      /\ (forall fn, onChange cjm = Some fn -> calls cjm' = (fn, j, State job, target e) :: calls cjm)
      /\ (e = evExecute -> StartedAt (enter now (target e) job) = Some now)
  | Err (UnknownJob i) => i = j /\ jobs cjm !! j = None
  | Err (CannotTransition i s s') => i = j /\ s' = target e /\ state_of j cjm = Some s /\ s ∉ source e
  | _ => False
  end.
Proof.
  rewrite cj_fire_transition. unfold transition, state_of.
  destruct (jobs cjm !! j) as [job|] eqn:Hj; [| done].
  destruct (in_states (State job) (source e)) eqn:Hin; simpl.
  - apply in_states_spec in Hin. exists job. simpl. split_and!; try done; [by intros fn -> | by intros ->].
  - split_and!; try done. rewrite <- in_states_spec. by rewrite Hin.
Qed.

(** Whatever calls are made, a job that is not removed never goes back to an
    earlier phase, a terminal state is final, and every other state can be
    stopped. *)
Theorem job_progress j cjm cjm' s :
  state_of j cjm = Some s -> rtc (step_keeping j) cjm cjm' ->
  (exists s', state_of j cjm' = Some s' /\ rtc edge s s' /\ (phase s <= phase s')%nat)
  /\ (is_terminal s = true -> state_of j cjm' = Some s)
  /\ (is_terminal s = false -> rtc edge s CJStopped).
Proof.
  intros Hs Hm. split_and!.
  - destruct (steps_edges _ _ _ (cj_step_edge j) cjm cjm' s Hm Hs) as (s' & n & Hs' & Hn).
    exists s'. split_and!; [done | apply rtc_nsteps; by exists n | by apply nsteps_phase in Hn].
  - intros Ht. apply (steps_final _ _ _ (cj_step_edge j) cjm cjm'); [| done | done].
    intros s'. by apply cj_terminal_final.
  - assert (Ha : edge CJStopping CJStopped) by (exists evStopDone; split; [set_solver | done]).
    intros Ht. destruct s; try done; try (by apply rtc_once);
      (eapply rtc_l; [| by apply rtc_once]; exists evStop; split; [set_solver | done]).
Qed.

Lemma job_progress_witness :
  let cjm := match Create 0 "CJ1" ["PJ1"] 1 NewControlJobManager with Ok m => m | _ => NewControlJobManager end in
  let cjm' := match Select 5 "CJ1" cjm with Ok m => m | _ => cjm end in
  state_of "CJ1" cjm = Some CJQueued /\ rtc (step_keeping "CJ1") cjm cjm'
  /\ exists s', state_of "CJ1" cjm' = Some s' /\ rtc edge CJQueued s' /\ (phase CJQueued <= phase s')%nat.
Proof.
  intros cjm cjm'. assert (Hs : state_of "CJ1" cjm = Some CJQueued) by reflexivity.
  assert (Hm : rtc (step_keeping "CJ1") cjm cjm').
  { apply rtc_once. split; [by apply (step_fire evSelect 5 "CJ1") | by eexists]. }
  split_and!; [exact Hs | exact Hm |]. exact (proj1 (job_progress "CJ1" cjm cjm' CJQueued Hs Hm)).
Defined.
