(* ===== verification/Substrate.v ===== *)
(** * E90 substrate tracking

    [src/pkg/driver/gem/substrate.go].  Time and callbacks as in
    [ProcessJob]. *)

From stdpp Require Import prelude relations gmap strings list pretty.
From Stdlib Require Import ZArith Lia.
From S2P Require Import Prelude Lifecycle.

#[local] Open Scope Z_scope.

(** [LocationType] is a string type. *)
Definition LocationPort : string := "PORT".
Definition LocationChamber : string := "CHAMBER".
Definition LocationBuffer : string := "BUFFER".
Definition LocationAligner : string := "ALIGNER".
Definition LocationRobot : string := "ROBOT".

Record SubstrateLocation := mkLoc { l_Type : string; l_ID : string; l_Slot : Z }.

#[global] Instance SubstrateLocation_eq_dec : EqDecision SubstrateLocation.
Proof. solve_decision. Defined.

Definition SubstrateLocation_String (l : SubstrateLocation) : string :=
  l_Type l +:+ ":" +:+ l_ID l +:+ "/slot" +:+ pretty (l_Slot l).

Inductive SubstrateState :=
| SubstrateAtSource | SubstrateInTransit | SubstrateAtProcess | SubstrateProcessed
| SubstrateAtDest | SubstrateRejected.

#[global] Instance SubstrateState_eq_dec : EqDecision SubstrateState.
Proof. solve_decision. Defined.

Definition SubstrateState_String (s : SubstrateState) : string :=
  match s with
  | SubstrateAtSource => "AT_SOURCE"
  | SubstrateInTransit => "IN_TRANSIT"
  | SubstrateAtProcess => "AT_PROCESS"
  | SubstrateProcessed => "PROCESSED"
  | SubstrateAtDest => "AT_DESTINATION"
  | SubstrateRejected => "REJECTED"
  end.

Record MovementRecord := mkMove { m_Time : Z; m_From : SubstrateLocation; m_To : SubstrateLocation }.

Record Substrate := mkSub {
  SubstrateID : string;
  LotID : string;
  CarrierID : string;
  SourceSlot : Z;
  Location : SubstrateLocation;
  State : SubstrateState;
  History : list MovementRecord;   (* oldest first *)
}.

Record SubstrateTracker := mkST {
  substrates : gmap string Substrate;
  onMove : option nat;
  moves : list (nat * string * SubstrateLocation * SubstrateLocation);
}.

Inductive substrate_error := UnknownSubstrate (subID : string).

Definition NewSubstrateTracker : SubstrateTracker := mkST ∅ None [].

Definition OnMove (fn : option nat) (st : SubstrateTracker) : SubstrateTracker :=
  mkST (substrates st) fn (moves st).

Definition RegisterSubstrate (subID lotID carrierID : string) (slot : Z) (portID : string)
    (st : SubstrateTracker) : SubstrateTracker :=
  mkST (<[subID := mkSub subID lotID carrierID slot (mkLoc LocationPort portID slot) SubstrateAtSource []]>
          (substrates st)) (onMove st) (moves st).

(** The [switch] on the destination type. *)
Definition state_after (to : SubstrateLocation) (s : SubstrateState) : SubstrateState :=
  if String.eqb (l_Type to) LocationRobot then SubstrateInTransit
  else if String.eqb (l_Type to) LocationChamber || String.eqb (l_Type to) LocationAligner
  then SubstrateAtProcess
  else if String.eqb (l_Type to) LocationPort then
    if bool_decide (s = SubstrateProcessed) || bool_decide (s = SubstrateAtProcess)
    then SubstrateAtDest else s
  else s.

Definition moved (now : Z) (to : SubstrateLocation) (sub : Substrate) : Substrate :=
  mkSub (SubstrateID sub) (LotID sub) (CarrierID sub) (SourceSlot sub) to (state_after to (State sub))
    (History sub ++ [mkMove now (Location sub) to]).

Definition MoveSubstrate (now : Z) (subID : string) (to : SubstrateLocation) (st : SubstrateTracker)
  : result substrate_error SubstrateTracker :=
  match substrates st !! subID with
  | None => Err (UnknownSubstrate subID)
  | Some sub =>
      Ok (mkST (<[subID := moved now to sub]> (substrates st)) (onMove st)
            (match onMove st with
             | None => moves st
             | Some fn => (fn, subID, Location sub, to) :: moves st
             end))
  end.

Definition set_state (s : SubstrateState) (sub : Substrate) : Substrate :=
  mkSub (SubstrateID sub) (LotID sub) (CarrierID sub) (SourceSlot sub) (Location sub) s (History sub).

Definition MarkProcessed (subID : string) (st : SubstrateTracker) : result substrate_error SubstrateTracker :=
  match substrates st !! subID with
  | None => Err (UnknownSubstrate subID)
  | Some sub =>
      Ok (mkST (<[subID := set_state SubstrateProcessed sub]> (substrates st)) (onMove st) (moves st))
  end.

Definition MarkRejected (subID : string) (st : SubstrateTracker) : result substrate_error SubstrateTracker :=
  match substrates st !! subID with
  | None => Err (UnknownSubstrate subID)
  | Some sub =>
      Ok (mkST (<[subID := set_state SubstrateRejected sub]> (substrates st)) (onMove st) (moves st))
  end.

Definition GetSubstrate (st : SubstrateTracker) (subID : string) : option Substrate := substrates st !! subID.

Definition GetSubstrateAt `{!MapOrder string} (st : SubstrateTracker) (loc : SubstrateLocation)
  : option Substrate :=
  snd <$> List.find (fun kv => bool_decide (Location kv.2 = loc)) (range_map (substrates st)).

Definition ListSubstrates `{!MapOrder string} (st : SubstrateTracker) : list Substrate :=
  (range_map (substrates st)).*2.

Definition ListByCarrier `{!MapOrder string} (st : SubstrateTracker) (carrierID : string) : list Substrate :=
  filter (fun s => CarrierID s = carrierID) (range_map (substrates st)).*2.

Definition RemoveSubstrate (subID : string) (st : SubstrateTracker) : SubstrateTracker :=
  mkST (delete subID (substrates st)) (onMove st) (moves st).

(** ** Operations and reachable trackers *)

Inductive step : SubstrateTracker -> SubstrateTracker -> Prop :=
| step_register i lot c slot p st : step st (RegisterSubstrate i lot c slot p st)
| step_move now i to st st' : MoveSubstrate now i to st = Ok st' -> step st st'
| step_processed i st st' : MarkProcessed i st = Ok st' -> step st st'
| step_rejected i st st' : MarkRejected i st = Ok st' -> step st st'
| step_remove i st : step st (RemoveSubstrate i st)
| step_callback fn st : step st (OnMove fn st).

Definition reachable (st : SubstrateTracker) : Prop := rtc step NewSubstrateTracker st.

(** A movement log read from a starting location: each record starts where the
    one before it ended. *)
Fixpoint chained (from : SubstrateLocation) (h : list MovementRecord) : Prop :=
  match h with
  | [] => True
  | m :: h' => m_From m = from /\ chained (m_To m) h'
  end.

Definition log_end (from : SubstrateLocation) (h : list MovementRecord) : SubstrateLocation :=
  foldl (fun _ m => m_To m) from h.

(** The log explains the present location, from the source slot on. *)
Definition log_ok (sub : Substrate) : Prop :=
  exists port, let start := mkLoc LocationPort port (SourceSlot sub) in
    chained start (History sub) /\ log_end start (History sub) = Location sub.

(** ** Lemmas *)

Lemma chained_snoc from h m :
  chained from h -> m_From m = log_end from h -> chained from (h ++ [m]).
Proof.
  revert from. induction h as [|x h IH]; intros from; simpl; [done |].
  intros [Hx Hh] Hm. split; [done |]. by apply IH.
Qed.

Lemma log_end_snoc from h m : log_end from (h ++ [m]) = m_To m.
Proof. unfold log_end. by rewrite foldl_app. Qed.

Lemma log_ok_moved now to sub : log_ok sub -> log_ok (moved now to sub).
Proof.
  intros (port & Hch & Hend). exists port. simpl. split.
  - by apply chained_snoc.
  - apply log_end_snoc.
Qed.

Definition tracker_ok (st : SubstrateTracker) : Prop :=
  map_Forall (fun i s => SubstrateID s = i /\ log_ok s) (substrates st).

Lemma tracker_ok_insert i s st fn l :
  tracker_ok st -> SubstrateID s = i -> log_ok s -> tracker_ok (mkST (<[i := s]> (substrates st)) fn l).
Proof. intros Hok Hi Hl. by apply map_Forall_insert_2. Qed.

Lemma tracker_ok_step st st' : step st st' -> tracker_ok st -> tracker_ok st'.
Proof.
  intros Hstep Hok. destruct Hstep as [i lot c slot p st|now i to st st' H|i st st' H|i st st' H|i st|fn st].
  - apply tracker_ok_insert; [done | done |]. exists p. by split.
  - unfold MoveSubstrate in H. destruct (substrates st !! i) as [s|] eqn:Hs; [| done].
    apply Ok_inj in H as <-. destruct (Hok i s Hs) as [Hi Hl].
    apply tracker_ok_insert; [done | done |]. by apply log_ok_moved.
  - unfold MarkProcessed in H. destruct (substrates st !! i) as [s|] eqn:Hs; [| done].
    apply Ok_inj in H as <-. destruct (Hok i s Hs) as [Hi Hl]. by apply tracker_ok_insert.
  - unfold MarkRejected in H. destruct (substrates st !! i) as [s|] eqn:Hs; [| done].
    apply Ok_inj in H as <-. destruct (Hok i s Hs) as [Hi Hl]. by apply tracker_ok_insert.
  - by apply map_Forall_delete.
  - done.
Qed.

(** ** Properties *)

(** In a reachable tracker every substrate's movement log is a chain that
    starts at its source slot on a port and ends at its present location. *)
Theorem history_explains st i s :
  reachable st -> substrates st !! i = Some s -> SubstrateID s = i /\ log_ok s.
Proof.
  intros Hr. revert i s. change (tracker_ok st).
  apply (invariant_rtc step tracker_ok) with NewSubstrateTracker;
    [apply tracker_ok_step | apply map_Forall_empty | done].
Qed.

Lemma history_explains_witness :
  let st := RegisterSubstrate "W1" "LOT" "FOUP1" 3 "P1" NewSubstrateTracker in
  let st' := match MoveSubstrate 7 "W1" (mkLoc LocationRobot "R1" 1) st with Ok x => x | _ => st end in
  let s := mkSub "W1" "LOT" "FOUP1" 3 (mkLoc LocationRobot "R1" 1) SubstrateInTransit
             [mkMove 7 (mkLoc LocationPort "P1" 3) (mkLoc LocationRobot "R1" 1)] in
  reachable st' /\ substrates st' !! "W1" = Some s /\ log_ok s.
Proof.
  intros st st' s. assert (Hr : reachable st').
  { apply rtc_r with st; [apply rtc_once, step_register |].
    by apply (step_move 7 "W1" (mkLoc LocationRobot "R1" 1)). }
  assert (Hs : substrates st' !! "W1" = Some s) by reflexivity.
  split_and!; [exact Hr | exact Hs |]. exact (proj2 (history_explains st' "W1" s Hr Hs)).
Defined.

(** [GetSubstrateAt] finds a substrate at a location exactly when one is
    there, whatever the order of the map. *)
Theorem get_at_spec `{!MapOrder string} st loc :
  match GetSubstrateAt st loc with
  | Some s => Location s = loc /\ exists i, substrates st !! i = Some s
  | None => forall i s, substrates st !! i = Some s -> Location s <> loc
  end.
Proof.
  unfold GetSubstrateAt. destruct (List.find _ _) as [[i s]|] eqn:Hf; simpl.
  - apply find_some in Hf as [Hin Hl]. apply bool_decide_eq_true in Hl. split; [done |].
    exists i. by apply elem_of_range_map, list_elem_of_In.
  - intros i s Hs Hl. apply elem_of_range_map, list_elem_of_In in Hs.
    pose proof (find_none _ _ Hf (i, s) Hs) as Hn. apply bool_decide_eq_false in Hn. done.
Qed.
