(* ===== verification/Ept.v ===== *)
(** * E116 equipment performance tracking

    [src/pkg/driver/gem/ept.go].  [EPTState] is an [int]; instants are
    nanoseconds, [time.Duration] is a 64-bit integer that [+=] may wrap and
    [Sub] saturates.  [float64] is the Standard Library's [spec_float] with 53
    bits of precision. *)

From stdpp Require Import prelude gmap strings list pretty.
From Stdlib Require Import ZArith Lia SpecFloat.
From S2P Require Import Prelude.

#[local] Open Scope Z_scope.

Definition EPTIdle : Z := 0.
Definition EPTBusy : Z := 1.
Definition EPTBlocked : Z := 2.
Definition EPTBusyAndBlocked : Z := 3.
Definition EPTStandbyScheduled : Z := 4.
Definition EPTStandbyUnscheduled : Z := 5.
Definition EPTEngScheduled : Z := 6.
Definition EPTEngUnscheduled : Z := 7.
Definition EPTDownScheduled : Z := 8.
Definition EPTDownUnscheduled : Z := 9.
Definition EPTNonScheduled : Z := 10.

Definition EPTState_String (s : Z) : string :=
  if s =? EPTIdle then "IDLE"
  else if s =? EPTBusy then "BUSY"
  else if s =? EPTBlocked then "BLOCKED"
  else if s =? EPTBusyAndBlocked then "BUSY_AND_BLOCKED"
  else if s =? EPTStandbyScheduled then "STANDBY_SCHEDULED"
  else if s =? EPTStandbyUnscheduled then "STANDBY_UNSCHEDULED"
  else if s =? EPTEngScheduled then "ENGINEERING_SCHEDULED"
  else if s =? EPTEngUnscheduled then "ENGINEERING_UNSCHEDULED"
  else if s =? EPTDownScheduled then "DOWN_SCHEDULED"
  else if s =? EPTDownUnscheduled then "DOWN_UNSCHEDULED"
  else if s =? EPTNonScheduled then "NON_SCHEDULED"
  else "UNKNOWN".

Definition isProductive (s : Z) : bool := (s =? EPTBusy) || (s =? EPTBusyAndBlocked).

Definition isAvailable (s : Z) : bool :=
  (s =? EPTIdle) || (s =? EPTBusy) || (s =? EPTBlocked) || (s =? EPTBusyAndBlocked).

Record EPTTransition := mkTr { tr_Time : Z; tr_From : Z; tr_To : Z }.

Record EPTTracker := mkEPT {
  state : Z;
  stateStart : Z;
  durations : gmap Z Z;
  transitions : list EPTTransition;   (* oldest first *)
  unitCount : Z;
  defectCount : Z;
  onChange : option nat;
  calls : list (nat * Z * Z);
}.

(** [now.Sub(t)] *)
Definition Sub (now t : Z) : Z := Z.max (- 2 ^ 63) (Z.min (2 ^ 63 - 1) (now - t)).

(** [a + b] on [int64] *)
Definition add64 (a b : Z) : Z := swrap 64 (a + b).

(** [m[k] += d]: an absent key counts as zero. *)
Definition accrue (k d : Z) (m : gmap Z Z) : gmap Z Z := <[k := add64 (default 0 (m !! k)) d]> m.

Definition NewEPTTracker (now : Z) : EPTTracker := mkEPT EPTNonScheduled now ∅ [] 0 0 None [].

Definition OnStateChange (fn : option nat) (t : EPTTracker) : EPTTracker :=
  mkEPT (state t) (stateStart t) (durations t) (transitions t) (unitCount t) (defectCount t) fn (calls t).

(** [SetState] always returns a nil error. *)
Definition SetState (now newState : Z) (t : EPTTracker) : EPTTracker :=
  if newState =? state t then t
  else
    mkEPT newState now (accrue (state t) (Sub now (stateStart t)) (durations t))
      (transitions t ++ [mkTr now (state t) newState]) (unitCount t) (defectCount t) (onChange t)
      (match onChange t with
       | None => calls t
       | Some fn => (fn, state t, newState) :: calls t
       end).

Definition RecordUnit (defective : bool) (t : EPTTracker) : EPTTracker :=
  mkEPT (state t) (stateStart t) (durations t) (transitions t) (add64 (unitCount t) 1)
    (if defective then add64 (defectCount t) 1 else defectCount t) (onChange t) (calls t).

(** The durations with the current state's time included. *)
Definition StateDurations (now : Z) (t : EPTTracker) : gmap Z Z :=
  accrue (state t) (Sub now (stateStart t)) (durations t).

(** The loop of [OEE]: total, available and productive time. *)
Definition totals `{!MapOrder Z} (m : gmap Z Z) : Z * Z * Z :=
  foldl (fun '(total, available, productive) '(s, d) =>
           (add64 total d,
            if isAvailable s then add64 available d else available,
            if isProductive s then add64 productive d else productive))
    (0, 0, 0) (range_map m).

Definition of_int64 (z : Z) : spec_float := binary_normalize 53 1024 z 0 false.
Definition fdiv : spec_float -> spec_float -> spec_float := SFdiv 53 1024.
Definition fmul : spec_float -> spec_float -> spec_float := SFmul 53 1024.
Definition f0 : spec_float := S754_zero false.

(** [(availability, performance, quality, oee)] *)
Definition OEE `{!MapOrder Z} (now : Z) (t : EPTTracker)
  : spec_float * spec_float * spec_float * spec_float :=
  let m := StateDurations now t in
  let '(totalTime, availableTime, productiveTime) := totals m in
  let scheduledTime := swrap 64 (totalTime - default 0 (m !! EPTNonScheduled)) in
  if scheduledTime <=? 0 then (f0, f0, f0, f0)
  else
    let availability := fdiv (of_int64 availableTime) (of_int64 scheduledTime) in
    let performance :=
      if 0 <? availableTime then fdiv (of_int64 productiveTime) (of_int64 availableTime) else f0 in
    let quality :=
      if 0 <? unitCount t
      then fdiv (of_int64 (swrap 64 (unitCount t - defectCount t))) (of_int64 (unitCount t))
      else of_int64 1 in
    (availability, performance, quality, fmul (fmul availability performance) quality).

Definition Transitions (t : EPTTracker) : list EPTTransition := transitions t.
Definition UnitCounts (t : EPTTracker) : Z * Z := (unitCount t, defectCount t).

(** [fixed1] is [%.1f]. *)
Definition Summary `{!MapOrder Z} (fixed1 : spec_float -> string) (now : Z) (t : EPTTracker) : string :=
  let '(a, p, q, oee) := OEE now t in
  let '(total, defective) := UnitCounts t in
  let percent x := fixed1 (fmul x (of_int64 100)) +:+ "%" in
  "OEE=" +:+ percent oee +:+ " (A=" +:+ percent a +:+ " P=" +:+ percent p +:+ " Q=" +:+ percent q
  +:+ ") units=" +:+ pretty total +:+ " defects=" +:+ pretty defective.

Definition Reset (now : Z) (t : EPTTracker) : EPTTracker :=
  mkEPT EPTNonScheduled now ∅ [] 0 0 (onChange t) (calls t).

(** ** Runs

    [run epoch last t]: [t] was created or last reset at [epoch] and last
    changed at [last], on a clock that does not go back, within the 292 years a
    [Duration] counts and with fewer than 2^63 units. *)

Inductive run : Z -> Z -> EPTTracker -> Prop :=
| run_new now : run now now (NewEPTTracker now)
| run_set e l now s t : run e l t -> l <= now -> now - e < 2 ^ 63 -> run e now (SetState now s t)
| run_unit e l b t : run e l t -> unitCount t < 2 ^ 63 - 1 -> run e l (RecordUnit b t)
| run_reset e l now t : run e l t -> l <= now -> run now now (Reset now t)
| run_callback e l fn t : run e l t -> run e l (OnStateChange fn t).

(** ** Lemmas *)

Definition dsum (keep : Z -> bool) (m : gmap Z Z) : Z :=
  map_fold (fun s d acc => (if keep s then d else 0) + acc) 0 m.

Lemma dsum_empty keep : dsum keep ∅ = 0.
Proof. apply map_fold_empty. Qed.

Lemma dsum_insert keep m k d :
  dsum keep (<[k := d]> m)
  = dsum keep m + (if keep k then d - default 0 (m !! k) else 0).
Proof.
  unfold dsum. rewrite <- insert_delete_eq, map_fold_insert_L; [| intros; lia | by rewrite lookup_delete_eq].
  destruct (m !! k) as [d0|] eqn:Hk; simpl.
  - rewrite (map_fold_delete_L _ _ k d0 m) by (done || intros; lia). destruct (keep k); lia.
  - rewrite delete_id by done. destruct (keep k); lia.
Qed.

Lemma dsum_bounds keep m :
  map_Forall (fun _ d => 0 <= d) m -> 0 <= dsum keep m <= dsum (fun _ => true) m.
Proof.
  unfold dsum. intros Hm. induction m as [|k d m Hk IH] using map_ind; [done |].
  rewrite !map_fold_insert_L by (done || intros; lia).
  apply map_Forall_insert in Hm as [Hd Hm]; [| done]. specialize (IH Hm). destruct (keep k); lia.
Qed.

Lemma dsum_le keep1 keep2 m :
  map_Forall (fun _ d => 0 <= d) m -> (forall s, keep1 s = true -> keep2 s = true) ->
  dsum keep1 m <= dsum keep2 m.
Proof.
  unfold dsum. intros Hm Himp. induction m as [|k d m Hk IH] using map_ind; [done |].
  rewrite !map_fold_insert_L by (done || intros; lia).
  apply map_Forall_insert in Hm as [Hd Hm]; [| done]. specialize (IH Hm). specialize (Himp k).
  destruct (keep1 k); [rewrite Himp by done; lia | destruct (keep2 k); lia].
Qed.

Lemma swrap_id z : - 2 ^ 63 <= z < 2 ^ 63 -> swrap 64 z = z.
Proof. intros Hz. unfold swrap. rewrite Z.mod_small; simpl Z.pow in *; lia. Qed.

Lemma add64_id a b : - 2 ^ 63 <= a + b < 2 ^ 63 -> add64 a b = a + b.
Proof. apply swrap_id. Qed.

(** The list form of [dsum], over any order of the map. *)
Definition lsum (keep : Z -> bool) (l : list (Z * Z)) : Z :=
  foldr (fun kv acc => (if keep kv.1 then kv.2 else 0) + acc) 0 l.

Lemma lsum_nonneg keep l : Forall (fun kv => 0 <= kv.2) l -> 0 <= lsum keep l <= lsum (fun _ => true) l.
Proof.
  induction 1 as [|[k d] l Hd _ IH]; [done |]. cbn [lsum foldr fst snd] in *.
  fold (lsum keep l) (lsum (fun _ => true) l) in *. destruct (keep k); lia.
Qed.

Lemma lsum_perm keep l1 l2 : l1 ≡ₚ l2 -> lsum keep l1 = lsum keep l2.
Proof.
  induction 1 as [|[k d] l1 l2 _ IH|[k1 d1] [k2 d2] l|l1 l2 l3 _ IH1 _ IH2]; cbn [lsum foldr fst snd];
    [done | fold (lsum keep l1) (lsum keep l2); lia | destruct (keep k1), (keep k2); lia | lia].
Qed.

Lemma lsum_range `{!MapOrder Z} keep m : lsum keep (range_map m) = dsum keep m.
Proof.
  rewrite (lsum_perm keep _ _ (range_map_perm m)). unfold dsum.
  induction m as [|k d m Hk IH] using map_ind; [by rewrite map_to_list_empty |].
  rewrite (lsum_perm keep _ _ (map_to_list_insert m k d Hk)), map_fold_insert_L by (done || intros; lia).
  cbn [lsum foldr fst snd]. fold (lsum keep (map_to_list m)). lia.
Qed.

(** Without overflow the loop of [OEE] computes three sums. *)
Lemma totals_loop l a b c :
  Forall (fun kv => 0 <= kv.2) l -> 0 <= a -> 0 <= b <= a -> 0 <= c <= a ->
  a + lsum (fun _ => true) l < 2 ^ 63 ->
  foldl (fun '(total, available, productive) '(s, d) =>
           (add64 total d,
            if isAvailable s then add64 available d else available,
            if isProductive s then add64 productive d else productive)) (a, b, c) l
  = (a + lsum (fun _ => true) l, b + lsum isAvailable l, c + lsum isProductive l).
Proof.
  intros Hl. revert a b c. induction Hl as [|[s d] l Hd Hl IH]; intros a b c Ha Hb Hc Hsum.
  - cbn. by rewrite !Z.add_0_r.
  - cbn [lsum foldr fst snd foldl] in *. fold (lsum (fun _ => true) l) (lsum isAvailable l) (lsum isProductive l) in *.
    pose proof (lsum_nonneg (fun _ => true) l Hl) as Hn.
    rewrite (add64_id a d) by lia.
    rewrite IH; [| lia | destruct (isAvailable s); rewrite ?add64_id by lia; lia
      | destruct (isProductive s); rewrite ?add64_id by lia; lia | lia].
    destruct (isAvailable s), (isProductive s); rewrite ?add64_id by lia; (rewrite !pair_equal_spec; lia).
Qed.

Lemma totals_spec `{!MapOrder Z} m :
  map_Forall (fun _ d => 0 <= d) m -> dsum (fun _ => true) m < 2 ^ 63 ->
  totals m = (dsum (fun _ => true) m, dsum isAvailable m, dsum isProductive m).
Proof.
  intros Hm Hsum. unfold totals. rewrite totals_loop; rewrite ?lsum_range; try lia; [done |].
  apply Forall_forall. intros [k d] Hk. apply elem_of_range_map in Hk. exact (Hm k d Hk).
Qed.

(** What a run maintains: the recorded durations add up to the time from the
    epoch to the start of the current state. *)
Record accounts (epoch : Z) (t : EPTTracker) : Prop := {
  acc_nonneg : map_Forall (fun _ d => 0 <= d) (durations t);
  acc_sum : dsum (fun _ => true) (durations t) = stateStart t - epoch;
  acc_units : 0 <= defectCount t <= unitCount t /\ unitCount t < 2 ^ 63;
}.

Lemma accrue_sum k d m :
  map_Forall (fun _ d => 0 <= d) m -> 0 <= d -> dsum (fun _ => true) m + d < 2 ^ 63 ->
  map_Forall (fun _ d => 0 <= d) (accrue k d m)
  /\ dsum (fun _ => true) (accrue k d m) = dsum (fun _ => true) m + d.
Proof.
  intros Hm Hd Hsum. assert (Hk : 0 <= default 0 (m !! k) <= dsum (fun _ => true) m).
  { destruct (m !! k) as [v|] eqn:E; simpl; [| pose proof (dsum_bounds (fun _ => true) m Hm); lia].
    pose proof (Hm k v E). split; [done |]. unfold dsum.
    rewrite (map_fold_delete_L _ _ k v m) by (done || intros; lia).
    pose proof (dsum_bounds (fun _ => true) (delete k m) (map_Forall_delete _ _ k Hm)) as Hb.
    unfold dsum in Hb. lia. }
  unfold accrue. rewrite add64_id by lia. split; [apply map_Forall_insert_2; [lia | done] |].
  rewrite dsum_insert. lia.
Qed.

Lemma run_accounts e l t : run e l t -> accounts e t /\ e <= stateStart t <= l.
Proof.
  induction 1 as [now|e l now s t _ [[Hn Hs Hu] Hl] Hnow Hmax|e l b t _ [[Hn Hs Hu] Hl] Hmax
    |e l now t _ [[Hn Hs Hu] Hl] Hnow|e l fn t _ [[Hn Hs Hu] Hl]].
  - split; [| simpl; lia]. split; simpl; [apply map_Forall_empty | rewrite dsum_empty; lia | lia].
  - unfold SetState. destruct (s =? state t); [split; [by split | lia] |].
    split; [| simpl; lia]. unfold Sub.
    replace (Z.max (- 2 ^ 63) (Z.min (2 ^ 63 - 1) (now - stateStart t))) with (now - stateStart t) by lia.
    destruct (accrue_sum (state t) (now - stateStart t) (durations t) Hn) as [Hn' Hs']; [lia | lia |].
    split; cbn [durations stateStart defectCount unitCount]; [done | lia | done].
  - split; [| done]. split; simpl; [done | done |]. rewrite !add64_id by lia. destruct b; lia.
  - split; [| simpl; lia]. split; simpl; [apply map_Forall_empty | rewrite dsum_empty; lia | lia].
  - split; [by split | done].
Qed.

(** ** Properties *)

(** Time is conserved and the terms of the OEE ratios are ordered: the state
    durations are non-negative and add up to the time since creation or reset,
    and productive time is at most available time, which is at most scheduled
    time; defects are at most units. *)
Theorem ept_conservation `{!MapOrder Z} e l t now :
  run e l t -> l <= now -> now - e < 2 ^ 63 ->
  let m := StateDurations now t in
  map_Forall (fun _ d => 0 <= d) m
  /\ exists available productive,
      totals m = (now - e, available, productive)
      /\ 0 <= productive <= available
      /\ available <= (now - e) - default 0 (m !! EPTNonScheduled)
      /\ 0 <= defectCount t <= unitCount t.
Proof.
  intros Hr Hnow Hmax m. destruct (run_accounts e l t Hr) as [[Hn Hs Hu] Hl].
  destruct (accrue_sum (state t) (now - stateStart t) (durations t) Hn) as [Hn' Hs']; [lia | lia |].
  assert (Hm : m = accrue (state t) (now - stateStart t) (durations t)).
  { unfold m, StateDurations, Sub. f_equal. lia. }
  rewrite <- Hm in Hn', Hs'. split; [done |].
  exists (dsum isAvailable m), (dsum isProductive m). rewrite totals_spec by (done || lia).
  split_and!; try lia; [rewrite !pair_equal_spec; lia | by apply dsum_bounds | |].
  - apply dsum_le; [done |]. unfold isProductive, isAvailable. intros s.
    rewrite !orb_true_iff, !Z.eqb_eq. tauto.
  - pose proof (dsum_insert isAvailable m EPTNonScheduled 0 : _ = _ + 0) as Ha.
    pose proof (dsum_insert (fun _ => true) m EPTNonScheduled 0) as Ht. cbv beta iota in Ht.
    assert (Hz : map_Forall (fun _ d => 0 <= d) (<[EPTNonScheduled := 0]> m))
      by (by apply map_Forall_insert_2).
    pose proof (dsum_bounds isAvailable _ Hz). lia.
Qed.

Lemma ept_conservation_witness :
  let H := some_order Z in
  let t := SetState 30 EPTIdle (SetState 10 EPTBusy (NewEPTTracker 0)) in
  run 0 30 t
  /\ exists available productive,
      totals (StateDurations 50 t) = (50 - 0, available, productive)
      /\ 0 <= productive <= available
      /\ available <= (50 - 0) - default 0 (StateDurations 50 t !! EPTNonScheduled)
      /\ 0 <= defectCount t <= unitCount t.
Proof.
  intros H t. assert (Hr : run 0 30 t).
  { apply run_set with 10; [apply run_set with 0; [apply run_new | lia..] | lia..]. }
  split; [exact Hr |]. exact (proj2 (ept_conservation 0 30 t 50 Hr ltac:(lia) ltac:(lia))).
Defined.

(** Four of ten scheduled units of time available, half of them productive, one
    defect in four units. *)
Example oee_example :
  let t := mkEPT EPTDownUnscheduled 0 {[EPTIdle := 2; EPTBusy := 2; EPTNonScheduled := 7]} [] 4 1 None [] in
  let _ := some_order Z in
  OEE 4 t = (fdiv (of_int64 4) (of_int64 8), fdiv (of_int64 2) (of_int64 4), fdiv (of_int64 3) (of_int64 4),
             fdiv (of_int64 3) (of_int64 16)).
Proof. vm_compute. reflexivity. Qed.
