(* ===== verification/GemHandler.v ===== *)
(** * The GEM message handler

    [src/pkg/driver/gem/handler.go]: the dispatch of [HandleMessage], the
    stream 1, 2 and 5 handlers, and the reports [SendAlarm] and [SendEvent].

    The session is any [Sender].  A handler that only reads returns its reply; one
    that writes returns the component it changed as well.  [now] is the instant
    at which dynamic status variables are read, and [MapOrder] the order in which
    the maps are listed during the call.  Custom handlers are functions of the
    message.  Callbacks are function values named by numbers; the calls made to
    them, and the security events, are recorded newest first. *)

From stdpp Require Import prelude gmap strings list pretty.
From Stdlib Require Import ZArith Lia.
From S2P Require Import Prelude Secs2Item Secs2Codec HsmsMessage Policy.
From S2P Require Import GemState GemVariables GemEvents GemAlarms GemCommands Transport.

#[local] Open Scope Z_scope.

Inductive handler_error :=
| DecodeBody (e : decode_error)
| BadID (i : Z) (e : access_error)
| EncodeReply (e : encode_error)
| SendFailed (e : send_error)
| CustomFailed (e : string)
| AlarmFailed (e : alarm_error)
| EventFailed (e : event_error).

Record Handler (T : Type) := mkHandler {
  session : T;
  sessionID : Z;
  state : StateMachine;
  vars : VariableStore;
  eventMgr : EventManager;
  alarmMgr : AlarmManager;
  commandMgr : CommandManager;
  mdln : string;
  softrev : string;
  policy : option SessionPolicy;
  auditor : option (list (Z * Z * Z));      (* UnauthorizedMessage(session, s, f) *)
  interlock : option SafetyInterlock;
  customHandlers : gmap (Z * Z) (Message -> result string (option item));
  eventCallbacks : list nat;
  alarmCallbacks : list nat;
  eventCalls : list (nat * Z * Z);
  alarmCalls : list (nat * Z * bool * Alarm);
}.

Arguments mkHandler {T}.
Arguments session {T}. Arguments sessionID {T}. Arguments state {T}. Arguments vars {T}.
Arguments eventMgr {T}. Arguments alarmMgr {T}. Arguments commandMgr {T}. Arguments mdln {T}.
Arguments softrev {T}. Arguments policy {T}. Arguments auditor {T}. Arguments interlock {T}.
Arguments customHandlers {T}. Arguments eventCallbacks {T}. Arguments alarmCallbacks {T}.
Arguments eventCalls {T}. Arguments alarmCalls {T}.

(** ** Values as items *)

(** [valueToItem]; [GItem] may hold a nil pointer. *)
Definition valueToItem (val : govalue) : option item :=
  match val with
  | GNil => Some (NewList [])
  | GItem p => p
  | GString s => Some (NewASCII s)
  | GInt z => Some (NewI4 [swrap 32 z])
  | GInt32 z => Some (NewI4 [z])
  | GInt64 z => Some (NewI8 [z])
  | GUint32 z => Some (NewU4 [z])
  | GUint64 z => Some (NewU8 [z])
  | GFloat32 b => Some (NewF4 [b])
  | GFloat64 b => Some (NewF8 [b])
  | GBool b => Some (NewBoolean [b])
  | GBytes b => Some (NewBinary b)
  | GInt8 z | GInt16 z | GUint z | GUint8 z | GUint16 z => Some (NewASCII (pretty z))
  | GOther repr => Some (NewASCII repr)
  end.

Definition decode_body (msg : Message) : result handler_error item :=
  wrap_err DecodeBody (Decode (Data msg)).

(** [p.ToUint64s()] and the other conversions through a [*Item]. *)
Definition uint64s (p : option item) : result handler_error (option (list Z)) :=
  it ← deref p; attempt (ToUint64s it).
Definition p_len (p : option item) : result handler_error Z := it ← deref p; Len it.
Definition p_items (p : option item) : result handler_error (list (option item)) := it ← deref p; Items it.
Definition p_at (p : option item) (i : Z) : result handler_error (option item) := it ← deref p; ItemAt it i.

(** [make([]*secs2.Item, n)] filled from the front. *)
Definition fill {A} (zero : A) (n : Z) (l : list A) : list A := l ++ replicate (Z.to_nat (n - len l)) zero.

Definition ack (code : Z) : item := NewBinary [code].

(** ** Stream 1 *)

Definition handleS1F1 (mdln softrev : string) : item :=
  NewList [Some (NewASCII mdln); Some (NewASCII softrev)].

(** The loop over the requested SVIDs. *)
Fixpoint status_loop (vs : VariableStore) (now i : Z) (children : list (option item))
  : result handler_error (list (option item)) :=
  match children with
  | [] => Ok []
  | child :: rest =>
      it ← deref child;
      svids ← wrap_err (BadID i) (ToUint64s it);
      svid ← idx svids 0;
      items ← status_loop vs now (i + 1) rest;
      Ok (valueToItem (GetSV vs now (wrap 32 svid)).1 :: items)
  end.

Definition handleS1F3 `{!MapOrder Z} (now : Z) (vs : VariableStore) (msg : Message)
  : result handler_error item :=
  if len (Data msg) =? 0 then
    Ok (NewList ((fun svid => valueToItem (GetSV vs now svid).1) <$> ListSVIDs vs))
  else
    body ← decode_body msg;
    n ← Len body;
    children ← Items body;
    items ← status_loop vs now 0 children;
    Ok (NewList (fill None n items)).

(** [info] is nil for an SVID that is not in the store. *)
Definition sv_info_item (vs : VariableStore) (svid : Z) : result handler_error (option item) :=
  match GetSVInfo vs svid with
  | None => Panic NilDeref
  | Some info =>
      Ok (Some (NewList [Some (NewU4 [svid]); Some (NewASCII (sv_Name info)); Some (NewASCII (sv_Units info))]))
  end.

Definition handleS1F11 `{!MapOrder Z} (vs : VariableStore) (msg : Message) : result handler_error item :=
  items ← mapM (sv_info_item vs) (ListSVIDs vs); Ok (NewList items).

Definition handleS1F13 (mdln softrev : string) (sm : StateMachine) : item * StateMachine :=
  let sm := keep (EnableComm sm) sm in
  let sm := keep (CommEstablished sm) sm in
  (NewList [Some (ack 0); Some (NewList [Some (NewASCII mdln); Some (NewASCII softrev)])], sm).

Definition handleS1F15 (sm : StateMachine) : item * StateMachine :=
  match GoOffline sm with Ok sm' => (ack 0, sm') | _ => (ack 1, sm) end.

Definition handleS1F17 (sm : StateMachine) : item * StateMachine :=
  match GoOnlineRemote sm with Ok sm' => (ack 0, sm') | _ => (ack 1, sm) end.

(** ** Stream 2 *)

Definition ec_value_item (vs : VariableStore) (ecid : Z) : result handler_error (option item) :=
  match GetEC vs ecid with None => Panic NilDeref | Some ec => Ok (valueToItem (ec_Value ec)) end.

Fixpoint constants_loop (vs : VariableStore) (i : Z) (children : list (option item))
  : result handler_error (list (option item)) :=
  match children with
  | [] => Ok []
  | child :: rest =>
      it ← deref child;
      ecids ← wrap_err (BadID i) (ToUint64s it);
      ecid ← idx ecids 0;
      items ← constants_loop vs (i + 1) rest;
      Ok (match GetEC vs (wrap 32 ecid) with
          | Some ec => valueToItem (ec_Value ec)
          | None => Some (NewList [])
          end :: items)
  end.

Definition handleS2F13 `{!MapOrder Z} (vs : VariableStore) (msg : Message) : result handler_error item :=
  if len (Data msg) =? 0 then
    items ← mapM (ec_value_item vs) (ListECIDs vs); Ok (NewList items)
  else
    body ← decode_body msg;
    n ← Len body;
    children ← Items body;
    items ← constants_loop vs 0 children;
    Ok (NewList (fill None n items)).

Fixpoint set_ec_loop (pairs : list (option item)) (vs : VariableStore)
  : result handler_error VariableStore :=
  match pairs with
  | [] => Ok vs
  | ecPair :: rest =>
      n ← p_len ecPair;
      if n <? 2 then set_ec_loop rest vs
      else
        p0 ← p_at ecPair 0;
        ecids ← uint64s p0;
        match ecids with
        | None => set_ec_loop rest vs
        | Some ecids =>
            ecid ← idx ecids 0;
            p1 ← p_at ecPair 1;
            set_ec_loop rest (keep (SetEC (wrap 32 ecid) (GItem p1) vs) vs)
        end
  end.

Definition handleS2F15 (vs : VariableStore) (msg : Message) : result handler_error (item * VariableStore) :=
  body ← decode_body msg;
  pairs ← Items body;
  vs' ← set_ec_loop pairs vs;
  Ok (ack 0, vs').

Definition ec_info_item (vs : VariableStore) (ecid : Z) : result handler_error (option item) :=
  match GetEC vs ecid with
  | None => Panic NilDeref
  | Some ec =>
      Ok (Some (NewList [Some (NewU4 [ecid]); Some (NewASCII (ec_Name ec)); valueToItem (MinValue ec);
                         valueToItem (MaxValue ec); valueToItem (ec_Value ec); Some (NewASCII (ec_Units ec))]))
  end.

Definition handleS2F29 `{!MapOrder Z} (vs : VariableStore) (msg : Message) : result handler_error item :=
  items ← mapM (ec_info_item vs) (ListECIDs vs); Ok (NewList items).

(** The loops that read a list of identifiers: one that does not convert stays
    zero. *)
Fixpoint ids_loop (children : list (option item)) : result handler_error (list Z) :=
  match children with
  | [] => Ok []
  | child :: rest =>
      ids ← uint64s child;
      id ← match ids with None => Ok 0 | Some ids => id ← idx ids 0; Ok (wrap 32 id) end;
      more ← ids_loop rest;
      Ok (id :: more)
  end.

Definition read_ids (p : option item) : result handler_error (list Z) :=
  n ← p_len p; children ← p_items p; ids ← ids_loop children; Ok (fill 0 n ids).

Fixpoint define_reports_loop (defs : list (option item)) (em : EventManager)
  : result handler_error EventManager :=
  match defs with
  | [] => Ok em
  | rptDef :: rest =>
      n ← p_len rptDef;
      if n <? 2 then define_reports_loop rest em
      else
        p0 ← p_at rptDef 0;
        rptids ← uint64s p0;
        match rptids with
        | None => define_reports_loop rest em
        | Some rptids =>
            rptid ← idx rptids 0;
            vidList ← p_at rptDef 1;
            m ← p_len vidList;
            if m =? 0 then define_reports_loop rest (DeleteReport (wrap 32 rptid) em)
            else
              vids ← read_ids vidList;
              define_reports_loop rest (DefineReport (wrap 32 rptid) vids em)
        end
  end.

Definition handleS2F33 (em : EventManager) (msg : Message) : result handler_error (item * EventManager) :=
  body ← decode_body msg;
  n ← Len body;
  if n <? 2 then Ok (ack 1, em)
  else
    reportList ← ItemAt body 1;
    m ← p_len reportList;
    if m =? 0 then Ok (ack 0, DeleteAllReports em)
    else
      defs ← p_items reportList;
      em' ← define_reports_loop defs em;
      Ok (ack 0, em').

Fixpoint link_loop (links : list (option item)) (em : EventManager) : result handler_error EventManager :=
  match links with
  | [] => Ok em
  | link :: rest =>
      n ← p_len link;
      if n <? 2 then link_loop rest em
      else
        p0 ← p_at link 0;
        ceids ← uint64s p0;
        match ceids with
        | None => link_loop rest em
        | Some ceids =>
            ceid ← idx ceids 0;
            rptList ← p_at link 1;
            rptids ← read_ids rptList;
            link_loop rest (keep (LinkEventReport (wrap 32 ceid) rptids em) em)
        end
  end.

Definition handleS2F35 (em : EventManager) (msg : Message) : result handler_error (item * EventManager) :=
  body ← decode_body msg;
  n ← Len body;
  if n <? 2 then Ok (ack 1, em)
  else
    linkList ← ItemAt body 1;
    links ← p_items linkList;
    em' ← link_loop links em;
    Ok (ack 0, em').

Fixpoint enable_loop (enabled : bool) (children : list (option item)) (em : EventManager)
  : result handler_error EventManager :=
  match children with
  | [] => Ok em
  | child :: rest =>
      ceids ← uint64s child;
      match ceids with
      | None => enable_loop enabled rest em
      | Some ceids =>
          ceid ← idx ceids 0;
          enable_loop enabled rest (keep (EnableEvent (wrap 32 ceid) enabled em) em)
      end
  end.

Definition handleS2F37 (em : EventManager) (msg : Message) : result handler_error (item * EventManager) :=
  body ← decode_body msg;
  n ← Len body;
  if n <? 2 then Ok (ack 1, em)
  else
    p0 ← ItemAt body 0;
    it0 ← deref p0;
    flags ← attempt (ToBooleans it0);
    match flags with
    | None => Ok (ack 1, em)
    | Some flags =>
        let enabled := match flags with [] => false | b :: _ => b end in
        ceidList ← ItemAt body 1;
        m ← p_len ceidList;
        if m =? 0 then Ok (ack 0, EnableAllEvents enabled em)
        else
          children ← p_items ceidList;
          em' ← enable_loop enabled children em;
          Ok (ack 0, em')
    end.

Fixpoint params_loop (children : list (option item)) : result handler_error (list CommandParam) :=
  match children with
  | [] => Ok []
  | p :: rest =>
      n ← p_len p;
      if n <? 2 then params_loop rest
      else
        p0 ← p_at p 0;
        it0 ← deref p0;
        name ← attempt (ToASCII it0);
        p1 ← p_at p 1;
        more ← params_loop rest;
        Ok (mkParam (default ""%string name) (GItem p1) :: more)
  end.

Definition command_reply (status : Z) : item := NewList [Some (ack status); Some (NewList [])].

Definition handleS2F41 (cm : CommandManager) (msg : Message) : result handler_error item :=
  body ← decode_body msg;
  n ← Len body;
  if n <? 2 then Ok (command_reply CommandParameterError)
  else
    p0 ← ItemAt body 0;
    it0 ← deref p0;
    cmdName ← attempt (ToASCII it0);
    match cmdName with
    | None => Ok (command_reply CommandParameterError)
    | Some cmdName =>
        paramList ← ItemAt body 1;
        children ← p_items paramList;
        params ← params_loop children;
        Ok (command_reply (Execute cm cmdName params))
    end.

(** ** Stream 5 *)

Definition handleS5F3 (am : AlarmManager) (msg : Message) : result handler_error (item * AlarmManager) :=
  body ← decode_body msg;
  n ← Len body;
  if n <? 2 then Ok (ack 1, am)
  else
    p0 ← ItemAt body 0;
    it0 ← deref p0;
    aled ← attempt (ToBinary it0);
    match aled with
    | None => Ok (ack 1, am)
    | Some aledBytes =>
        let enabled := match aledBytes with [] => false | b :: _ => negb (Z.land b 128 =? 0) end in
        p1 ← ItemAt body 1;
        alids ← uint64s p1;
        match alids with
        | None => Ok (ack 1, am)
        | Some alids =>
            alid ← idx alids 0;
            match EnableAlarm (wrap 32 alid) enabled am with
            | Ok am' => Ok (ack 0, am')
            | Err _ => Ok (ack 1, am)
            | Panic p => Panic p
            | OutOfFuel => OutOfFuel
            end
        end
    end.

(** The alarm code byte of a listed alarm. *)
Definition listed_alcd (a : Alarm) : Z :=
  if decide (al_State a = AlarmSet) then Z.lor (Severity a) 128 else Severity a.

Definition alarm_item (alcd : Z) (a : Alarm) : item :=
  NewList [Some (NewBinary [alcd]); Some (NewU4 [ALID a]); Some (NewASCII (al_Text a))].

Definition handleS5F5 `{!MapOrder Z} (am : AlarmManager) : item :=
  NewList ((fun a => Some (alarm_item (listed_alcd a) a)) <$> ListAlarms am).

Definition handleS5F7 `{!MapOrder Z} (am : AlarmManager) : item :=
  NewList ((fun a => Some (alarm_item (listed_alcd a) a)) <$> filter (fun a => al_Enabled a = true) (ListAlarms am)).

(** ** Dispatch and sending *)

Section handler.
Context {T : Type} `{!Sender T}.
Implicit Types (h : Handler T) (msg : Message).

Definition NewHandler (session : T) (sessionID : Z) (mdln softrev : string) : Handler T :=
  mkHandler session sessionID NewStateMachine NewVariableStore NewEventManager NewAlarmManager
    NewCommandManager mdln softrev MonitorPolicy None None ∅ [] [] [] [].

Definition SetPolicy (p : option SessionPolicy) h : Handler T :=
  mkHandler (session h) (sessionID h) (state h) (vars h) (eventMgr h) (alarmMgr h) (commandMgr h)
    (mdln h) (softrev h) p (auditor h) (interlock h) (customHandlers h) (eventCallbacks h)
    (alarmCallbacks h) (eventCalls h) (alarmCalls h).

Definition SetAuditor (a : option (list (Z * Z * Z))) h : Handler T :=
  mkHandler (session h) (sessionID h) (state h) (vars h) (eventMgr h) (alarmMgr h) (commandMgr h)
    (mdln h) (softrev h) (policy h) a (interlock h) (customHandlers h) (eventCallbacks h)
    (alarmCallbacks h) (eventCalls h) (alarmCalls h).

Definition SetSafetyInterlock (si : option SafetyInterlock) h : Handler T :=
  mkHandler (session h) (sessionID h) (state h) (vars h) (eventMgr h) (alarmMgr h) (commandMgr h)
    (mdln h) (softrev h) (policy h) (auditor h) si (customHandlers h) (eventCallbacks h)
    (alarmCallbacks h) (eventCalls h) (alarmCalls h).

Definition OnEventSent (fn : nat) h : Handler T :=
  mkHandler (session h) (sessionID h) (state h) (vars h) (eventMgr h) (alarmMgr h) (commandMgr h)
    (mdln h) (softrev h) (policy h) (auditor h) (interlock h) (customHandlers h)
    (eventCallbacks h ++ [fn]) (alarmCallbacks h) (eventCalls h) (alarmCalls h).

Definition OnAlarmSent (fn : nat) h : Handler T :=
  mkHandler (session h) (sessionID h) (state h) (vars h) (eventMgr h) (alarmMgr h) (commandMgr h)
    (mdln h) (softrev h) (policy h) (auditor h) (interlock h) (customHandlers h)
    (eventCallbacks h) (alarmCallbacks h ++ [fn]) (eventCalls h) (alarmCalls h).

Definition OnMessage (stream function : Z) (fn : Message -> result string (option item)) h : Handler T :=
  mkHandler (session h) (sessionID h) (state h) (vars h) (eventMgr h) (alarmMgr h) (commandMgr h)
    (mdln h) (softrev h) (policy h) (auditor h) (interlock h)
    (<[(stream, function) := fn]> (customHandlers h)) (eventCallbacks h) (alarmCallbacks h)
    (eventCalls h) (alarmCalls h).

Definition set_session (t : T) h : Handler T :=
  mkHandler t (sessionID h) (state h) (vars h) (eventMgr h) (alarmMgr h) (commandMgr h) (mdln h)
    (softrev h) (policy h) (auditor h) (interlock h) (customHandlers h) (eventCallbacks h)
    (alarmCallbacks h) (eventCalls h) (alarmCalls h).
Definition set_state (sm : StateMachine) h : Handler T :=
  mkHandler (session h) (sessionID h) sm (vars h) (eventMgr h) (alarmMgr h) (commandMgr h) (mdln h)
    (softrev h) (policy h) (auditor h) (interlock h) (customHandlers h) (eventCallbacks h)
    (alarmCallbacks h) (eventCalls h) (alarmCalls h).
Definition set_vars (vs : VariableStore) h : Handler T :=
  mkHandler (session h) (sessionID h) (state h) vs (eventMgr h) (alarmMgr h) (commandMgr h) (mdln h)
    (softrev h) (policy h) (auditor h) (interlock h) (customHandlers h) (eventCallbacks h)
    (alarmCallbacks h) (eventCalls h) (alarmCalls h).
Definition set_events (em : EventManager) h : Handler T :=
  mkHandler (session h) (sessionID h) (state h) (vars h) em (alarmMgr h) (commandMgr h) (mdln h)
    (softrev h) (policy h) (auditor h) (interlock h) (customHandlers h) (eventCallbacks h)
    (alarmCallbacks h) (eventCalls h) (alarmCalls h).
Definition set_alarms (am : AlarmManager) h : Handler T :=
  mkHandler (session h) (sessionID h) (state h) (vars h) (eventMgr h) am (commandMgr h) (mdln h)
    (softrev h) (policy h) (auditor h) (interlock h) (customHandlers h) (eventCallbacks h)
    (alarmCallbacks h) (eventCalls h) (alarmCalls h).

(** The data a body is sent with: none for a nil item. *)
Definition encode_body (body : option item) : result handler_error (list Z) :=
  match body with None => Ok [] | Some it => wrap_err EncodeReply (Encode (Some it)) end.

(** The reply the session is given.  Its own reply is dropped. *)
Definition send (m : Message) h : Handler T * result handler_error () :=
  let '(r, t) := send_message m (session h) in
  (set_session t h, _ ← wrap_err SendFailed r; Ok ()).

Definition sendReply (req : Message) (stream function : Z) (body : option item) h
  : Handler T * result handler_error () :=
  match encode_body body with
  | Ok data =>
      send (NewDataMessage (SessionID (hdr req)) stream function false (SystemID (hdr req)) data) h
  | Err e => (h, Err e)
  | Panic p => (h, Panic p)
  | OutOfFuel => (h, OutOfFuel)
  end.

(** The component a handler changed is put back in its place. *)
Definition and_then {A B} (f : A -> B) (m : result handler_error (item * A)) : result handler_error (item * B) :=
  '(it, a) ← m; Ok (it, f a).

Definition reading h (m : result handler_error item) : result handler_error (item * Handler T) :=
  it ← m; Ok (it, h).

(** The [switch] over the built-in messages; [None] is its default case. *)
Definition builtin `{!MapOrder Z} (now : Z) (msg : Message) h
  : option (result handler_error (item * Handler T)) :=
  let s := Stream (hdr msg) in
  let f := Function (hdr msg) in
  if (s =? 1) && (f =? 1) then Some (reading h (Ok (handleS1F1 (mdln h) (softrev h))))
  else if (s =? 1) && (f =? 3) then Some (reading h (handleS1F3 now (vars h) msg))
  else if (s =? 1) && (f =? 11) then Some (reading h (handleS1F11 (vars h) msg))
  else if (s =? 1) && (f =? 13) then
    Some (and_then (fun sm => set_state sm h) (Ok (handleS1F13 (mdln h) (softrev h) (state h))))
  else if (s =? 1) && (f =? 15) then Some (and_then (fun sm => set_state sm h) (Ok (handleS1F15 (state h))))
  else if (s =? 1) && (f =? 17) then Some (and_then (fun sm => set_state sm h) (Ok (handleS1F17 (state h))))
  else if (s =? 2) && (f =? 13) then Some (reading h (handleS2F13 (vars h) msg))
  else if (s =? 2) && (f =? 15) then Some (and_then (fun vs => set_vars vs h) (handleS2F15 (vars h) msg))
  else if (s =? 2) && (f =? 29) then Some (reading h (handleS2F29 (vars h) msg))
  else if (s =? 2) && (f =? 33) then Some (and_then (fun em => set_events em h) (handleS2F33 (eventMgr h) msg))
  else if (s =? 2) && (f =? 35) then Some (and_then (fun em => set_events em h) (handleS2F35 (eventMgr h) msg))
  else if (s =? 2) && (f =? 37) then Some (and_then (fun em => set_events em h) (handleS2F37 (eventMgr h) msg))
  else if (s =? 2) && (f =? 41) then Some (reading h (handleS2F41 (commandMgr h) msg))
  else if (s =? 5) && (f =? 3) then Some (and_then (fun am => set_alarms am h) (handleS5F3 (alarmMgr h) msg))
  else if (s =? 5) && (f =? 5) then Some (reading h (Ok (handleS5F5 (alarmMgr h))))
  else if (s =? 5) && (f =? 7) then Some (reading h (Ok (handleS5F7 (alarmMgr h))))
  else None.

(** [if reply != nil && msg.Header.WBit { return h.sendReply(msg, s, f+1, reply) }] *)
Definition answer (msg : Message) (reply : option item) h : Handler T * result handler_error () :=
  match reply with
  | Some it =>
      if WBit (hdr msg) then sendReply msg (Stream (hdr msg)) (wrap 8 (Function (hdr msg) + 1)) (Some it) h
      else (h, Ok ())
  | None => (h, Ok ())
  end.

Definition audit_denied (msg : Message) h : Handler T :=
  match auditor h with
  | None => h
  | Some log => SetAuditor (Some ((SessionID (hdr msg), Stream (hdr msg), Function (hdr msg)) :: log)) h
  end.

Definition HandleMessage `{!MapOrder Z} (now : Z) (msg : Message) h : Handler T * result handler_error () :=
  if IsControlMessage msg then (h, Ok ())
  else
    let s := Stream (hdr msg) in
    let f := Function (hdr msg) in
    if negb (IsAllowed (policy h) s f) then
      let h := audit_denied msg h in
      if WBit (hdr msg) then sendReply msg s 0 None h else (h, Ok ())
    else
      match customHandlers h !! (s, f) with
      | Some fn =>
          match fn msg with
          | Ok reply => answer msg reply h
          | Err e => (h, Err (CustomFailed e))
          | Panic p => (h, Panic p)
          | OutOfFuel => (h, OutOfFuel)
          end
      | None =>
          match builtin now msg h with
          | None => (h, Ok ())
          | Some (Ok (reply, h')) => answer msg (Some reply) h'
          | Some (Err e) => (h, Err e)
          | Some (Panic p) => (h, Panic p)
          | Some OutOfFuel => (h, OutOfFuel)
          end
      end.

(** ** Reports *)

Definition alarm_alcd (set : bool) (a : Alarm) : Z := if set then Z.lor (Severity a) 128 else Severity a.

Definition fire_alarm_callbacks (alid : Z) (set : bool) (a : Alarm) h : Handler T :=
  mkHandler (session h) (sessionID h) (state h) (vars h) (eventMgr h) (alarmMgr h) (commandMgr h)
    (mdln h) (softrev h) (policy h) (auditor h) (interlock h) (customHandlers h) (eventCallbacks h)
    (alarmCallbacks h) (eventCalls h) (rev ((fun cb => (cb, alid, set, a)) <$> alarmCallbacks h) ++ alarmCalls h).

Definition fire_event_callbacks (dataID ceid : Z) h : Handler T :=
  mkHandler (session h) (sessionID h) (state h) (vars h) (eventMgr h) (alarmMgr h) (commandMgr h)
    (mdln h) (softrev h) (policy h) (auditor h) (interlock h) (customHandlers h) (eventCallbacks h)
    (alarmCallbacks h) (rev ((fun cb => (cb, dataID, ceid)) <$> eventCallbacks h) ++ eventCalls h) (alarmCalls h).

(** The interlock is asked about a set alarm, whether it is enabled or not. *)
Definition ask_interlock (set : bool) (a : Alarm) h : Handler T :=
  match set, interlock h with
  | true, Some si =>
      let '(_, si', sm) := Evaluate a si (state h) in SetSafetyInterlock (Some si') (set_state sm h)
  | _, _ => h
  end.

Definition SendAlarm (alid : Z) (set : bool) h : Handler T * result handler_error () :=
  match (if set then SetAlarm alid (alarmMgr h) else ClearAlarm alid (alarmMgr h)) with
  | Ok (alarm, am) =>
      let h := ask_interlock set alarm (set_alarms am h) in
      if negb (al_Enabled alarm) then (h, Ok ())
      else
        match encode_body (Some (alarm_item (alarm_alcd set alarm) alarm)) with
        | Ok data =>
            let '(h', r) := send (NewDataMessage (sessionID h) 5 1 true 0 data) h in
            match r with
            | Ok _ => (fire_alarm_callbacks alid set alarm h', Ok ())
            | r => (h', r)
            end
        | Err e => (h, Err e)
        | Panic p => (h, Panic p)
        | OutOfFuel => (h, OutOfFuel)
        end
  | Err e => (h, Err (AlarmFailed e))
  | Panic p => (h, Panic p)
  | OutOfFuel => (h, OutOfFuel)
  end.

Definition report_item (vs : VariableStore) (now : Z) (rv : ReportVIDs) : item :=
  NewList [Some (NewU4 [rv_RPTID rv]);
           Some (NewList ((fun vid => valueToItem (GetSV vs now vid).1) <$> rv_VIDs rv))].

Definition event_body (vs : VariableStore) (now dataID ceid : Z) (rvs : list ReportVIDs) : item :=
  NewList [Some (NewU4 [dataID]); Some (NewU4 [ceid]); Some (NewList ((Some ∘ report_item vs now) <$> rvs))].

Definition SendEvent (now dataID ceid : Z) h : Handler T * result handler_error () :=
  if negb (IsEventEnabled (eventMgr h) ceid) then (h, Ok ())
  else
    match wrap_err EventFailed (GetEventReportVIDs (eventMgr h) ceid) with
    | Ok rvs =>
        match encode_body (Some (event_body (vars h) now dataID ceid rvs)) with
        | Ok data =>
            let '(h', r) := send (NewDataMessage (sessionID h) 6 11 true 0 data) h in
            match r with
            | Ok _ => (fire_event_callbacks dataID ceid h', Ok ())
            | r => (h', r)
            end
        | Err e => (h, Err e)
        | Panic p => (h, Panic p)
        | OutOfFuel => (h, OutOfFuel)
        end
    | Err e => (h, Err e)
    | Panic p => (h, Panic p)
    | OutOfFuel => (h, OutOfFuel)
    end.

End handler.
