(* ===== verification/GemSafety.v ===== *)
(** * Safety of the message dispatch

    What [HandleMessage] of [src/pkg/driver/gem/handler.go] may change and send,
    over any [Sender]: replies match their request, a denied message has no
    effect, and a policy without write messages makes the handler read-only
    however many messages a peer sends. *)

From stdpp Require Import prelude relations gmap strings list.
From Stdlib Require Import ZArith Lia.
From S2P Require Import Prelude Lifecycle Secs2Item Secs2Codec HsmsMessage Policy.
From S2P Require Import GemState GemVariables GemEvents GemAlarms GemCommands Transport GemHandler.

#[local] Open Scope Z_scope.

(** Decides the tests of the dispatch in [H], dropping the impossible
    branches; the stream is left in [e] and the function in [e0]. *)
Ltac dispatch H :=
  repeat match type of H with
  | context [?a =? ?m] => destruct (Z.eqb_spec a m); cbn [andb] in H; try (exfalso; lia)
  end; try discriminate H.

(** ** Sending *)

Section safety.
Context {T : Type} `{!Sender T} `{!MapOrder Z}.
Implicit Types (h : Handler T) (msg : Message).

(** The messages [h'] has written beyond those of [h]. *)
Definition writes h h' (new : list Message) : Prop :=
  written (session h') = written (session h) ++ new.

Lemma send_spec m h :
  exists t, (send m h).1 = set_session t h
  /\ ((writes h (send m h).1 [] /\ is_ok (send m h).2 = false)
      \/ exists id, writes h (send m h).1 [with_system_id id m]
           /\ (SystemID (hdr m) <> 0 -> id = SystemID (hdr m))).
Proof.
  unfold send, writes. pose proof (send_effect m (session h)) as Heff.
  destruct (send_message m (session h)) as [r t]. exists t. simpl in *. split; [done |].
  destruct Heff as [[Hw Hr]|Heff]; [left | by right].
  rewrite Hw, app_nil_r. split; [done |]. by destruct r.
Qed.

(** The reply to [req] with data [d]. *)
Definition is_reply (req : Message) (f : Z) (d : list Z) (m : Message) : Prop :=
  Stream (hdr m) = Stream (hdr req) /\ Function (hdr m) = f /\ WBit (hdr m) = false
  /\ SessionID (hdr m) = SessionID (hdr req) /\ SType (hdr m) = STypeDataMessage /\ Data m = d
  /\ (SystemID (hdr req) <> 0 -> SystemID (hdr m) = SystemID (hdr req)).

Lemma sendReply_spec req f body h :
  exists t, (sendReply req (Stream (hdr req)) f body h).1 = set_session t h
  /\ (writes h (sendReply req (Stream (hdr req)) f body h).1 []
        /\ is_ok (sendReply req (Stream (hdr req)) f body h).2 = false
      \/ exists d m, encode_body body = Ok d /\ is_reply req f d m
           /\ writes h (sendReply req (Stream (hdr req)) f body h).1 [m]).
Proof.
  unfold sendReply. assert (Hself : h = set_session (session h) h) by (by destruct h).
  destruct (encode_body body) as [d|e|p|]; cbn [fst snd];
    [| exists (session h); split; [done |]; left; unfold writes; by rewrite app_nil_r..].
  set (m := NewDataMessage _ _ _ _ _ _). destruct (send_spec m h) as (t & Ht & Hw).
  exists t. split; [done |]. destruct Hw as [[? ?]|(id & Hw & Hid)]; [by left | right].
  exists d, (with_system_id id m). split; [done |]. split; [| done].
  by split_and!.
Qed.

(** ** The handler's own state *)

(** Everything but the session, the audit log and the state machine. *)
Definition same_config h h' : Prop :=
  vars h' = vars h /\ eventMgr h' = eventMgr h /\ alarmMgr h' = alarmMgr h
  /\ commandMgr h' = commandMgr h /\ policy h' = policy h /\ interlock h' = interlock h
  /\ customHandlers h' = customHandlers h.

#[export] Instance same_config_preorder : PreOrder same_config.
Proof. split; unfold same_config; [done |]. intros h1 h2 h3 **. naive_solver congruence. Qed.

Lemma same_config_session t h : same_config h (set_session t h).
Proof. by split_and!. Qed.

Lemma audit_denied_spec msg h :
  same_config h (audit_denied msg h) /\ state (audit_denied msg h) = state h
  /\ session (audit_denied msg h) = session h.
Proof. unfold audit_denied. by destruct (auditor h). Qed.

Lemma answer_spec msg reply h :
  exists t, (answer msg reply h).1 = set_session t h
  /\ (writes h (answer msg reply h).1 []
        /\ (is_ok (answer msg reply h).2 = true -> WBit (hdr msg) = false \/ reply = None)
      \/ exists d m, encode_body reply = Ok d /\ WBit (hdr msg) = true
           /\ is_reply msg (wrap 8 (Function (hdr msg) + 1)) d m
           /\ writes h (answer msg reply h).1 [m]).
Proof.
  unfold answer. assert (Hself : h = set_session (session h) h) by (by destruct h).
  assert (Hnone : writes h h []) by (unfold writes; by rewrite app_nil_r).
  destruct reply as [it|]; [| exists (session h); split; [done |]; left; by split; [| right]].
  destruct (WBit (hdr msg)); [| exists (session h); split; [done |]; left; by split; [| left]].
  destruct (sendReply_spec msg (wrap 8 (Function (hdr msg) + 1)) (Some it) h) as (t & Ht & Hw).
  exists t. split; [done |].
  destruct Hw as [[? Hf]|(d & m & ? & ? & ?)]; [left; split; [done |]; by rewrite Hf | right; eauto 6].
Qed.

(** ** What a built-in handler changes *)

(** The stream and function is one of [writeMessages]. *)
Definition is_write msg : bool := contains writeMessages (mkSF (Stream (hdr msg)) (Function (hdr msg))).

Lemma handshake_control a b sm :
  controlState (handleS1F13 a b sm).2 = controlState sm.
Proof.
  unfold handleS1F13, EnableComm, CommEstablished. cbn [snd].
  repeat (case_decide || rewrite notifyChange_control || (cbn [keep set_comm controlState])); done.
Qed.

Lemma and_then_ok {A B} (f : A -> B) m it b :
  and_then f m = Ok (it, b) -> exists a, m = Ok (it, a) /\ b = f a.
Proof. unfold and_then. destruct m as [[? ?]| | |]; simpl; try done. intros [= -> <-]. eauto. Qed.

Lemma reading_ok h m it h' : reading h m = Ok (it, h') -> m = Ok it /\ h' = h.
Proof. unfold reading. destruct m; simpl; try done. by intros [= -> ->]. Qed.

Lemma builtin_spec now msg h it h' :
  builtin now msg h = Some (Ok (it, h')) ->
  session h' = session h
  /\ (is_write msg = false -> same_config h h' /\ controlState (state h') = controlState (state h)
        /\ (Function (hdr msg) <> 13 \/ Stream (hdr msg) <> 1 -> state h' = state h)).
Proof.
  unfold builtin, is_write. set (s := Stream (hdr msg)). set (f := Function (hdr msg)).
  intros Hb. dispatch Hb; apply (inj Some) in Hb;
    first [apply reading_ok in Hb as [_ ->] | apply and_then_ok in Hb as (? & Hb & ->)];
    (split; [done |]); rewrite e, e0; cbn; intros Hw; try discriminate Hw;
    (split; [by split_and! |]); cbn; try (by split); (split; [| intros [?|?]; done]).
  apply Ok_inj in Hb. pose proof (handshake_control (mdln h) (softrev h) (state h)) as Hc.
  rewrite Hb in Hc. exact Hc.
Qed.

Lemma builtin_session now msg h it h' : builtin now msg h = Some (Ok (it, h')) -> session h' = session h.
Proof. intros H. exact (proj1 (builtin_spec _ _ _ _ _ H)). Qed.

(** One call of the handler, in any order of its maps and at any instant. *)
Definition handles h h' : Prop :=
  exists (MO : MapOrder Z) now msg, h' = (HandleMessage (MapOrder0:=MO) now msg h).1.

(** A policy under which no write message is allowed. *)
Definition no_writes (p : option SessionPolicy) : Prop :=
  forall sf, sf ∈ writeMessages -> IsAllowed p (sf_Stream sf) (sf_Function sf) = false.

Lemma no_writes_msg p msg :
  no_writes p -> IsAllowed p (Stream (hdr msg)) (Function (hdr msg)) = true -> is_write msg = false.
Proof.
  intros Hp Ha. unfold is_write. apply contains_false. intros Hin. specialize (Hp _ Hin). simpl in Hp.
  congruence.
Qed.
End safety.

Section properties.
Context {T : Type} `{!Sender T}.
Implicit Types (h : Handler T) (msg : Message).

Lemma handle_quiet `{!MapOrder Z} now msg h :
  no_writes (policy h) ->
  let h' := (HandleMessage now msg h).1 in
  same_config h h' /\ controlState (state h') = controlState (state h)
  /\ (Function (hdr msg) <> 13 \/ Stream (hdr msg) <> 1 -> state h' = state h).
Proof.
  intros Hp. unfold HandleMessage.
  assert (Hrefl : same_config h h /\ controlState (state h) = controlState (state h)
    /\ (Function (hdr msg) <> 13 \/ Stream (hdr msg) <> 1 -> state h = state h)) by (by split_and!).
  destruct (IsControlMessage msg); [exact Hrefl |].
  destruct (IsAllowed _ _ _) eqn:Ha; cbn [negb].
  - pose proof (no_writes_msg _ _ Hp Ha) as Hw.
    destruct (customHandlers h !! _) as [fn|].
    + destruct (fn msg) as [reply| | |]; try exact Hrefl.
      destruct (answer_spec msg reply h) as (t & -> & _). by split_and!.
    + destruct (builtin now msg h) as [[[it h']| | |]|] eqn:Hb; try exact Hrefl.
      destruct (builtin_spec _ _ _ _ _ Hb) as [_ Hq]. destruct (Hq Hw) as (Hc & Hs & Hst).
      destruct (answer_spec msg (Some it) h') as (t & -> & _). by split_and!.
  - destruct (audit_denied_spec msg h) as (Hc & Hs & _).
    destruct (WBit (hdr msg)); [| cbn [fst]; rewrite Hs; by split_and!].
    destruct (sendReply_spec msg 0 None (audit_denied msg h)) as (t & -> & _).
    cbn [fst set_session]. split_and!; try done; simpl; by rewrite Hs.
Qed.

(** ** Properties *)

(** C1: Under a policy that allows no write message, such as the default
    [MonitorPolicy] and [ReadOnlyPolicy], no sequence of messages changes an
    equipment constant, a status variable, a report, an event link, an alarm, a
    command or the control state: a peer cannot command the equipment. *)
Theorem read_only_session h h' :
  no_writes (policy h) -> rtc handles h h' ->
  same_config h h' /\ controlState (state h') = controlState (state h)
  /\ no_writes MonitorPolicy /\ no_writes ReadOnlyPolicy.
Proof.
  intros Hp Hm. split_and!.
  1,2: assert (Hinv : same_config h h' /\ controlState (state h') = controlState (state h)); [| tauto].
  1,2: apply (invariant_rtc handles (fun x => same_config h x /\ controlState (state x) = controlState (state h)) h);
    [| by split | done]; clear h' Hm; intros x y (MO & now & msg & ->) [Hc Hs];
    assert (Hpx : no_writes (policy x)) by (destruct Hc as (_ & _ & _ & _ & -> & _); done);
    destruct (handle_quiet now msg x Hpx) as (Hc' & Hs' & _); split; [by transitivity x | congruence].
  - intros [s f] Hin. by apply monitor_denies_writes.
  - intros [s f] Hin. rewrite readonly_denies_exactly, negb_false_iff. by apply contains_spec.
Qed.

(** C11: A message the policy denies has no effect: the handler keeps its state,
    the denial is audited, and the only thing sent is the abort reply SxF0
    without data, when a reply was asked for. *)
Theorem denied_inert `{!MapOrder Z} now msg h :
  IsControlMessage msg = false -> IsAllowed (policy h) (Stream (hdr msg)) (Function (hdr msg)) = false ->
  let '(h', r) := HandleMessage now msg h in
  same_config h h' /\ state h' = state h
  /\ auditor h' = (fun log => (SessionID (hdr msg), Stream (hdr msg), Function (hdr msg)) :: log) <$> auditor h
  /\ if WBit (hdr msg)
     then (writes h h' [] /\ is_ok r = false) \/ exists m, is_reply msg 0 [] m /\ writes h h' [m]
     else writes h h' [] /\ r = Ok ().
Proof.
  intros Hc Ha. unfold HandleMessage. rewrite Hc, Ha. cbn [negb].
  destruct (audit_denied_spec msg h) as (Hcfg & Hst & Hses).
  assert (Haud : auditor (audit_denied msg h)
    = (fun log => (SessionID (hdr msg), Stream (hdr msg), Function (hdr msg)) :: log) <$> auditor h)
    by (unfold audit_denied; by destruct (auditor h) eqn:E).
  destruct (WBit (hdr msg)).
  - destruct (sendReply_spec msg 0 None (audit_denied msg h)) as (t & Ht & Hw).
    destruct (sendReply msg _ 0 None _) as [h' r]. simpl in Ht, Hw. subst h'.
    split_and!; try done. unfold writes in *. rewrite Hses in Hw.
    destruct Hw as [[Hw Hf]|(d & m & [= <-] & Hrep & Hw)]; [by left | right; by exists m].
  - split_and!; try done. unfold writes. by rewrite Hses, app_nil_r.
Qed.

(** C10: Whatever a peer sends, the handler writes at most one message, which
    answers that request: same stream, session and system id, no wait bit, and
    function zero or one more than the request's; it is sent only when the
    request asked for it. *)
Theorem reply_matches `{!MapOrder Z} now msg h :
  let h' := (HandleMessage now msg h).1 in
  writes h h' []
  \/ exists f d m, WBit (hdr msg) = true /\ IsControlMessage msg = false
       /\ (f = 0 /\ d = [] \/ f = wrap 8 (Function (hdr msg) + 1))
       /\ is_reply msg f d m /\ writes h h' [m].
Proof.
  intros h'. unfold h'. clear h'. unfold HandleMessage.
  assert (Hnone : writes h h []) by (unfold writes; by rewrite app_nil_r).
  destruct (IsControlMessage msg) eqn:Hctl; [by left |].
  destruct (IsAllowed _ _ _); cbn [negb].
  - assert (Hans : forall reply h0, session h0 = session h ->
      writes h (answer msg reply h0).1 []
      \/ exists f d m, WBit (hdr msg) = true /\ false = false
        /\ (f = 0 /\ d = [] \/ f = wrap 8 (Function (hdr msg) + 1))
        /\ is_reply msg f d m /\ writes h (answer msg reply h0).1 [m]).
    { intros reply h0 Hs0. destruct (answer_spec msg reply h0) as (t & _ & Hw). unfold writes in *.
      rewrite Hs0 in Hw. destruct Hw as [[? _]|(d & m & ? & ? & ? & ?)]; [by left | right]. eauto 10. }
    destruct (customHandlers h !! _) as [fn|].
    + destruct (fn msg) as [reply| | |]; [by apply Hans | by left..].
    + destruct (builtin now msg h) as [[[it h']| | |]|] eqn:Hb; [| by left..].
      apply Hans. by eapply builtin_session.
  - destruct (audit_denied_spec msg h) as (_ & _ & Hses).
    destruct (WBit (hdr msg)) eqn:Hw; [| left; unfold writes; cbn [fst]; by rewrite Hses, app_nil_r].
    destruct (sendReply_spec msg 0 None (audit_denied msg h)) as (t & _ & Hs). unfold writes in *.
    rewrite Hses in Hs. destruct Hs as [[? _]|(d & m & [= <-] & ? & ?)]; [by left | right].
    exists 0, [], m. split_and!; try done. by left.
Qed.

End properties.

(** ** Witnesses

    A sender that keeps a log and numbers the messages without a system id. *)

Definition log_send (m : Message) (l : list Message) : result send_error (option Message) * list Message :=
  let id := if SystemID (hdr m) =? 0 then len l + 1 else SystemID (hdr m) in
  (Ok None, l ++ [with_system_id id m]).

#[export] Program Instance log_sender : Sender (list Message) :=
  {| send_message := log_send; written := fun l => l |}.
Next Obligation.
  intros m l. right. eexists. split; [reflexivity |].
  intros H. by rewrite (proj2 (Z.eqb_neq _ _) H).
Qed.

Definition ping : Message := NewDataMessage 1 2 41 true 7 [].

Lemma read_only_session_witness :
  let h := NewHandler (T:=list Message) [] 1 "M" "1.0" in
  let h' := (HandleMessage (MapOrder0:=some_order Z) 0 ping h).1 in
  no_writes (policy h) /\ rtc handles h h' /\ same_config h h'.
Proof.
  intros h h'. assert (Hp : no_writes (policy h)) by (intros [s f] Hin; by apply monitor_denies_writes).
  assert (Hm : rtc handles h h') by (apply rtc_once; exists (some_order Z), 0, ping; reflexivity).
  split_and!; [exact Hp | exact Hm |]. exact (proj1 (read_only_session h h' Hp Hm)).
Defined.

Lemma denied_inert_witness :
  let h := NewHandler (T:=list Message) [] 1 "M" "1.0" in
  IsControlMessage ping = false /\ IsAllowed (policy h) 2 41 = false
  /\ let '(h', r) := HandleMessage (MapOrder0:=some_order Z) 0 ping h in
     same_config h h' /\ state h' = state h
     /\ auditor h' = (fun log => (1, 2, 41) :: log) <$> auditor h
     /\ ((writes h h' [] /\ is_ok r = false) \/ exists m, is_reply ping 0 [] m /\ writes h h' [m]).
Proof.
  intros h. split_and!; [reflexivity | reflexivity |].
  exact (denied_inert (MapOrder0:=some_order Z) 0 ping h eq_refl eq_refl).
Defined.
