(* ===== verification/GemRequests.v ===== *)
(** * What the host's requests do

    The functional behaviour of the handlers of
    [src/pkg/driver/gem/handler.go] on well-formed requests, from the bytes of
    the request to the reply and the new state, and of the reports they set up. *)

From stdpp Require Import prelude relations gmap strings list.
From Stdlib Require Import ZArith Lia.
From S2P Require Import Prelude Secs2Item Secs2Codec HsmsMessage Policy GemState.
From S2P Require Import GemVariables GemEvents GemAlarms GemCommands Transport GemHandler GemSafety.

#[local] Open Scope Z_scope.

(** ** Requests as items *)

Definition u4 (z : Z) : option item := Some (NewU4 [z]).
Definition id_list (ids : list Z) : item := NewList (u4 <$> ids).

(** [msg] carries the encoding of [it]. *)
Definition asks (msg : Message) (it : item) : Prop := Encode (Some it) = Ok (Data msg).

(** An item that the wire carries unchanged. *)
Definition transparent (it : item) : Prop := well_formed it = true /\ normalize it = it.

(** A list of 32-bit identifiers short enough for one list item. *)
Definition ids_ok (ids : list Z) : Prop :=
  Forall (fun z => in_unsigned 32 z = true) ids /\ len ids <= max_payload.

Lemma asks_decode msg it : transparent it -> asks msg it -> decode_body msg = Ok it.
Proof.
  unfold asks, decode_body. intros [Hwf Hn] He. destruct (well_formed_encode it Hwf) as (bs & He' & _ & Hd).
  rewrite He' in He. apply Ok_inj in He. by rewrite <- He, Hd, Hn.
Qed.

Lemma asks_nonempty msg it : well_formed it = true -> asks msg it -> (len (Data msg) =? 0) = false.
Proof.
  unfold asks. intros Hwf He. destruct (item_encodes it Hwf) as (bs & Henc & Hlen & _).
  change (encodeItem it [] = Ok (Data msg)) in He. rewrite Henc in He. apply Ok_inj in He.
  rewrite <- He. apply Z.eqb_neq. simpl. lia.
Qed.

Lemma transparent_u4 z : in_unsigned 32 z = true -> transparent (NewU4 [z]).
Proof. intros Hz. split; [| done]. cbn. by rewrite Hz. Qed.

(** A list of transparent items is transparent. *)
Lemma transparent_list cs :
  Forall transparent cs -> len cs <= max_payload -> transparent (NewList (Some <$> cs)).
Proof.
  intros Hcs Hlen. assert (Heq : VItem <$> (Some <$> cs) = (VItem ∘ Some) <$> cs) by (by rewrite list_fmap_compose).
  assert (Hl : len ((VItem ∘ Some) <$> cs) = len cs) by (unfold len; by rewrite length_fmap).
  unfold NewList. rewrite Heq. split.
  - change (((len ((VItem ∘ Some) <$> cs) <=? max_payload)
      && all_children well_formed ((VItem ∘ Some) <$> cs)) = true).
    rewrite Hl, (proj2 (Z.leb_le _ _) Hlen). cbn [andb]. apply all_children_spec. exists cs.
    split; [done |]. apply forallb_forall. intros c Hc. apply list_elem_of_In in Hc.
    rewrite Forall_forall in Hcs. by apply Hcs.
  - change (Item FormatList (normalize_children normalize ((VItem ∘ Some) <$> cs))
      = Item FormatList ((VItem ∘ Some) <$> cs)). f_equal. clear Hlen Hl Heq.
    induction Hcs as [|c cs [_ Hc] _ IH]; [done |].
    cbn [fmap list_fmap normalize_children compose]. rewrite Hc. f_equal. exact IH.
Qed.

Lemma fmap_u4 (ids : list Z) : u4 <$> ids = Some <$> ((fun z => NewU4 [z]) <$> ids).
Proof. by rewrite <- list_fmap_compose. Qed.

Lemma transparent_ids ids : ids_ok ids -> transparent (id_list ids).
Proof.
  intros [Hids Hlen]. unfold id_list. rewrite fmap_u4. apply transparent_list.
  - apply Forall_fmap. eapply Forall_impl; [exact Hids |]. intros z. apply transparent_u4.
  - unfold len. rewrite length_fmap. exact Hlen.
Qed.

Lemma transparent_pair a b : transparent a -> transparent b -> transparent (NewList [Some a; Some b]).
Proof.
  intros Ha Hb. apply (transparent_list [a; b]); [by apply Forall_cons; split; [| apply Forall_singleton] |].
  unfold max_payload. rewrite !len_cons, len_nil. lia.
Qed.

Lemma wrap_id z : in_unsigned 32 z = true -> wrap 32 z = z.
Proof. intros Hz%in_unsigned_spec. by apply wrap_small. Qed.

(** ** The identifier loops *)

Lemma Items_list (cs : list (option item)) : Items (E:=handler_error) (NewList cs) = Ok cs.
Proof.
  unfold Items, NewList. simpl. induction cs as [|c cs IH]; [done |].
  cbn [fmap list_fmap mapM as_item mbind result_bind]. by rewrite IH.
Qed.

Lemma len_list (cs : list (option item)) : Len (E:=handler_error) (NewList cs) = Ok (len cs).
Proof. unfold Len, NewList. simpl. unfold len. by rewrite length_fmap. Qed.

Lemma fill_full {A} (zero : A) l : fill zero (len l) l = l.
Proof. unfold fill. by rewrite Z.sub_diag, app_nil_r. Qed.

Lemma len_fmap {A B} (f : A -> B) l : len (f <$> l) = len l.
Proof. unfold len. by rewrite length_fmap. Qed.

Lemma status_loop_ids vs now i ids :
  Forall (fun z => in_unsigned 32 z = true) ids ->
  status_loop vs now i (u4 <$> ids) = Ok ((fun id => valueToItem (GetSV vs now id).1) <$> ids).
Proof.
  intros Hids. revert i. induction Hids as [|z ids Hz _ IH]; intros i; [done |].
  change (status_loop vs now i (u4 <$> z :: ids)) with
    (items ← status_loop vs now (i + 1) (u4 <$> ids);
     Ok (valueToItem (GetSV vs now (wrap 32 z)).1 :: items)).
  by rewrite IH, wrap_id.
Qed.

Lemma constants_loop_ids vs i ids :
  Forall (fun z => in_unsigned 32 z = true) ids ->
  constants_loop vs i (u4 <$> ids)
  = Ok ((fun id => match GetEC vs id with Some ec => valueToItem (ec_Value ec) | None => Some (NewList []) end) <$> ids).
Proof.
  intros Hids. revert i. induction Hids as [|z ids Hz _ IH]; intros i; [done |].
  change (constants_loop vs i (u4 <$> z :: ids)) with
    (items ← constants_loop vs (i + 1) (u4 <$> ids);
     Ok (match GetEC vs (wrap 32 z) with Some ec => valueToItem (ec_Value ec) | None => Some (NewList []) end :: items)).
  by rewrite IH, wrap_id.
Qed.

Lemma read_ids_list ids : ids_ok ids -> read_ids (Some (id_list ids)) = Ok ids.
Proof.
  intros [Hids _]. unfold read_ids, p_len, p_items, id_list. cbn [deref mbind result_bind].
  rewrite len_list, Items_list. cbn [mbind result_bind]. rewrite len_fmap.
  assert (Hloop : ids_loop (u4 <$> ids) = Ok ids).
  { induction Hids as [|z ids Hz _ IH]; [done |].
    change (ids_loop (u4 <$> z :: ids)) with (more ← ids_loop (u4 <$> ids); Ok (wrap 32 z :: more)).
    by rewrite IH, wrap_id. }
  rewrite Hloop. cbn [mbind result_bind]. by rewrite fill_full.
Qed.

(** ** Report definitions, links and events *)

(** [L,2 { id, L,n { id... } }] *)
Definition entry (d : Z * list Z) : option item := Some (NewList [u4 d.1; Some (id_list d.2)]).
Definition entry_ok (d : Z * list Z) : Prop := in_unsigned 32 d.1 = true /\ ids_ok d.2.

(** [L,2 { DATAID, L,n { entry... } }], the body of S2F33 and S2F35. *)
Definition entries_body (dataID : Z) (ds : list (Z * list Z)) : item :=
  NewList [u4 dataID; Some (NewList (entry <$> ds))].

Definition entries_ok (dataID : Z) (ds : list (Z * list Z)) : Prop :=
  in_unsigned 32 dataID = true /\ Forall entry_ok ds /\ len ds <= max_payload.

Lemma transparent_entries dataID ds : entries_ok dataID ds -> transparent (entries_body dataID ds).
Proof.
  intros (Hd & Hds & Hlen). apply transparent_pair; [by apply transparent_u4 |].
  replace (entry <$> ds) with (Some <$> ((fun d => NewList [u4 d.1; Some (id_list d.2)]) <$> ds))
    by (by rewrite <- list_fmap_compose).
  apply transparent_list; [| by rewrite len_fmap]. apply Forall_fmap.
  eapply Forall_impl; [exact Hds |]. intros d [H1 H2].
  apply transparent_pair; [by apply transparent_u4 | by apply transparent_ids].
Qed.

(** What one S2F33 entry does: an empty variable list deletes the report. *)
Definition define_one (em : EventManager) (d : Z * list Z) : EventManager :=
  match d.2 with [] => DeleteReport d.1 em | vids => DefineReport d.1 vids em end.

Definition link_one (em : EventManager) (d : Z * list Z) : EventManager :=
  keep (LinkEventReport d.1 d.2 em) em.

Lemma define_reports_entries ds em :
  Forall entry_ok ds -> define_reports_loop (entry <$> ds) em = Ok (foldl define_one em ds).
Proof.
  intros Hds. revert em. induction Hds as [|[r vids] ds [Hr Hv] _ IH]; intros em; [done |].
  change (define_reports_loop (entry <$> (r, vids) :: ds) em) with
    (m ← p_len (Some (id_list vids));
     if m =? 0 then define_reports_loop (entry <$> ds) (DeleteReport (wrap 32 r) em)
     else vids' ← read_ids (Some (id_list vids));
          define_reports_loop (entry <$> ds) (DefineReport (wrap 32 r) vids' em)).
  rewrite read_ids_list by done. simpl in Hr. rewrite wrap_id by done.
  unfold p_len, id_list. cbn [deref mbind result_bind]. rewrite len_list, len_fmap. cbn [mbind result_bind].
  cbn [foldl]. destruct vids as [|v vids]; [apply IH |].
  rewrite (proj2 (Z.eqb_neq _ _)) by (rewrite len_cons; pose proof (len_nonneg vids); lia). apply IH.
Qed.

Lemma link_entries ds em :
  Forall entry_ok ds -> link_loop (entry <$> ds) em = Ok (foldl link_one em ds).
Proof.
  intros Hds. revert em. induction Hds as [|[c rs] ds [Hc Hr] _ IH]; intros em; [done |].
  change (link_loop (entry <$> (c, rs) :: ds) em) with
    (rptids ← read_ids (Some (id_list rs));
     link_loop (entry <$> ds) (keep (LinkEventReport (wrap 32 c) rptids em) em)).
  rewrite read_ids_list by done. simpl in Hc. rewrite wrap_id by done. cbn [mbind result_bind]. apply IH.
Qed.

Lemma enable_ids enabled ids em :
  Forall (fun z => in_unsigned 32 z = true) ids ->
  enable_loop enabled (u4 <$> ids) em
  = Ok (foldl (fun em c => keep (EnableEvent c enabled em) em) em ids).
Proof.
  intros Hids. revert em. induction Hids as [|z ids Hz _ IH]; intros em; [done |].
  change (enable_loop enabled (u4 <$> z :: ids) em) with
    (enable_loop enabled (u4 <$> ids) (keep (EnableEvent (wrap 32 z) enabled em) em)).
  rewrite wrap_id by done. apply IH.
Qed.

Lemma S2F33_entries em msg dataID ds :
  entries_ok dataID ds -> asks msg (entries_body dataID ds) ->
  handleS2F33 em msg = Ok (ack 0, match ds with [] => DeleteAllReports em | _ => foldl define_one em ds end).
Proof.
  intros Hok Hasks. unfold handleS2F33. rewrite (asks_decode msg (entries_body dataID ds)) by (done || by apply transparent_entries).
  cbn [mbind result_bind].
  change (Len (E:=handler_error) (entries_body dataID ds)) with (Ok (E:=handler_error) 2).
  change (ItemAt (E:=handler_error) (entries_body dataID ds) 1) with (Ok (E:=handler_error) (Some (NewList (entry <$> ds)))).
  cbn [mbind result_bind]. change (2 <? 2) with false. cbv iota.
  unfold p_len, p_items. cbn [deref mbind result_bind]. rewrite len_list, Items_list, len_fmap.
  cbn [mbind result_bind]. destruct ds as [|d ds]; [done |].
  rewrite (proj2 (Z.eqb_neq _ _)) by (rewrite len_cons; pose proof (len_nonneg ds); lia).
  rewrite define_reports_entries by apply Hok. done.
Qed.

Lemma S2F35_entries em msg dataID ds :
  entries_ok dataID ds -> asks msg (entries_body dataID ds) ->
  handleS2F35 em msg = Ok (ack 0, foldl link_one em ds).
Proof.
  intros Hok Hasks. unfold handleS2F35. rewrite (asks_decode msg (entries_body dataID ds)) by (done || by apply transparent_entries).
  cbn [mbind result_bind].
  change (Len (E:=handler_error) (entries_body dataID ds)) with (Ok (E:=handler_error) 2).
  change (ItemAt (E:=handler_error) (entries_body dataID ds) 1) with (Ok (E:=handler_error) (Some (NewList (entry <$> ds)))).
  cbn [mbind result_bind]. change (2 <? 2) with false. cbv iota.
  unfold p_items. cbn [deref mbind result_bind]. rewrite Items_list. cbn [mbind result_bind].
  rewrite link_entries by apply Hok. done.
Qed.

(** [L,2 { CEED, L,n { CEID... } }], the body of S2F37. *)
Definition enable_body (enabled : bool) (ids : list Z) : item :=
  NewList [Some (NewBoolean [enabled]); Some (id_list ids)].

Lemma S2F37_ids em msg enabled ids :
  ids_ok ids -> asks msg (enable_body enabled ids) ->
  handleS2F37 em msg
  = Ok (ack 0, match ids with
               | [] => EnableAllEvents enabled em
               | _ => foldl (fun em c => keep (EnableEvent c enabled em) em) em ids end).
Proof.
  intros Hok Hasks. unfold handleS2F37.
  assert (Ht : transparent (enable_body enabled ids)) by (by apply transparent_pair; [| apply transparent_ids]).
  rewrite (asks_decode msg (enable_body enabled ids)) by done. cbn [mbind result_bind].
  change (Len (E:=handler_error) (enable_body enabled ids)) with (Ok (E:=handler_error) 2).
  change (ItemAt (E:=handler_error) (enable_body enabled ids) 0) with (Ok (E:=handler_error) (Some (NewBoolean [enabled]))).
  change (ItemAt (E:=handler_error) (enable_body enabled ids) 1) with (Ok (E:=handler_error) (Some (id_list ids))).
  cbn [mbind result_bind deref]. change (2 <? 2) with false. cbv iota.
  change (attempt (E':=handler_error) (ToBooleans (NewBoolean [enabled]))) with (Ok (E:=handler_error) (Some [enabled])).
  cbn [mbind result_bind]. unfold p_len, p_items, id_list. cbn [deref mbind result_bind].
  rewrite len_list, Items_list, len_fmap. cbn [mbind result_bind]. destruct ids as [|i ids]; [done |].
  rewrite (proj2 (Z.eqb_neq _ _)) by (rewrite len_cons; pose proof (len_nonneg ids); lia).
  rewrite enable_ids by apply Hok. done.
Qed.

(** ** Remote commands *)

(** [L,2 { RCMD, L,n { L,2 { CPNAME, CPVAL } } }], the body of S2F41. *)
Definition param_item (p : string * item) : item := NewList [Some (NewASCII p.1); Some p.2].
Definition command_body (cmd : string) (ps : list (string * item)) : item :=
  NewList [Some (NewASCII cmd); Some (NewList (Some <$> (param_item <$> ps)))].

Definition name_ok (s : string) : Prop := s <> "" /\ Z.of_nat (String.length s) <= max_payload.

Lemma transparent_ascii s : name_ok s -> transparent (NewASCII s).
Proof.
  intros [Hne Hlen]. split; [| by destruct s].
  change ((Z.of_nat (String.length s) <=? max_payload) = true). by apply Z.leb_le.
Qed.

Lemma params_loop_list ps :
  params_loop (Some <$> (param_item <$> ps)) = Ok ((fun p => mkParam p.1 (GItem (Some p.2))) <$> ps).
Proof.
  induction ps as [|[n v] ps IH]; [done |].
  change (params_loop (Some <$> (param_item <$> (n, v) :: ps))) with
    (more ← params_loop (Some <$> (param_item <$> ps)); Ok (mkParam n (GItem (Some v)) :: more)).
  by rewrite IH.
Qed.

(** ** Properties *)

(** A selected status request (S1F3) and a selected constant request (S2F13)
    that list identifiers are answered with the current values in the order
    asked, an empty list standing for a status variable or constant that is not
    defined. *)
Theorem selected_request `{!MapOrder Z} vs now msg ids :
  ids_ok ids -> asks msg (id_list ids) ->
  handleS1F3 now vs msg = Ok (NewList ((fun id => valueToItem (GetSV vs now id).1) <$> ids))
  /\ handleS2F13 vs msg
     = Ok (NewList ((fun id => match GetEC vs id with
                               | Some ec => valueToItem (ec_Value ec)
                               | None => Some (NewList []) end) <$> ids))
  /\ (forall id, svs vs !! id = None -> valueToItem (GetSV vs now id).1 = Some (NewList [])).
Proof.
  intros Hok Hasks. pose proof (transparent_ids ids Hok) as Ht.
  unfold handleS1F3, handleS2F13. rewrite (asks_nonempty msg (id_list ids)) by (done || apply Ht).
  rewrite (asks_decode msg (id_list ids)) by done. unfold id_list. cbn [mbind result_bind].
  rewrite !len_list, !Items_list, !len_fmap. cbn [mbind result_bind].
  rewrite status_loop_ids, constants_loop_ids by apply Hok. cbn [mbind result_bind].
  rewrite <- (len_fmap (fun id => valueToItem (GetSV vs now id).1) ids) at 1.
  rewrite fill_full. split_and!; [done | | by intros id; unfold GetSV; intros ->].
  rewrite <- (len_fmap (fun id => match GetEC vs id with Some ec => valueToItem (ec_Value ec)
    | None => Some (NewList []) end) ids) at 1.
  by rewrite fill_full.
Qed.

Lemma selected_request_witness :
  let vs := DefineSV (mkSV 7 "Pressure" (GUint32 55) "Pa" None) NewVariableStore in
  let msg := NewDataMessage 1 1 3 true 9 [1; 2; 177; 4; 0; 0; 0; 7; 177; 4; 0; 0; 0; 8] in
  ids_ok [7; 8] /\ asks msg (id_list [7; 8])
  /\ handleS1F3 (MapOrder0:=some_order Z) 0 vs msg = Ok (NewList [Some (NewU4 [55]); Some (NewList [])]).
Proof.
  intros vs msg. assert (Hok : ids_ok [7; 8]) by (split; [by repeat constructor | by vm_compute]).
  assert (Ha : asks msg (id_list [7; 8])) by reflexivity. split_and!; [exact Hok | exact Ha |].
  exact (proj1 (selected_request (MapOrder0:=some_order Z) vs 0 msg [7; 8] Hok Ha)).
Defined.

(** C14: The host's report setup works from the wire to the wire: after S2F33
    defines a report, S2F35 links it to an event and S2F37 enables the event,
    all acknowledged, an event report carries exactly that report with its
    variables' current values. *)
Theorem report_round_trip em r vids c d1 d2 m1 m2 m3 :
  entries_ok d1 [(r, vids)] -> vids <> [] -> entries_ok d2 [(c, [r])] -> is_Some (events em !! c) ->
  asks m1 (entries_body d1 [(r, vids)]) -> asks m2 (entries_body d2 [(c, [r])]) ->
  asks m3 (enable_body true [c]) ->
  exists em1 em2 em3,
    handleS2F33 em m1 = Ok (ack 0, em1) /\ handleS2F35 em1 m2 = Ok (ack 0, em2)
    /\ handleS2F37 em2 m3 = Ok (ack 0, em3)
    /\ IsEventEnabled em3 c = true /\ GetEventReportVIDs em3 c = Ok [mkRV r vids]
    /\ forall vs now dataID, event_body vs now dataID c [mkRV r vids]
         = NewList [u4 dataID; u4 c; Some (NewList [Some (NewList [u4 r;
             Some (NewList ((fun vid => valueToItem (GetSV vs now vid).1) <$> vids))])])].
Proof.
  intros Hok1 Hne Hok2 [ce Hce] H1 H2 H3.
  assert (Hc : ids_ok [c]).
  { destruct Hok2 as (_ & Hds & _). apply Forall_singleton in Hds as [Hc _].
    split; [by apply Forall_singleton | by vm_compute]. }
  rewrite (S2F33_entries em m1 d1 [(r, vids)]) by done.
  destruct vids as [|v vids]; [done |]. cbn [foldl]. unfold define_one at 1. cbn [fst snd].
  set (em1 := DefineReport r (v :: vids) em).
  exists em1. eexists. eexists. split; [done |].
  rewrite (S2F35_entries em1 m2 d2 [(c, [r])]) by done. split; [done |].
  rewrite (S2F37_ids _ m3 true [c]) by done. split; [done |]. cbn [foldl].
  assert (Hlink : link_one em1 (c, [r]) = mkEM (<[c := set_links [r] ce]> (events em1)) (reports em1)).
  { unfold link_one, LinkEventReport, em1. simpl. by rewrite Hce, lookup_insert_eq. }
  rewrite Hlink. unfold EnableEvent, IsEventEnabled, GetEventReportVIDs. simpl.
  rewrite lookup_insert_eq. simpl. rewrite lookup_insert_eq. simpl. rewrite lookup_insert_eq. done.
Qed.

Lemma report_round_trip_witness :
  let em := DefineEvent 10 "Done" NewEventManager in
  let enc it := match Encode (Some it) with Ok bs => bs | _ => [] end in
  let msg f it := NewDataMessage 1 2 f true 1 (enc it) in
  exists em1 em2 em3,
    handleS2F33 em (msg 33 (entries_body 0 [(1, [100; 101])])) = Ok (ack 0, em1)
    /\ handleS2F35 em1 (msg 35 (entries_body 0 [(10, [1])])) = Ok (ack 0, em2)
    /\ handleS2F37 em2 (msg 37 (enable_body true [10])) = Ok (ack 0, em3)
    /\ GetEventReportVIDs em3 10 = Ok [mkRV 1 [100; 101]].
Proof.
  intros em enc msg.
  assert (Hok : forall d, entry_ok d -> entries_ok 0 [d])
    by (intros d Hd; split_and!; [done | by apply Forall_singleton | by vm_compute]).
  assert (He1 : entry_ok (1, [100; 101])) by (split; [done | split; [by repeat constructor | by vm_compute]]).
  assert (He2 : entry_ok (10, [1])) by (split; [done | split; [by repeat constructor | by vm_compute]]).
  destruct (report_round_trip em 1 [100; 101] 10 0 0 (msg 33 (entries_body 0 [(1, [100; 101])]))
    (msg 35 (entries_body 0 [(10, [1])])) (msg 37 (enable_body true [10])) (Hok _ He1) ltac:(discriminate)
    (Hok _ He2) ltac:(by eexists) ltac:(by vm_compute) ltac:(by vm_compute) ltac:(by vm_compute))
    as (em1 & em2 & em3 & G1 & G2 & G3 & _ & G4 & _).
  exists em1, em2, em3. exact (conj G1 (conj G2 (conj G3 G4))).
Defined.

(** A remote command (S2F41) runs the registered handler on the parameters
    of the request, in order, and the acknowledge carries its status; an unknown
    command is refused with status 1. *)
Theorem remote_command cm msg cmd ps :
  name_ok cmd -> Forall (fun p => name_ok p.1 /\ transparent p.2) ps -> len ps <= max_payload ->
  asks msg (command_body cmd ps) ->
  handleS2F41 cm msg = Ok (command_reply (match commands cm !! cmd with
    | Some f => f ((fun p => mkParam p.1 (GItem (Some p.2))) <$> ps)
    | None => CommandInvalidCommand end)).
Proof.
  intros Hcmd Hps Hlen Hasks.
  assert (Ht : transparent (command_body cmd ps)).
  { apply transparent_pair; [by apply transparent_ascii |]. apply transparent_list; [| by rewrite len_fmap].
    apply Forall_fmap. eapply Forall_impl; [exact Hps |]. intros p [Hn Hv].
    apply transparent_pair; [by apply transparent_ascii | done]. }
  unfold handleS2F41. rewrite (asks_decode msg (command_body cmd ps)) by done. cbn [mbind result_bind].
  change (Len (E:=handler_error) (command_body cmd ps)) with (Ok (E:=handler_error) 2).
  change (ItemAt (E:=handler_error) (command_body cmd ps) 0) with (Ok (E:=handler_error) (Some (NewASCII cmd))).
  change (ItemAt (E:=handler_error) (command_body cmd ps) 1)
    with (Ok (E:=handler_error) (Some (NewList (Some <$> (param_item <$> ps))))).
  cbn [mbind result_bind deref]. change (2 <? 2) with false. cbv iota.
  change (attempt (E':=handler_error) (ToASCII (NewASCII cmd))) with (Ok (E:=handler_error) (Some cmd)).
  cbn [mbind result_bind]. unfold p_items. cbn [deref mbind result_bind]. rewrite Items_list.
  cbn [mbind result_bind]. rewrite params_loop_list. cbn [mbind result_bind]. unfold Execute.
  by destruct (commands cm !! cmd).
Qed.

Lemma remote_command_witness :
  let cm := Register "START" (fun ps => if len ps =? 1 then CommandOK else CommandParameterError) NewCommandManager in
  let msg := NewDataMessage 1 2 41 true 5
    (match Encode (Some (command_body "START" [("LOT"%string, NewASCII "A7")])) with Ok bs => bs | _ => [] end) in
  handleS2F41 cm msg = Ok (command_reply CommandOK).
Proof.
  intros cm msg. assert (Hn : forall s, s <> ""%string -> (String.length s <= 9)%nat -> name_ok s).
  { intros s Hs Hl. split; [done |]. unfold max_payload. lia. }
  apply (remote_command cm msg "START" [("LOT"%string, NewASCII "A7")]).
  - apply Hn; [discriminate | simpl; lia].
  - apply Forall_singleton. split; [apply Hn; [discriminate | simpl; lia] | by split].
  - by vm_compute.
  - by vm_compute.
Defined.

(** A constant changes only through a write that its range admits. *)
Lemma set_ec_loop_bounded prs vs vs' ecid ec :
  set_ec_loop prs vs = Ok vs' -> ecs vs !! ecid = Some ec ->
  is_nil (MinValue ec) = false \/ is_nil (MaxValue ec) = false -> ecs vs' !! ecid = Some ec.
Proof.
  intros Hl Hec Hb. revert vs Hl Hec. induction prs as [|p prs IH]; intros vs Hl Hec.
  - apply Ok_inj in Hl. by subst.
  - cbn [set_ec_loop] in Hl. apply bind_ok in Hl as (n & _ & Hl). destruct (n <? 2); [by eapply IH |].
    apply bind_ok in Hl as (p0 & _ & Hl). apply bind_ok in Hl as ([ids|] & _ & Hl); [| by eapply IH].
    apply bind_ok in Hl as (id & _ & Hl). apply bind_ok in Hl as (p1 & _ & Hl).
    eapply IH; [exact Hl |]. unfold SetEC.
    destruct (decide (wrap 32 id = ecid)) as [Heq|Hne].
    + rewrite Heq, Hec. unfold checkECRange. cbn [numeric].
      destruct Hb as [Hb|Hb]; rewrite Hb; cbn [negb]; rewrite ?orb_true_r; exact Hec.
    + destruct (ecs vs !! wrap 32 id) as [ec'|]; [| exact Hec].
      destruct (checkECRange ec' (GItem p1)); cbn [keep ecs]; try exact Hec.
      by rewrite lookup_insert_ne.
Qed.

(** Whatever the host sends in S2F15, the constants that declare a bound keep
    their value, since the request's item is never a number to the range check;
    the answer is nevertheless EAC 0, accepted. *)
Theorem bounded_constant_fixed vs msg reply vs' ecid ec :
  handleS2F15 vs msg = Ok (reply, vs') -> ecs vs !! ecid = Some ec ->
  is_nil (MinValue ec) = false \/ is_nil (MaxValue ec) = false ->
  ecs vs' !! ecid = Some ec /\ reply = ack 0.
Proof.
  unfold handleS2F15. intros H Hec Hb. apply bind_ok in H as (body & _ & H).
  apply bind_ok in H as (prs & _ & H). apply bind_ok in H as (vs1 & Hl & H).
  apply Ok_inj in H. injection H as <- <-. split; [| done]. by eapply set_ec_loop_bounded.
Qed.

Lemma bounded_constant_fixed_witness :
  let ec := mkEC 7 "Temp" (GInt 20) (GInt 0) (GInt 100) "C" in
  let vs := DefineEC ec NewVariableStore in
  let msg := NewDataMessage 1 2 15 true 5
    (match Encode (Some (NewList [Some (NewList [u4 7; Some (NewI4 [50])])])) with Ok bs => bs | _ => [] end) in
  handleS2F15 vs msg = Ok (ack 0, vs) /\ ecs vs !! 7 = Some ec /\ ack 0 = ack 0.
Proof.
  intros ec vs msg. assert (H : handleS2F15 vs msg = Ok (ack 0, vs)) by reflexivity. split; [exact H |].
  exact (bounded_constant_fixed vs msg (ack 0) vs 7 ec H eq_refl (or_introl eq_refl)).
Defined.

(** Establishing communication (S1F13) is accepted from every state; it ends
    communicating from DISABLED, WAIT_CRA and COMMUNICATING, leaves the control
    state alone, and from WAIT_DELAY changes nothing although it answers
    COMMACK 0. *)
Theorem handshake_spec a b sm :
  let '(reply, sm') := handleS1F13 a b sm in
  reply = NewList [Some (ack 0); Some (handleS1F1 a b)]
  /\ controlState sm' = controlState sm
  /\ (commState sm = CommWaitDelay -> sm' = sm)
  /\ (commState sm <> CommWaitDelay -> IsCommunicating sm' = true).
Proof.
  pose proof (handshake_control a b sm) as Hc. revert Hc. unfold handleS1F13. cbn [snd]. intros Hc.
  split; [done |]. split; [exact Hc |]. unfold EnableComm, CommEstablished, IsCommunicating.
  destruct sm as [[] s f l]; simpl; (split; [done || by intros |]); intros Hne;
    try (by destruct Hne); by destruct f.
Qed.
