(* ===== verification/GemReports.v ===== *)
(** * Alarm and event reports

    The reports the equipment sends on its own, [SendAlarm] and [SendEvent] of
    [src/pkg/driver/gem/handler.go], and the requests that make a handler
    panic. *)

From stdpp Require Import prelude relations gmap strings list.
From Stdlib Require Import ZArith Lia.
From S2P Require Import Prelude Secs2Item Secs2Codec HsmsMessage Policy GemState GemVariables.
From S2P Require Import GemEvents GemAlarms GemCommands Transport GemHandler GemSafety GemRequests.

#[local] Open Scope Z_scope.

Section reports.
Context {T : Type} `{!Sender T}.
Implicit Types h : Handler T.

(** The one message a report may send. *)
Definition is_report (sid s f : Z) (d : list Z) (m : Message) : Prop :=
  Stream (hdr m) = s /\ Function (hdr m) = f /\ WBit (hdr m) = true /\ SessionID (hdr m) = sid
  /\ SType (hdr m) = STypeDataMessage /\ Data m = d.

Lemma send_report sid s f d h :
  let r := send (NewDataMessage sid s f true 0 d) h in
  exists t, r.1 = set_session t h
  /\ ((writes h r.1 [] /\ is_ok r.2 = false) \/ exists m, is_report sid s f d m /\ writes h r.1 [m]).
Proof.
  cbv zeta. destruct (send_spec (NewDataMessage sid s f true 0 d) h) as (t & Ht & Hw). exists t.
  split; [done |]. destruct Hw as [?|(id & Hw & _)]; [by left | right]. eexists. by split; [| exact Hw].
Qed.

(** What [SetAlarm] and [ClearAlarm] leave in the manager. *)
Definition alarm_after (set : bool) (a : Alarm) : Alarm :=
  GemAlarms.set_state (if set then AlarmSet else AlarmCleared) a.

Lemma ask_interlock_spec set a h :
  let h' := ask_interlock set a h in
  session h' = session h /\ vars h' = vars h /\ eventMgr h' = eventMgr h /\ alarmMgr h' = alarmMgr h
  /\ sessionID h' = sessionID h /\ alarmCallbacks h' = alarmCallbacks h /\ alarmCalls h' = alarmCalls h
  /\ commState (state h') = commState (state h)
  /\ (forall si, set = true -> interlock h = Some si -> triggers (Threshold si) a = true ->
        Action si = AlarmActionForceOffline -> IsOnline (state h') = false)
  /\ (set = false \/ interlock h = None -> state h' = state h).
Proof.
  unfold ask_interlock. destruct set; [| by split_and!].
  destruct (interlock h) as [si|] eqn:Hsi; [| by split_and!].
  pose proof (evaluate_safe a si (state h)) as He. destruct (Evaluate a si (state h)) as [[b si'] sm].
  destruct He as (Hb & Hcomm & Hoff & _). simpl. split_and!; try done.
  - intros si0 _ [= <-] Htr Hact. apply Hoff; [by rewrite Hb | done].
  - by intros [|].
Qed.

(** ** Properties *)

(** C15: [SendAlarm] always records the alarm's new state first; a set alarm that
    reaches the interlock's threshold leaves the equipment offline whether or not
    the alarm is enabled or can be reported; a disabled alarm sends nothing, and
    an enabled one sends at most one S5F1 with its code, id and text. *)
Theorem send_alarm_spec alid set a h :
  alarms (alarmMgr h) !! alid = Some a ->
  let '(h', r) := SendAlarm alid set h in
  alarms (alarmMgr h') !! alid = Some (alarm_after set a)
  /\ (forall i, i <> alid -> alarms (alarmMgr h') !! i = alarms (alarmMgr h) !! i)
  /\ (forall si, set = true -> interlock h = Some si -> triggers (Threshold si) (alarm_after set a) = true ->
        Action si = AlarmActionForceOffline -> IsOnline (state h') = false)
  /\ (if al_Enabled a then
        (writes h h' [] /\ is_ok r = false)
        \/ exists d m, Encode (Some (alarm_item (alarm_alcd set a) a)) = Ok d
             /\ is_report (sessionID h) 5 1 d m /\ writes h h' [m]
      else writes h h' [] /\ r = Ok ()).
Proof.
  intros Ha. unfold SendAlarm.
  assert (Hupd : (if set then SetAlarm alid (alarmMgr h) else ClearAlarm alid (alarmMgr h))
    = Ok (alarm_after set a, mkAM (<[alid := alarm_after set a]> (alarms (alarmMgr h))))).
  { unfold SetAlarm, ClearAlarm. rewrite Ha. by destruct set. }
  rewrite Hupd. cbv iota beta.
  set (h1 := set_alarms _ h). set (h2 := ask_interlock set (alarm_after set a) h1).
  destruct (ask_interlock_spec set (alarm_after set a) h1)
    as (Hses & _ & _ & Ham & Hsid & _ & _ & _ & Hoff & _). fold h2 in Hses, Ham, Hsid, Hoff.
  assert (Hstate : forall h3, alarmMgr h3 = alarmMgr h2 -> state h3 = state h2 ->
    alarms (alarmMgr h3) !! alid = Some (alarm_after set a)
    /\ (forall i, i <> alid -> alarms (alarmMgr h3) !! i = alarms (alarmMgr h) !! i)
    /\ (forall si, set = true -> interlock h = Some si -> triggers (Threshold si) (alarm_after set a) = true ->
          Action si = AlarmActionForceOffline -> IsOnline (state h3) = false)).
  { intros h3 -> ->. rewrite Ham. simpl. split_and!; [by rewrite lookup_insert_eq | | exact Hoff].
    intros i Hi. by rewrite lookup_insert_ne. }
  change (al_Enabled (alarm_after set a)) with (al_Enabled a).
  assert (Hquiet : writes h h2 []) by (unfold writes; rewrite Hses; simpl; by rewrite app_nil_r).
  destruct (al_Enabled a); cbn [negb].
  - change (alarm_item (alarm_alcd set (alarm_after set a)) (alarm_after set a))
      with (alarm_item (alarm_alcd set a) a).
    unfold encode_body. destruct (Encode (Some (alarm_item (alarm_alcd set a) a))) as [d|e|p|];
      cbn [wrap_err];
      [| destruct (Hstate h2 eq_refl eq_refl) as (? & ? & ?); split_and!; try done; by left..].
    pose proof (send_report (sessionID h2) 5 1 d h2) as Hs. cbv zeta in Hs.
    destruct (send (NewDataMessage (sessionID h2) 5 1 true 0 d) h2) as [h3 r].
    destruct Hs as (t & Ht & Hw). simpl in Ht, Hw. rewrite Hsid in Hw. unfold writes in *.
    rewrite Hses in Hw. cbn [session set_alarms h1] in Hw.
    destruct r as [[]|e|p|]; (edestruct Hstate as (H1 & H2 & H3); [| | split; [exact H1 | split; [exact H2 | split; [exact H3 |]]]];
      [by rewrite Ht | by rewrite Ht |]);
      (destruct Hw as [[? ?]|(m & Hm & Hw)]; [left; by split | right; exists d, m; by split_and!]).
  - destruct (Hstate h2 eq_refl eq_refl) as (? & ? & ?). by split_and!.
Qed.

(** [SendEvent] sends nothing for a disabled or unknown event; for an enabled
    one it sends at most one S6F11, which carries the reports the event manager
    gives with the variables' values of that instant, and calls every callback
    once when the send succeeds; it changes nothing else. *)
Theorem send_event_spec now dataID ceid h :
  let '(h', r) := SendEvent now dataID ceid h in
  same_config h h' /\ state h' = state h
  /\ if IsEventEnabled (eventMgr h) ceid then
       exists rvs, GetEventReportVIDs (eventMgr h) ceid = Ok rvs
       /\ ((writes h h' [] /\ is_ok r = false /\ eventCalls h' = eventCalls h)
           \/ exists d m, Encode (Some (event_body (vars h) now dataID ceid rvs)) = Ok d
                /\ is_report (sessionID h) 6 11 d m /\ writes h h' [m]
                /\ eventCalls h' = (if is_ok r then rev ((fun cb => (cb, dataID, ceid)) <$> eventCallbacks h) else [])
                                     ++ eventCalls h)
     else writes h h' [] /\ r = Ok ().
Proof.
  unfold SendEvent. assert (Hquiet : writes h h []) by (unfold writes; by rewrite app_nil_r).
  unfold IsEventEnabled, GetEventReportVIDs. destruct (events (eventMgr h) !! ceid) as [ce|]; [| by split_and!].
  destruct (ce_Enabled ce); cbn [negb wrap_err]; [| by split_and!].
  set (rvs := collect_reports _ _).
  unfold encode_body. destruct (Encode (Some (event_body (vars h) now dataID ceid rvs))) as [d|e|p|] eqn:Henc;
    cbn [wrap_err]; [| (split; [done | split; [done | exists rvs; split; [done | by left]]])..].
  pose proof (send_report (sessionID h) 6 11 d h) as Hs. cbv zeta in Hs.
  destruct (send (NewDataMessage (sessionID h) 6 11 true 0 d) h) as [h3 r].
  destruct Hs as (t & Ht & Hw). simpl in Ht, Hw. unfold writes in *.
  destruct r as [[]|e|p|]; (split; [by rewrite Ht | split; [by rewrite Ht | exists rvs; split; [done |]]]);
    (destruct Hw as [[? ?]|(m & Hm & Hw)]; [left | right; exists d, m]); split_and!; try done; by rewrite Ht.
Qed.

(** ** Alarm codes *)

(** Bit 7 of a reported alarm code says that the alarm is set, except for the
    personal safety category, whose severity bit is that same bit: clearing such
    an alarm is reported with the code of setting it. *)
Theorem alarm_code_bit set a :
  Z.testbit (alarm_alcd set a) 7 = set || Z.testbit (Severity a) 7
  /\ (Severity a = AlarmPersonalSafety -> alarm_alcd false a = alarm_alcd true a)
  /\ (al_State a = AlarmSet -> listed_alcd a = alarm_alcd true a).
Proof.
  unfold alarm_alcd, listed_alcd. split_and!.
  - destruct set; [| done]. rewrite Z.lor_spec. change (Z.testbit 128 7) with true. apply orb_true_r.
  - by intros ->.
  - intros Hs. by rewrite decide_True.
Qed.
End reports.

Lemma send_alarm_spec_witness :
  let a := mkAlarm 3 "Door" "open" 64 AlarmCleared true 0 0 in
  let h := set_alarms (mkAM {[3 := a]}) (NewHandler (T:=list Message) [] 1 "M" "1.0") in
  alarms (alarmMgr h) !! 3 = Some a
  /\ let '(h', r) := SendAlarm 3 true h in
     alarms (alarmMgr h') !! 3 = Some (alarm_after true a)
     /\ ((writes h h' [] /\ is_ok r = false)
         \/ exists d m, Encode (Some (alarm_item (alarm_alcd true a) a)) = Ok d
              /\ is_report (sessionID h) 5 1 d m /\ writes h h' [m]).
Proof.
  intros a h. split; [reflexivity |].
  pose proof (send_alarm_spec 3 true a h eq_refl) as H. destruct (SendAlarm 3 true h) as [h' r].
  exact (conj (proj1 H) (proj2 (proj2 (proj2 H)))).
Defined.

(** ** Requests that make a handler panic *)

(** Every element of a request is an item with at least one value. *)
Definition has_value (p : option item) : bool :=
  match p with Some it => match values it with [] => false | _ => true end | None => false end.

Lemma ToUint64s_returns it ids :
  ToUint64s it = Ok ids -> values it <> [] -> exists id rest, ids = id :: rest.
Proof.
  unfold ToUint64s. destruct (values it) as [|v vs]; [done |]. cbn [mapM].
  intros H _. apply bind_ok in H as (id & _ & H). apply bind_ok in H as (rest & _ & H).
  apply Ok_inj in H. eauto.
Qed.

Lemma ToUint64s_no_panic it : returns (ToUint64s it) = true.
Proof.
  unfold ToUint64s. induction (values it) as [|v vs IH]; [done |]. cbn [mapM].
  destruct v; try done; cbn [mbind result_bind]; by destruct (mapM _ vs).
Qed.

Lemma status_loop_returns vs now i cs :
  forallb has_value cs = true -> returns (status_loop vs now i cs) = true.
Proof.
  revert i. induction cs as [|[it|] cs IH]; intros i; [done | | done].
  simpl. rewrite andb_true_iff. intros [Hv Hcs].
  pose proof (ToUint64s_no_panic it) as Hr. destruct (ToUint64s it) as [ids|e|p|] eqn:E; try done.
  destruct (ToUint64s_returns it ids E) as (id & rest & ->); [by intros Hn; rewrite Hn in Hv |].
  cbn [wrap_err mbind result_bind]. change (idx (id :: rest) 0) with (Ok (E:=handler_error) id).
  cbn [mbind result_bind]. specialize (IH (i + 1) Hcs). by destruct (status_loop vs now (i + 1) cs).
Qed.

(** A selected status request (S1F3) returns, with a reply or an error, when
    its body does not decode or every element of its list has a value; a body
    with an empty element, or any other non-empty body than a list, is decoded
    all the same and stops the equipment with a panic, even under the default
    policy. *)
Theorem status_request_panics `{!MapOrder Z} :
  (forall vs now msg, bytes_ok (Data msg) = true ->
     (forall body, decode_body msg = Ok body -> exists cs, body = NewList cs /\ forallb has_value cs = true) ->
     returns (handleS1F3 now vs msg) = true)
  /\ (forall h : Handler (list Message), policy h = MonitorPolicy -> customHandlers h = ∅ ->
        snd (HandleMessage 0 (NewDataMessage 1 1 3 true 5 [1; 1; 1; 0]) h) = Panic IndexOutOfRange
        /\ snd (HandleMessage 0 (NewDataMessage 1 1 3 true 5 [65; 1; 88]) h) = Panic NilDeref).
Proof.
  split.
  - intros vs now msg Hb Hbody. unfold handleS1F3. destruct (len (Data msg) =? 0); [done |].
    pose proof (post_returns _ _ (Decode_post (Data msg) Hb)) as Hd. unfold decode_body in *.
    destruct (Decode (Data msg)) as [body|e|p|] eqn:E; try done. cbn [wrap_err mbind result_bind] in *.
    destruct (Hbody body eq_refl) as (cs & -> & Hcs). rewrite len_list, Items_list. cbn [mbind result_bind].
    pose proof (status_loop_returns vs now 0 cs Hcs) as Hl. by destruct (status_loop vs now 0 cs).
  - intros h Hp Hc. unfold HandleMessage. rewrite Hp, Hc. split; reflexivity.
Qed.
