(* ===== verification/Callbacks.v ===== *)
(** * The functions registered with the handler

    [SendEvent] and [SendAlarm] of [src/pkg/driver/gem/handler.go] call the functions that
    [OnEventSent] and [OnAlarmSent] have registered; [GemHandler] records the calls,
    newest first.  Here is what a component behind such a function does with them, which
    the MQTT bridge and the event streams of the gRPC server share. *)

From stdpp Require Import prelude gmap strings list.
From Stdlib Require Import ZArith Lia.
From S2P Require Import Prelude Secs2Item Secs2Codec HsmsMessage Transport GemEvents GemAlarms GemHandler GemSafety GemReports.

#[local] Open Scope Z_scope.

(** The function a recorded call is to. *)
Definition event_key (c : nat * Z * Z) : nat := c.1.1.
Definition alarm_key (c : nat * Z * bool * Alarm) : nat := c.1.1.1.

Section calls.
Context {C S : Type} (key : C -> nat) (cb : nat) (act : C -> S -> S).

(** The calls to the function [cb], oldest first. *)
Fixpoint run_calls (calls : list C) (s : S) : S :=
  match calls with
  | [] => s
  | c :: calls => let s := run_calls calls s in if Nat.eqb (key c) cb then act c s else s
  end.

Lemma run_calls_app l1 l2 s : run_calls (l1 ++ l2) s = run_calls l1 (run_calls l2 s).
Proof. induction l1 as [|c l1 IH]; [done|]. simpl. by rewrite IH. Qed.

Section once.
Context (call : nat -> C) (key_call : forall f, key (call f) = f).

Lemma run_calls_none cbs s : cb ∉ cbs -> run_calls (rev (call <$> cbs)) s = s.
Proof using key_call.
  revert s. induction cbs as [|g cbs IH]; intros s Hc; [done|]. cbn [fmap list_fmap rev]. rewrite run_calls_app. cbn [run_calls].
  rewrite key_call, (proj2 (Nat.eqb_neq g cb)) by set_solver. apply IH. set_solver.
Qed.

(** A function that is registered once is called once. *)
Lemma run_calls_once cbs s :
  NoDup cbs -> run_calls (rev (call <$> cbs)) s = if decide (cb ∈ cbs) then act (call cb) s else s.
Proof using key_call.
  induction 1 as [|f cbs Hf Hn IH]; [done|]. cbn [fmap list_fmap rev]. rewrite run_calls_app. cbn [run_calls]. rewrite key_call.
  destruct (Nat.eqb_spec f cb) as [->|Hne].
  - rewrite (decide_True (P:=cb ∈ cb :: cbs)) by (by left). by apply run_calls_none.
  - rewrite IH. destruct (decide (cb ∈ cbs)); [rewrite decide_True by set_solver | rewrite decide_False by set_solver]; done.
Qed.
End once.
End calls.

(** What was recorded since [old]. *)
Definition fresh {C} (old new : list C) : list C := take (length new - length old) new.

Lemma fresh_app {C} (old new l : list C) : new = l ++ old -> fresh old new = l.
Proof.
  intros ->. unfold fresh. rewrite length_app. replace (length l + length old - length old)%nat with (length l) by lia.
  by rewrite take_app_length.
Qed.

(** The calls a handler has made since it was [h]. *)
Definition fresh_event_calls {T} (h h' : Handler T) : list (nat * Z * Z) := fresh (eventCalls h) (eventCalls h').
Definition fresh_alarm_calls {T} (h h' : Handler T) : list (nat * Z * bool * Alarm) := fresh (alarmCalls h) (alarmCalls h').

Section handler.
Context {T : Type} `{!Sender T}.
Implicit Types h : Handler T.

Lemma send_calls m h : eventCalls (send m h).1 = eventCalls h /\ alarmCalls (send m h).1 = alarmCalls h
  /\ eventCallbacks (send m h).1 = eventCallbacks h /\ alarmCallbacks (send m h).1 = alarmCallbacks h.
Proof. unfold send. by destruct (send_message m (session h)). Qed.

Lemma SendEvent_calls now dataID ceid h :
  let '(h', r) := SendEvent now dataID ceid h in
  eventCalls h' = (if is_ok r && IsEventEnabled (eventMgr h) ceid then rev ((fun cb => (cb, dataID, ceid)) <$> eventCallbacks h) else [])
                  ++ eventCalls h.
Proof.
  unfold SendEvent. destruct (IsEventEnabled (eventMgr h) ceid); [cbn [negb]|done].
  destruct (wrap_err _ _) as [rvs|e|p|]; [|done..]. destruct (encode_body _) as [d|e|p|]; [|done..].
  pose proof (send_calls (NewDataMessage (sessionID h) 6 11 true 0 d) h) as (He & _ & Hc & _).
  destruct (send _ h) as [h1 [u|e|p|]]; cbn [fst] in *; try exact He. cbn. by rewrite He, Hc.
Qed.

Lemma SendAlarm_calls alid set h a :
  alarms (alarmMgr h) !! alid = Some a ->
  let '(h', r) := SendAlarm alid set h in
  alarmCalls h' = (if is_ok r && al_Enabled a then rev ((fun cb => (cb, alid, set, alarm_after set a)) <$> alarmCallbacks h) else [])
                  ++ alarmCalls h.
Proof.
  intros Ha. unfold SendAlarm.
  assert ((if set then SetAlarm alid (alarmMgr h) else ClearAlarm alid (alarmMgr h))
    = Ok (alarm_after set a, mkAM (<[alid := alarm_after set a]> (alarms (alarmMgr h))))) as ->
    by (unfold SetAlarm, ClearAlarm; rewrite Ha; by destruct set).
  cbv iota beta. set (h0 := set_alarms _ h).
  destruct (ask_interlock_spec set (alarm_after set a) h0) as (_ & _ & _ & _ & _ & Hb & Hc & _).
  set (h1 := ask_interlock _ _ h0) in *. change (alarmCallbacks h0) with (alarmCallbacks h) in Hb.
  change (alarmCalls h0) with (alarmCalls h) in Hc.
  change (al_Enabled (alarm_after set a)) with (al_Enabled a). destruct (al_Enabled a); cbn [negb]; [|by rewrite andb_false_r].
  destruct (encode_body _) as [d|e|p|]; [|by rewrite Hc..].
  pose proof (send_calls (NewDataMessage (sessionID h1) 5 1 true 0 d) h1) as (_ & He & _ & Hcb).
  destruct (send _ h1) as [h2 [u|e|p|]]; cbn [fst] in *; try (by rewrite He, Hc). cbn. by rewrite He, Hcb, Hc, Hb.
Qed.

(** A report registers nothing. *)
Lemma SendEvent_callbacks now dataID ceid h :
  let h' := (SendEvent now dataID ceid h).1 in eventCallbacks h' = eventCallbacks h /\ alarmCallbacks h' = alarmCallbacks h.
Proof.
  unfold SendEvent. destruct (IsEventEnabled (eventMgr h) ceid); [cbn [negb]|done].
  destruct (wrap_err _ _) as [rvs|e|p|]; [|done..]. destruct (encode_body _) as [d|e|p|]; [|done..].
  pose proof (send_calls (NewDataMessage (sessionID h) 6 11 true 0 d) h) as (_ & _ & Hc & Ha).
  by destruct (send _ h) as [h1 [u|e|p|]].
Qed.

Lemma ask_interlock_callbacks set a h :
  eventCallbacks (ask_interlock set a h) = eventCallbacks h /\ alarmCallbacks (ask_interlock set a h) = alarmCallbacks h.
Proof.
  unfold ask_interlock. destruct set; [|done]. destruct (interlock h) as [si|]; [|done].
  by destruct (Evaluate a si (state h)) as [[b si'] sm].
Qed.

Lemma SendAlarm_callbacks alid set h :
  let h' := (SendAlarm alid set h).1 in eventCallbacks h' = eventCallbacks h /\ alarmCallbacks h' = alarmCallbacks h.
Proof.
  unfold SendAlarm. destruct (if set then _ else _) as [[alarm am]|e|p|]; [|done..].
  destruct (ask_interlock_callbacks set alarm (set_alarms am h)) as [He Ha].
  set (h1 := ask_interlock _ _ _) in *. change (eventCallbacks (set_alarms am h)) with (eventCallbacks h) in He.
  change (alarmCallbacks (set_alarms am h)) with (alarmCallbacks h) in Ha.
  destruct (al_Enabled alarm); [cbn [negb]|done]. destruct (encode_body _) as [d|e|p|]; [|done..].
  pose proof (send_calls (NewDataMessage (sessionID h1) 5 1 true 0 d) h1) as (_ & _ & Hc & Hd).
  destruct (send _ h1) as [h2 [u|e|p|]]; cbn [fst] in *; cbn; split; congruence.
Qed.

Lemma SendAlarm_unknown alid set h : alarms (alarmMgr h) !! alid = None -> (SendAlarm alid set h).1 = h.
Proof. intros Ha. unfold SendAlarm, SetAlarm, ClearAlarm. rewrite Ha. by destruct set. Qed.
(** A function registered once acts once on a report that goes out, and not otherwise. *)
Lemma event_calls_run {S} (act : nat * Z * Z -> S -> S) cb now dataID ceid h s :
  NoDup (eventCallbacks h) -> cb ∈ eventCallbacks h ->
  let '(h', r) := SendEvent now dataID ceid h in
  run_calls event_key cb act (fresh_event_calls h h') s
  = if is_ok r && IsEventEnabled (eventMgr h) ceid then act (cb, dataID, ceid) s else s.
Proof.
  intros Hn Hi. pose proof (SendEvent_calls now dataID ceid h) as Hc. destruct (SendEvent now dataID ceid h) as [h' r].
  unfold fresh_event_calls. rewrite (fresh_app _ _ _ Hc). destruct (is_ok r && IsEventEnabled (eventMgr h) ceid); [|done].
  by rewrite (run_calls_once event_key cb _ (fun f => (f, dataID, ceid))), decide_True by done.
Qed.

Lemma alarm_calls_run {S} (act : nat * Z * bool * Alarm -> S -> S) cb alid set a h s :
  NoDup (alarmCallbacks h) -> cb ∈ alarmCallbacks h -> alarms (alarmMgr h) !! alid = Some a ->
  let '(h', r) := SendAlarm alid set h in
  run_calls alarm_key cb act (fresh_alarm_calls h h') s
  = if is_ok r && al_Enabled a then act (cb, alid, set, alarm_after set a) s else s.
Proof.
  intros Hn Hi Ha. pose proof (SendAlarm_calls alid set h a Ha) as Hc. destruct (SendAlarm alid set h) as [h' r].
  unfold fresh_alarm_calls. rewrite (fresh_app _ _ _ Hc). destruct (is_ok r && al_Enabled a); [|done].
  by rewrite (run_calls_once alarm_key cb _ (fun f => (f, alid, set, alarm_after set a))), decide_True by done.
Qed.
End handler.
