(* ===== verification/Modbus.v ===== *)
(** * Modbus TCP

    The client of [src/pkg/transport/modbus]: the wire format of [protocol.go], the
    requests of [client.go] and the texts of [errors.go].  The socket is a list of bytes that have
    arrived and are not read yet; what a device sends while a request waits is an
    argument, [exchange]. *)

From stdpp Require Import prelude strings list.
From Stdlib Require Import ZArith Lia.
From S2P Require Import Prelude GoStrings.

#[local] Open Scope Z_scope.

(** ** Function and exception codes *)

Definition fcReadCoils : Z := 1.
Definition fcReadDiscreteInputs : Z := 2.
Definition fcReadHoldingRegisters : Z := 3.
Definition fcReadInputRegisters : Z := 4.
Definition fcWriteSingleCoil : Z := 5.
Definition fcWriteSingleRegister : Z := 6.
Definition fcWriteMultipleCoils : Z := 15.
Definition fcWriteMultipleRegs : Z := 16.

Inductive modbus_error :=
| ReadHeaderFailed
| InvalidProtocolID (p : Z)
| InvalidLength (l : Z)
| ReadPDUFailed
| EmptyPDU
| ModbusError (fc excCode : Z)
| UnexpectedFunction (got want : Z)
| TooShort
| DataTooShort
| NotConnected
| DialFailed
| WriteFailed
| TransactionMismatch (got want : Z).

Definition ExcIllegalFunction : Z := 1.
Definition ExcIllegalDataAddress : Z := 2.
Definition ExcIllegalDataValue : Z := 3.
Definition ExcSlaveDeviceFailure : Z := 4.
Definition ExcAcknowledge : Z := 5.
Definition ExcSlaveDeviceBusy : Z := 6.
Definition ExcMemoryParityError : Z := 8.
Definition ExcGatewayPathUnavail : Z := 10.
Definition ExcGatewayTargetFailed : Z := 11.

Definition ExceptionCode_String (e : Z) : string :=
  if e =? ExcIllegalFunction then "Illegal Function"
  else if e =? ExcIllegalDataAddress then "Illegal Data Address"
  else if e =? ExcIllegalDataValue then "Illegal Data Value"
  else if e =? ExcSlaveDeviceFailure then "Slave Device Failure"
  else if e =? ExcAcknowledge then "Acknowledge"
  else if e =? ExcSlaveDeviceBusy then "Slave Device Busy"
  else if e =? ExcMemoryParityError then "Memory Parity Error"
  else if e =? ExcGatewayPathUnavail then "Gateway Path Unavailable"
  else if e =? ExcGatewayTargetFailed then "Gateway Target Device Failed to Respond"
  else "Unknown Exception (0x" +:+ hex2 e +:+ ")".

(** [Error] of the error of a device. *)
Definition ModbusError_Error (fc excCode : Z) : string :=
  "modbus: function 0x" +:+ hex2 fc +:+ " exception: " +:+ ExceptionCode_String excCode.

(** Every code has a text of its own. *)
Lemma exception_texts : NoDup (ExceptionCode_String <$> seqZ 0 256).
Proof. apply (bool_decide_unpack _). vm_compute. exact I. Qed.

(** ** Framing ([protocol.go]) *)

Definition mbapHeaderLen : Z := 7.

Definition encodeMBAP (txnID pduLen unitID : Z) : list Z :=
  be_bytes 2 txnID ++ be_bytes 2 0 ++ be_bytes 2 (wrap 16 (pduLen + 1)) ++ [unitID].

(** [io.ReadFull(r, buf)] with [len(buf) = n], and what is left on the socket: a
    read that fails has consumed what there was. *)
Definition ReadFull (n : Z) (stream : list Z) : option (list Z) * list Z :=
  if len stream <? n then (None, [])
  else (Some (take (Z.to_nat n) stream), drop (Z.to_nat n) stream).

Definition readResponse (stream : list Z) : result modbus_error (Z * Z * list Z) * list Z :=
  match ReadFull mbapHeaderLen stream with
  | (None, rest) => (Err ReadHeaderFailed, rest)
  | (Some header, rest) =>
      match (t ← (s ← slice header 0 2; be_uint 2 s);
             p ← (s ← slice header 2 4; be_uint 2 s);
             l ← (s ← slice header 4 6; be_uint 2 s);
             u ← idx header 6;
             Ok (t, p, l, u)) with
      | Ok (txnID, protocolID, length, unitID) =>
          if negb (protocolID =? 0) then (Err (InvalidProtocolID protocolID), rest)
          else if (length <? 1) || (260 <? length) then (Err (InvalidLength length), rest)
          else
            let pduLen := length - 1 in
            if pduLen <=? 0 then (Ok (txnID, unitID, []), rest)
            else
              match ReadFull pduLen rest with
              | (None, rest) => (Err ReadPDUFailed, rest)
              | (Some pdu, rest) => (Ok (txnID, unitID, pdu), rest)
              end
      | Err e => (Err e, rest)
      | Panic p => (Panic p, rest)
      | OutOfFuel => (OutOfFuel, rest)
      end
  end.

Definition checkException (fc : Z) (pdu : list Z) : result modbus_error () :=
  if len pdu <? 1 then Err EmptyPDU
  else
    f ← idx pdu 0;
    if negb (Z.land f 128 =? 0) then
      excCode ← (if 1 <? len pdu then idx pdu 1 else Ok 0);
      Err (ModbusError fc excCode)
    else if negb (f =? fc) then Err (UnexpectedFunction f fc)
    else Ok ().

(** ** Values ([protocol.go]) *)

Definition decodeBools (data : list Z) (count : Z) : result modbus_error (list bool) :=
  for_range count (fun i =>
    let byteIdx := i / 8 in
    let bitIdx := i mod 8 in
    if byteIdx <? len data then
      b ← idx data byteIdx; Ok (negb (Z.land b (Z.shiftl 1 bitIdx) =? 0))
    else Ok false).

Definition decodeRegisters (data : list Z) : result modbus_error (list Z) :=
  let count := len data / 2 in
  for_range count (fun i => s ← slice data (i * 2) (i * 2 + 2); be_uint 2 s).

(** The loop of [encodeBools] from index [i] on. *)
Fixpoint set_bits (i : Z) (values : list bool) (data : list Z) : result modbus_error (list Z) :=
  match values with
  | [] => Ok data
  | v :: vs =>
      if (v : bool) then
        b ← idx data (i / 8);
        set_bits (i + 1) vs (<[Z.to_nat (i / 8) := Z.lor b (Z.shiftl 1 (i mod 8))]> data)
      else set_bits (i + 1) vs data
  end.

Definition encodeBools (values : list bool) : result modbus_error (list Z) :=
  let byteCount := (len values + 7) / 8 in
  set_bits 0 values (replicate (Z.to_nat byteCount) 0).

Definition encodeRegisters (values : list Z) : list Z := concat (map (be_bytes 2) values).

(** ** The client ([client.go]) *)

Record Config := mkConfig { Address : string; UnitID : Z; Timeout : Z; TLS : bool }.

(** A connection: the frames written, oldest first, and the bytes that have
    arrived and are not read. *)
Record Conn := mkConn { sent : list (list Z); incoming : list Z }.

Record Client := mkClient { config : Config; conn : option Conn; txnID : Z }.

Definition NewClient (cfg : Config) : Client :=
  let unit := if UnitID cfg =? 0 then 1 else UnitID cfg in
  let timeout := if Timeout cfg =? 0 then 5 * 1000000000 else Timeout cfg in
  mkClient (mkConfig (Address cfg) unit timeout (TLS cfg)) None 0.

(** [dialed] is the outcome of the dial. *)
Definition Connect (dialed : bool) (c : Client) : result modbus_error Client :=
  if dialed then Ok (mkClient (config c) (Some (mkConn [] [])) (txnID c)) else Err DialFailed.

Definition Close (c : Client) : Client := mkClient (config c) None (txnID c).

(** What the socket does during a request: whether it takes the frame, and the
    bytes that arrive before the deadline. *)
Record exchange := mkExchange { wrote : bool; arrives : list Z }.

Definition sendRequest (x : exchange) (pdu : list Z) (c : Client) : result modbus_error (list Z) * Client :=
  match conn c with
  | None => (Err NotConnected, c)
  | Some s =>
      let txn := wrap 16 (txnID c + 1) in
      let frame := encodeMBAP txn (len pdu) (UnitID (config c)) ++ pdu in
      if negb (wrote x) then
        (Err WriteFailed, mkClient (config c) (Some (mkConn (sent s) (incoming s ++ arrives x))) txn)
      else
        let '(r, rest) := readResponse (incoming s ++ arrives x) in
        let c' := mkClient (config c) (Some (mkConn (sent s ++ [frame]) rest)) txn in
        match r with
        | Ok (respTxnID, _, respPDU) =>
            if negb (respTxnID =? txn) then (Err (TransactionMismatch respTxnID txn), c')
            else (Ok respPDU, c')
        | Err e => (Err e, c')
        | Panic p => (Panic p, c')
        | OutOfFuel => (OutOfFuel, c')
        end
  end.

(** The five bytes of a read request. *)
Definition read_pdu (fc addr quantity : Z) : list Z := [fc] ++ be_bytes 2 addr ++ be_bytes 2 quantity.

(** The checks the four read requests share, up to the data bytes. *)
Definition read_data (fc : Z) (resp : list Z) : result modbus_error (list Z) :=
  checkException fc resp ;;
  if len resp <? 2 then Err TooShort
  else
    byteCount ← idx resp 1;
    if len resp <? 2 + byteCount then Err DataTooShort
    else slice resp 2 (2 + byteCount).

Definition read_bits (fc : Z) (x : exchange) (addr quantity : Z) (c : Client)
  : result modbus_error (list bool) * Client :=
  let '(r, c) := sendRequest x (read_pdu fc addr quantity) c in
  (resp ← r; data ← read_data fc resp; decodeBools data quantity, c).

Definition read_registers (fc : Z) (x : exchange) (addr quantity : Z) (c : Client)
  : result modbus_error (list Z) * Client :=
  let '(r, c) := sendRequest x (read_pdu fc addr quantity) c in
  (resp ← r; data ← read_data fc resp; decodeRegisters data, c).

Definition ReadCoils := read_bits fcReadCoils.
Definition ReadDiscreteInputs := read_bits fcReadDiscreteInputs.
Definition ReadHoldingRegisters := read_registers fcReadHoldingRegisters.
Definition ReadInputRegisters := read_registers fcReadInputRegisters.

(** A write sends its PDU and checks the function code of the answer. *)
Definition write_request (fc : Z) (x : exchange) (pdu : list Z) (c : Client) : result modbus_error () * Client :=
  let '(r, c) := sendRequest x pdu c in (resp ← r; checkException fc resp, c).

Definition WriteSingleCoil (x : exchange) (addr : Z) (value : bool) (c : Client) :=
  write_request fcWriteSingleCoil x
    ([fcWriteSingleCoil] ++ be_bytes 2 addr ++ (if value then [255; 0] else [0; 0])) c.

Definition WriteSingleRegister (x : exchange) (addr value : Z) (c : Client) :=
  write_request fcWriteSingleRegister x ([fcWriteSingleRegister] ++ be_bytes 2 addr ++ be_bytes 2 value) c.

(** The PDU of the two multiple writes. *)
Definition write_pdu (fc addr count : Z) (data : list Z) : list Z :=
  [fc] ++ be_bytes 2 addr ++ be_bytes 2 (wrap 16 count) ++ [to_byte (len data)] ++ data.

Definition WriteMultipleCoils (x : exchange) (addr : Z) (values : list bool) (c : Client)
  : result modbus_error () * Client :=
  match encodeBools values with
  | Ok data => write_request fcWriteMultipleCoils x (write_pdu fcWriteMultipleCoils addr (len values) data) c
  | Err e => (Err e, c)
  | Panic p => (Panic p, c)
  | OutOfFuel => (OutOfFuel, c)
  end.

Definition WriteMultipleRegisters (x : exchange) (addr : Z) (values : list Z) (c : Client) :=
  write_request fcWriteMultipleRegs x
    (write_pdu fcWriteMultipleRegs addr (len values) (encodeRegisters values)) c.

(** ** Bits *)

(** Bit [j] of a byte sequence, least significant bit first; false behind the
    end. *)
Definition bit (data : list Z) (j : Z) : bool :=
  Z.testbit (default 0 (data !! Z.to_nat (j / 8))) (j mod 8).

Lemma land_bit b k : 0 <= k -> negb (Z.land b (Z.shiftl 1 k) =? 0) = Z.testbit b k.
Proof.
  intros Hk. rewrite Z.shiftl_1_l.
  assert (Hl : Z.land b (2 ^ k) = if Z.testbit b k then 2 ^ k else 0).
  { apply Z.bits_inj'. intros n Hn. rewrite Z.land_spec, Z.pow2_bits_eqb by done.
    destruct (Z.eqb_spec k n) as [->|Hne].
    - rewrite andb_true_r. destruct (Z.testbit b n); [by rewrite Z.pow2_bits_true | by rewrite Z.bits_0].
    - rewrite andb_false_r. destruct (Z.testbit b k); [by rewrite Z.pow2_bits_false | by rewrite Z.bits_0]. }
  rewrite Hl. pose proof (pow2_pos k Hk). destruct (Z.testbit b k); [| done].
  destruct (Z.eqb_spec (2 ^ k) 0); [lia | done].
Qed.

Lemma mod8 j : 0 <= j mod 8 < 8.
Proof. apply Z.mod_pos_bound. lia. Qed.

Lemma decodeBools_spec data count :
  0 <= count ->
  decodeBools data count = Ok ((fun k => bit data (Z.of_nat k)) <$> seq 0 (Z.to_nat count)).
Proof.
  intros Hc. unfold decodeBools, for_range.
  rewrite <- (length_seq (Z.to_nat count) 0) at 1.
  rewrite <- (length_fmap (fun k => bit data (Z.of_nat k))). apply for_from_ok.
  intros k x. rewrite list_lookup_fmap_Some. intros (k' & -> & Hk). apply lookup_seq in Hk as [-> Hk].
  rewrite Z.add_0_l, Nat.add_0_l. unfold bit. set (j := Z.of_nat k). cbn zeta.
  assert (0 <= j / 8) by (apply Z.div_pos; lia). pose proof (mod8 j).
  destruct (Z.ltb_spec (j / 8) (len data)) as [Hj|Hj].
  - destruct (lookup_lt_is_Some_2 data (Z.to_nat (j / 8))) as [b Hb]; [unfold len in Hj; lia |].
    rewrite (idx_nat _ _ _ b Hb), Hb by (by rewrite Z2Nat.id). cbn [mbind result_bind default]. by rewrite land_bit by lia.
  - rewrite (lookup_ge_None_2 data) by (unfold len in Hj; lia). simpl. by rewrite Z.testbit_0_l.
Qed.

Lemma bit_set data i b j :
  0 <= i -> 0 <= j -> data !! Z.to_nat (i / 8) = Some b ->
  bit (<[Z.to_nat (i / 8) := Z.lor b (Z.shiftl 1 (i mod 8))]> data) j = bit data j || bool_decide (i = j).
Proof.
  intros Hi Hj Hb. unfold bit.
  pose proof (mod8 i). pose proof (mod8 j).
  assert (0 <= i / 8) by (apply Z.div_pos; lia). assert (0 <= j / 8) by (apply Z.div_pos; lia).
  pose proof (Z.div_mod i 8 ltac:(lia)). pose proof (Z.div_mod j 8 ltac:(lia)).
  destruct (decide (i / 8 = j / 8)) as [He|He].
  - rewrite <- He, list_lookup_insert_eq, Hb by (by eapply lookup_lt_Some). simpl.
    rewrite Z.lor_spec, Z.shiftl_1_l, Z.pow2_bits_eqb by lia. f_equal.
    destruct (Z.eqb_spec (i mod 8) (j mod 8)); case_bool_decide; lia || done.
  - rewrite list_lookup_insert_ne by lia. rewrite bool_decide_eq_false_2 by congruence. by rewrite orb_false_r.
Qed.

Lemma lor_byte a b : 0 <= a < 256 -> 0 <= b < 256 -> 0 <= Z.lor a b < 256.
Proof.
  intros Ha Hb. rewrite <- (to_byte_small a), <- (to_byte_small b) by done.
  unfold to_byte. rewrite <- Z.land_lor_distr_l. apply to_byte_range.
Qed.

Lemma set_bits_spec values : forall i data,
  0 <= i -> i + len values <= 8 * len data -> bytes_ok data = true ->
  exists d, set_bits i values data = Ok d /\ len d = len data /\ bytes_ok d = true
    /\ forall j, 0 <= j ->
       bit d j = bit data j || (bool_decide (i <= j) && default false (values !! Z.to_nat (j - i))).
Proof.
  induction values as [|v vs IH]; intros i data Hi Hlen Hok; simpl.
  - exists data. split_and!; try done. intros j Hj. simpl. by rewrite andb_false_r, orb_false_r.
  - rewrite len_cons in Hlen. pose proof (len_nonneg vs).
    assert (Hj : forall j, 0 <= j ->
      (bool_decide (i <= j) && default false ((v :: vs) !! Z.to_nat (j - i)))
      = (v && bool_decide (i = j)) || (bool_decide (i + 1 <= j) && default false (vs !! Z.to_nat (j - (i + 1))))).
    { intros j Hj0. destruct (decide (i = j)) as [->|Hne].
      - rewrite Z.sub_diag, !bool_decide_eq_true_2, bool_decide_eq_false_2 by lia. simpl.
        by rewrite andb_true_r, orb_false_r.
      - rewrite (bool_decide_eq_false_2 (i = j)), andb_false_r by done. simpl.
        destruct (decide (i + 1 <= j)).
        + rewrite !bool_decide_eq_true_2 by lia.
          replace (Z.to_nat (j - i)) with (S (Z.to_nat (j - (i + 1)))) by lia. done.
        + rewrite !bool_decide_eq_false_2 by lia. done. }
    destruct v.
    + assert (0 <= i / 8 < len data) by (split; [apply Z.div_pos; lia | apply Z.div_lt_upper_bound; lia]).
      destruct (lookup_lt_is_Some_2 data (Z.to_nat (i / 8))) as [b Hb]; [unfold len in *; lia |].
      rewrite (idx_nat _ _ _ b Hb) by lia. cbn [mbind result_bind].
      pose proof (lookup_byte _ _ _ Hok Hb) as Hbr. pose proof (mod8 i) as Hm.
      assert (Hsh : 0 <= Z.shiftl 1 (i mod 8) < 256).
      { rewrite Z.shiftl_1_l. pose proof (pow2_pos (i mod 8) ltac:(lia)).
        pose proof (Z.pow_lt_mono_r 2 (i mod 8) 8 ltac:(lia) ltac:(lia) ltac:(lia)). lia. }
      destruct (IH (i + 1) (<[Z.to_nat (i / 8) := Z.lor b (Z.shiftl 1 (i mod 8))]> data)) as (d & -> & Hl & Hd & Hbits).
      * lia.
      * unfold len in *. rewrite length_insert. lia.
      * apply bytes_ok_spec in Hok. apply bytes_ok_spec, Forall_insert; [done | by apply lor_byte].
      * exists d. split; [done |]. split; [unfold len in *; by rewrite Hl, length_insert |]. split; [done |].
        intros j Hj0. rewrite Hj, Hbits, (bit_set data i b j) by done. simpl. by rewrite orb_assoc.
    + destruct (IH (i + 1) data ltac:(lia) ltac:(lia) Hok) as (d & -> & Hl & Hd & Hbits).
      exists d. split_and!; try done. intros j Hj0. rewrite Hj by done. simpl. by apply Hbits.
Qed.

Lemma bit_zero n j : bit (replicate n 0) j = false.
Proof.
  unfold bit. destruct (replicate n 0 !! Z.to_nat (j / 8)) as [b|] eqn:Hb; simpl; [| apply Z.testbit_0_l].
  apply lookup_replicate in Hb as [-> _]. apply Z.testbit_0_l.
Qed.

Lemma encodeBools_spec values :
  exists d, encodeBools values = Ok d /\ len d = (len values + 7) / 8 /\ bytes_ok d = true
    /\ forall j, 0 <= j -> bit d j = default false (values !! Z.to_nat j).
Proof.
  unfold encodeBools. pose proof (len_nonneg values).
  assert (0 <= (len values + 7) / 8) by (apply Z.div_pos; lia).
  pose proof (Z.div_mod (len values + 7) 8 ltac:(lia)). pose proof (mod8 (len values + 7)).
  destruct (set_bits_spec values 0 (replicate (Z.to_nat ((len values + 7) / 8)) 0)) as (d & -> & Hl & Hd & Hb).
  - lia.
  - unfold len at 2. rewrite length_replicate. lia.
  - apply bytes_ok_spec, Forall_replicate. lia.
  - exists d. split; [done |]. split; [rewrite Hl; unfold len; rewrite length_replicate; unfold len in *; lia |].
    split; [done |]. intros j Hj. rewrite Hb, bit_zero, bool_decide_eq_true_2, Z.sub_0_r by done. done.
Qed.

Lemma seq_lookup_all {A} (d : A) (l : list A) :
  (fun k => default d (l !! k)) <$> seq 0 (length l) = l.
Proof.
  apply list_eq. intros i. rewrite list_lookup_fmap.
  destruct (decide (i < length l)%nat) as [Hi|Hi].
  - rewrite lookup_seq_lt by done. simpl. by destruct (lookup_lt_is_Some_2 l i Hi) as [x ->].
  - rewrite (lookup_ge_None_2 l) by lia. by rewrite lookup_seq_ge by lia.
Qed.

Lemma decode_encodeBools values :
  exists d, encodeBools values = Ok d /\ len d = (len values + 7) / 8 /\ bytes_ok d = true
    /\ decodeBools d (len values) = Ok values.
Proof.
  destruct (encodeBools_spec values) as (d & Hd & Hl & Hok & Hb). exists d. split_and!; try done.
  rewrite decodeBools_spec by apply len_nonneg. f_equal. unfold len. rewrite Nat2Z.id.
  rewrite <- (seq_lookup_all false values) at 2. apply list_fmap_ext. intros i k Hk.
  rewrite Hb, Nat2Z.id by lia. done.
Qed.

(** ** Registers *)

Definition register_ok (v : Z) : Prop := 0 <= v < 2 ^ 16.

Lemma encodeRegisters_app l l' : encodeRegisters (l ++ l') = encodeRegisters l ++ encodeRegisters l'.
Proof. unfold encodeRegisters. by rewrite map_app, concat_app. Qed.

Lemma len_encodeRegisters vs : len (encodeRegisters vs) = 2 * len vs.
Proof.
  induction vs as [|v vs IH]; [done |]. change (v :: vs) with ([v] ++ vs).
  rewrite encodeRegisters_app, !len_app, IH. change (len (encodeRegisters [v])) with 2.
  change (len [v]) with 1. lia.
Qed.

Lemma encodeRegisters_ok vs : bytes_ok (encodeRegisters vs) = true.
Proof.
  induction vs as [|v vs IH]; [done |]. change (v :: vs) with ([v] ++ vs).
  rewrite encodeRegisters_app, bytes_ok_app, IH, andb_true_r. exact (be_bytes_ok 2 v).
Qed.

Lemma decode_encodeRegisters vs : Forall register_ok vs -> decodeRegisters (encodeRegisters vs) = Ok vs.
Proof.
  intros Hvs. unfold decodeRegisters, for_range. rewrite len_encodeRegisters, Z.mul_comm, Z.div_mul by done.
  unfold len. rewrite Nat2Z.id. apply for_from_ok. intros k v Hk. rewrite Z.add_0_l.
  pose proof (Forall_lookup_1 _ _ _ _ Hvs Hk) as Hv.
  pose proof (take_drop_middle vs k v Hk) as Hs. rewrite <- Hs.
  change (v :: drop (S k) vs) with ([v] ++ drop (S k) vs). rewrite !encodeRegisters_app.
  apply lookup_lt_Some in Hk.
  rewrite (slice_app (encodeRegisters (take k vs)) (encodeRegisters [v]) (encodeRegisters (drop (S k) vs))).
  - exact (be_uint_app 2 v [] Hv).
  - rewrite len_encodeRegisters. unfold len. rewrite length_take. lia.
  - rewrite len_encodeRegisters. change (len [v]) with 1. lia.
Qed.

Lemma decodeRegisters_post data :
  bytes_ok data = true ->
  post (decodeRegisters data) (fun vs => len vs = len data / 2 /\ Forall register_ok vs).
Proof.
  intros Hd. pose proof (len_nonneg data). pose proof (Z.div_mod (len data) 2 ltac:(lia)).
  pose proof (Z.mod_pos_bound (len data) 2 ltac:(lia)).
  apply for_range_post; [apply Z.div_pos; lia |]. intros j Hj.
  apply (slice_uint_post 2); [done | lia..].
Qed.

(** ** Frames *)

(** The frame of a PDU. *)
Definition mbap_frame (txn unit : Z) (pdu : list Z) : list Z := encodeMBAP txn (len pdu) unit ++ pdu.

Lemma mbap_ReadFull_app n a b : len a = n -> ReadFull n (a ++ b) = (Some a, b).
Proof.
  intros <-. unfold ReadFull. rewrite len_app, (proj2 (Z.ltb_ge _ _)) by (pose proof (len_nonneg b); lia).
  unfold len. by rewrite Nat2Z.id, take_app_length, drop_app_length.
Qed.

Lemma ReadFull_inv n stream :
  0 <= n ->
  match ReadFull n stream with
  | (Some a, rest) => stream = a ++ rest /\ len a = n
  | (None, rest) => rest = [] /\ len stream < n
  end.
Proof.
  intros Hn. unfold ReadFull. destruct (Z.ltb_spec (len stream) n); [done |].
  split; [by rewrite take_drop |]. unfold len in *. rewrite length_take. lia.
Qed.

(** The fields of a header of seven bytes. *)
Lemma header_fields a b c (u : Z) :
  let header := be_bytes 2 a ++ be_bytes 2 b ++ be_bytes 2 c ++ [u] in
  slice (E:=modbus_error) header 0 2 = Ok (be_bytes 2 a)
  /\ slice (E:=modbus_error) header 2 4 = Ok (be_bytes 2 b)
  /\ slice (E:=modbus_error) header 4 6 = Ok (be_bytes 2 c)
  /\ idx (E:=modbus_error) header 6 = Ok u.
Proof. done. Qed.

Lemma be_uint_2 z : register_ok z -> be_uint (E:=modbus_error) 2 (be_bytes 2 z) = Ok z.
Proof. intros Hz. rewrite <- (app_nil_r (be_bytes 2 z)). by apply be_uint_app. Qed.

Lemma readResponse_frame txn unit pdu rest :
  register_ok txn -> len pdu <= 259 ->
  readResponse (mbap_frame txn unit pdu ++ rest) = (Ok (txn, unit, pdu), rest).
Proof.
  intros Ht Hlen. pose proof (len_nonneg pdu) as Hnn. unfold mbap_frame, readResponse, encodeMBAP.
  rewrite <- app_assoc, mbap_ReadFull_app by done.
  destruct (header_fields txn 0 (wrap 16 (len pdu + 1)) unit) as (-> & -> & -> & ->).
  rewrite wrap_small by lia. cbn [mbind result_bind].
  rewrite !be_uint_2 by (done || unfold register_ok; lia). cbn [mbind result_bind]. simpl negb.
  rewrite (proj2 (Z.ltb_ge (len pdu + 1) 1)), (proj2 (Z.ltb_ge 260 (len pdu + 1))) by lia. simpl orb.
  replace (len pdu + 1 - 1) with (len pdu) by lia.
  destruct (Z.leb_spec (len pdu) 0) as [H0|H0].
  - destruct pdu; [done |]. rewrite len_cons in H0. pose proof (len_nonneg pdu). lia.
  - by rewrite mbap_ReadFull_app.
Qed.

Lemma header_bytes7 (h : list Z) :
  len h = 7 -> bytes_ok h = true ->
  exists a b c u, register_ok a /\ register_ok b /\ register_ok c /\ 0 <= u < 256
    /\ h = be_bytes 2 a ++ be_bytes 2 b ++ be_bytes 2 c ++ [u].
Proof.
  intros Hl Hok. do 7 (destruct h as [|? h]; [done |]).
  destruct h; [| rewrite !len_cons in Hl; pose proof (len_nonneg h); lia].
  rename z into x1, z0 into x2, z1 into x3, z2 into x4, z3 into x5, z4 into x6, z5 into x7.
  assert (Hp : forall x y, is_byte x = true -> is_byte y = true ->
             register_ok (be_val [x; y]) /\ be_bytes 2 (be_val [x; y]) = [x; y]).
  { intros x y Hx Hy. assert (Hb : bytes_ok [x; y] = true) by (cbn; by rewrite Hx, Hy).
    split; [exact (be_val_bound _ Hb) | exact (be_bytes_be_val _ Hb)]. }
  cbn in Hok. rewrite !andb_true_iff in Hok. destruct_and!.
  destruct (Hp x1 x2) as [Ha Ea], (Hp x3 x4) as [Hb Eb], (Hp x5 x6) as [Hc Ec]; try done.
  exists (be_val [x1; x2]), (be_val [x3; x4]), (be_val [x5; x6]), x7.
  rewrite Ea, Eb, Ec. split_and!; try done; by apply is_byte_spec.
Qed.

Lemma readResponse_post stream :
  bytes_ok stream = true ->
  post (readResponse stream).1 (fun '(txn, unit, pdu) =>
    register_ok txn /\ 0 <= unit < 256 /\ len pdu <= 259 /\ bytes_ok pdu = true
    /\ stream = mbap_frame txn unit pdu ++ (readResponse stream).2)
  /\ exists used, stream = used ++ (readResponse stream).2.
Proof.
  intros Hok. unfold readResponse.
  pose proof (ReadFull_inv mbapHeaderLen stream ltac:(done)) as Hf.
  destruct (ReadFull mbapHeaderLen stream) as [[header|] rest] eqn:Hh.
  2:{ destruct Hf as [-> _]. split; [done |]. exists stream. by rewrite app_nil_r. }
  destruct Hf as [Hstream Hlen]. rewrite Hstream, bytes_ok_app, andb_true_iff in Hok. destruct Hok as [Hokh Hokr].
  destruct (header_bytes7 header Hlen Hokh) as (a & b & c & u & Ha & Hb & Hc & Hu & Hhd).
  rewrite Hhd. destruct (header_fields a b c u) as (-> & -> & -> & ->). cbn [mbind result_bind].
  rewrite !be_uint_2 by done. cbn [mbind result_bind].
  destruct (Z.eqb_spec b 0) as [->|]; simpl negb; cbv iota; [| split; [done | by exists header]].
  destruct (Z.ltb_spec c 1); simpl orb; cbv iota; [split; [done | by exists header] |].
  destruct (Z.ltb_spec 260 c); [split; [done | by exists header] |].
  assert (Hfr : forall pdu, len pdu = c - 1 -> mbap_frame a u pdu = header ++ pdu).
  { intros pdu Hp. unfold mbap_frame, encodeMBAP. rewrite Hp, Hhd.
    replace (c - 1 + 1) with c by lia. by rewrite wrap_small by done. }
  destruct (Z.leb_spec (c - 1) 0).
  - cbn [fst snd post]. split; [| by exists header]. split_and!; try done; try lia.
    rewrite Hfr by (change (len (@nil Z)) with 0; lia). by rewrite app_nil_r.
  - pose proof (ReadFull_inv (c - 1) rest ltac:(lia)) as Hp.
    destruct (ReadFull (c - 1) rest) as [[pdu|] rest'].
    + destruct Hp as [Hrest Hpl]. rewrite Hrest, bytes_ok_app, andb_true_iff in Hokr. destruct Hokr as [Hpok _].
      cbn [fst snd post]. split; [split_and!; try done; try lia |].
      * by rewrite Hfr, <- app_assoc, <- Hrest.
      * exists (header ++ pdu). by rewrite <- app_assoc, <- Hrest.
    + destruct Hp as [-> _]. simpl. split; [done |]. exists stream. by rewrite app_nil_r.
Qed.

(** ** Requests *)

(** The client with [s] for its connection, after its transaction number [txn]. *)
Definition after (txn : Z) (s : Conn) (c : Client) : Client := mkClient (config c) (Some s) txn.

Definition next_txn (c : Client) : Z := wrap 16 (txnID c + 1).

Lemma next_txn_ok c : register_ok (next_txn c).
Proof. by apply wrap_range. Qed.

(** The exchange in which the socket takes the request and [reply] arrives. *)
Definition answers (reply : list Z) : exchange := mkExchange true reply.

(** A request on a socket whose first unread frame answers it. *)
Lemma sendRequest_answered c s reply unit rpdu rest pdu :
  conn c = Some s -> incoming s ++ reply = mbap_frame (next_txn c) unit rpdu ++ rest -> len rpdu <= 259 ->
  sendRequest (answers reply) pdu c =
    (Ok rpdu, after (next_txn c) (mkConn (sent s ++ [mbap_frame (next_txn c) (UnitID (config c)) pdu]) rest) c).
Proof.
  intros Hc Hin Hl. unfold sendRequest. rewrite Hc. cbn [wrote arrives answers negb]. rewrite Hin.
  rewrite readResponse_frame by (done || apply next_txn_ok). fold (next_txn c).
  by rewrite Z.eqb_refl.
Qed.

(** A request on a socket whose first unread frame answers another one. *)
Lemma sendRequest_stale c s reply txn unit rpdu rest pdu :
  conn c = Some s -> incoming s ++ reply = mbap_frame txn unit rpdu ++ rest ->
  register_ok txn -> txn <> next_txn c -> len rpdu <= 259 ->
  sendRequest (answers reply) pdu c =
    (Err (TransactionMismatch txn (next_txn c)),
     after (next_txn c) (mkConn (sent s ++ [mbap_frame (next_txn c) (UnitID (config c)) pdu]) rest) c).
Proof.
  intros Hc Hin Ht Hne Hl. unfold sendRequest. rewrite Hc. cbn [wrote arrives answers negb]. rewrite Hin.
  rewrite readResponse_frame by done. fold (next_txn c).
  destruct (Z.eqb_spec txn (next_txn c)); done.
Qed.

(** The bytes a client and an exchange can hand to a request. *)
Definition socket_ok (c : Client) (x : exchange) : Prop :=
  bytes_ok (arrives x) = true /\ forall s, conn c = Some s -> bytes_ok (incoming s) = true.

Lemma sendRequest_post x pdu c :
  socket_ok c x -> post (sendRequest x pdu c).1 (fun resp => bytes_ok resp = true /\ len resp <= 259).
Proof.
  intros [Hx Hs]. unfold sendRequest. destruct (conn c) as [s|]; [| done]. specialize (Hs s eq_refl).
  destruct (wrote x); [| done]. cbn [negb].
  assert (Hok : bytes_ok (incoming s ++ arrives x) = true) by (by rewrite bytes_ok_app, Hs, Hx).
  destruct (readResponse_post _ Hok) as [Hr _].
  destruct (readResponse (incoming s ++ arrives x)) as [[[[t u] p]| | |] rest]; simpl in *; try done.
  destruct Hr as (_ & _ & Hl & Hb & _). by destruct (t =? _).
Qed.

Lemma checkException_post fc resp : post (checkException fc resp) (fun _ => 1 <= len resp /\ resp !! 0%nat = Some fc).
Proof.
  unfold checkException. destruct (Z.ltb_spec (len resp) 1); [done |].
  destruct resp as [|f l]; [done |]. rewrite (idx_nat _ 0 0 f) by done. cbn [mbind result_bind].
  destruct (Z.land f 128 =? 0); simpl negb; cbv iota.
  - destruct (Z.eqb_spec f fc) as [->|]; [| done]. simpl. split; [lia | done].
  - destruct (Z.ltb_spec 1 (len (f :: l))); [| done].
    destruct l as [|e l]; [done |]. by rewrite (idx_nat _ 1 1 e).
Qed.

Lemma read_data_post fc resp :
  bytes_ok resp = true -> post (read_data fc resp) (fun data => bytes_ok data = true /\ len data <= 255).
Proof.
  intros Hok. unfold read_data.
  post_step (checkException_post fc resp) as u Hu. destruct (Z.ltb_spec (len resp) 2); [done |].
  post_step (idx_byte_post resp 1 Hok ltac:(lia)) as n Hn.
  destruct (Z.ltb_spec (len resp) (2 + n)); [done |].
  eapply post_mono; [| apply slice_bytes_post; [done | lia..]]. intros data [Hl Hd]. split; [done | lia].
Qed.

Lemma read_bits_post fc x addr q c :
  socket_ok c x -> 0 <= q -> post (read_bits fc x addr q c).1 (fun bs => len bs = q).
Proof.
  intros Hs Hq. unfold read_bits. pose proof (sendRequest_post x (read_pdu fc addr q) c Hs) as Hp.
  destruct (sendRequest x (read_pdu fc addr q) c) as [r c']. simpl in *.
  eapply post_bind; [exact Hp | intros resp [Hb _]]. eapply post_bind; [by apply read_data_post | intros data [Hd _]].
  rewrite decodeBools_spec by done. simpl. unfold len. rewrite length_fmap, length_seq. lia.
Qed.

Lemma read_registers_post fc x addr q c :
  socket_ok c x ->
  post (read_registers fc x addr q c).1 (fun vs => Forall register_ok vs /\ len vs <= 127).
Proof.
  intros Hs. unfold read_registers. pose proof (sendRequest_post x (read_pdu fc addr q) c Hs) as Hp.
  destruct (sendRequest x (read_pdu fc addr q) c) as [r c']. simpl in *.
  eapply post_bind; [exact Hp | intros resp [Hb _]]. eapply post_bind; [by apply read_data_post | intros data [Hd Hld]].
  eapply post_mono; [| by apply decodeRegisters_post]. intros vs [Hv Hf]. split; [done |].
  assert (len data / 2 < 128) by (apply Z.div_lt_upper_bound; lia). lia.
Qed.

Lemma write_request_post fc x pdu c :
  socket_ok c x -> post (write_request fc x pdu c).1 (fun _ => True).
Proof.
  intros Hs. unfold write_request. pose proof (sendRequest_post x pdu c Hs) as Hp.
  destruct (sendRequest x pdu c) as [r c']. simpl in *.
  eapply post_bind; [exact Hp | intros resp _]. eapply post_mono; [| apply checkException_post]. done.
Qed.

Lemma read_data_ok fc data :
  0 <= fc < 128 -> len data <= 255 -> read_data fc ([fc; len data] ++ data) = Ok data.
Proof.
  intros Hfc Hl. pose proof (len_nonneg data). unfold read_data, checkException.
  rewrite len_app. change (len [fc; len data]) with 2.
  rewrite (proj2 (Z.ltb_ge _ 1)), (proj2 (Z.ltb_ge _ 2)) by lia. rewrite (idx_nat _ 0 0 fc) by done.
  cbn [mbind result_bind]. change 128 with (Z.shiftl 1 7). rewrite land_bit by lia.
  rewrite Z.testbit_eqb, Z.div_small by lia. change (0 mod 2 =? 1) with false. cbv iota.
  rewrite Z.eqb_refl. cbn [negb mbind result_bind].
  rewrite (idx_nat _ 1 1 (len data)) by done. cbn [mbind result_bind].
  rewrite Z.ltb_irrefl. rewrite <- (app_nil_r data) at 2. by apply slice_app.
Qed.

(** ** Properties *)

(** ** A device on the other end

    A device is a state, the answer to a request PDU and the 16-bit registers from 0
    to [size - 1] that one can see in it. *)

(** Register [i] of a data field, high byte first. *)
Definition word (data : list Z) (i : Z) : Z :=
  256 * default 0 (data !! Z.to_nat (2 * i)) + default 0 (data !! Z.to_nat (2 * i + 1)).

Lemma be_bytes_word v : register_ok v -> be_bytes 2 v = [v / 256; v mod 256].
Proof.
  unfold register_ok. intros Hv. cbn [be_bytes]. rewrite !to_byte_mod, !Z.shiftr_div_pow2 by done.
  change (2 ^ (8 * Z.of_nat 1)) with 256. change (2 ^ (8 * Z.of_nat 0)) with 1. rewrite Z.div_1_r.
  rewrite (Z.mod_small (v / 256)); [done |]. split; [apply Z.div_pos | apply Z.div_lt_upper_bound]; lia.
Qed.

Lemma word_encode vs i v : Forall register_ok vs -> vs !! i = Some v -> word (encodeRegisters vs) (Z.of_nat i) = v.
Proof.
  intros Hvs Hi. pose proof (Forall_lookup_1 _ _ _ _ Hvs Hi) as Hv.
  rewrite <- (take_drop_middle vs i v Hi). change (v :: drop (S i) vs) with ([v] ++ drop (S i) vs).
  rewrite !encodeRegisters_app. pose proof (len_encodeRegisters (take i vs)) as Hl.
  apply lookup_lt_Some in Hi. unfold len in Hl. rewrite length_take, Nat.min_l in Hl by lia.
  assert (encodeRegisters [v] = [v / 256; v mod 256]) as ->
    by (unfold encodeRegisters; cbn [map concat]; rewrite app_nil_r; by apply be_bytes_word).
  unfold word. rewrite !(lookup_app_r (encodeRegisters (take i vs))) by lia.
  replace (Z.to_nat (2 * Z.of_nat i) - length (encodeRegisters (take i vs)))%nat with 0%nat by lia.
  replace (Z.to_nat (2 * Z.of_nat i + 1) - length (encodeRegisters (take i vs)))%nat with 1%nat by lia.
  simpl. pose proof (Z.div_mod v 256 ltac:(lia)). lia.
Qed.

Lemma encodeRegisters_words vs :
  Forall register_ok vs -> encodeRegisters vs = concat ((fun v => [v / 256; v mod 256]) <$> vs).
Proof.
  intros Hvs. unfold encodeRegisters. induction Hvs as [|v vs Hv _ IH]; [done |].
  cbn [map fmap list_fmap concat]. by rewrite be_bytes_word, IH.
Qed.

Section device.
Context {D : Type} (serve : D -> list Z -> D * list Z) (reg : D -> Z -> Z) (size : Z).

(** What the Modbus specification says of function codes 16 and 3, byte by byte:
    the request names the address and the number of registers with the high byte
    first, a write within the device echoes both and changes these registers and
    no others, a read answers with the byte count and the registers, and beyond
    the device both answer with the exception Illegal Data Address. *)
Record register_laws : Prop := {
  reg_word d a : register_ok (reg d a);
  write_in d ah al n data :
    0 <= ah < 256 -> 0 <= al < 256 -> 1 <= n <= 123 -> len data = 2 * n -> bytes_ok data = true ->
    256 * ah + al + n <= size ->
    let r := serve d ([16; ah; al; 0; n; 2 * n] ++ data) in
    r.2 = [16; ah; al; 0; n]
    /\ forall a, reg r.1 a = if bool_decide (256 * ah + al <= a < 256 * ah + al + n)
                            then word data (a - (256 * ah + al)) else reg d a;
  write_out d ah al n data :
    0 <= ah < 256 -> 0 <= al < 256 -> 1 <= n <= 123 -> len data = 2 * n -> size < 256 * ah + al + n ->
    let r := serve d ([16; ah; al; 0; n; 2 * n] ++ data) in
    r.2 = [144; 2] /\ forall a, reg r.1 a = reg d a;
  read_in d ah al n :
    0 <= ah < 256 -> 0 <= al < 256 -> 1 <= n <= 125 -> 256 * ah + al + n <= size ->
    let r := serve d [3; ah; al; 0; n] in
    r.2 = [3; 2 * n] ++ concat ((fun i => [reg d (256 * ah + al + i) / 256; reg d (256 * ah + al + i) mod 256])
                                  <$> seqZ 0 n)
    /\ forall a, reg r.1 a = reg d a;
  read_out d ah al n :
    0 <= ah < 256 -> 0 <= al < 256 -> 1 <= n <= 125 -> size < 256 * ah + al + n ->
    let r := serve d [3; ah; al; 0; n] in
    r.2 = [131; 2] /\ forall a, reg r.1 a = reg d a;
}.

(** The device on the wire: it answers the frame that has arrived, when the header
    says Modbus and counts the bytes that follow it, under the transaction number
    and for the unit of the request. *)
Definition device (d : D) (frame : list Z) : D * list Z :=
  match frame with
  | t1 :: t2 :: p1 :: p2 :: l1 :: l2 :: unit :: pdu =>
      if (p1 =? 0) && (p2 =? 0) && (256 * l1 + l2 =? len pdu + 1) then
        let '(d', answer) := serve d pdu in
        (d', [t1; t2; 0; 0; (len answer + 1) / 256; (len answer + 1) mod 256; unit] ++ answer)
      else (d, [])
  | _ => (d, [])
  end.

(** A request whose frame reaches the device, whose answer comes back in time. *)
Definition on_wire {R} (request : exchange -> Client -> R * Client) (d : D) (c : Client) : R * Client * D :=
  let frame := default [] (last (default [] (sent <$> conn (request (answers []) c).2))) in
  let '(d', bytes) := device d frame in
  let '(r, c') := request (answers bytes) c in (r, c', d').

Lemma device_frame d txn unit pdu :
  register_ok txn -> len pdu <= 259 -> len (serve d pdu).2 <= 259 ->
  device d (mbap_frame txn unit pdu) = ((serve d pdu).1, mbap_frame txn unit (serve d pdu).2).
Proof.
  intros Ht Hl Ha. pose proof (len_nonneg pdu). pose proof (len_nonneg (serve d pdu).2).
  unfold mbap_frame, encodeMBAP. change (be_bytes 2 0) with [0; 0].
  rewrite !(wrap_small 16) by (change (2 ^ 16) with 65536; lia).
  rewrite !be_bytes_word by (done || unfold register_ok; lia). unfold device. cbn [app].
  rewrite !Z.eqb_refl. destruct (Z.eqb_spec (256 * ((len pdu + 1) / 256) + (len pdu + 1) mod 256) (len pdu + 1)) as [|Hne].
  - cbn [andb]. by destruct (serve d pdu).
  - destruct Hne. symmetry. apply Z.div_mod. lia.
Qed.

Lemma on_wire_request {R} (request : exchange -> Client -> R * Client) k pdu d c s :
  (forall x, request x c = (k (sendRequest x pdu c).1, (sendRequest x pdu c).2)) ->
  conn c = Some s -> incoming s = [] -> len pdu <= 259 -> len (serve d pdu).2 <= 259 ->
  on_wire request d c =
    (k (Ok (serve d pdu).2),
     after (next_txn c) (mkConn (sent s ++ [mbap_frame (next_txn c) (UnitID (config c)) pdu]) []) c,
     (serve d pdu).1).
Proof.
  intros Hk Hc Hin Hl Ha. unfold on_wire. rewrite !Hk. cbn [snd].
  assert (conn (sendRequest (answers []) pdu c).2
    = Some (mkConn (sent s ++ [mbap_frame (next_txn c) (UnitID (config c)) pdu]) [])) as ->.
  { unfold sendRequest. rewrite Hc, Hin. reflexivity. }
  cbn [fmap option_fmap option_map default from_option sent id]. unfold default, id. rewrite last_snoc. cbn [from_option].
  rewrite device_frame by (done || apply next_txn_ok). rewrite Hk.
  by erewrite sendRequest_answered; [| done | by rewrite Hin, app_nil_r | done].
Qed.

(** Register [a] after a write of [vs] at [addr], which a device refuses as a whole
    when it does not have all the registers. *)
Definition stored (d : D) (addr : Z) (vs : list Z) (a : Z) : Z :=
  if bool_decide (addr + len vs <= size /\ addr <= a < addr + len vs)
  then default 0 (vs !! Z.to_nat (a - addr)) else reg d a.

Lemma write_on_wire d addr vs c s :
  register_laws -> conn c = Some s -> incoming s = [] -> Forall register_ok vs ->
  1 <= len vs <= 123 -> register_ok addr ->
  let '(w, c', d') := on_wire (fun x => WriteMultipleRegisters x addr vs) d c in
  w = (if addr + len vs <=? size then Ok () else Err (ModbusError 16 2))
  /\ (forall a, reg d' a = stored d addr vs a)
  /\ exists s', conn c' = Some s' /\ incoming s' = [].
Proof.
  intros Hlaws Hc Hin Hvs Hn Haddr. unfold register_ok in Haddr.
  pose proof (len_encodeRegisters vs) as Hl. pose proof (Z.div_mod addr 256 ltac:(lia)) as Hdm.
  pose proof (Z.mod_pos_bound addr 256 ltac:(lia)) as Hal.
  assert (0 <= addr / 256 < 256) as Hah by (split; [apply Z.div_pos | apply Z.div_lt_upper_bound]; lia).
  set (pdu := [16; addr / 256; addr mod 256; 0; len vs; 2 * len vs] ++ encodeRegisters vs).
  assert (write_pdu fcWriteMultipleRegs addr (len vs) (encodeRegisters vs) = pdu) as Hpdu.
  { unfold write_pdu, pdu. rewrite wrap_small by (change (2 ^ 16) with 65536; lia).
    rewrite (be_bytes_word addr), (be_bytes_word (len vs)) by (unfold register_ok; lia).
    rewrite (Z.div_small (len vs)), (Z.mod_small (len vs)), Hl, to_byte_small by lia. done. }
  assert (len pdu = 6 + 2 * len vs) as Hlp by (unfold pdu; rewrite len_app, Hl; done).
  assert ((serve d pdu).2 = (if addr + len vs <=? size then [16; addr / 256; addr mod 256; 0; len vs] else [144; 2])
    /\ forall a, reg (serve d pdu).1 a = stored d addr vs a) as [Hans Hreg].
  { unfold stored. destruct (Z.leb_spec (addr + len vs) size) as [Hin'|Hout].
    - destruct (write_in Hlaws d (addr / 256) (addr mod 256) (len vs) (encodeRegisters vs)) as [H1 H2];
        try done; [apply encodeRegisters_ok | lia |]. split; [exact H1 |]. intros a. unfold pdu. rewrite H2.
      replace (256 * (addr / 256) + addr mod 256) with addr by lia.
      case_bool_decide as Ha; case_bool_decide as Hb; try (exfalso; lia); [| done].
      destruct (lookup_lt_is_Some_2 vs (Z.to_nat (a - addr))) as [v Hv]; [unfold len in *; lia |]. rewrite Hv. simpl.
      rewrite <- (word_encode vs (Z.to_nat (a - addr)) v Hvs Hv). f_equal. lia.
    - destruct (write_out Hlaws d (addr / 256) (addr mod 256) (len vs) (encodeRegisters vs)) as [H1 H2];
        try done; [lia |]. split; [exact H1 |]. intros a. unfold pdu. rewrite H2.
      by rewrite bool_decide_eq_false_2 by lia. }
  erewrite (on_wire_request _ (fun r => resp ← r; checkException fcWriteMultipleRegs resp) pdu d c s); [| | done | done | |].
  - split_and!; [| exact Hreg | by eexists]. rewrite Hans. cbn [mbind result_bind].
    by destruct (addr + len vs <=? size).
  - intros x. unfold WriteMultipleRegisters, write_request. rewrite Hpdu. by destruct (sendRequest x pdu c).
  - lia.
  - rewrite Hans. by destruct (addr + len vs <=? size).
Qed.

Lemma read_on_wire d addr q c s :
  register_laws -> conn c = Some s -> incoming s = [] -> 1 <= q <= 125 -> register_ok addr ->
  let '(r, c', d') := on_wire (fun x => ReadHoldingRegisters x addr q) d c in
  r = (if addr + q <=? size then Ok ((fun i => reg d (addr + i)) <$> seqZ 0 q) else Err (ModbusError 3 2))
  /\ (forall a, reg d' a = reg d a)
  /\ exists s', conn c' = Some s' /\ incoming s' = [].
Proof.
  intros Hlaws Hc Hin Hn Haddr. unfold register_ok in Haddr. pose proof (Z.div_mod addr 256 ltac:(lia)) as Hdm.
  pose proof (Z.mod_pos_bound addr 256 ltac:(lia)) as Hal.
  assert (0 <= addr / 256 < 256) as Hah by (split; [apply Z.div_pos | apply Z.div_lt_upper_bound]; lia).
  set (pdu := [3; addr / 256; addr mod 256; 0; q]).
  assert (read_pdu fcReadHoldingRegisters addr q = pdu) as Hpdu.
  { unfold read_pdu, pdu. rewrite (be_bytes_word addr), (be_bytes_word q) by (unfold register_ok; lia).
    by rewrite (Z.div_small q), (Z.mod_small q) by lia. }
  set (vs := (fun i => reg d (addr + i)) <$> seqZ 0 q).
  assert (Forall register_ok vs) as Hvs by (apply Forall_fmap, Forall_forall; intros; apply (reg_word Hlaws)).
  assert (len vs = q) as Hlv by (unfold vs, len; rewrite length_fmap, length_seqZ; lia).
  pose proof (len_encodeRegisters vs) as Hl.
  assert ((serve d pdu).2 = (if addr + q <=? size then [3; len (encodeRegisters vs)] ++ encodeRegisters vs else [131; 2])
    /\ forall a, reg (serve d pdu).1 a = reg d a) as [Hans Hreg].
  { destruct (Z.leb_spec (addr + q) size) as [Hin'|Hout].
    - destruct (read_in Hlaws d (addr / 256) (addr mod 256) q) as [H1 H2]; try done; [lia |].
      split; [| exact H2]. unfold pdu. rewrite H1, Hl, Hlv, encodeRegisters_words by done. unfold vs.
      rewrite <- list_fmap_compose. do 3 f_equal. by replace (256 * (addr / 256) + addr mod 256) with addr by lia.
    - destruct (read_out Hlaws d (addr / 256) (addr mod 256) q) as [H1 H2]; try done. lia. }
  erewrite (on_wire_request _ (fun r => resp ← r; data ← read_data fcReadHoldingRegisters resp; decodeRegisters data)
    pdu d c s); [| | done | done | |].
  - split_and!; [| exact Hreg | by eexists]. rewrite Hans. cbn [mbind result_bind].
    destruct (addr + q <=? size); [| done]. rewrite read_data_ok by (unfold fcReadHoldingRegisters; lia).
    cbn [mbind result_bind]. by apply decode_encodeRegisters.
  - intros x. unfold ReadHoldingRegisters, read_registers. rewrite Hpdu. by destruct (sendRequest x pdu c).
  - done.
  - rewrite Hans. destruct (addr + q <=? size); [| done]. rewrite len_app, Hl. change (len [3; _]) with 2. lia.
Qed.

(** C38: A write of 1 to 123 registers and then a read of 1 to 125, at any
    addresses, over a connection without unread bytes, to a device that follows
    the Modbus specification of function codes 16 and 3 and answers in time.  The
    write returns nil and stores exactly the values at exactly their addresses;
    or the device has not all these registers, and then the write returns Illegal
    Data Address and nothing is stored.  The read returns every register as the
    write left it, or the same exception, and nothing stays unread.  (The client
    does not check the counts: the byte count of 128 registers is sent as 0,
    [byte_count_wraps].) *)
Theorem write_then_read d addr vs addr' q c s :
  register_laws -> conn c = Some s -> incoming s = [] ->
  Forall register_ok vs -> 1 <= len vs <= 123 -> register_ok addr -> 1 <= q <= 125 -> register_ok addr' ->
  let '(w, c1, d1) := on_wire (fun x => WriteMultipleRegisters x addr vs) d c in
  let '(r, c2, d2) := on_wire (fun x => ReadHoldingRegisters x addr' q) d1 c1 in
  w = (if addr + len vs <=? size then Ok () else Err (ModbusError 16 2))
  /\ r = (if addr' + q <=? size then Ok ((fun i => stored d addr vs (addr' + i)) <$> seqZ 0 q) else Err (ModbusError 3 2))
  /\ (forall a, reg d2 a = stored d addr vs a)
  /\ exists s', conn c2 = Some s' /\ incoming s' = [].
Proof.
  intros Hlaws Hc Hin Hvs Hn Ha Hq Ha'.
  pose proof (write_on_wire d addr vs c s Hlaws Hc Hin Hvs Hn Ha) as Hw.
  destruct (on_wire (fun x => WriteMultipleRegisters x addr vs) d c) as [[w c1] d1].
  destruct Hw as (Hw & Hreg & s1 & Hc1 & Hin1).
  pose proof (read_on_wire d1 addr' q c1 s1 Hlaws Hc1 Hin1 Hq Ha') as Hr.
  destruct (on_wire (fun x => ReadHoldingRegisters x addr' q) d1 c1) as [[r c2] d2].
  destruct Hr as (Hr & Hreg2 & Hs2). split_and!; [exact Hw | | | exact Hs2].
  - rewrite Hr. destruct (addr' + q <=? size); [| done]. f_equal. apply list_fmap_ext. intros i x _. apply Hreg.
  - intros a. by rewrite Hreg2.
Qed.
End device.

(** A device of 100 registers. *)
Definition memory_size : Z := 100.
Definition memory_reg (m : Z -> Z) (a : Z) : Z := wrap 16 (m a).
Definition memory_serve (m : Z -> Z) (pdu : list Z) : (Z -> Z) * list Z :=
  match pdu with
  | 16 :: ah :: al :: nh :: nl :: _ :: data =>
      let addr := 256 * ah + al in
      let n := 256 * nh + nl in
      if addr + n <=? memory_size
      then (fun a => if bool_decide (addr <= a < addr + n) then word data (a - addr) else m a, [16; ah; al; nh; nl])
      else (m, [144; 2])
  | [3; ah; al; nh; nl] =>
      let addr := 256 * ah + al in
      let n := 256 * nh + nl in
      if addr + n <=? memory_size
      then (m, [3; 2 * n] ++ concat ((fun i => [memory_reg m (addr + i) / 256; memory_reg m (addr + i) mod 256]) <$> seqZ 0 n))
      else (m, [131; 2])
  | fc :: _ => (m, [Z.lor fc 128; 1])
  | [] => (m, [])
  end.

Lemma word_range data i : bytes_ok data = true -> register_ok (word data i).
Proof.
  intros Hd. assert (forall k, 0 <= default 0 (data !! k) < 256) as Hb.
  { intros k. destruct (data !! k) as [b|] eqn:Hk; [| done]. simpl.
    exact (Forall_lookup_1 _ _ _ _ (proj1 (bytes_ok_spec data) Hd) Hk). }
  unfold word, register_ok. pose proof (Hb (Z.to_nat (2 * i))). pose proof (Hb (Z.to_nat (2 * i + 1))). lia.
Qed.

Lemma memory_laws : register_laws memory_serve memory_reg memory_size.
Proof.
  split.
  - intros m a. apply (wrap_range 16). done.
  - intros m ah al n data _ _ _ _ Hd Hle. cbv zeta. cbn [app memory_serve].
    rewrite Z.mul_0_r, Z.add_0_l, (proj2 (Z.leb_le _ _)) by done. split; [done |]. intros a. cbn [fst]. unfold memory_reg.
    case_bool_decide; [| done]. apply wrap_small. by apply word_range.
  - intros m ah al n data _ _ _ _ Hgt. cbv zeta. cbn [app memory_serve].
    by rewrite Z.mul_0_r, Z.add_0_l, (proj2 (Z.leb_gt _ _)).
  - intros m ah al n _ _ _ Hle. cbv zeta. cbn [memory_serve].
    by rewrite Z.mul_0_r, Z.add_0_l, (proj2 (Z.leb_le _ _)).
  - intros m ah al n _ _ _ Hgt. cbv zeta. cbn [memory_serve].
    by rewrite Z.mul_0_r, Z.add_0_l, (proj2 (Z.leb_gt _ _)).
Qed.

Lemma write_then_read_witness :
  let c := mkClient (mkConfig "plc" 7 0 false) (Some (mkConn [] [])) 65535 in
  let '(w, c1, d1) := on_wire memory_serve (fun x => WriteMultipleRegisters x 40 [258; 65280]) (fun _ => 9) c in
  let '(r, c2, d2) := on_wire memory_serve (fun x => ReadHoldingRegisters x 39 4) d1 c1 in
  w = Ok () /\ r = Ok [9; 258; 65280; 9].
Proof.
  intros c.
  pose proof (write_then_read memory_serve memory_reg memory_size (fun _ => 9) 40 [258; 65280] 39 4 c (mkConn [] [])
    memory_laws eq_refl eq_refl ltac:(repeat constructor; by vm_compute) ltac:(by split) ltac:(by split)
    ltac:(by split) ltac:(by split)) as H.
  destruct (on_wire memory_serve (fun x => WriteMultipleRegisters x 40 [258; 65280]) (fun _ => 9) c) as [[w c1] d1].
  destruct (on_wire memory_serve (fun x => ReadHoldingRegisters x 39 4) d1 c1) as [[r c2] d2].
  destruct H as (-> & -> & _). by split.
Defined.

(** Whatever bytes a device sends, every request returns: no read goes past the
    end of an answer.  A successful read of bits has as many values as were asked
    for, one of registers has 16-bit values, at most 127 of them, and a
    successful write was answered with its own function code. *)
Theorem client_total x c addr q vs bs :
  socket_ok c x -> 0 <= q ->
  post (ReadCoils x addr q c).1 (fun r => len r = q)
  /\ post (ReadDiscreteInputs x addr q c).1 (fun r => len r = q)
  /\ post (ReadHoldingRegisters x addr q c).1 (fun r => Forall register_ok r /\ len r <= 127)
  /\ post (ReadInputRegisters x addr q c).1 (fun r => Forall register_ok r /\ len r <= 127)
  /\ (forall v, returns (WriteSingleCoil x addr v c).1 = true)
  /\ returns (WriteSingleRegister x addr q c).1 = true
  /\ returns (WriteMultipleCoils x addr bs c).1 = true
  /\ returns (WriteMultipleRegisters x addr vs c).1 = true.
Proof.
  intros Hs Hq. split_and!; intros; try (by apply read_bits_post); try (by apply read_registers_post);
    try (by eapply post_returns, write_request_post).
  unfold WriteMultipleCoils. destruct (encodeBools_spec bs) as (d & -> & _).
  by eapply post_returns, write_request_post.
Qed.

Lemma client_total_witness :
  let c := mkClient (mkConfig "plc" 1 0 false) (Some (mkConn [] [0; 1; 0; 0; 0; 4])) 0 in
  let x := answers [1; 1; 1; 5] in
  ReadCoils x 0 3 c = (Ok [true; false; true], after 1 (mkConn [mbap_frame 1 1 [1; 0; 0; 0; 3]] []) c)
  /\ len [true; false; true] = 3.
Proof.
  intros c x. assert (Hs : socket_ok c x) by (split; [done |]; by intros s [= <-]).
  assert (E : ReadCoils x 0 3 c = (Ok [true; false; true], after 1 (mkConn [mbap_frame 1 1 [1; 0; 0; 0; 3]] []) c))
    by (vm_compute; reflexivity).
  split; [exact E |]. pose proof (proj1 (client_total x c 0 3 [] [] Hs ltac:(lia))) as H. rewrite E in H. exact H.
Defined.

(** Coils and registers survive packing: the packed coils fill the least number
    of whole bytes, unpacking gives back the values, and every bit after the last
    coil is zero. *)
Theorem packing_round_trip coils regs :
  Forall register_ok regs ->
  (exists d, encodeBools coils = Ok d /\ len d = (len coils + 7) / 8 /\ bytes_ok d = true
     /\ decodeBools d (len coils) = Ok coils /\ forall j, len coils <= j -> bit d j = false)
  /\ len (encodeRegisters regs) = 2 * len regs /\ decodeRegisters (encodeRegisters regs) = Ok regs.
Proof.
  intros Hr. split; [| split; [apply len_encodeRegisters | by apply decode_encodeRegisters]].
  destruct (decode_encodeBools coils) as (d & Hd & Hl & Hok & Hdec). exists d. split_and!; try done.
  destruct (encodeBools_spec coils) as (d' & Hd' & _ & _ & Hb). rewrite Hd in Hd'. apply Ok_inj in Hd' as <-.
  intros j Hj. pose proof (len_nonneg coils). rewrite Hb by lia. rewrite lookup_ge_None_2; [done |].
  unfold len in Hj. lia.
Qed.

Lemma packing_round_trip_witness :
  let coils := [true; false; true; true; false; false; true; true; true; false] in
  encodeBools coils = Ok [205; 1] /\ decodeBools [205; 1] 10 = Ok coils.
Proof.
  intros coils. split; [reflexivity |].
  pose proof (proj1 (packing_round_trip coils [] (Forall_nil_2 _))) as H.
  destruct H as (d & Hd & _ & _ & H & _).
  assert (E : encodeBools coils = Ok [205; 1]) by reflexivity. rewrite E in Hd. apply Ok_inj in Hd. subst d. exact H.
Defined.

(** Requests the device answers correctly and at once, one after the other; a
    request is a PDU and the PDU of its answer. *)
Fixpoint ask_all (unit : Z) (qs : list (list Z * list Z)) (c : Client)
  : list (result modbus_error (list Z)) * Client :=
  match qs with
  | [] => ([], c)
  | (pdu, rpdu) :: qs' =>
      let '(r, c) := sendRequest (answers (mbap_frame (next_txn c) unit rpdu)) pdu c in
      let '(rs, c) := ask_all unit qs' c in (r :: rs, c)
  end.

Lemma next_txn_fresh c : register_ok (txnID c) -> txnID c <> next_txn c.
Proof.
  unfold register_ok, next_txn, wrap. change (2 ^ 16) with 65536. intros H E.
  destruct (decide (txnID c = 65535)) as [Heq|Hne]; [rewrite Heq in E; done |].
  rewrite Z.mod_small in E by lia. lia.
Qed.

(** One answer that arrives after its deadline makes the client deaf: from then
    on every request finds the answer to the previous one, fails with a
    transaction mismatch and leaves its own answer unread, however promptly and
    correctly the device answers. *)
Theorem late_reply_desync unit qs : forall c s late,
  conn c = Some s -> register_ok (txnID c) -> len late <= 259 ->
  incoming s = mbap_frame (txnID c) unit late -> Forall (fun q => len q.2 <= 259) qs ->
  Forall (fun r => exists got want, r = Err (TransactionMismatch got want)) (ask_all unit qs c).1.
Proof.
  induction qs as [|[pdu rpdu] qs IH]; intros c s late Hc Ht Hl Hin Hqs; [by constructor |].
  apply Forall_cons in Hqs as [Hr Hqs]. simpl in Hr. simpl.
  erewrite sendRequest_stale; [| done | by rewrite Hin | done | by apply next_txn_fresh | done].
  specialize (IH (after (next_txn c)
    (mkConn (sent s ++ [mbap_frame (next_txn c) (UnitID (config c)) pdu]) (mbap_frame (next_txn c) unit rpdu)) c)
    _ rpdu eq_refl (next_txn_ok c) Hr eq_refl Hqs).
  destruct (ask_all unit qs _) as [rs c']. constructor; [by eexists _, _ | exact IH].
Qed.

Lemma late_reply_desync_witness :
  let c0 := mkClient (mkConfig "plc" 1 0 false) (Some (mkConn [] [])) 0 in
  let '(r, c) := sendRequest (answers []) [3; 0; 0; 0; 1] c0 in
  let c := after 1 (mkConn (sent (default (mkConn [] []) (conn c))) (mbap_frame 1 1 [3; 2; 0; 9])) c in
  r = Err ReadHeaderFailed
  /\ Forall (fun r => exists got want, r = Err (TransactionMismatch got want))
       (ask_all 1 [([3; 0; 0; 0; 1], [3; 2; 0; 9]); ([3; 0; 0; 0; 1], [3; 2; 0; 9])] c).1.
Proof.
  split; [reflexivity |]. eapply (late_reply_desync 1 _ _ _ [3; 2; 0; 9]);
    [reflexivity | by vm_compute | by vm_compute | reflexivity | repeat constructor; by vm_compute].
Defined.

(** A read of bits fills what the device did not send with false, and a write of
    too many registers goes out with a byte count reduced modulo 256. *)
Lemma short_reply_pads :
  let c := mkClient (mkConfig "plc" 1 0 false) (Some (mkConn [] [])) 0 in
  (ReadCoils (answers (mbap_frame 1 1 [1; 0])) 0 3 c).1 = Ok [false; false; false].
Proof. vm_compute. reflexivity. Qed.

Lemma byte_count_wraps addr : idx (E:=modbus_error) (write_pdu 16 addr 128 (encodeRegisters (replicate 128 0))) 5 = Ok 0.
Proof. reflexivity. Qed.
