(* ===== verification/StateValidator.v ===== *)
(** * The state validator

    [src/pkg/validator/state.go]: an observer that is told of state transitions,
    looks them up in the tables of the SEMI standards and keeps two logs.  Its
    tables are compared with what the managers of [src/pkg/driver/gem] do. *)

From stdpp Require Import prelude relations gmap strings list.
From Stdlib Require Import ZArith Lia.
From S2P Require Import Prelude Lifecycle GemState Carrier ProcessJob ControlJob.

#[local] Open Scope Z_scope.

Record StateViolation := mkViolation {
  v_Timestamp : Z;
  v_Machine : string;
  v_EntityID : string;
  v_FromState : string;
  v_ToState : string;
  v_Message : string;
}.

Record StateTransitionRecord := mkTransition {
  t_Timestamp : Z;
  t_Machine : string;
  t_EntityID : string;
  t_FromState : string;
  t_ToState : string;
  t_Valid : bool;
}.

(** Both logs are oldest first. *)
Record StateValidator := mkValidator {
  transitions : list StateTransitionRecord;
  violations : list StateViolation;
}.

Definition NewStateValidator : StateValidator := mkValidator [] [].

Definition Transitions (sv : StateValidator) : list StateTransitionRecord := transitions sv.
Definition Violations (sv : StateValidator) : list StateViolation := violations sv.
Definition Reset (sv : StateValidator) : StateValidator := mkValidator [] [].

(** ** The tables: the keys that map to true *)

Definition validCommTransitions : list (CommState * CommState) :=
  [(CommDisabled, CommWaitCRA);
   (CommWaitCRA, CommCommunicating);
   (CommWaitCRA, CommWaitDelay);
   (CommWaitDelay, CommWaitCRA);
   (CommWaitCRA, CommDisabled);
   (CommWaitDelay, CommDisabled);
   (CommCommunicating, CommDisabled)].

Definition validControlTransitions : list (ControlState * ControlState) :=
  [(ControlOfflineEquipment, ControlOfflineHost);
   (ControlOfflineHost, ControlOnlineLocal);
   (ControlOfflineHost, ControlOnlineRemote);
   (ControlOnlineLocal, ControlOnlineRemote);
   (ControlOnlineRemote, ControlOnlineLocal);
   (ControlOnlineLocal, ControlOfflineEquipment);
   (ControlOnlineRemote, ControlOfflineEquipment);
   (ControlOfflineHost, ControlOfflineEquipment)].

Definition validCarrierTransitions : list (CarrierState * CarrierState) :=
  [(CarrierNotAccessed, CarrierWaitingForHost);
   (CarrierWaitingForHost, CarrierInAccess);
   (CarrierInAccess, CarrierCarrierComplete);
   (CarrierInAccess, CarrierStopped);
   (CarrierCarrierComplete, CarrierReadyToUnload);
   (CarrierStopped, CarrierReadyToUnload);
   (CarrierStopped, CarrierInAccess);
   (CarrierWaitingForHost, CarrierReadyToUnload);
   (CarrierNotAccessed, CarrierReadyToUnload)].

Definition validPJTransitions : list (ProcessJobState * ProcessJobState) :=
  [(PJQueued, PJSettingUp);
   (PJSettingUp, PJWaitingForStart);
   (PJWaitingForStart, PJProcessing);
   (PJProcessing, PJProcessComplete);
   (PJProcessing, PJStopping);
   (PJStopping, PJStopped);
   (PJStopped, PJSettingUp);
   (PJQueued, PJAborting);
   (PJSettingUp, PJAborting);
   (PJWaitingForStart, PJAborting);
   (PJProcessing, PJAborting);
   (PJStopping, PJAborting);
   (PJStopped, PJAborting);
   (PJAborting, PJAborted)].

Definition validCJTransitions : list (ControlJobState * ControlJobState) :=
  [(CJQueued, CJSelected);
   (CJSelected, CJWaitingForStart);
   (CJWaitingForStart, CJExecuting);
   (CJExecuting, CJCompleted);
   (CJExecuting, CJPausing);
   (CJPausing, CJPaused);
   (CJPaused, CJExecuting);
   (CJExecuting, CJStopping);
   (CJPausing, CJStopping);
   (CJPaused, CJStopping);
   (CJStopping, CJStopped);
   (CJQueued, CJStopping);
   (CJSelected, CJStopping);
   (CJWaitingForStart, CJStopping)].

(** ** Validation *)

(** What the five validators share: the record, and the violation when the pair is
    not in the table.  [t1] and [t2] are the two readings of the clock. *)
Definition observe (t1 t2 : Z) (machine entity from to message : string) (valid : bool) (sv : StateValidator)
  : option StateViolation * StateValidator :=
  let ts := transitions sv ++ [mkTransition t1 machine entity from to valid] in
  if negb valid then
    let v := mkViolation t2 machine entity from to message in
    (Some v, mkValidator ts (violations sv ++ [v]))
  else (None, mkValidator ts (violations sv)).

Definition in_table {S} `{EqDecision S} (table : list (S * S)) (from to : S) : bool :=
  bool_decide ((from, to) ∈ table).

Definition ValidateCommTransition (t1 t2 : Z) (from to : CommState) :=
  observe t1 t2 "CommState" "" (CommState_String from) (CommState_String to)
    ("E30: invalid comm transition " +:+ CommState_String from +:+ " -> " +:+ CommState_String to)
    (in_table validCommTransitions from to).

Definition ValidateControlTransition (t1 t2 : Z) (from to : ControlState) :=
  observe t1 t2 "ControlState" "" (ControlState_String from) (ControlState_String to)
    ("E30: invalid control transition " +:+ ControlState_String from +:+ " -> " +:+ ControlState_String to)
    (in_table validControlTransitions from to).

Definition ValidateCarrierTransition (t1 t2 : Z) (carrierID : string) (from to : CarrierState) :=
  observe t1 t2 "CarrierState" carrierID (CarrierState_String from) (CarrierState_String to)
    ("E87: carrier " +:+ carrierID +:+ " invalid transition "
       +:+ CarrierState_String from +:+ " -> " +:+ CarrierState_String to)
    (in_table validCarrierTransitions from to).

Definition ValidatePJTransition (t1 t2 : Z) (jobID : string) (from to : ProcessJobState) :=
  observe t1 t2 "ProcessJobState" jobID (ProcessJobState_String from) (ProcessJobState_String to)
    ("E40: job " +:+ jobID +:+ " invalid transition "
       +:+ ProcessJobState_String from +:+ " -> " +:+ ProcessJobState_String to)
    (in_table validPJTransitions from to).

Definition ValidateCJTransition (t1 t2 : Z) (jobID : string) (from to : ControlJobState) :=
  observe t1 t2 "ControlJobState" jobID (ControlJobState_String from) (ControlJobState_String to)
    ("E94: job " +:+ jobID +:+ " invalid transition "
       +:+ ControlJobState_String from +:+ " -> " +:+ ControlJobState_String to)
    (in_table validCJTransitions from to).

(** ** Observations *)

Inductive observation :=
| obsComm (from to : CommState)
| obsControl (from to : ControlState)
| obsCarrier (carrierID : string) (from to : CarrierState)
| obsPJ (jobID : string) (from to : ProcessJobState)
| obsCJ (jobID : string) (from to : ControlJobState).

Definition validate (t1 t2 : Z) (o : observation) : StateValidator -> option StateViolation * StateValidator :=
  match o with
  | obsComm s s' => ValidateCommTransition t1 t2 s s'
  | obsControl s s' => ValidateControlTransition t1 t2 s s'
  | obsCarrier id s s' => ValidateCarrierTransition t1 t2 id s s'
  | obsPJ id s s' => ValidatePJTransition t1 t2 id s s'
  | obsCJ id s s' => ValidateCJTransition t1 t2 id s s'
  end.

Definition valid (o : observation) : bool :=
  match o with
  | obsComm s s' => in_table validCommTransitions s s'
  | obsControl s s' => in_table validControlTransitions s s'
  | obsCarrier _ s s' => in_table validCarrierTransitions s s'
  | obsPJ _ s s' => in_table validPJTransitions s s'
  | obsCJ _ s s' => in_table validCJTransitions s s'
  end.

(** A validator that is told of [os] one after the other, with its answers. *)
Fixpoint validate_all (os : list (Z * Z * observation)) (sv : StateValidator)
  : list (option StateViolation) * StateValidator :=
  match os with
  | [] => ([], sv)
  | (t1, t2, o) :: os' =>
      let '(v, sv) := validate t1 t2 o sv in
      let '(vs, sv) := validate_all os' sv in (v :: vs, sv)
  end.

(** What a log entry says, without its time and its text. *)
Definition transition_key (t : StateTransitionRecord) : string * string * string * string :=
  (t_Machine t, t_EntityID t, t_FromState t, t_ToState t).
Definition violation_key (v : StateViolation) : string * string * string * string :=
  (v_Machine v, v_EntityID v, v_FromState v, v_ToState v).

Definition logs_agree (sv : StateValidator) : Prop :=
  violation_key <$> violations sv = transition_key <$> filter (fun t => t_Valid t = false) (transitions sv).

Lemma validate_observe t1 t2 o sv :
  exists machine entity from to message, validate t1 t2 o sv = observe t1 t2 machine entity from to message (valid o) sv.
Proof. destruct o; by repeat eexists. Qed.

Lemma observe_spec t1 t2 machine entity from to message ok sv :
  let '(v, sv') := observe t1 t2 machine entity from to message ok sv in
  (v = None <-> ok = true)
  /\ transitions sv' = transitions sv ++ [mkTransition t1 machine entity from to ok]
  /\ violations sv' = violations sv ++ option_list v
  /\ (logs_agree sv -> logs_agree sv').
Proof.
  unfold observe, logs_agree. destruct ok; simpl; rewrite ?app_nil_r, ?fmap_app, ?filter_app.
  - split_and!; try done. rewrite filter_cons_False, filter_nil, app_nil_r by done. done.
  - split_and!; try done. rewrite filter_cons_True, filter_nil by done. intros ->. by rewrite fmap_app.
Qed.

(** ** The tables and the managers *)

Lemma in_table_spec {S} `{EqDecision S} (table : list (S * S)) from to :
  in_table table from to = true <-> In (from, to) table.
Proof. unfold in_table. by rewrite bool_decide_eq_true, list_elem_of_In. Qed.

(** The move is that of the event [e]. *)
Ltac has_event e := exists e; split; [set_solver | reflexivity].

Definition carrier_edge (s s' : CarrierState) : Prop :=
  exists e, s ∈ Carrier.source e /\ s' = Carrier.target e.

Lemma comm_table c c' :
  in_table validCommTransitions c c' = true <-> c <> c' /\ exists o, comm_edge o c c'.
Proof.
  split.
  - intros H. destruct c, c'; try discriminate H; (split; [done |]); eexists; constructor.
  - intros [Hne [o He]]. destruct He; try done. by destruct s.
Qed.

Lemma cj_table s s' : in_table validCJTransitions s s' = true <-> ControlJob.edge s s'.
Proof.
  split.
  - intros H%in_table_spec. simpl in H. repeat destruct H as [[= <- <-]|H]; try done;
      first [has_event ControlJob.evSelect
            |has_event ControlJob.evWaitForStart
            |has_event ControlJob.evExecute
            |has_event ControlJob.evComplete
            |has_event ControlJob.evPause
            |has_event ControlJob.evPauseDone
            |has_event ControlJob.evStop
            |has_event ControlJob.evStopDone].
  - intros (e & Hs%list_elem_of_In & ->). destruct e; simpl in Hs; repeat destruct Hs as [<-|Hs]; done.
Qed.

Lemma pj_table s s' :
  in_table validPJTransitions s s' = true
  <-> ProcessJob.edge s s' \/ (s = PJStopped /\ (s' = PJSettingUp \/ s' = PJAborting)).
Proof.
  split.
  - intros H%in_table_spec. simpl in H. repeat destruct H as [[= <- <-]|H]; try done; try (right; by auto); left;
      first [has_event ProcessJob.evSetup
            |has_event ProcessJob.evSetupComplete
            |has_event ProcessJob.evStart
            |has_event ProcessJob.evComplete
            |has_event ProcessJob.evStop
            |has_event ProcessJob.evStopDone
            |has_event ProcessJob.evAbort
            |has_event ProcessJob.evAbortDone].
  - intros [(e & Hs%list_elem_of_In & ->)|[-> [->| ->]]]; [| done | done].
    destruct e; simpl in Hs; repeat destruct Hs as [<-|Hs]; done.
Qed.

Lemma carrier_table s s' :
  in_table validCarrierTransitions s s' = true
  <-> carrier_edge s s' \/ (s = CarrierWaitingForHost /\ s' = CarrierReadyToUnload).
Proof.
  split.
  - intros H%in_table_spec. simpl in H. repeat destruct H as [[= <- <-]|H]; try done; try (right; by auto); left;
      first [has_event Carrier.evProceed
            |has_event Carrier.evStart
            |has_event Carrier.evComplete
            |has_event Carrier.evStop
            |has_event Carrier.evResume
            |has_event Carrier.evUnload].
  - intros [(e & Hs%list_elem_of_In & ->)|[-> ->]]; [| done].
    destruct e; simpl in Hs; repeat destruct Hs as [<-|Hs]; done.
Qed.

(** The moves of the state machine: a call leads from one state to the other in
    some state that some sequence of calls reaches. *)
Definition comm_move (c c' : CommState) : Prop :=
  exists o sm, GemState.reachable sm /\ commState sm = c /\ commState (GemState.call o sm) = c'.
Definition control_move (s s' : ControlState) : Prop :=
  exists o sm, GemState.reachable sm /\ controlState sm = s /\ controlState (GemState.call o sm) = s'.

Definition after (os : list GemState.op) : StateMachine :=
  foldl (fun sm o => GemState.call o sm) NewStateMachine os.

Lemma after_reachable os : GemState.reachable (after os).
Proof.
  unfold after. generalize reach_new. generalize NewStateMachine. induction os as [|o os IH]; intros sm Hr; [done |].
  simpl. by apply IH, reach_call.
Qed.

(** The move of one call after a sequence of calls. *)
Lemma comm_move_after o os : comm_move (commState (after os)) (commState (GemState.call o (after os))).
Proof. exists o, (after os). auto using after_reachable. Qed.
Lemma control_move_after o os : control_move (controlState (after os)) (controlState (GemState.call o (after os))).
Proof. exists o, (after os). auto using after_reachable. Qed.

(** A call that changes a state has succeeded, along its edges. *)
Lemma call_edges o sm :
  GemState.call o sm = sm
  \/ (comm_edge o (commState sm) (commState (GemState.call o sm))
      /\ control_edge o (controlState sm) (controlState (GemState.call o sm))).
Proof.
  unfold GemState.call, keep. destruct (GemState.run o sm) as [sm'| | |] eqn:H; [right | by left..].
  apply run_refines. eauto.
Qed.

Lemma comm_moves c c' : c <> c' -> comm_move c c' <-> in_table validCommTransitions c c' = true.
Proof.
  intros Hne. split.
  - intros (o & sm & _ & <- & <-). apply comm_table. split; [done |].
    destruct (call_edges o sm) as [Heq|[He _]]; [by rewrite Heq in Hne | by exists o].
  - intros H%in_table_spec. simpl in H. repeat destruct H as [[= <- <-]|H]; try done.
    + exact (comm_move_after opEnable []).
    + exact (comm_move_after opEstablished [opEnable]).
    + exact (comm_move_after opFailed [opEnable]).
    + exact (comm_move_after opRetry [opEnable; opFailed]).
    + exact (comm_move_after opDisable [opEnable]).
    + exact (comm_move_after opDisable [opEnable; opFailed]).
    + exact (comm_move_after opDisable [opEnable; opEstablished]).
Qed.

Lemma control_moves s s' : s <> s' ->
  control_move s s' <->
    s <> ControlOfflineHost /\ s' <> ControlOfflineHost
    /\ (in_table validControlTransitions s s' = true
        \/ (s = ControlOfflineEquipment /\ (s' = ControlOnlineLocal \/ s' = ControlOnlineRemote)
            /\ in_table validControlTransitions s s' = false)).
Proof.
  intros Hne. split.
  - intros (o & sm & Hr & <- & <-). pose proof (never_offline_host _ Hr). pose proof (never_offline_host _ (reach_call o sm Hr)).
    destruct (call_edges o sm) as [Heq|[_ He]]; [by rewrite Heq in Hne |].
    split; [done |]. split; [done |]. destruct (controlState sm), (controlState (GemState.call o sm)); try done; auto.
  - intros (H1 & H2 & H3).
    assert (forall os, controlState (after os) = s -> forall o, controlState (GemState.call o (after os)) = s' ->
      control_move s s') as Hm by (intros os <- o <-; apply control_move_after).
    destruct s, s'; try done; try (destruct H3 as [H3|(H3 & _)]; done).
    + exact (Hm [opEnable; opEstablished] eq_refl opLocal eq_refl).
    + exact (Hm [opEnable; opEstablished] eq_refl opRemote eq_refl).
    + exact (Hm [opEnable; opEstablished; opLocal] eq_refl opOffline eq_refl).
    + exact (Hm [opEnable; opEstablished; opLocal] eq_refl opRemote eq_refl).
    + exact (Hm [opEnable; opEstablished; opRemote] eq_refl opOffline eq_refl).
    + exact (Hm [opEnable; opEstablished; opRemote] eq_refl opLocal eq_refl).
Qed.

Lemma observe_accepts t1 t2 machine entity from to message ok sv :
  (observe t1 t2 machine entity from to message ok sv).1 = None <-> ok = true.
Proof. by destruct ok. Qed.

(** What the callbacks of the managers report to the validator. *)
Definition observed {S} (obs : string -> S -> S -> observation) (calls : list (nat * string * S * S))
  : list observation := (fun '(_, id, s, s') => obs id s s') <$> reverse calls.

Lemma observed_cons {S} (obs : string -> S -> S -> observation) fn id s s' calls :
  observed obs ((fn, id, s, s') :: calls) = observed obs calls ++ [obs id s s'].
Proof. unfold observed. by rewrite reverse_cons, fmap_app. Qed.

Lemma Forall_snoc_valid os o : Forall (fun o => valid o = true) os -> valid o = true ->
  Forall (fun o => valid o = true) (os ++ [o]).
Proof. intros. apply Forall_app. by repeat constructor. Qed.

Lemma pj_observed pm : ProcessJob.reachable pm -> Forall (fun o => valid o = true) (observed obsPJ (ProcessJob.calls pm)).
Proof.
  unfold ProcessJob.reachable.
  apply (invariant_rtc ProcessJob.step (fun pm => Forall (fun o => valid o = true) (observed obsPJ (ProcessJob.calls pm))));
    [| constructor].
  clear. intros pm pm' Hstep IH. destruct Hstep as [now j r c sl p pm pm' H|e now j pm pm' H|j pm pm' H|fn pm].
  - unfold ProcessJob.Create in H. destruct (ProcessJob.jobs pm !! j); [done |]. by apply Ok_inj in H as <-.
  - rewrite pj_fire_transition in H. unfold ProcessJob.transition in H.
    destruct (ProcessJob.jobs pm !! j) as [job|]; [| done].
    destruct (in_states _ _) eqn:Hin; [| done]. apply in_states_spec in Hin. apply Ok_inj in H as <-. simpl.
    destruct (ProcessJob.onChange pm); [| done]. rewrite observed_cons. apply Forall_snoc_valid; [done |].
    apply pj_table. left. by exists e.
  - unfold ProcessJob.Remove in H. destruct (ProcessJob.jobs pm !! j) as [job|]; [| done].
    destruct (ProcessJob.is_terminal _); [| done]. by apply Ok_inj in H as <-.
  - done.
Qed.

Lemma cj_observed cjm : rtc ControlJob.step NewControlJobManager cjm ->
  Forall (fun o => valid o = true) (observed obsCJ (ControlJob.calls cjm)).
Proof.
  apply (invariant_rtc ControlJob.step (fun m => Forall (fun o => valid o = true) (observed obsCJ (ControlJob.calls m))));
    [| constructor].
  clear. intros m m' Hstep IH. destruct Hstep as [now j ps p m m' H|e now j m m' H|j m m' H|fn m].
  - unfold ControlJob.Create in H. destruct (ControlJob.jobs m !! j); [done |]. by apply Ok_inj in H as <-.
  - rewrite cj_fire_transition in H. unfold ControlJob.transition in H.
    destruct (ControlJob.jobs m !! j) as [job|]; [| done].
    destruct (in_states _ _) eqn:Hin; [| done]. apply in_states_spec in Hin. apply Ok_inj in H as <-. simpl.
    destruct (ControlJob.onChange m); [| done]. rewrite observed_cons. apply Forall_snoc_valid; [done |].
    apply cj_table. by exists e.
  - unfold ControlJob.Remove in H. destruct (ControlJob.jobs m !! j) as [job|]; [| done].
    destruct (ControlJob.is_terminal _); [| done]. by apply Ok_inj in H as <-.
  - done.
Qed.

Lemma carrier_observed cm : Carrier.reachable cm ->
  Forall (fun o => valid o = true) (observed obsCarrier (Carrier.calls cm)).
Proof.
  unfold Carrier.reachable.
  apply (invariant_rtc Carrier.step (fun m => Forall (fun o => valid o = true) (observed obsCarrier (Carrier.calls m))));
    [| constructor].
  clear. intros m m' Hstep IH.
  destruct Hstep as [a ->]. unfold Carrier.act.
  destruct a as [p|p|p|now c p lot us|c|e now c|c|c sl|fn]; cbn [Carrier.attempt]; try done.
  - unfold SetPortInService. by destruct (Carrier.ports m !! p).
  - unfold SetPortOutOfService. destruct (Carrier.ports m !! p); [| done]. by destruct (negb _).
  - unfold BindCarrier. by repeat case_match; simplify_eq.
  - unfold UnbindCarrier. by repeat case_match; simplify_eq.
  - rewrite carrier_fire_transition. unfold transitionCarrier.
    destruct (carriers m !! c) as [car|]; [| done].
    destruct (in_states _ _) eqn:Hin; [| done]. apply in_states_spec in Hin. simpl.
    destruct (Carrier.onChange m); [| done]. rewrite observed_cons. apply Forall_snoc_valid; [done |].
    apply carrier_table. left. by exists e.
  - unfold mark_port_unload. by repeat case_match.
  - unfold SetSlotMap. by destruct (carriers m !! c).
Qed.

Lemma validate_all_spec os : forall sv,
  let '(vs, sv') := validate_all os sv in
  (fun v => bool_decide (v = None)) <$> vs = valid <$> os.*2
  /\ (exists ts, transitions sv' = transitions sv ++ ts /\ t_Valid <$> ts = valid <$> os.*2)
  /\ violations sv' = violations sv ++ concat (option_list <$> vs)
  /\ (logs_agree sv -> logs_agree sv').
Proof.
  induction os as [|[[t1 t2] o] os IH]; intros sv; simpl.
  { split_and!; [done | by exists []; rewrite app_nil_r | by rewrite app_nil_r | done]. }
  destruct (validate_observe t1 t2 o sv) as (m & e & f & t & txt & ->).
  pose proof (observe_spec t1 t2 m e f t txt (valid o) sv) as Ho.
  destruct (observe t1 t2 m e f t txt (valid o) sv) as [v sv1]. destruct Ho as (Hv & Ht & Hvi & Hl).
  specialize (IH sv1). destruct (validate_all os sv1) as [vs sv2].
  destruct IH as (IHv & (ts & IHt & IHts) & IHvi & IHl). simpl. split_and!.
  - f_equal; [| exact IHv]. destruct v, (valid o); simpl; naive_solver.
  - eexists. rewrite IHt, Ht, <- app_assoc. split; [done |]. simpl. f_equal. exact IHts.
  - by rewrite IHvi, Hvi, <- app_assoc.
  - auto.
Qed.

(** ** Properties *)

(** A validator answers each transition with a violation exactly when the pair
    is not in the table, records every transition in order, and keeps in its
    second log exactly the violations it has answered, which name the invalid
    transitions of the first log one by one. *)
Theorem validator_spec os :
  let '(vs, sv) := validate_all os NewStateValidator in
  (fun v => bool_decide (v = None)) <$> vs = valid <$> os.*2
  /\ t_Valid <$> Transitions sv = valid <$> os.*2
  /\ Violations sv = concat (option_list <$> vs)
  /\ violation_key <$> Violations sv = transition_key <$> filter (fun t => t_Valid t = false) (Transitions sv).
Proof.
  pose proof (validate_all_spec os NewStateValidator) as H.
  destruct (validate_all os NewStateValidator) as [vs sv].
  destruct H as (Hv & (ts & Ht & Hts) & Hvi & Hl). simpl in *. unfold Transitions, Violations.
  split_and!; [done | by rewrite Ht | done | by apply Hl].
Qed.

(** The tables against the state machines, edge by edge.  The communication
    and E94 tables hold exactly the moves the code can make; the E40 and E87
    tables hold them and three moves the managers refuse.  Of the moves of the
    control state between different states, the validator takes all but those
    that go online from OFFLINE/EQUIPMENT, which is the state every session
    starts in. *)
Theorem tables_exact :
  (forall c c', in_table validCommTransitions c c' = true <-> c <> c' /\ exists o, comm_edge o c c')
  /\ (forall s s', in_table validCJTransitions s s' = true <-> ControlJob.edge s s')
  /\ (forall s s', in_table validPJTransitions s s' = true
        <-> ProcessJob.edge s s' \/ (s = PJStopped /\ (s' = PJSettingUp \/ s' = PJAborting)))
  /\ (forall s s', in_table validCarrierTransitions s s' = true
        <-> carrier_edge s s' \/ (s = CarrierWaitingForHost /\ s' = CarrierReadyToUnload))
  /\ (forall o s s', control_edge o s s' -> s <> s' ->
        in_table validControlTransitions s s' = false
        <-> s = ControlOfflineEquipment /\ (s' = ControlOnlineLocal \/ s' = ControlOnlineRemote)).
Proof.
  split; [exact comm_table |]. split; [exact cj_table |]. split; [exact pj_table |]. split; [exact carrier_table |].
  intros o s s' He Hne.
  destruct He; try done; destruct s; try done; vm_compute; split; (done || naive_solver).
Qed.

Lemma tables_exact_witness :
  ControlJob.edge CJPaused CJExecuting
  /\ in_table validControlTransitions ControlOfflineEquipment ControlOnlineRemote = false.
Proof.
  pose proof tables_exact as (_ & Hcj & _ & _ & Hctl). split; [by apply Hcj |].
  apply (Hctl opRemote); [constructor | done | auto].
Defined.

(** C39: What the state machine of a session does is checked against the validator's
    transition tables, both ways and for every sequence of calls.  The moves of
    the communication state between two different states are exactly the pairs
    that [ValidateCommTransition] accepts.  The control state never is
    OFFLINE/HOST, and its moves are exactly the accepted pairs that avoid it and
    the two pairs that go online straight from OFFLINE/EQUIPMENT, which
    [ValidateControlTransition] reports as violations.  Online equipment is
    communicating. *)
Theorem moves_exact :
  (forall t1 t2 sv c c', c <> c' ->
     (comm_move c c' <-> (ValidateCommTransition t1 t2 c c' sv).1 = None))
  /\ (forall t1 t2 sv s s', s <> s' ->
       (control_move s s' <->
          s <> ControlOfflineHost /\ s' <> ControlOfflineHost
          /\ ((ValidateControlTransition t1 t2 s s' sv).1 = None
              \/ (s = ControlOfflineEquipment /\ (s' = ControlOnlineLocal \/ s' = ControlOnlineRemote)
                  /\ (ValidateControlTransition t1 t2 s s' sv).1 <> None))))
  /\ (forall sm, GemState.reachable sm ->
       controlState sm <> ControlOfflineHost /\ (IsOnline sm = true -> IsCommunicating sm = true)).
Proof.
  split_and!.
  - intros t1 t2 sv c c' Hne. unfold ValidateCommTransition. rewrite observe_accepts. by apply comm_moves.
  - intros t1 t2 sv s s' Hne. unfold ValidateControlTransition. rewrite observe_accepts, not_true_iff_false.
    by apply control_moves.
  - intros sm Hr. split; [by apply never_offline_host | by apply online_communicating].
Qed.

(** A validator that is told of every move the E40, E94 and E87 managers report
    never raises a violation, whatever calls were made to the managers. *)
Theorem moves_pass pm cjm cm (ts : observation -> Z * Z) :
  ProcessJob.reachable pm -> rtc ControlJob.step NewControlJobManager cjm -> Carrier.reachable cm ->
  let os := observed obsPJ (ProcessJob.calls pm) ++ observed obsCJ (ControlJob.calls cjm)
            ++ observed obsCarrier (Carrier.calls cm) in
  let '(vs, sv) := validate_all ((fun o => (ts o, o)) <$> os) NewStateValidator in
  Violations sv = [] /\ length (Transitions sv) = length os /\ Forall (fun v => v = None) vs.
Proof.
  intros Hp Hc Ha os.
  assert (Hos : Forall (fun o => valid o = true) os)
    by (apply Forall_app; split; [by apply pj_observed | apply Forall_app; split; [by apply cj_observed | by apply carrier_observed]]).
  pose proof (validate_all_spec ((fun o => (ts o, o)) <$> os) NewStateValidator) as H.
  destruct (validate_all _ NewStateValidator) as [vs sv].
  destruct H as (Hv & (l & Ht & Hts) & Hvi & _). simpl in *. unfold Transitions, Violations.
  assert (Hkeys : ((fun o => (ts o, o)) <$> os).*2 = os) by (rewrite <- list_fmap_compose; apply list_fmap_id).
  rewrite Hkeys in Hv, Hts.
  assert (Hnone : Forall (fun v => v = None) vs).
  { clear -Hv Hos. revert vs Hv. induction Hos as [|o os Ho _ IH]; intros [|v vs] Hv; try done. simpl in Hv.
    injection Hv as Hv Hvs. rewrite Ho in Hv. apply bool_decide_eq_true in Hv. constructor; auto. }
  split; [| split; [| done]].
  - rewrite Hvi. clear -Hnone. induction Hnone as [|v vs -> _ IH]; [done | exact IH].
  - rewrite Ht. rewrite <- (length_fmap t_Valid l), Hts, length_fmap. done.
Qed.

Lemma moves_pass_witness :
  let pm0 := ProcessJob.OnStateChange (Some 3%nat) NewProcessJobManager in
  let pm1 := keep (ProcessJob.Create 0 "PJ1" "R1" "C1" [1] ∅ pm0) pm0 in
  let pm := keep (ProcessJob.Setup 4 "PJ1" pm1) pm1 in
  let '(vs, sv) := validate_all [((7, 8), obsPJ "PJ1" PJQueued PJSettingUp)] NewStateValidator in
  observed obsPJ (ProcessJob.calls pm) = [obsPJ "PJ1" PJQueued PJSettingUp] /\ Violations sv = [].
Proof.
  intros pm0 pm1 pm.
  assert (Hpm : ProcessJob.reachable pm).
  { eapply rtc_l; [apply ProcessJob.step_callback |]. eapply rtc_l; [by apply (ProcessJob.step_create 0 "PJ1" "R1" "C1" [1] ∅) |].
    apply rtc_once. by apply (ProcessJob.step_fire ProcessJob.evSetup 4 "PJ1"). }
  pose proof (moves_pass pm NewControlJobManager NewCarrierManager (fun _ => (7, 8)) Hpm (rtc_refl _ _) (rtc_refl _ _)) as H.
  split; [reflexivity |]. exact (proj1 H).
Defined.
