(* ===== verification/Schema.v ===== *)
(** * Message schemas

    [src/pkg/validator/schema.go]: what the bodies of the standard messages must
    look like, the check of a message against its schema, and the schemas of
    [DefaultRegistry].  A result carries the constructor of [check]
    with the values it prints, [check_text] its text. *)

From stdpp Require Import prelude gmap strings list pretty.
From Stdlib Require Import ZArith Lia.
From S2P Require Import Prelude GoStrings Secs2Item.

#[local] Open Scope Z_scope.

Inductive Direction := HostToEquip | EquipToHost | Bidirectional.

Definition Direction_String (d : Direction) : string :=
  match d with HostToEquip => "H->E" | EquipToHost => "E->H" | Bidirectional => "H<->E" end.

Inductive Level := LevelPass | LevelWarn | LevelFail.

#[global] Instance Level_eq_dec : EqDecision Level.
Proof. solve_decision. Defined.

Definition Level_String (l : Level) : string :=
  match l with LevelPass => "PASS" | LevelWarn => "WARN" | LevelFail => "FAIL" end.

(** The integer a level is. *)
Definition severity (l : Level) : Z := match l with LevelPass => 0 | LevelWarn => 1 | LevelFail => 2 end.

(** The messages, with what they print. *)
Inductive check :=
| BodyNotExpected (stream function : Z)
| NoBodyOK (stream function : Z)
| BodyMissing (stream function : Z)
| WrongFormat (name : string) (want got : Z)
| TooFewElements (name : string) (length min : Z)
| TooManyElements (name : string) (length max : Z)
| NotAllowed (name : string) (val : Z) (allowed : list Z)
| Missing (name : string) (optional : bool)
| Valid (name : string).

Record ValidationResult := mkResult { r_Level : Level; r_Path : string; r_Message : check }.

Inductive ItemSchema := Schema
  (Format : Z) (Name : string) (MinLen MaxLen : Z) (Children : list ItemSchema) (AllowedBytes : list Z)
  (Optional : bool).

Definition is_Name (s : ItemSchema) : string := let 'Schema _ n _ _ _ _ _ := s in n.
Definition is_Optional (s : ItemSchema) : bool := let 'Schema _ _ _ _ _ _ o := s in o.

Record MessageSchema := mkMS {
  ms_Stream : Z;
  ms_Function : Z;
  ms_Name : string;
  ms_Direction : Direction;
  ms_WBit : bool;
  ms_Body : option ItemSchema;
  ms_Standard : string;
}.

Record SchemaRegistry := mkRegistry { schemas : gmap (Z * Z) MessageSchema }.

Definition NewSchemaRegistry : SchemaRegistry := mkRegistry ∅.

Definition Register (s : MessageSchema) (r : SchemaRegistry) : SchemaRegistry :=
  mkRegistry (<[(ms_Stream s, ms_Function s) := s]> (schemas r)).

Definition Get (r : SchemaRegistry) (stream function : Z) : option MessageSchema := schemas r !! (stream, function).

Definition All `{!MapOrder (Z * Z)} (r : SchemaRegistry) : list MessageSchema := (range_map (schemas r)).*2.

Definition Count (r : SchemaRegistry) : Z := Z.of_nat (size (schemas r)).

(** ** Checking an item *)

Definition nameOrPath (name path : string) : string :=
  if negb (String.eqb name "") then name else if negb (String.eqb path "") then path else "root".

Definition childPath (parent : string) (index : Z) : string := parent +:+ "[" +:+ pretty index +:+ "]".

(** The loop over the child schemas; [validate] is [validateItem]. *)
Definition validate_children
    (validate : ItemSchema -> option item -> string -> result access_error (list ValidationResult))
    (path : string) (children : list (option item))
  : Z -> list ItemSchema -> result access_error (list ValidationResult) :=
  fix go i schemas :=
    match schemas with
    | [] => Ok []
    | childSchema :: rest =>
        if len children <=? i then
          more ← go (i + 1) rest;
          Ok (if is_Optional childSchema then more
              else mkResult LevelWarn (childPath path i)
                     (Missing (nameOrPath (is_Name childSchema) (childPath path i)) (is_Optional childSchema)) :: more)
        else
          child ← idx children i;
          rs ← validate childSchema child (childPath path i);
          more ← go (i + 1) rest;
          Ok (rs ++ more)
    end.

(** The check of the first byte of a binary item. *)
Definition byte_check (format : Z) (AllowedBytes : list Z) (it : item) : result access_error (option Z) :=
  if (format =? FormatBinary) && (0 <? len AllowedBytes) then
    data ← attempt (ToBinary it);
    match data with
    | Some (val :: _) => Ok (if existsb (fun b => val =? b) AllowedBytes then None else Some val)
    | _ => Ok None
    end
  else Ok None.

Fixpoint validateItem (schema : ItemSchema) (p : option item) (path : string)
  : result access_error (list ValidationResult) :=
  match schema with
  | Schema fmt name minLen maxLen children allowed _ =>
      it ← deref p;
      let nm := nameOrPath name path in
      if negb (format it =? fmt) then Ok [mkResult LevelFail path (WrongFormat nm fmt (format it))]
      else
        n ← Len it;
        items ← Items it;
        let length := if fmt =? FormatList then len items else n in
        if (0 <? minLen) && (length <? minLen)
        then Ok [mkResult LevelFail path (TooFewElements nm length minLen)]
        else if (0 <=? maxLen) && (maxLen <? length)
        then Ok [mkResult LevelFail path (TooManyElements nm length maxLen)]
        else
          bad ← byte_check fmt allowed it;
          match bad with
          | Some val => Ok [mkResult LevelFail path (NotAllowed nm val allowed)]
          | None =>
              results ← (if (fmt =? FormatList) && (0 <? len children)
                         then validate_children validateItem path items 0 children else Ok []);
              Ok (if len results =? 0 then [mkResult LevelPass path (Valid nm)] else results)
          end
  end.

Definition ValidateMessage (r : SchemaRegistry) (stream function : Z) (body : option item)
  : result access_error (list ValidationResult) :=
  match Get r stream function with
  | None => Ok []
  | Some schema =>
      match ms_Body schema with
      | None =>
          n ← match body with Some it => Len it | None => Ok 0 end;
          if 0 <? n then Ok [mkResult LevelWarn "" (BodyNotExpected stream function)]
          else Ok [mkResult LevelPass "" (NoBodyOK stream function)]
      | Some s =>
          match body with
          | None => Ok [mkResult LevelFail "" (BodyMissing stream function)]
          | Some it => validateItem s (Some it) ""
          end
      end
  end.

Definition MaxLevel (results : list ValidationResult) : Level :=
  foldl (fun max r => if severity max <? severity (r_Level r) then r_Level r else max) LevelPass results.

(** ** The text of the results *)

Definition check_text (c : check) : string :=
  match c with
  | BodyNotExpected s f => "S" +:+ pretty s +:+ "F" +:+ pretty f +:+ ": body present but not expected"
  | NoBodyOK s f => "S" +:+ pretty s +:+ "F" +:+ pretty f +:+ ": no body expected (OK)"
  | BodyMissing s f => "S" +:+ pretty s +:+ "F" +:+ pretty f +:+ ": body missing"
  | WrongFormat nm want got => nm +:+ ": expected " +:+ Format_String want +:+ ", got " +:+ Format_String got
  | TooFewElements nm length min => nm +:+ ": too few elements (" +:+ pretty length +:+ " < " +:+ pretty min +:+ ")"
  | TooManyElements nm length max => nm +:+ ": too many elements (" +:+ pretty length +:+ " > " +:+ pretty max +:+ ")"
  | NotAllowed nm val allowed => nm +:+ ": value 0x" +:+ hex2 val +:+ " not in allowed set " +:+ bytes_text allowed
  | Missing nm optional => nm +:+ ": missing (optional=" +:+ bool_text optional +:+ ")"
  | Valid nm => nm +:+ ": valid"
  end.

Definition newline : string := String (Ascii.ascii_of_nat 10) "".

Fixpoint FormatResults (results : list ValidationResult) : string :=
  match results with
  | [] => ""
  | r :: rest => "[" +:+ Level_String (r_Level r) +:+ "] " +:+ check_text (r_Message r) +:+ newline +:+ FormatResults rest
  end.

Lemma FormatResults_app a b : FormatResults (a ++ b) = FormatResults a +:+ FormatResults b.
Proof. induction a as [|r a IH]; [done|]. cbn [FormatResults app]. rewrite IH. by rewrite !append_assoc. Qed.

Example format_result :
  FormatResults [mkResult LevelFail "" (NotAllowed "ACKC5" 171 [0; 1]); mkResult LevelWarn "[1]" (Missing "[1]" false)]
  = "[FAIL] ACKC5: value 0xAB not in allowed set [0 1]" +:+ newline +:+ "[WARN] [1]: missing (optional=false)" +:+ newline.
Proof. reflexivity. Qed.

(** ** The standard messages *)

(** Streams 1 and 2. *)
Definition equipment_schemas : list MessageSchema :=
  [
   mkMS 1 1 "Are You There" HostToEquip true None "E30";
   mkMS 1 2 "On Line Data" EquipToHost false
     (Some (Schema FormatList "S1F2" 2 2 [
        Schema FormatASCII "MDLN" 0 (-1) [] [] false;
        Schema FormatASCII "SOFTREV" 0 (-1) [] [] false] [] false)) "E30";
   mkMS 1 3 "Selected Equipment Status Request" HostToEquip true None "E30";
   mkMS 1 4 "Selected Equipment Status Data" EquipToHost false
     (Some (Schema FormatList "S1F4" 0 (-1) [] [] false)) "E30";
   mkMS 1 11 "Status Variable Namelist Request" HostToEquip true None "E30";
   mkMS 1 12 "Status Variable Namelist Reply" EquipToHost false
     (Some (Schema FormatList "S1F12" 0 (-1) [] [] false)) "E30";
   mkMS 1 13 "Establish Communication Request" Bidirectional true None "E30";
   mkMS 1 14 "Establish Communication Ack" Bidirectional false
     (Some (Schema FormatList "S1F14" 2 2 [
        Schema FormatBinary "COMMACK" 1 1 [] [0; 1] false;
        Schema FormatList "MDLN/SOFTREV" 0 2 [
          Schema FormatASCII "MDLN" 0 (-1) [] [] true;
          Schema FormatASCII "SOFTREV" 0 (-1) [] [] true] [] false] [] false)) "E30";
   mkMS 1 15 "Request OFF-LINE" HostToEquip true None "E30";
   mkMS 1 16 "OFF-LINE Ack" EquipToHost false
     (Some (Schema FormatBinary "OFLACK" 1 1 [] [0; 1] false)) "E30";
   mkMS 1 17 "Request ON-LINE" HostToEquip true None "E30";
   mkMS 1 18 "ON-LINE Ack" EquipToHost false
     (Some (Schema FormatBinary "ONLACK" 1 1 [] [0; 1; 2] false)) "E30";
   mkMS 2 13 "Equipment Constant Request" HostToEquip true None "E30";
   mkMS 2 14 "Equipment Constant Data" EquipToHost false
     (Some (Schema FormatList "S2F14" 0 (-1) [] [] false)) "E30";
   mkMS 2 15 "New Equipment Constant Send" HostToEquip true
     (Some (Schema FormatList "S2F15" 0 (-1) [] [] false)) "E30";
   mkMS 2 16 "New Equipment Constant Ack" EquipToHost false
     (Some (Schema FormatBinary "EAC" 1 1 [] [0; 1; 2; 3] false)) "E30";
   mkMS 2 29 "Equipment Constant Namelist Request" HostToEquip true None "E30";
   mkMS 2 30 "Equipment Constant Namelist Reply" EquipToHost false
     (Some (Schema FormatList "S2F30" 0 (-1) [] [] false)) "E30";
   mkMS 2 33 "Define Report" HostToEquip true
     (Some (Schema FormatList "S2F33" 2 2 [] [] false)) "E30";
   mkMS 2 34 "Define Report Ack" EquipToHost false
     (Some (Schema FormatBinary "DRACK" 1 1 [] [0; 1; 2; 3; 4; 5] false)) "E30";
   mkMS 2 35 "Link Event Report" HostToEquip true
     (Some (Schema FormatList "S2F35" 2 2 [] [] false)) "E30";
   mkMS 2 36 "Link Event Report Ack" EquipToHost false
     (Some (Schema FormatBinary "LRACK" 1 1 [] [0; 1; 2; 3; 4; 5] false)) "E30";
   mkMS 2 37 "Enable/Disable Event Report" HostToEquip true
     (Some (Schema FormatList "S2F37" 2 2 [] [] false)) "E30";
   mkMS 2 38 "Enable/Disable Event Report Ack" EquipToHost false
     (Some (Schema FormatBinary "ERACK" 1 1 [] [0; 1] false)) "E30";
   mkMS 2 41 "Host Command Send" HostToEquip true
     (Some (Schema FormatList "S2F41" 2 2 [
        Schema FormatASCII "RCMD" 1 (-1) [] [] false;
        Schema FormatList "PARAMS" 0 (-1) [] [] false] [] false)) "E30";
   mkMS 2 42 "Host Command Ack" EquipToHost false
     (Some (Schema FormatList "S2F42" 2 2 [
        Schema FormatBinary "HCACK" 1 1 [] [0; 1; 2; 3; 4; 5; 6] false;
        Schema FormatList "CPACK_LIST" 0 (-1) [] [] false] [] false)) "E30"
].

(** Streams 3 to 16. *)
Definition material_schemas : list MessageSchema :=
  [
   mkMS 3 17 "Carrier Action Request" HostToEquip true
     (Some (Schema FormatList "S3F17" 3 (-1) [] [] false)) "E87";
   mkMS 3 18 "Carrier Action Ack" EquipToHost false
     (Some (Schema FormatList "S3F18" 2 2 [] [] false)) "E87";
   mkMS 5 1 "Alarm Report Send" EquipToHost true
     (Some (Schema FormatList "S5F1" 3 3 [
        Schema FormatBinary "ALCD" 1 1 [] [] false;
        Schema FormatU4 "ALID" 1 1 [] [] false;
        Schema FormatASCII "ALTX" 0 (-1) [] [] false] [] false)) "E30";
   mkMS 5 2 "Alarm Report Ack" HostToEquip false
     (Some (Schema FormatBinary "ACKC5" 1 1 [] [0; 1] false)) "E30";
   mkMS 5 3 "Enable/Disable Alarm Send" HostToEquip true
     (Some (Schema FormatList "S5F3" 2 2 [
        Schema FormatBinary "ALED" 1 1 [] [] false;
        Schema FormatU4 "ALID" 1 1 [] [] false] [] false)) "E30";
   mkMS 5 4 "Enable/Disable Alarm Ack" EquipToHost false
     (Some (Schema FormatBinary "ACKC5" 1 1 [] [0; 1] false)) "E30";
   mkMS 5 5 "List Alarms Request" HostToEquip true None "E30";
   mkMS 5 6 "List Alarms Data" EquipToHost false
     (Some (Schema FormatList "S5F6" 0 (-1) [] [] false)) "E30";
   mkMS 5 7 "List Enabled Alarms Request" HostToEquip true None "E30";
   mkMS 5 8 "List Enabled Alarms Data" EquipToHost false
     (Some (Schema FormatList "S5F8" 0 (-1) [] [] false)) "E30";
   mkMS 6 11 "Event Report Send" EquipToHost true
     (Some (Schema FormatList "S6F11" 3 3 [
        Schema FormatU4 "DATAID" 1 1 [] [] false;
        Schema FormatU4 "CEID" 1 1 [] [] false;
        Schema FormatList "RPT_LIST" 0 (-1) [] [] false] [] false)) "E30";
   mkMS 6 12 "Event Report Ack" HostToEquip false
     (Some (Schema FormatBinary "ACKC6" 1 1 [] [0; 1] false)) "E30";
   mkMS 16 11 "Process Job Create Request" HostToEquip true
     (Some (Schema FormatList "S16F11" 3 (-1) [] [] false)) "E40";
   mkMS 16 12 "Process Job Create Ack" EquipToHost false
     (Some (Schema FormatList "S16F12" 2 2 [] [] false)) "E40";
   mkMS 16 15 "Process Job Command Request" HostToEquip true
     (Some (Schema FormatList "S16F15" 2 2 [] [] false)) "E40";
   mkMS 16 16 "Process Job Command Ack" EquipToHost false
     (Some (Schema FormatList "S16F16" 2 2 [] [] false)) "E40"].

Definition default_schemas : list MessageSchema := equipment_schemas ++ material_schemas.

Definition DefaultRegistry : SchemaRegistry := foldl (fun r s => Register s r) NewSchemaRegistry default_schemas.

(** ** What a schema means

    [conforms strict s it]: the item has the format, the length and the first
    byte the schema allows, and its children conform one by one.  Only [strict]
    asks for the children that are not optional. *)

Definition item_len (it : item) : Z :=
  if format it =? FormatASCII then
    match values it with VString s :: _ => Z.of_nat (String.length s) | _ => 0 end
  else if format it =? FormatBinary then match values it with VBytes b :: _ => len b | _ => 0 end
  else len (values it).

Definition child_items (it : item) : list item :=
  omap (fun v => match v with VItem p => p | _ => None end) (values it).

Definition first_byte (it : item) : option Z :=
  match values it with VBytes (b :: _) :: _ => Some b | _ => None end.

Definition children_conform (conf : ItemSchema -> item -> bool) (strict : bool)
  : list ItemSchema -> list item -> bool :=
  fix go schemas its :=
    match schemas with
    | [] => true
    | s :: rest =>
        match its with
        | [] => (negb strict || is_Optional s) && go rest []
        | it :: its' => conf s it && go rest its'
        end
    end.

Fixpoint conforms (strict : bool) (schema : ItemSchema) (it : item) : bool :=
  match schema with
  | Schema fmt _ minLen maxLen children allowed _ =>
      (format it =? fmt)
      && (minLen <=? Z.max 0 (item_len it)) && ((maxLen <? 0) || (item_len it <=? maxLen))
      && (negb (fmt =? FormatBinary) || (len allowed =? 0)
          || match first_byte it with Some b => existsb (Z.eqb b) allowed | None => true end)
      && (negb (fmt =? FormatList) || children_conform (conforms strict) strict children (child_items it))
  end.

(** ** Lemmas *)

Section schema_ind.
Variable P : ItemSchema -> Prop.
Hypothesis step : forall f n mi ma cs a o, (forall c, c ∈ cs -> P c) -> P (Schema f n mi ma cs a o).

Fixpoint schema_tree_ind (s : ItemSchema) : P s.
  Proof.
    destruct s as [f n mi ma cs a o]. apply step. induction cs as [|d cs IH]; intros c Hc.
    - exfalso. by apply elem_of_nil in Hc.
    - pose proof (schema_tree_ind d) as Hd.
      apply elem_of_cons in Hc as [->|Hc]; [exact Hd | exact (IH c Hc)].
  Defined.
End schema_ind.

Lemma MaxLevel_le k rs :
  0 <= k -> severity (MaxLevel rs) <= k <-> Forall (fun r => severity (r_Level r) <= k) rs.
Proof.
  intros Hk. unfold MaxLevel. assert (H : forall l, severity (foldl (fun max r =>
      if severity max <? severity (r_Level r) then r_Level r else max) l rs) <= k
    <-> severity l <= k /\ Forall (fun r => severity (r_Level r) <= k) rs).
  { induction rs as [|r rs IH]; intros l; simpl; [naive_solver |]. rewrite IH, Forall_cons.
    destruct (Z.ltb_spec (severity l) (severity (r_Level r))); split; intuition lia. }
  rewrite H. simpl. intuition lia.
Qed.

(** The accessors on a well-formed item. *)
Lemma Len_ok it : well_formed it = true -> Len (E:=access_error) it = Ok (item_len it).
Proof.
  destruct it as [f vs]. intros H%well_formed_cases.
  destruct H as [cs -> -> _ _|s -> -> _|b -> -> _ _|[->| ->] ->|Hs _ _]; try reflexivity.
  unfold Len, item_len. simpl. destruct (Z.eqb_spec f FormatASCII) as [->|_]; [done |].
  by destruct (Z.eqb_spec f FormatBinary) as [->|_].
Qed.

Lemma mapM_items {E} (cs : list item) : mapM (as_item (E:=E)) ((VItem ∘ Some) <$> cs) = Ok (Some <$> cs).
Proof. induction cs as [|c cs IH]; [done |]. cbn. by rewrite IH. Qed.

Lemma child_items_list cs : child_items (Item FormatList ((VItem ∘ Some) <$> cs)) = cs.
Proof. unfold child_items. simpl. induction cs as [|c cs IH]; [done |]. cbn. by rewrite IH. Qed.

Lemma Items_ok it :
  well_formed it = true -> format it = FormatList ->
  Items (E:=access_error) it = Ok (Some <$> child_items it) /\ len (child_items it) = item_len it
  /\ forallb well_formed (child_items it) = true.
Proof.
  destruct it as [f vs]. intros H%well_formed_cases Hf. simpl in Hf. subst f.
  destruct H as [cs _ -> _ Hcs|s Hf|b Hf|[Hf|Hf]|Hf]; try discriminate Hf.
  rewrite child_items_list. unfold Items, item_len. simpl. rewrite mapM_items.
  split_and!; [done | by unfold len; rewrite length_fmap | done].
Qed.

Lemma byte_check_ok f allowed it :
  well_formed it = true -> format it = f ->
  byte_check f allowed it = Ok (match first_byte it with
    | Some v => if (f =? FormatBinary) && (0 <? len allowed) && negb (existsb (Z.eqb v) allowed) then Some v else None
    | None => None
    end).
Proof.
  destruct it as [f' vs]. intros H%well_formed_cases Hf. simpl in Hf. subst f'. unfold byte_check, first_byte.
  destruct (Z.eqb_spec f FormatBinary) as [->|Hf]; cbn [andb]; [| by repeat case_match].
  destruct (0 <? len allowed); cbn [andb]; [| by repeat case_match].
  destruct H as [cs Hf -> _ _|s Hf|b _ -> _ _|_ ->|Hf]; try discriminate Hf; [| done].
  destruct b as [|v b]; [done |]. cbn. by destruct (existsb (Z.eqb v) allowed).
Qed.

(** The level a grade admits: without [strict], a warning. *)
Definition admitted (strict : bool) : Z := if strict then 0 else 1.

(** [rs] is a non-empty verdict, and its grades are those of [conf]. *)
Definition verdict (rs : list ValidationResult) (conf : bool -> bool) : Prop :=
  forall strict, Forall (fun r => severity (r_Level r) <= admitted strict) rs <-> conf strict = true.

Lemma verdict_fail r : r_Level r = LevelFail -> verdict [r] (fun _ => false).
Proof.
  intros Hr strict. rewrite Forall_cons, Hr. destruct strict; simpl; split; [intros [? _] | done | intros [? _] | done]; lia.
Qed.

Lemma validate_children_ok validate path cs schemas :
  (forall s c p, s ∈ schemas -> c ∈ cs ->
     exists rs, validate s (Some c) p = Ok rs /\ verdict rs (fun b => conforms b s c)) ->
  forall i, 0 <= i -> exists rs, validate_children validate path (Some <$> cs) i schemas = Ok rs
    /\ verdict rs (fun b => children_conform (conforms b) b schemas (drop (Z.to_nat i) cs)).
Proof.
  induction schemas as [|s schemas IH]; intros Hv i Hi.
  { exists []. split; [done |]. intros b. by rewrite Forall_nil. }
  destruct (IH ltac:(set_solver) (i + 1) ltac:(lia)) as (more & Hm & Hmv). simpl.
  assert (Hlen : len (Some <$> cs) = len cs) by (unfold len; by rewrite length_fmap). rewrite Hlen, Hm.
  replace (Z.to_nat (i + 1)) with (S (Z.to_nat i)) in Hmv by lia.
  destruct (Z.leb_spec (len cs) i) as [Hle|Hlt].
  - cbn [mbind result_bind]. eexists. split; [done |]. intros b. specialize (Hmv b).
    rewrite drop_ge in Hmv by (unfold len in Hle; lia). rewrite drop_ge by (unfold len in Hle; lia).
    rewrite andb_true_iff, <- Hmv. destruct (is_Optional s); [by destruct b; simpl; intuition |].
    rewrite Forall_cons. destruct b; simpl; intuition (lia || done).
  - destruct (lookup_lt_is_Some_2 cs (Z.to_nat i)) as [c Hc]; [unfold len in Hlt; lia |].
    rewrite (idx_nat _ (Z.to_nat i) i (Some c)) by (try lia; by rewrite list_lookup_fmap, Hc). cbn [mbind result_bind].
    destruct (Hv s c (childPath path i) ltac:(set_solver) (list_elem_of_lookup_2 _ _ _ Hc)) as (rs & -> & Hrs).
    cbn [mbind result_bind]. eexists. split; [done |]. intros b.
    rewrite (drop_S cs c) by done. by rewrite Forall_app, andb_true_iff, (Hrs b), (Hmv b).
Qed.

(** The checks behind those of the format and the length. *)
Lemma validate_body f n cs a it items path :
  well_formed it = true -> format it = f ->
  (f = FormatList -> items = Some <$> child_items it /\ forallb well_formed (child_items it) = true) ->
  (forall c, c ∈ cs -> forall it p, well_formed it = true ->
     exists rs, validateItem c (Some it) p = Ok rs /\ rs <> [] /\ verdict rs (fun b => conforms b c it)) ->
  exists rs,
    (bad ← byte_check f a it;
     match bad with
     | Some val => Ok [mkResult LevelFail path (NotAllowed n val a)]
     | None =>
         results ← (if (f =? FormatList) && (0 <? len cs)
                    then validate_children validateItem path items 0 cs else Ok []);
         Ok (if len results =? 0 then [mkResult LevelPass path (Valid n)] else results)
     end) = Ok rs
    /\ rs <> []
    /\ verdict rs (fun b =>
         (negb (f =? FormatBinary) || (len a =? 0)
          || match first_byte it with Some v => existsb (Z.eqb v) a | None => true end)
         && (negb (f =? FormatList) || children_conform (conforms b) b cs (child_items it))).
Proof.
  intros Hwf Hf Hch IH. rewrite (byte_check_ok f a it Hwf Hf). cbn [mbind result_bind].
  assert (Hbyte : match first_byte it with
      | Some v => if (f =? FormatBinary) && (0 <? len a) && negb (existsb (Z.eqb v) a) then Some v else None
      | None => None
      end = None
    <-> negb (f =? FormatBinary) || (len a =? 0)
          || match first_byte it with Some v => existsb (Z.eqb v) a | None => true end = true).
  { pose proof (len_nonneg a). destruct (first_byte it) as [v|]; [| by rewrite orb_true_r].
    destruct (f =? FormatBinary), (Z.ltb_spec 0 (len a)), (Z.eqb_spec (len a) 0), (existsb (Z.eqb v) a);
      simpl; (done || lia). }
  destruct (match first_byte it with Some _ => _ | None => _ end) as [v|].
  { eexists. split; [done |]. split; [done |].
    destruct (_ || match first_byte it with Some v => _ | None => true end); [by destruct Hbyte as [_ Hb]; specialize (Hb eq_refl) |].
    by apply verdict_fail. }
  rewrite (proj1 Hbyte eq_refl). cbn [andb].
  assert (Hres : exists results,
    (if (f =? FormatList) && (0 <? len cs) then validate_children validateItem path items 0 cs else Ok []) = Ok results
    /\ verdict results (fun b => negb (f =? FormatList) || children_conform (conforms b) b cs (child_items it))).
  { destruct (Z.eqb_spec f FormatList) as [Hl|Hl]; [| exists []; split; [done |]; intros b; by rewrite Forall_nil].
    destruct (Hch Hl) as [-> Hwfs]. cbn [negb andb orb].
    destruct cs as [|c cs]; [exists []; split; [done |]; intros b; by rewrite Forall_nil |].
    rewrite len_cons, (proj2 (Z.ltb_lt _ _)) by (pose proof (len_nonneg cs); lia).
    destruct (validate_children_ok validateItem path (child_items it) (c :: cs)) with (i := 0) as (rs & Hrs & Hv).
    - intros s x p Hs Hx. rewrite forallb_forall in Hwfs.
      destruct (IH s Hs x p) as (rs & Hrs & _ & Hv); [by apply Hwfs, list_elem_of_In | by exists rs].
    - lia.
    - exists rs. by rewrite drop_0 in Hv. }
  destruct Hres as (results & -> & Hv). cbn [mbind result_bind]. eexists. split; [done |].
  destruct results as [|r results].
  - split; [done |]. intros b. rewrite <- (Hv b), Forall_nil. change (len (@nil ValidationResult) =? 0) with true.
    cbv iota. rewrite Forall_singleton. simpl. by destruct b.
  - rewrite (proj2 (Z.eqb_neq _ _)) by (rewrite len_cons; pose proof (len_nonneg results); lia).
    split; [done | exact Hv].
Qed.

Lemma validateItem_ok schema : forall it path,
  well_formed it = true ->
  exists rs, validateItem schema (Some it) path = Ok rs /\ rs <> [] /\ verdict rs (fun b => conforms b schema it).
Proof.
  induction schema as [f n mi ma cs a o IH] using schema_tree_ind. intros it path Hwf.
  cbn [validateItem conforms deref mbind result_bind]. cbv zeta.
  destruct (Z.eqb_spec (format it) f) as [Hf|]; cbn [negb andb]; [| eexists; split; [done |]; split; [done | by apply verdict_fail]].
  rewrite (Len_ok it Hwf). cbn [mbind result_bind].
  assert (Hitems : exists items, Items (E:=access_error) it = Ok items
    /\ (if f =? FormatList then len items else item_len it) = item_len it
    /\ (f = FormatList -> items = Some <$> child_items it /\ forallb well_formed (child_items it) = true)).
  { destruct (Z.eqb_spec f FormatList) as [Hl|Hl].
    - rewrite Hl in Hf. destruct (Items_ok it Hwf Hf) as (-> & Hlen & Hch). eexists. split; [done |].
      split; [unfold len in *; by rewrite length_fmap | done].
    - exists []. split; [| done]. unfold Items. rewrite Hf. by destruct (Z.eqb_spec f FormatList). }
  destruct Hitems as (items & -> & Hlen & Hch). cbn [mbind result_bind]. rewrite Hlen.
  assert (Hnn : 0 <= item_len it) by (unfold item_len; repeat case_match; try apply len_nonneg; lia).
  replace ((0 <? mi) && (item_len it <? mi)) with (negb (mi <=? Z.max 0 (item_len it)))
    by (destruct (Z.leb_spec mi (Z.max 0 (item_len it))), (Z.ltb_spec 0 mi), (Z.ltb_spec (item_len it) mi); done || lia).
  replace ((0 <=? ma) && (ma <? item_len it)) with (negb ((ma <? 0) || (item_len it <=? ma)))
    by (destruct (Z.ltb_spec ma 0), (Z.leb_spec (item_len it) ma), (Z.leb_spec 0 ma), (Z.ltb_spec ma (item_len it)); done || lia).
  destruct (mi <=? Z.max 0 (item_len it)); cbn [negb andb]; [| eexists; split; [done |]; split; [done | by apply verdict_fail]].
  destruct ((ma <? 0) || (item_len it <=? ma)); cbn [negb andb]; [| eexists; split; [done |]; split; [done | by apply verdict_fail]].
  by apply validate_body.
Qed.

Lemma severity_pass l : severity l <= admitted true <-> l = LevelPass.
Proof. destruct l; simpl; split; (done || lia). Qed.

Lemma severity_not_fail l : severity l <= admitted false <-> l <> LevelFail.
Proof. destruct l; simpl; split; (done || lia). Qed.

Lemma verdict_level rs conf :
  verdict rs conf -> (MaxLevel rs = LevelPass <-> conf true = true) /\ (MaxLevel rs <> LevelFail <-> conf false = true).
Proof.
  intros Hv. rewrite <- severity_pass, <- severity_not_fail, !MaxLevel_le by done. split; apply Hv.
Qed.

(** What the wire does not carry makes no difference to a schema. *)
Lemma normalize_facts it :
  well_formed it = true ->
  format (normalize it) = format it /\ item_len (normalize it) = item_len it
  /\ first_byte (normalize it) = first_byte it
  /\ (format it = FormatList -> child_items (normalize it) = normalize <$> child_items it).
Proof.
  destruct it as [f vs]. intros H%well_formed_cases.
  destruct H as [cs -> -> _ _|s -> -> _|b -> -> _ _|[->| ->] ->|Hs _ _].
  - assert (Hn : normalize_children normalize ((VItem ∘ Some) <$> cs) = (VItem ∘ Some) <$> (normalize <$> cs))
      by (induction cs as [|c cs IH]; [done |]; cbn; by rewrite IH).
    cbn [normalize]. change (FormatList =? FormatList) with true. cbv iota. rewrite Hn.
    unfold item_len, first_byte. cbn [format values]. split_and!; [done | unfold len; simpl; by rewrite !length_fmap | by destruct cs |].
    intros _. by rewrite !child_items_list.
  - by destruct s.
  - by destruct b.
  - done.
  - done.
  - assert (Hf : (f =? FormatList) = false /\ (f =? FormatASCII) = false /\ (f =? FormatBinary) = false).
    { split_and!; apply Z.eqb_neq; intros ->; discriminate Hs. }
    destruct Hf as (H1 & H2 & H3). cbn [normalize]. rewrite H1, H2, H3. split_and!; try done.
    cbn [format]. intros ->. discriminate H1.
Qed.

Lemma conforms_normalize strict schema : forall it,
  well_formed it = true -> conforms strict schema (normalize it) = conforms strict schema it.
Proof.
  induction schema as [f n mi ma cs a o IH] using schema_tree_ind. intros it Hwf. cbn [conforms].
  destruct (normalize_facts it Hwf) as (-> & -> & -> & Hch).
  destruct (Z.eqb_spec (format it) f) as [Hf|]; [| done]. f_equal.
  destruct (Z.eqb_spec f FormatList) as [Hl|]; [| done]. cbn [negb orb].
  rewrite Hch by congruence. destruct (Items_ok it Hwf ltac:(congruence)) as (_ & _ & Hwfs). clear -IH Hwfs.
  revert Hwfs. generalize (child_items it) as its. induction cs as [|c cs IHcs]; intros its Hwfs; [done |].
  assert (IH' : forall c0, c0 ∈ cs -> forall it, well_formed it = true -> conforms strict c0 (normalize it) = conforms strict c0 it)
    by (intros c0 Hc0 x Hx; apply IH; [by apply list_elem_of_further | done]).
  destruct its as [|x its]; cbn.
  - done.
  - cbn in Hwfs. apply andb_true_iff in Hwfs as [Hw Hws]. rewrite (IH c) by (set_solver || done).
    f_equal. exact (IHcs IH' its Hws).
Qed.

(** ** Properties *)

(** C24: Validation decides conformance: of a message without a registered schema it
    says nothing, and otherwise it always has a verdict on a well-formed body.  A
    body nobody expects is a warning, a missing one a failure; a body passes
    exactly when it conforms to the schema with all its required children, and
    fails exactly when it does not conform even without them. *)
Theorem validation_decides r s f body :
  (forall it, body = Some it -> well_formed it = true) ->
  match Get r s f with
  | None => ValidateMessage r s f body = Ok []
  | Some ms =>
      exists rs, ValidateMessage r s f body = Ok rs /\ rs <> []
      /\ match ms_Body ms, body with
         | None, None => MaxLevel rs = LevelPass
         | None, Some it => MaxLevel rs = if 0 <? item_len it then LevelWarn else LevelPass
         | Some _, None => MaxLevel rs = LevelFail
         | Some sch, Some it =>
             (MaxLevel rs = LevelPass <-> conforms true sch it = true)
             /\ (MaxLevel rs <> LevelFail <-> conforms false sch it = true)
         end
  end.
Proof.
  intros Hb. unfold ValidateMessage. destruct (Get r s f) as [ms|]; [| done].
  destruct (ms_Body ms) as [sch|], body as [it|].
  - destruct (validateItem_ok sch it "" (Hb it eq_refl)) as (rs & -> & Hne & Hv).
    exists rs. split; [done |]. split; [done |]. exact (verdict_level rs _ Hv).
  - by eexists.
  - rewrite (Len_ok it (Hb it eq_refl)). cbn [mbind result_bind]. destruct (0 <? item_len it); by eexists.
  - by eexists.
Qed.

Lemma validation_decides_witness :
  let it := NewList [Some (NewBinary [1]); Some (NewList [Some (NewASCII "M")])] in
  well_formed it = true
  /\ (exists rs, ValidateMessage DefaultRegistry 1 14 (Some it) = Ok rs /\ MaxLevel rs = LevelPass)
  /\ exists rs, ValidateMessage DefaultRegistry 1 14 (Some (NewASCII "M")) = Ok rs /\ MaxLevel rs = LevelFail.
Proof.
  intros it. split; [reflexivity |]. split.
  - destruct (validation_decides DefaultRegistry 1 14 (Some it)) as (rs & Hrs & _ & Hp & _); [by intros ? [= <-] |].
    exists rs. split; [exact Hrs |]. apply Hp. reflexivity.
  - eexists. split; reflexivity.
Defined.

(** The requests S1F3 and S1F13 may carry a body, as their comments say and the
    host of [src/pkg/simulator/host.go] sends one; the registered schemas expect
    none, and the validator warns. *)
Lemma request_bodies_warned :
  (forall svid, ValidateMessage DefaultRegistry 1 3 (Some (NewList [Some (NewU4 [svid])]))
     = Ok [mkResult LevelWarn "" (BodyNotExpected 1 3)])
  /\ (forall m v, ValidateMessage DefaultRegistry 1 13 (Some (NewList [Some (NewASCII m); Some (NewASCII v)]))
     = Ok [mkResult LevelWarn "" (BodyNotExpected 1 13)]).
Proof. split; reflexivity. Qed.
