(* ===== verification/Conformance.v ===== *)
(** * Conformance of the handler to the message schemas

    The coverage report of [src/pkg/validator/report.go], and the agreement of
    three descriptions of the same messages: what [HandleMessage], [SendAlarm]
    and [SendEvent] of [src/pkg/driver/gem/handler.go] send, the schemas of
    [DefaultRegistry], and the list [handledSFs] the report is made from. *)

From stdpp Require Import prelude gmap strings list sorting.
From Stdlib Require Import ZArith Lia SpecFloat.
From S2P Require Import Prelude Secs2Item Secs2Codec HsmsMessage Policy.
From S2P Require Import GemState GemVariables GemEvents GemAlarms GemCommands Transport GemHandler GemSafety Schema.

#[local] Open Scope Z_scope.

(** ** The coverage report *)

Inductive ImplementationStatus := ImplFull | ImplPartial | ImplNone.

#[global] Instance ImplementationStatus_eq_dec : EqDecision ImplementationStatus.
Proof. solve_decision. Defined.

Definition ImplementationStatus_String (s : ImplementationStatus) : string :=
  match s with ImplFull => "FULL" | ImplPartial => "PARTIAL" | ImplNone => "NONE" end.

Record SFCoverage := mkSFCoverage {
  sf_Stream : Z;
  sf_Function : Z;
  sf_Name : string;
  sf_Direction : string;
  sf_Standard : string;
  sf_Status : ImplementationStatus;
}.

Record StandardCoverage := mkStandard {
  sc_Standard : string;
  Handled : Z;
  Expected : Z;
  Percentage : spec_float;
}.

Record CoverageReport := mkReport {
  Standards : list StandardCoverage;
  SFDetail : list SFCoverage;
  TotalHandled : Z;
  TotalExpected : Z;
  TotalPercentage : spec_float;
}.

Definition handledSFs : list (Z * Z) :=
  [(1, 1); (1, 3); (1, 11); (1, 13);
   (1, 15); (1, 17);
   (2, 13); (2, 15); (2, 29);
   (2, 33); (2, 35); (2, 37); (2, 41);
   (5, 3); (5, 5); (5, 7);
   (1, 2); (1, 4); (1, 12); (1, 14);
   (1, 16); (1, 18);
   (2, 14); (2, 16); (2, 30);
   (2, 34); (2, 36); (2, 38); (2, 42);
   (5, 4); (5, 6); (5, 8);
   (5, 1); (6, 11)].

(** [float64(a) / float64(b) * 100] *)
Definition percentage (a b : Z) : spec_float :=
  SFmul 53 1024 (SFdiv 53 1024 (f64_of_Z a) (f64_of_Z b)) (f64_of_Z 100).

(** The orders of the two calls of [sort.Slice]. *)
Definition sf_le (a b : MessageSchema) : Prop :=
  ms_Stream a < ms_Stream b \/ (ms_Stream a = ms_Stream b /\ ms_Function a <= ms_Function b).
Definition standard_le (a b : StandardCoverage) : Prop := String.le (sc_Standard a) (sc_Standard b).

#[global] Instance sf_le_dec a b : Decision (sf_le a b).
Proof. unfold sf_le. apply _. Defined.
#[global] Instance standard_le_dec a b : Decision (standard_le a b).
Proof. unfold standard_le. apply _. Defined.

Definition status_of (s : MessageSchema) : ImplementationStatus :=
  if decide ((ms_Stream s, ms_Function s) ∈ handledSFs) then ImplFull else ImplNone.

Definition detail (s : MessageSchema) : SFCoverage :=
  mkSFCoverage (ms_Stream s) (ms_Function s) (ms_Name s) (Direction_String (ms_Direction s)) (ms_Standard s)
    (status_of s).

(** The aggregation of one schema in [stdMap]. *)
Definition count_schema (stdMap : gmap string StandardCoverage) (s : MessageSchema) : gmap string StandardCoverage :=
  let sc := default (mkStandard (ms_Standard s) 0 0 (f64_of_Z 0)) (stdMap !! ms_Standard s) in
  let handled := match status_of s with ImplFull | ImplPartial => Handled sc + 1 | ImplNone => Handled sc end in
  <[ms_Standard s := mkStandard (sc_Standard sc) handled (Expected sc + 1) (Percentage sc)]> stdMap.

Definition with_percentage (sc : StandardCoverage) : StandardCoverage :=
  if 0 <? Expected sc
  then mkStandard (sc_Standard sc) (Handled sc) (Expected sc) (percentage (Handled sc) (Expected sc))
  else sc.

Definition sum (f : StandardCoverage -> Z) (l : list StandardCoverage) : Z := foldl (fun acc sc => acc + f sc) 0 l.

Definition GenerateReport `{!MapOrder (Z * Z), !MapOrder string} (registry : SchemaRegistry) : CoverageReport :=
  let schemas := merge_sort sf_le (All registry) in
  let stdMap := foldl count_schema ∅ schemas in
  let standards := with_percentage <$> (range_map stdMap).*2 in
  let handled := sum Handled standards in
  let expected := sum Expected standards in
  mkReport (merge_sort standard_le standards) (detail <$> schemas) handled expected
    (if 0 <? expected then percentage handled expected else f64_of_Z 0).

(** ** Lemmas on the report *)

#[global] Instance sf_le_trans : Transitive sf_le.
Proof. intros a b c. unfold sf_le. lia. Qed.
#[global] Instance sf_le_total : Total sf_le.
Proof. intros a b. unfold sf_le. lia. Qed.
#[global] Instance standard_le_trans : Transitive standard_le.
Proof. intros a b c. unfold standard_le. by transitivity (sc_Standard b). Qed.
#[global] Instance standard_le_total : Total standard_le.
Proof. intros a b. unfold standard_le. apply total, _. Qed.

(** Every schema is stored under its own stream and function. *)
Definition keyed (r : SchemaRegistry) : Prop :=
  map_Forall (fun k s => k = (ms_Stream s, ms_Function s)) (schemas r).

Lemma keyed_register s r : keyed r -> keyed (Register s r).
Proof. intros H. by apply map_Forall_insert_2. Qed.

Lemma keyed_default : keyed DefaultRegistry.
Proof.
  unfold DefaultRegistry. assert (H : forall l r, keyed r -> keyed (foldl (fun r s => Register s r) r l)).
  { induction l as [|s l IH]; intros r Hr; [done |]. by apply IH, keyed_register. }
  apply H, map_Forall_empty.
Qed.

Lemma All_perm `{MO1 : !MapOrder (Z * Z)} (MO2 : MapOrder (Z * Z)) r : All (MapOrder0:=MO1) r ≡ₚ All (MapOrder0:=MO2) r.
Proof. unfold All. by rewrite !range_map_perm. Qed.

Lemma elem_of_All `{!MapOrder (Z * Z)} r s : s ∈ All r <-> exists k, schemas r !! k = Some s.
Proof.
  unfold All. rewrite list_elem_of_fmap. split.
  - intros ([k s'] & -> & Hin). exists k. by apply elem_of_range_map.
  - intros [k Hk]. exists (k, s). split; [done |]. by apply elem_of_range_map.
Qed.

Lemma sorted_schemas `{MO1 : !MapOrder (Z * Z)} (MO2 : MapOrder (Z * Z)) r :
  keyed r -> merge_sort sf_le (All (MapOrder0:=MO1) r) = merge_sort sf_le (All (MapOrder0:=MO2) r).
Proof.
  intros Hk. apply (Sorted_unique_strong sf_le); try apply Sorted_merge_sort, _.
  - intros x1 x2. rewrite !merge_sort_Permutation, !elem_of_All. intros [k1 H1] [k2 H2] H12 H21.
    pose proof (Hk _ _ H1) as E1. pose proof (Hk _ _ H2) as E2. simpl in E1, E2.
    assert (k1 = k2) as ->; [| congruence]. subst. unfold sf_le in *. f_equal; lia.
  - rewrite !merge_sort_Permutation. apply All_perm.
Qed.

Lemma sum_acc f l a : foldl (fun acc sc => acc + f sc) a l = a + sum f l.
Proof.
  unfold sum. revert a. induction l as [|x l IH]; intros a; cbn [foldl]; [lia |]. rewrite IH, (IH (0 + f x)). lia.
Qed.

Lemma sum_cons f x l : sum f (x :: l) = f x + sum f l.
Proof. unfold sum at 1. simpl. by rewrite sum_acc. Qed.

Lemma sum_perm f l l' : l ≡ₚ l' -> sum f l = sum f l'.
Proof. induction 1; rewrite ?sum_cons; lia. Qed.

Lemma sum_percentage f l :
  (forall sc, f (with_percentage sc) = f sc) -> sum f (with_percentage <$> l) = sum f l.
Proof. intros Hf. induction l as [|x l IH]; [done |]. by rewrite fmap_cons, !sum_cons, Hf, IH. Qed.

(** The sum over a map of standards. *)
Definition map_sum (f : StandardCoverage -> Z) (m : gmap string StandardCoverage) : Z := sum f (map_to_list m).*2.

Lemma map_sum_insert f m k x :
  map_sum f (<[k := x]> m) = map_sum f m + f x - match m !! k with Some y => f y | None => 0 end.
Proof.
  unfold map_sum. rewrite <- insert_delete_eq.
  rewrite (sum_perm f _ ((k, x) :: map_to_list (delete k m)).*2)
    by (by rewrite map_to_list_insert by apply lookup_delete_eq).
  rewrite fmap_cons, sum_cons. simpl. destruct (m !! k) as [y|] eqn:Hk.
  - rewrite (sum_perm f (map_to_list m).*2 ((k, y) :: map_to_list (delete k m)).*2)
      by (by rewrite map_to_list_delete).
    rewrite fmap_cons, sum_cons. simpl. lia.
  - rewrite delete_id by done. lia.
Qed.

Definition is_handled (s : MessageSchema) : Z := if decide ((ms_Stream s, ms_Function s) ∈ handledSFs) then 1 else 0.

(** The number of schemas that are handled. *)
Definition count_handled (l : list MessageSchema) : Z := foldr (fun s acc => is_handled s + acc) 0 l.

Lemma count_schemas l : forall m,
  map_sum Expected (foldl count_schema m l) = map_sum Expected m + len l
  /\ map_sum Handled (foldl count_schema m l) = map_sum Handled m + count_handled l.
Proof.
  induction l as [|s l IH]; intros m; [rewrite len_nil; simpl; lia |]. simpl foldl. rewrite len_cons.
  destruct (IH (count_schema m s)) as [-> ->]. unfold count_schema. rewrite !map_sum_insert.
  simpl. unfold status_of, is_handled. destruct (m !! ms_Standard s), (decide (_ ∈ handledSFs)); simpl; lia.
Qed.

Lemma count_handled_perm l l' : l ≡ₚ l' -> count_handled l = count_handled l'.
Proof. induction 1; simpl; lia. Qed.

(** Every standard is counted under its own name. *)
Definition named (m : gmap string StandardCoverage) : Prop := map_Forall (fun k sc => k = sc_Standard sc) m.

Lemma named_count l : forall m, named m -> named (foldl count_schema m l).
Proof.
  induction l as [|s l IH]; intros m Hm; [done |]. apply IH. unfold count_schema.
  apply map_Forall_insert_2; [| done]. simpl.
  destruct (m !! ms_Standard s) as [sc|] eqn:E; [exact (Hm _ _ E) | done].
Qed.

Lemma standards_perm (MO1 MO2 : MapOrder string) (m : gmap string StandardCoverage) :
  with_percentage <$> (range_map (MapOrder:=MO1) m).*2 ≡ₚ with_percentage <$> (range_map (MapOrder:=MO2) m).*2.
Proof. by rewrite !range_map_perm. Qed.

Lemma with_percentage_standard sc : sc_Standard (with_percentage sc) = sc_Standard sc.
Proof. unfold with_percentage. by destruct (0 <? Expected sc). Qed.

Lemma sorted_standards (MO1 MO2 : MapOrder string) m :
  named m ->
  merge_sort standard_le (with_percentage <$> (range_map (MapOrder:=MO1) m).*2)
  = merge_sort standard_le (with_percentage <$> (range_map (MapOrder:=MO2) m).*2).
Proof.
  intros Hm. apply (Sorted_unique_strong standard_le); try apply Sorted_merge_sort, _.
  - intros x1 x2. rewrite !merge_sort_Permutation, !list_elem_of_fmap.
    intros (sc1 & -> & H1) (sc2 & -> & H2) H12 H21.
    apply list_elem_of_fmap in H1 as ([k1 s1] & -> & H1). apply list_elem_of_fmap in H2 as ([k2 s2] & -> & H2).
    apply elem_of_range_map in H1, H2. pose proof (Hm _ _ H1) as E1. pose proof (Hm _ _ H2) as E2. simpl in *.
    unfold standard_le in *. rewrite !with_percentage_standard in *.
    assert (sc_Standard s1 = sc_Standard s2) by (by apply (anti_symm String.le)).
    f_equal. congruence.
  - rewrite !merge_sort_Permutation. apply standards_perm.
Qed.

Lemma sum_range (MO : MapOrder string) f m :
  (forall sc, f (with_percentage sc) = f sc) -> sum f (with_percentage <$> (range_map (MapOrder:=MO) m).*2) = map_sum f m.
Proof. intros Hf. rewrite sum_percentage by done. apply sum_perm. by rewrite range_map_perm. Qed.

(** ** Properties *)

(** The coverage report does not depend on the order in which Go ranges over its
    maps.  It lists every registered schema once, ordered by stream and function,
    as implemented exactly when [handledSFs] names it, and its totals count the
    registered and the implemented schemas. *)
Theorem report_spec (MO1 MO1' : MapOrder (Z * Z)) (MO2 MO2' : MapOrder string) r :
  keyed r ->
  let rep := GenerateReport (MapOrder0:=MO1) (MapOrder1:=MO2) r in
  GenerateReport (MapOrder0:=MO1') (MapOrder1:=MO2') r = rep
  /\ SFDetail rep ≡ₚ detail <$> All (MapOrder0:=MO1) r
  /\ StronglySorted (fun a b => sf_Stream a < sf_Stream b \/ (sf_Stream a = sf_Stream b /\ sf_Function a <= sf_Function b))
       (SFDetail rep)
  /\ TotalExpected rep = Count r /\ TotalHandled rep = count_handled (All (MapOrder0:=MO1) r).
Proof.
  intros Hk rep.
  assert (Hsum : forall (MA : MapOrder (Z * Z)) (MB : MapOrder string),
    let m := foldl count_schema ∅ (merge_sort sf_le (All (MapOrder0:=MA) r)) in
    sum Expected (with_percentage <$> (range_map m).*2) = Count r
    /\ sum Handled (with_percentage <$> (range_map m).*2) = count_handled (All (MapOrder0:=MO1) r)).
  { intros MA MB m. unfold m. rewrite !sum_range by (intros sc; unfold with_percentage; by destruct (0 <? Expected sc)).
    destruct (count_schemas (merge_sort sf_le (All (MapOrder0:=MA) r)) ∅) as [-> ->].
    unfold map_sum. rewrite map_to_list_empty. cbn [fmap list_fmap]. split.
    - unfold sum, Count, len. simpl. rewrite merge_sort_Permutation. unfold All.
      by rewrite length_fmap, length_range_map.
    - unfold sum. simpl. apply count_handled_perm. rewrite merge_sort_Permutation. apply All_perm. }
  split_and!.
  - destruct (Hsum MO1 MO2) as [E1 H1]. destruct (Hsum MO1' MO2') as [E2 H2].
    unfold rep, GenerateReport. cbv zeta in *. rewrite E1, H1, E2, H2.
    rewrite (sorted_schemas (MO1:=MO1') MO1 r Hk). f_equal. by apply sorted_standards, named_count.
  - unfold rep, GenerateReport. cbn [SFDetail]. by rewrite merge_sort_Permutation.
  - unfold rep, GenerateReport. cbn [SFDetail].
    pose proof (StronglySorted_merge_sort sf_le (All (MapOrder0:=MO1) r)) as Hs.
    induction Hs as [|s l Hs IH Hall]; [constructor |]. cbn [fmap list_fmap]. constructor; [exact IH |].
    apply Forall_fmap. exact Hall.
  - apply (Hsum MO1 MO2).
  - apply (Hsum MO1 MO2).
Qed.

Lemma report_spec_witness :
  keyed DefaultRegistry
  /\ TotalExpected (GenerateReport (MapOrder0:=some_order _) (MapOrder1:=some_order _) DefaultRegistry) = 42.
Proof.
  split; [exact keyed_default |].
  pose proof (report_spec (some_order _) (some_order _) (some_order _) (some_order _) DefaultRegistry keyed_default) as H.
  rewrite (proj1 (proj2 (proj2 (proj2 H)))). vm_compute. reflexivity.
Defined.

(** ** Replies and reports against their schemas *)

(** The message passes validation under the standard schemas. *)
Definition passes (s f : Z) (it : item) : Prop :=
  exists rs, ValidateMessage DefaultRegistry s f (Some it) = Ok rs /\ MaxLevel rs = LevelPass.

Lemma Items_NewList {E} (l : list (option item)) : Items (E:=E) (NewList l) = Ok l.
Proof.
  unfold Items, NewList. cbn [format values FormatList Z.eqb negb].
  induction l as [|p l IH]; [done |]. cbn. cbn in IH. by rewrite IH.
Qed.

(** A list satisfies a schema that asks for nothing but a list. *)
Lemma any_list_valid n o l p :
  validateItem (Schema FormatList n 0 (-1) [] [] o) (Some (NewList l)) p = Ok [mkResult LevelPass p (Valid (nameOrPath n p))].
Proof. cbn [validateItem deref mbind result_bind]. by rewrite Items_NewList. Qed.

Lemma passes_list s f l :
  (exists n ms, Get DefaultRegistry s f = Some ms /\ ms_Body ms = Some (Schema FormatList n 0 (-1) [] [] false)) ->
  passes s f (NewList l).
Proof.
  intros (n & ms & Hg & Hb). unfold passes, ValidateMessage. rewrite Hg, Hb, any_list_valid. by eexists.
Qed.

(** The shape of every built-in reply. *)
Definition is_list (it : item) : Prop := exists l, it = NewList l.
Definition is_ack (it : item) : Prop := it = ack 0 \/ it = ack 1.

Lemma status_reply `{!MapOrder Z} now vs msg it : handleS1F3 now vs msg = Ok it -> is_list it.
Proof.
  unfold handleS1F3. destruct (len (Data msg) =? 0); [intros <-%Ok_inj; by eexists |].
  intros H. repeat (apply bind_ok in H as (? & _ & H)). apply Ok_inj in H as <-. by eexists.
Qed.

Lemma constants_reply `{!MapOrder Z} vs msg it : handleS2F13 vs msg = Ok it -> is_list it.
Proof.
  unfold handleS2F13. destruct (len (Data msg) =? 0); intros H;
    repeat (apply bind_ok in H as (? & _ & H)); apply Ok_inj in H as <-; by eexists.
Qed.

Lemma mapM_reply {A} (f : A -> result handler_error (option item)) l it :
  (items ← mapM f l; Ok (NewList items)) = Ok it -> is_list it.
Proof. intros H. apply bind_ok in H as (items & _ & H). apply Ok_inj in H as <-. by eexists. Qed.

(** Follows the branches of a handler that answers with an acknowledge code. *)
Ltac ack_branches H :=
  repeat first
    [ apply bind_ok in H as (? & _ & H)
    | match type of H with
      | context [if ?b then _ else _] => destruct b
      | context [match ?x with _ => _ end] => destruct x
      end ];
  try discriminate H; injection H as <- <-; by (left + right).

Lemma reports_reply em msg it em' : handleS2F33 em msg = Ok (it, em') -> is_ack it.
Proof. unfold handleS2F33, is_ack. intros H. ack_branches H. Qed.

Lemma links_reply em msg it em' : handleS2F35 em msg = Ok (it, em') -> is_ack it.
Proof. unfold handleS2F35, is_ack. intros H. ack_branches H. Qed.

Lemma events_reply em msg it em' : handleS2F37 em msg = Ok (it, em') -> is_ack it.
Proof. unfold handleS2F37, is_ack. intros H. ack_branches H. Qed.

Lemma set_constants_reply vs msg it vs' : handleS2F15 vs msg = Ok (it, vs') -> is_ack it.
Proof. unfold handleS2F15, is_ack. intros H. ack_branches H. Qed.

Lemma alarm_enable_reply am msg it am' : handleS5F3 am msg = Ok (it, am') -> is_ack it.
Proof. unfold handleS5F3, is_ack. intros H. ack_branches H. Qed.

(** A registered command answers with one of the seven acknowledge codes. *)
Definition statuses_ok (cm : CommandManager) : Prop :=
  map_Forall (fun _ f => forall params, 0 <= f params <= 6) (commands cm).

Lemma execute_status cm name params : statuses_ok cm -> 0 <= Execute cm name params <= 6.
Proof.
  intros Hs. unfold Execute. destruct (commands cm !! name) as [f|] eqn:Hf; [exact (Hs _ _ Hf params) | done].
Qed.

Lemma command_reply_shape cm msg it :
  statuses_ok cm -> handleS2F41 cm msg = Ok it -> exists status, it = command_reply status /\ 0 <= status <= 6.
Proof.
  intros Hs. unfold handleS2F41. intros H. apply bind_ok in H as (body & _ & H). apply bind_ok in H as (n & _ & H).
  destruct (n <? 2); [apply Ok_inj in H as <-; by exists CommandParameterError |].
  apply bind_ok in H as (p0 & _ & H). apply bind_ok in H as (it0 & _ & H). apply bind_ok in H as ([name|] & _ & H).
  - apply bind_ok in H as (pl & _ & H). apply bind_ok in H as (cs & _ & H). apply bind_ok in H as (ps & _ & H).
    apply Ok_inj in H as <-. eexists. split; [done | by apply execute_status].
  - apply Ok_inj in H as <-. by exists CommandParameterError.
Qed.

Lemma passes_command status : 0 <= status <= 6 -> passes 2 42 (command_reply status).
Proof.
  intros Hs. assert (H : status = 0 \/ status = 1 \/ status = 2 \/ status = 3 \/ status = 4 \/ status = 5 \/ status = 6) by lia.
  repeat destruct H as [->|H]; try subst status; (eexists; split; reflexivity).
Qed.

Lemma passes_ack s f it :
  In (s, f) [(1, 16); (1, 18); (2, 16); (2, 34); (2, 36); (2, 38); (5, 4)] -> is_ack it -> passes s f it.
Proof.
  intros Hin Hit. simpl in Hin. repeat destruct Hin as [[= <- <-]|Hin]; try done;
    destruct Hit as [->| ->]; (eexists; split; reflexivity).
Qed.

Lemma passes_any_list s f it :
  In (s, f) [(1, 4); (1, 12); (2, 14); (2, 30); (5, 6); (5, 8)] -> is_list it -> passes s f it.
Proof.
  intros Hin [l ->]. apply passes_list. simpl in Hin.
  repeat destruct Hin as [[= <- <-]|Hin]; try done; (do 2 eexists; split; reflexivity).
Qed.

(** One child that is there. *)
Lemma children_step validate path children i s rest c rs :
  0 <= i -> children !! Z.to_nat i = Some c -> validate s c (childPath path i) = Ok rs ->
  validate_children validate path children i (s :: rest)
  = (more ← validate_children validate path children (i + 1) rest; Ok (rs ++ more)).
Proof.
  intros Hi Hc Hv. cbn [validate_children]. pose proof (lookup_lt_Some _ _ _ Hc).
  rewrite (proj2 (Z.leb_gt _ _)) by (unfold len; lia).
  rewrite (idx_nat _ (Z.to_nat i) i c) by (done || lia). cbn [mbind result_bind]. by rewrite Hv.
Qed.

(** A list of three whose elements are valid is valid. *)
Lemma three_valid n s1 s2 s3 i1 i2 i3 r1 r2 r3 :
  validateItem s1 (Some i1) (childPath "" 0) = Ok [r1] -> validateItem s2 (Some i2) (childPath "" 1) = Ok [r2] ->
  validateItem s3 (Some i3) (childPath "" 2) = Ok [r3] ->
  validateItem (Schema FormatList n 3 3 [s1; s2; s3] [] false) (Some (NewList [Some i1; Some i2; Some i3])) ""
  = Ok [r1; r2; r3].
Proof.
  intros H1 H2 H3. cbn [validateItem deref mbind result_bind]. rewrite Items_NewList.
  assert (Hc : validate_children validateItem "" [Some i1; Some i2; Some i3] 0 [s1; s2; s3] = Ok [r1; r2; r3]).
  { erewrite children_step; [| done | done | exact H1]. erewrite children_step; [| done | done | exact H2].
    erewrite children_step; [| done | done | exact H3]. done. }
  cbn [mbind result_bind]. change (_ && _) with true at 3. cbv iota.
  rewrite Hc. done.
Qed.

Lemma passes_event dataID ceid l : passes 6 11 (NewList [Some (NewU4 [dataID]); Some (NewU4 [ceid]); Some (NewList l)]).
Proof.
  unfold passes, ValidateMessage.
  change (Get DefaultRegistry 6 11) with (Some (mkMS 6 11 "Event Report Send" EquipToHost true
    (Some (Schema FormatList "S6F11" 3 3 [
       Schema FormatU4 "DATAID" 1 1 [] [] false;
       Schema FormatU4 "CEID" 1 1 [] [] false;
       Schema FormatList "RPT_LIST" 0 (-1) [] [] false] [] false)) "E30")).
  cbv iota beta. cbn [ms_Body]. eexists. split; [apply three_valid; [done | done | apply any_list_valid] | done].
Qed.

Lemma normalize_wf it : well_formed it = true -> well_formed (normalize it) = true.
Proof.
  intros Hwf. destruct (well_formed_encode it Hwf) as (bs & _ & Hok & Hdec).
  pose proof (Decode_post bs Hok) as Hp. rewrite Hdec in Hp. apply Hp.
Qed.

Lemma passes_normalize s f it : well_formed it = true -> passes s f it -> passes s f (normalize it).
Proof.
  intros Hwf (rs & Hrs & Hl). unfold passes, ValidateMessage in *.
  destruct (Get DefaultRegistry s f) as [ms|]; [| by eexists].
  pose proof (normalize_wf it Hwf) as Hwf'. destruct (ms_Body ms) as [sch|].
  - destruct (validateItem_ok sch it "" Hwf) as (rs1 & H1 & _ & Hv1). rewrite H1 in Hrs. apply Ok_inj in Hrs. subst rs1.
    destruct (validateItem_ok sch (normalize it) "" Hwf') as (rs2 & -> & _ & Hv2). exists rs2. split; [done |].
    apply (verdict_level _ _ Hv2). rewrite conforms_normalize by done. by apply (verdict_level _ _ Hv1).
  - rewrite Len_ok in * by done. rewrite (proj1 (proj2 (normalize_facts it Hwf))). cbn [mbind result_bind] in *. by exists rs.
Qed.

(** What the other end makes of an item that passes. *)
Lemma passes_on_wire s f it :
  well_formed it = true -> passes s f it ->
  exists bs it', Encode (Some it) = Ok bs /\ Decode bs = Ok it' /\ passes s f it'.
Proof.
  intros Hwf Hp. destruct (well_formed_encode it Hwf) as (bs & Henc & _ & Hdec).
  exists bs, (normalize it). split_and!; [done | done | by apply passes_normalize].
Qed.

(** ** Properties *)

Section conformance.
Context {T : Type} `{!Sender T}.
Implicit Types (h : Handler T) (msg : Message).

Lemma builtin_passes `{!MapOrder Z} now msg h it h' :
  statuses_ok (commandMgr h) -> builtin now msg h = Some (Ok (it, h')) ->
  passes (Stream (hdr msg)) (wrap 8 (Function (hdr msg) + 1)) it.
Proof.
  intros Hcmd Hb. unfold builtin in Hb. set (s := Stream (hdr msg)) in *. set (f := Function (hdr msg)) in *.
  dispatch Hb; apply (inj Some) in Hb;
    first [apply reading_ok in Hb as [Hb ->] | apply and_then_ok in Hb as (x & Hb & ->)]; rewrite e, e0;
    match goal with |- passes _ ?g _ => let g' := eval vm_compute in g in change g with g' end.
  all: try (apply passes_any_list; [simpl; tauto |];
    first [by eapply status_reply | by eapply constants_reply | by eapply mapM_reply | apply Ok_inj in Hb as <-; by eexists]).
  all: try (apply passes_ack; [simpl; tauto |];
    first [by eapply reports_reply | by eapply links_reply | by eapply events_reply
          | by eapply set_constants_reply | by eapply alarm_enable_reply
          | unfold handleS1F15, handleS1F17 in Hb; case_match; injection Hb as <- <-; by (left + right)]).
  - apply Ok_inj in Hb as <-. eexists. split; reflexivity.
  - apply Ok_inj in Hb. injection Hb as <- <-. eexists. split; reflexivity.
  - apply command_reply_shape in Hb as (status & -> & Hs); [by apply passes_command | done].
Qed.

(** C23: Every reply of a built-in handler passes validation under the standard
    schema of its stream and function, whatever the request contained, provided
    the registered commands answer with defined codes, and what the host decodes
    from the bytes of a well-formed reply passes as well; so do the alarm and event
    reports, with any content. *)
Theorem replies_conform `{!MapOrder Z} now msg h it h' :
  statuses_ok (commandMgr h) -> builtin now msg h = Some (Ok (it, h')) ->
  passes (Stream (hdr msg)) (wrap 8 (Function (hdr msg) + 1)) it
  /\ (well_formed it = true -> exists bs it', Encode (Some it) = Ok bs /\ Decode bs = Ok it'
        /\ passes (Stream (hdr msg)) (wrap 8 (Function (hdr msg) + 1)) it')
  /\ (forall alcd a, passes 5 1 (alarm_item alcd a))
  /\ (forall vs dataID ceid rvs, passes 6 11 (event_body vs now dataID ceid rvs)).
Proof.
  intros Hcmd Hb. pose proof (builtin_passes now msg h it h' Hcmd Hb) as Hp.
  split_and!; intros; [exact Hp | by apply passes_on_wire | eexists; split; reflexivity | apply passes_event].
Qed.

(** The list the coverage report is made from is true of the handler: a message
    with an odd function is in [handledSFs] exactly when the built-in dispatch
    takes it or it is one of the two reports, the reply of every message the
    dispatch takes is in the list, and every message of the list has a standard
    schema. *)
Theorem handled_exact `{!MapOrder Z} now msg h :
  let s := Stream (hdr msg) in
  let f := Function (hdr msg) in
  (Z.odd f = true -> ((s, f) ∈ handledSFs <-> builtin now msg h <> None \/ (s, f) = (5, 1) \/ (s, f) = (6, 11)))
  /\ (builtin now msg h <> None -> Z.odd f = true /\ (s, f + 1) ∈ handledSFs)
  /\ (forall k, k ∈ handledSFs -> Get DefaultRegistry k.1 k.2 <> None).
Proof.
  intros s f.
  assert (Hb : builtin now msg h <> None -> Z.odd f = true /\ (s, f) ∈ handledSFs /\ (s, f + 1) ∈ handledSFs).
  { unfold builtin. fold s f. intros Hb. dispatch Hb; try (by destruct Hb);
      rewrite e, e0; (split; [done |]); split; apply list_elem_of_In; simpl; tauto. }
  split_and!.
  - intros Hodd. split.
    + intros Hin%list_elem_of_In. simpl in Hin.
      assert (Hd : (exists r, builtin now msg h = Some r) \/ (s, f) = (5, 1) \/ (s, f) = (6, 11)); [| destruct Hd as [[r ->]|Hd]; [by left | by right]].
      unfold builtin. fold s f.
      repeat destruct Hin as [Hin|Hin]; try done; pose proof (f_equal fst Hin) as E1; pose proof (f_equal snd Hin) as E2;
        simpl in E1, E2; rewrite <- E2 in Hodd; try discriminate Hodd; rewrite <- E1, <- E2; auto; left; by eexists.
    + intros [H|[H|H]]; [by apply Hb | rewrite H; apply list_elem_of_In; simpl; tauto..].
  - intros H. destruct (Hb H) as (? & _ & ?). done.
  - intros k Hk%list_elem_of_In. simpl in Hk. repeat destruct Hk as [<-|Hk]; done.
Qed.
End conformance.

Lemma replies_conform_witness :
  let h := NewHandler (T:=list Message) [] 1 "M" "1.0" in
  let msg := NewDataMessage 1 1 17 true 5 [] in
  statuses_ok (commandMgr h)
  /\ builtin (MapOrder0:=some_order Z) 0 msg h = Some (Ok (ack 1, GemHandler.set_state NewStateMachine h))
  /\ passes 1 18 (ack 1).
Proof.
  intros h msg. assert (Hc : statuses_ok (commandMgr h)) by apply map_Forall_empty.
  assert (Hb : builtin (MapOrder0:=some_order Z) 0 msg h = Some (Ok (ack 1, GemHandler.set_state NewStateMachine h)))
    by reflexivity.
  split; [exact Hc |]. split; [exact Hb |].
  exact (proj1 (replies_conform (MapOrder0:=some_order Z) 0 msg h (ack 1) _ Hc Hb)).
Defined.
