(* ===== verification/Timing.v ===== *)
(** * The timing tracker

    [src/pkg/validator/timing.go]: matches replies with requests and compares the
    time they took with the time-outs of HSMS.  Durations are nanoseconds, the
    clock is an argument; the 80 % test is the code's double arithmetic. *)

From stdpp Require Import prelude gmap strings list.
From Stdlib Require Import ZArith Lia SpecFloat.
From S2P Require Import Prelude Schema.

#[local] Open Scope Z_scope.

Inductive TimingStatus := TimingOK | TimingWarning | TimingViolation.

#[global] Instance TimingStatus_eq_dec : EqDecision TimingStatus.
Proof. solve_decision. Defined.

Definition TimingStatus_String (s : TimingStatus) : string :=
  match s with TimingOK => "OK" | TimingWarning => "WARNING" | TimingViolation => "VIOLATION" end.

Record TimingConfig := mkTimingConfig { T3 : Z; T5 : Z; T6 : Z; T7 : Z; T8 : Z }.

Definition second : Z := 1000000000.

Definition DefaultTimingConfig : TimingConfig :=
  mkTimingConfig (45 * second) (10 * second) (5 * second) (10 * second) (5 * second).

Record PendingTransaction := mkPending {
  pt_SystemID : Z;
  pt_Stream : Z;
  pt_Function : Z;
  pt_SentAt : Z;
  pt_IsControl : bool;
}.

(** [tm_ReplyAt] is zero, here [None], for a request that has no reply. *)
Record TransactionTiming := mkTiming {
  tm_SystemID : Z;
  tm_Stream : Z;
  tm_Function : Z;
  tm_SentAt : Z;
  tm_ReplyAt : option Z;
  tm_Duration : Z;
  tm_TimeoutName : string;
  tm_TimeoutLimit : Z;
  tm_Status : TimingStatus;
}.

Record TimingTracker := mkTracker {
  pending : gmap Z PendingTransaction;
  completed : list TransactionTiming;
  config : TimingConfig;
}.

Definition NewTimingTracker (cfg : TimingConfig) : TimingTracker := mkTracker ∅ [] cfg.

Definition OnSend (now systemID stream function : Z) (wBit isControl : bool) (tt : TimingTracker) : TimingTracker :=
  if negb wBit then tt
  else
    mkTracker (<[systemID := mkPending systemID stream function now isControl]> (pending tt)) (completed tt) (config tt).

(** The time-out that applies to a transaction. *)
Definition limit_of (cfg : TimingConfig) (isControl : bool) : string * Z :=
  if isControl then ("T6"%string, T6 cfg) else ("T3"%string, T3 cfg).

(** The double 0.8. *)
Definition f64_0_8 : spec_float := S754_finite false 7205759403792794 (-53).

(** [float64(duration) > float64(limit)*0.8] *)
Definition over_80_percent (duration limit : Z) : bool :=
  SFltb (SFmul 53 1024 (f64_of_Z limit) f64_0_8) (f64_of_Z duration).

Definition status_of (duration limit : Z) : TimingStatus :=
  if limit <? duration then TimingViolation
  else if over_80_percent duration limit then TimingWarning else TimingOK.

Definition OnReceive (now systemID : Z) (tt : TimingTracker) : option TransactionTiming * TimingTracker :=
  match pending tt !! systemID with
  | None => (None, tt)
  | Some pend =>
      let duration := now - pt_SentAt pend in
      let '(timeoutName, limit) := limit_of (config tt) (pt_IsControl pend) in
      let result := mkTiming systemID (pt_Stream pend) (pt_Function pend) (pt_SentAt pend) (Some now) duration
                      timeoutName limit (status_of duration limit) in
      (Some result, mkTracker (delete systemID (pending tt)) (completed tt ++ [result]) (config tt))
  end.

(** The report on one pending transaction. *)
Definition timed_out (cfg : TimingConfig) (now : Z) (pend : PendingTransaction) : option TransactionTiming :=
  let '(timeoutName, limit) := limit_of cfg (pt_IsControl pend) in
  let elapsed := now - pt_SentAt pend in
  if limit <? elapsed then
    Some (mkTiming (pt_SystemID pend) (pt_Stream pend) (pt_Function pend) (pt_SentAt pend) None elapsed
            timeoutName limit TimingViolation)
  else None.

Definition CheckPending `{!MapOrder Z} (now : Z) (tt : TimingTracker) : list TransactionTiming :=
  omap (fun '(_, pend) => timed_out (config tt) now pend) (range_map (pending tt)).

Definition Completed (tt : TimingTracker) : list TransactionTiming := completed tt.
Definition PendingCount (tt : TimingTracker) : Z := Z.of_nat (size (pending tt)).
Definition Reset (tt : TimingTracker) : TimingTracker := mkTracker ∅ [] (config tt).

(** [seen[t.SystemID]++], over the completed transactions. *)
Definition count_id (seen : gmap Z Z) (t : TransactionTiming) : gmap Z Z :=
  <[tm_SystemID t := default 0 (seen !! tm_SystemID t) + 1]> seen.
Definition count_ids (l : list TransactionTiming) : gmap Z Z := foldl count_id ∅ l.

(** A result is its level with the identifier and the count its text prints. *)
Definition CheckSystemByteUniqueness `{!MapOrder Z} (tt : TimingTracker) : list (Level * option (Z * Z)) :=
  let duplicates := filter (fun '(_, count) => 1 < count) (range_map (count_ids (completed tt))) in
  if len duplicates =? 0 then [(LevelPass, None)] else (fun d => (LevelFail, Some d)) <$> duplicates.

(** ** Calls *)

Inductive call :=
| cSend (now systemID stream function : Z) (wBit isControl : bool)
| cReceive (now systemID : Z)
| cReset.

Definition run (c : call) (tt : TimingTracker) : TimingTracker :=
  match c with
  | cSend now id s f w ctl => OnSend now id s f w ctl tt
  | cReceive now id => (OnReceive now id tt).2
  | cReset => Reset tt
  end.

Definition run_all (cs : list call) (tt : TimingTracker) : TimingTracker := foldl (fun tt c => run c tt) tt cs.

(** The call does not concern the transaction [id]. *)
Definition elsewhere (id : Z) (c : call) : Prop :=
  match c with
  | cSend _ id' _ _ w _ => w = true -> id' <> id
  | cReceive _ id' => id' <> id
  | cReset => False
  end.

Definition reachable (cfg : TimingConfig) (tt : TimingTracker) : Prop :=
  exists cs, tt = run_all cs (NewTimingTracker cfg).

Lemma run_config c tt : config (run c tt) = config tt.
Proof.
  destruct c as [n i s f w ctl|n i|]; simpl; [unfold OnSend; by destruct w | | done].
  unfold OnReceive. destruct (pending tt !! i); [| done]. by destruct (limit_of _ _).
Qed.

Lemma run_elsewhere id c tt : elsewhere id c -> pending (run c tt) !! id = pending tt !! id.
Proof.
  destruct c as [n i s f w ctl|n i|]; simpl; [| | done].
  - unfold OnSend. destruct w; simpl; [intros H; by rewrite lookup_insert_ne by auto | done].
  - intros Hne. unfold OnReceive. destruct (pending tt !! i); [| done].
    destruct (limit_of _ _); simpl. by rewrite lookup_delete_ne.
Qed.

Lemma run_all_elsewhere id cs : forall tt,
  Forall (elsewhere id) cs ->
  pending (run_all cs tt) !! id = pending tt !! id /\ config (run_all cs tt) = config tt.
Proof.
  induction cs as [|c cs IH]; intros tt Hcs; [done |]. apply Forall_cons in Hcs as [Hc Hcs].
  destruct (IH (run c tt) Hcs) as [H1 H2]. cbn [run_all foldl] in *. unfold run_all in *.
  by rewrite H1, H2, run_elsewhere, run_config.
Qed.

Lemma count_ids_lookup l : forall seen id,
  foldl count_id seen l !! id
  = if decide (id ∈ tm_SystemID <$> l)
    then Some (default 0 (seen !! id) + Z.of_nat (count_occ Z.eq_dec (tm_SystemID <$> l) id))
    else seen !! id.
Proof.
  induction l as [|t l IH]; intros seen id; [done |]. cbn [foldl fmap list_fmap]. rewrite IH. unfold count_id at 1 2. cbn [count_occ].
  destruct (Z.eq_dec (tm_SystemID t) id) as [->|Hne].
  - rewrite lookup_insert_eq, (decide_True (P:=id ∈ id :: _)) by (by left). simpl. case_decide as Hin.
    + f_equal. lia.
    + f_equal. rewrite list_elem_of_In in Hin. apply (count_occ_not_In Z.eq_dec) in Hin. rewrite Hin. lia.
  - rewrite lookup_insert_ne by done.
    destruct (decide (id ∈ tm_SystemID <$> l)) as [Hin|Hin].
    + by rewrite decide_True by (by right).
    + rewrite decide_False; [done |]. intros H. apply elem_of_cons in H as [->|H]; done.
Qed.

Lemma count_ids_some l id n :
  count_ids l !! id = Some n -> n = Z.of_nat (count_occ Z.eq_dec (tm_SystemID <$> l) id).
Proof. unfold count_ids. rewrite count_ids_lookup. case_decide; [| done]. intros [= <-]. done. Qed.

Lemma count_ids_in l id :
  id ∈ tm_SystemID <$> l -> count_ids l !! id = Some (Z.of_nat (count_occ Z.eq_dec (tm_SystemID <$> l) id)).
Proof. intros H. unfold count_ids. by rewrite count_ids_lookup, decide_True. Qed.

(** ** Properties *)

(** A reply is timed against its own request: whatever requests are sent and
    answered in between under other system ids, the tracker measures the time from
    the request to the reply, compares it with T6 for control messages and T3 for
    data, reports a violation exactly when the limit is exceeded, and forgets the
    request. *)
Theorem transaction_timed tt t0 t id s f ctl cs :
  Forall (elsewhere id) cs ->
  let tt1 := run_all cs (OnSend t0 id s f true ctl tt) in
  let limit := if ctl then T6 (config tt) else T3 (config tt) in
  exists r, (OnReceive t id tt1).1 = Some r
  /\ tm_SystemID r = id /\ tm_Stream r = s /\ tm_Function r = f /\ tm_Duration r = t - t0 /\ tm_TimeoutLimit r = limit
  /\ (tm_Status r = TimingViolation <-> limit < t - t0)
  /\ completed (OnReceive t id tt1).2 = completed tt1 ++ [r]
  /\ pending (OnReceive t id tt1).2 = delete id (pending tt1).
Proof.
  intros Hcs tt1 limit. destruct (run_all_elsewhere id cs (OnSend t0 id s f true ctl tt) Hcs) as [Hp Hc].
  fold tt1 in Hp, Hc. unfold OnSend in Hp, Hc. simpl in Hp, Hc. rewrite lookup_insert_eq in Hp.
  unfold OnReceive. rewrite Hp, Hc. cbn [pt_IsControl pt_SentAt].
  assert (Hl : limit_of (config tt) ctl = (if ctl then "T6" else "T3", limit)%string) by (by destruct ctl).
  rewrite Hl. eexists. split; [done |]. cbn [snd completed pending tm_SystemID tm_Stream tm_Function tm_Duration
    tm_TimeoutLimit tm_Status pt_Stream pt_Function]. split_and!; try done.
  unfold status_of. destruct (Z.ltb_spec limit (t - t0)); [by split |].
  split; [by destruct (over_80_percent _ _) | lia].
Qed.

Lemma transaction_timed_witness :
  let tt := NewTimingTracker DefaultTimingConfig in
  let cs := [cSend 5 8 1 1 true false; cReceive 9 8] in
  let tt1 := run_all cs (OnSend 1000 7 1 13 true false tt) in
  Forall (elsewhere 7) cs
  /\ exists r, (OnReceive (1000 + 46 * second) 7 tt1).1 = Some r /\ tm_Status r = TimingViolation.
Proof.
  intros tt cs tt1. assert (H : Forall (elsewhere 7) cs) by (repeat constructor; simpl; (done || lia)).
  split; [exact H |].
  destruct (transaction_timed tt 1000 (1000 + 46 * second) 7 1 13 false cs H)
    as (r & Hr & _ & _ & _ & _ & _ & Hs & _).
  exists r. split; [exact Hr | apply Hs; vm_compute; reflexivity].
Defined.

(** [CheckPending] reports every request that waits longer than its limit and
    no other, whatever the order of the map, and the uniqueness check passes
    exactly when no two completed transactions have the same system id; otherwise
    it fails and names an id that was used more than once. *)
Theorem tracker_checks `{!MapOrder Z} now tt :
  (forall r, r ∈ CheckPending now tt <-> exists id pend, pending tt !! id = Some pend
     /\ timed_out (config tt) now pend = Some r)
  /\ (CheckSystemByteUniqueness tt = [(LevelPass, None)] <-> NoDup (tm_SystemID <$> completed tt))
  /\ (forall l id n, (l, Some (id, n)) ∈ CheckSystemByteUniqueness tt ->
        l = LevelFail /\ 1 < n /\ n = Z.of_nat (count_occ Z.eq_dec (tm_SystemID <$> completed tt) id)).
Proof.
  assert (Hdup : forall id n, (id, n) ∈ filter (fun '(_, count) => 1 < count) (range_map (count_ids (completed tt)))
    <-> 1 < n /\ count_ids (completed tt) !! id = Some n).
  { intros id n. by rewrite list_elem_of_filter, elem_of_range_map. }
  split_and!.
  - intros r. unfold CheckPending. rewrite list_elem_of_omap. split.
    + intros ([id pend] & Hin & Hr). apply elem_of_range_map in Hin. eauto.
    + intros (id & pend & Hin & Hr). exists (id, pend). split; [by apply elem_of_range_map | done].
  - unfold CheckSystemByteUniqueness. set (dups := filter _ _) in *. rewrite NoDup_ListNoDup, (NoDup_count_occ Z.eq_dec).
    destruct dups as [|[id n] dups'] eqn:Hd; simpl.
    + split; [| done]. intros _ id. destruct (decide (id ∈ tm_SystemID <$> completed tt)) as [Hin|Hin].
      * apply count_ids_in in Hin. destruct (decide (1 < Z.of_nat (count_occ Z.eq_dec (tm_SystemID <$> completed tt) id))) as [Hlt|];
          [| lia]. exfalso. assert (H : (id, Z.of_nat (count_occ Z.eq_dec (tm_SystemID <$> completed tt) id)) ∈ @nil (Z * Z))
          by (by apply Hdup). by apply elem_of_nil in H.
      * rewrite list_elem_of_In in Hin. apply (count_occ_not_In Z.eq_dec) in Hin. rewrite Hin. lia.
    + split; [done |]. intros H. assert (Hin : (id, n) ∈ (id, n) :: dups') by (by left).
      apply Hdup in Hin as [Hlt Hc]. apply count_ids_some in Hc. specialize (H id). lia.
  - intros l id n. unfold CheckSystemByteUniqueness. set (dups := filter _ _) in *.
    destruct (len dups =? 0); [intros H%list_elem_of_singleton; done |].
    rewrite list_elem_of_fmap. intros ([id' n'] & [= -> -> ->] & Hin). apply Hdup in Hin as [Hlt Hc].
    split_and!; [done | done | by apply count_ids_some].
Qed.
