(* ===== verification/Reconnect.v ===== *)
(** * Sessions that reconnect

    [src/pkg/session/reconnect.go] on top of [HsmsSession].  An [attempt] is what
    the environment does in one round of [reconnectLoop]; callbacks are function
    values named by numbers, their calls recorded newest first. *)

From stdpp Require Import prelude relations gmap strings list.
From Stdlib Require Import ZArith Lia SpecFloat.
From S2P Require Import Prelude Lifecycle HsmsMessage Transport HsmsSession.

#[local] Open Scope Z_scope.

Record ReconnectConfig := mkReconnectConfig {
  InitialDelay : Z;
  MaxDelay : Z;
  Multiplier : spec_float;
  MaxRetries : Z;
}.

Definition DefaultReconnectConfig : ReconnectConfig :=
  mkReconnectConfig (10 * second) (300 * second) (f64_of_Z 2) 0.

Inductive callback := connected (fn : nat) | disconnected (fn : nat).

(** [done] says whether the channel is closed, [cancelled] whether the context of
    [Start] is. *)
Record ManagedSession := mkManaged {
  ms_config : Config;
  reconnCfg : ReconnectConfig;
  ms_session : option Session;
  onConnect : option nat;
  onDisconnect : option nat;
  cancelled : bool;
  done : bool;
  ms_calls : list callback;
}.

Definition NewManagedSession (c : Config) (rc : ReconnectConfig) : ManagedSession :=
  mkManaged c rc None None None false false [].

Definition OnConnect (fn : option nat) (ms : ManagedSession) : ManagedSession :=
  mkManaged (ms_config ms) (reconnCfg ms) (ms_session ms) fn (onDisconnect ms) (cancelled ms) (done ms) (ms_calls ms).
Definition OnDisconnect (fn : option nat) (ms : ManagedSession) : ManagedSession :=
  mkManaged (ms_config ms) (reconnCfg ms) (ms_session ms) (onConnect ms) fn (cancelled ms) (done ms) (ms_calls ms).

Definition set_session (s : option Session) (ms : ManagedSession) : ManagedSession :=
  mkManaged (ms_config ms) (reconnCfg ms) s (onConnect ms) (onDisconnect ms) (cancelled ms) (done ms) (ms_calls ms).
Definition call_back (cb : option callback) (ms : ManagedSession) : ManagedSession :=
  mkManaged (ms_config ms) (reconnCfg ms) (ms_session ms) (onConnect ms) (onDisconnect ms) (cancelled ms) (done ms)
    (option_list cb ++ ms_calls ms).

Definition State (ms : ManagedSession) : Transport.State :=
  match ms_session ms with None => StateDisconnected | Some s => state s end.

(** ** Connecting *)

Inductive connect_error := ConnectFailed (e : send_error) | SelectError (e : select_error).

(** The whole [Select] in an environment that answers as [env] says. *)
Definition Select (env : answer) (s : Session) : result select_error () * Session :=
  match Select_begin (ans_io env) s with
  | (Ok id, s) => Select_end (ans_wait env) id (set_pending (<[id := ans_reply env]> (pending s)) s)
  | (Err e, s) => (Err (SelectFailed e), s)
  | (Panic p, s) => (Panic p, s)
  | (OutOfFuel, s) => (OutOfFuel, s)
  end.

(** [connect] up to the lock, which does not touch the managed session, and from the
    lock on; [dial] is the outcome of the network calls: the session of an attempt that
    fails is dropped. *)
Definition connect_session (dial : bool) (env : answer) (c : Config) : result connect_error Session :=
  let '(r, session) := Connect dial dial (NewSession c) in
  _ ← wrap_err ConnectFailed r;
  match cfg_Role c with
  | RoleActive => let '(r, s) := Select env session in wrap_err SelectError (_ ← r; Ok s)
  | RolePassive => Ok session
  end.

Definition connect_commit (session : Session) (ms : ManagedSession) : ManagedSession :=
  call_back (connected <$> onConnect ms) (set_session (Some session) ms).

Definition connect (dial : bool) (env : answer) (ms : ManagedSession) : result connect_error ManagedSession :=
  session ← connect_session dial env (ms_config ms); Ok (connect_commit session ms).

(** [Start]: the error of the first attempt and the goroutine it leaves behind;
    [StartBackground] leaves the reconnect loop and attempts nothing itself. *)
Inductive goroutine := RunMonitor | RunReconnect.

Definition Start (dial : bool) (env : answer) (ms : ManagedSession)
  : result connect_error () * goroutine * ManagedSession :=
  match connect dial env ms with
  | Ok ms' => (Ok (), RunMonitor, ms')
  | Err e => (Err e, RunReconnect, ms)
  | Panic p => (Panic p, RunReconnect, ms)
  | OutOfFuel => (OutOfFuel, RunReconnect, ms)
  end.

Definition StartBackground (ms : ManagedSession) : goroutine * ManagedSession := (RunReconnect, ms).

(** ** Reconnecting *)

(** [time.Duration(f)]: towards zero; what the conversion gives outside int64 is
    up to the platform. *)
Definition duration_of (platform : spec_float -> Z) (f : spec_float) : Z :=
  match trunc_f64 f with
  | Some z => if in_signed 64 z then z else platform f
  | None => platform f
  end.

Definition next_delay (platform : spec_float -> Z) (rc : ReconnectConfig) (delay : Z) : Z :=
  let delay := duration_of platform (SFmul 53 1024 (f64_of_Z delay) (Multiplier rc)) in
  if MaxDelay rc <? delay then MaxDelay rc else delay.

(** One round: the context is done at its start, or while the timer runs, or the
    timer fires and a connection is attempted. *)
Inductive attempt := DoneAtStart | DoneWaiting | Dial (dial : bool) (env : answer).

Inductive loop_end := Stopped | GaveUp | Reconnected | Looping.

(** The loop, with the delays for which it set a timer; [Looping] is a loop whose
    environment has not decided the next round. *)
Fixpoint reconnect_rounds (platform : spec_float -> Z) (env : list attempt) (attempt delay : Z) (ms : ManagedSession)
  : loop_end * list Z * ManagedSession :=
  match env with
  | [] => (Looping, [], ms)
  | DoneAtStart :: _ => (Stopped, [], ms)
  | a :: env' =>
      let attempt := attempt + 1 in
      let rc := reconnCfg ms in
      if (0 <? MaxRetries rc) && (MaxRetries rc <? attempt) then (GaveUp, [], ms)
      else
        match a with
        | Dial dial answer =>
            match connect dial answer ms with
            | Ok ms' => (Reconnected, [delay], ms')
            | _ =>
                let '(e, delays, ms') := reconnect_rounds platform env' attempt (next_delay platform rc delay) ms in
                (e, delay :: delays, ms')
            end
        | _ => (Stopped, [delay], ms)
        end
  end.

Definition reconnectLoop (platform : spec_float -> Z) (env : list attempt) (ms : ManagedSession)
  : loop_end * list Z * ManagedSession :=
  reconnect_rounds platform env 0 (InitialDelay (reconnCfg ms)) ms.

(** [monitorLoop] when one of its channels is ready: the session's starts the
    reconnect loop.  [ctx_first] is the choice Go makes when both are. *)
Definition monitor_disconnect (platform : spec_float -> Z) (ctx_first : bool) (env : list attempt) (ms : ManagedSession)
  : loop_end * list Z * ManagedSession :=
  match ms_session ms with
  | None => (Stopped, [], ms)
  | Some s =>
      if cancelled ms && (ctx_first || negb (closed s)) then (Stopped, [], ms)
      else if negb (closed s) then (Looping, [], ms)
      else reconnectLoop platform env (call_back (disconnected <$> onDisconnect ms) (set_session None ms))
  end.

(** The session that was stopped comes back closed; [started] says whether [Start]
    has been called. *)
Definition Stop (started : bool) (ms : ManagedSession) : result send_error (option Session * ManagedSession) :=
  let ms' := mkManaged (ms_config ms) (reconnCfg ms) None (onConnect ms) (onDisconnect ms)
               (started || cancelled ms) (done ms) (ms_calls ms) in
  match ms_session ms with
  | Some s => Ok (Some (Close s), ms')
  | None =>
      if done ms then Panic CloseOfClosed
      else Ok (None, mkManaged (ms_config ms') (reconnCfg ms') None (onConnect ms') (onDisconnect ms')
                       (cancelled ms') true (ms_calls ms'))
  end.

(** ** Lemmas *)

Lemma Select_state env s s' :
  Select env s = (Ok (), s') -> state s' = StateSelected /\ closed s' = closed s.
Proof.
  unfold Select, Select_begin. case_decide; [done |]. unfold next_id. cbn zeta beta iota.
  set (s0 := mkSession _ _ _ _ _ _ _ _ _).
  unfold sendAndWait_begin. destruct (writeMessage _ _ _) as [s1|e|p|] eqn:Hw; cbn [mbind result_bind]; try done.
  apply writeMessage_ok in Hw as (data & _ & _ & _ & ->).
  unfold Select_end, sendAndWait_end. cbv zeta. destruct (match ans_wait env with GotReply => _ | _ => _ end) as [rsp| | |]; try done.
  destruct (negb _); [done |]. destruct (negb _); [done |]. intros [= <-]. done.
Qed.

Lemma connect_ok dial env ms ms' :
  connect dial env ms = Ok ms' ->
  reconnCfg ms' = reconnCfg ms /\ ms_config ms' = ms_config ms
  /\ ms_calls ms' = option_list (connected <$> onConnect ms) ++ ms_calls ms
  /\ exists s, ms_session ms' = Some s /\ closed s = false
       /\ state s = match cfg_Role (ms_config ms) with RoleActive => StateSelected | RolePassive => StateConnecting end.
Proof.
  unfold connect, connect_session. destruct dial.
  2: { pose proof (Connect_fails false false (NewSession (ms_config ms))) as H. unfold Connect. rewrite decide_False by (simpl; tauto).
       by destruct (cfg_Role _). }
  destruct (cfg_Role (ms_config ms)) eqn:Hr.
  - destruct (Connect_active (NewSession (ms_config ms)) eq_refl Hr) as (s0 & -> & _ & _ & Hc0 & _). cbn [wrap_err mbind result_bind].
    destruct (Select env s0) as [[[]| | |] s] eqn:Hs; cbn [wrap_err mbind result_bind]; try done.
    apply Select_state in Hs as [Hs Hc]. intros [= <-]. simpl. split_and!; try done. exists s. split_and!; [done| by rewrite Hc, Hc0 | done].
  - rewrite (Connect_passive _ (NewSession (ms_config ms)) eq_refl Hr). intros [= <-]. simpl. split_and!; try done. eexists. by split_and!.
Qed.

Lemma next_delay_le platform rc d : next_delay platform rc d <= MaxDelay rc.
Proof. unfold next_delay. destruct (Z.ltb_spec (MaxDelay rc) (duration_of platform (SFmul 53 1024 (f64_of_Z d) (Multiplier rc)))); lia. Qed.

(** The session the loop ends with. *)
Definition loop_result (e : loop_end) (ms ms' : ManagedSession) : Prop :=
  match e with
  | Reconnected =>
      ms_calls ms' = option_list (connected <$> onConnect ms) ++ ms_calls ms
      /\ State ms' = match cfg_Role (ms_config ms) with RoleActive => StateSelected | RolePassive => StateConnecting end
  | _ => ms' = ms
  end.

Lemma rounds_spec platform env ms : forall a d,
  let '(e, delays, ms') := reconnect_rounds platform env a d ms in
  match delays with
  | [] => True
  | d' :: rest => d' = d /\ Forall (fun x => x <= MaxDelay (reconnCfg ms)) rest
  end
  /\ (0 < MaxRetries (reconnCfg ms) -> a <= MaxRetries (reconnCfg ms) ->
      len delays <= MaxRetries (reconnCfg ms) - a /\ (e = GaveUp -> len delays = MaxRetries (reconnCfg ms) - a))
  /\ (e = GaveUp -> 0 < MaxRetries (reconnCfg ms))
  /\ loop_result e ms ms'.
Proof.
  induction env as [|at_ env IH]; intros a d; [simpl; split_and!; try done; intros; rewrite len_nil; split; [lia | done] |].
  cbn [reconnect_rounds]. destruct at_ as [| |dial answer];
    [simpl; split_and!; try done; intros; rewrite len_nil; split; [lia | done] | |];
    (destruct ((0 <? MaxRetries (reconnCfg ms)) && (MaxRetries (reconnCfg ms) <? a + 1)) eqn:Hmax;
     [apply andb_true_iff in Hmax as [H1%Z.ltb_lt H2%Z.ltb_lt]; simpl; split_and!; try done; intros; rewrite len_nil; lia
     | assert (Hle : 0 < MaxRetries (reconnCfg ms) -> a + 1 <= MaxRetries (reconnCfg ms))
         by (intros; apply andb_false_iff in Hmax as [H1%Z.ltb_ge|H2%Z.ltb_ge]; lia) ]).
  - simpl. split_and!; try done. intros. split; [unfold len; simpl; lia | done].
  - destruct (connect dial answer ms) as [ms1|e|p|] eqn:Hc.
    { apply connect_ok in Hc as (_ & _ & Hcalls & s & Hs & _ & Hst). simpl. split_and!; try done.
      - intros. split; [unfold len; simpl; lia | done].
      - unfold State. by rewrite Hs. }
    all: specialize (IH (a + 1) (next_delay platform (reconnCfg ms) d));
      destruct (reconnect_rounds platform env (a + 1) (next_delay platform (reconnCfg ms) d) ms) as [[e' delays] ms'];
      destruct IH as (Hd & Hr & Hg & Hl); split_and!; try done;
      [destruct delays; [constructor | destruct Hd as [-> ?]; constructor; [apply next_delay_le | done]]
      | intros H0 H1; specialize (Hr H0 (Hle H0)); rewrite len_cons; intuition lia].
Qed.

(** ** Properties *)

(** Whatever the environment does, the reconnect loop waits the initial delay
    first and never more than the maximal delay after that; with a retry limit it
    attempts at most that often, and gives up only after exactly that many failed
    attempts; a success leaves an open session, selected when the role is active,
    and calls the callback once, and any other end leaves the managed session as
    it was. *)
Theorem reconnect_spec platform env ms :
  let '(e, delays, ms') := reconnectLoop platform env ms in
  match delays with
  | [] => True
  | d :: rest => d = InitialDelay (reconnCfg ms) /\ Forall (fun x => x <= MaxDelay (reconnCfg ms)) rest
  end
  /\ (0 < MaxRetries (reconnCfg ms) -> len delays <= MaxRetries (reconnCfg ms))
  /\ (e = GaveUp -> 0 < MaxRetries (reconnCfg ms) /\ len delays = MaxRetries (reconnCfg ms))
  /\ loop_result e ms ms'.
Proof.
  unfold reconnectLoop. pose proof (rounds_spec platform env ms 0 (InitialDelay (reconnCfg ms))) as H.
  destruct (reconnect_rounds platform env 0 (InitialDelay (reconnCfg ms)) ms) as [[e delays] ms'].
  destruct H as (Hd & Hr & Hg & Hl). split_and!; try done.
  - intros H0. destruct (Hr H0 ltac:(lia)). lia.
  - intros He. specialize (Hg He). destruct (Hr Hg ltac:(lia)) as [_ Hlen]. specialize (Hlen He). lia.
Qed.

(** A round in which the network and the peer do their part: the dial succeeds and,
    for the active role, the select request is written and granted. *)
Definition granted (env : answer) : bool :=
  ans_io env
  && match ans_wait env, ans_reply env with
     | GotReply, Some rsp => (SType (hdr rsp) =? STypeSelectRsp) && (Stream (hdr rsp) =? SelectStatusSuccess)
     | _, _ => false
     end.

Definition accepts (role : Role) (a : attempt) : bool :=
  match a with
  | Dial true env => match role with RolePassive => true | RoleActive => granted env end
  | _ => false
  end.

Lemma Select_granted env s :
  state s = StateConnected -> conn s = Some true -> granted env = true -> exists s', Select env s = (Ok (), s').
Proof.
  intros Hst Hc Hg. unfold granted in Hg. destruct env as [[] [] [rsp|]]; try done. simpl in Hg.
  apply andb_true_iff in Hg as [Ht Hs]. unfold Select, Select_begin. rewrite decide_False by (rewrite Hst; tauto).
  unfold next_id, sendAndWait_begin, writeMessage. rewrite marshal_frame by (compute; done).
  cbn [set_pending conn ans_io mbind result_bind]. rewrite Hc. cbn [andb mbind result_bind].
  unfold Select_end, sendAndWait_end. cbn [set_pending pending ans_wait ans_reply]. rewrite lookup_insert_eq.
  cbv zeta. rewrite Ht, Hs. eauto.
Qed.

Lemma connect_accepted a ms :
  accepts (cfg_Role (ms_config ms)) a = true -> exists env ms', a = Dial true env /\ connect true env ms = Ok ms'.
Proof.
  destruct a as [| |[] env]; try done. unfold connect, connect_session, accepts. intros Hg.
  destruct (cfg_Role (ms_config ms)) eqn:Hr.
  - destruct (Connect_active (NewSession (ms_config ms)) eq_refl Hr) as (s0 & Hc & Hst & Hco & _ & _).
    edestruct (Select_granted env) as [s' Hs]; [exact Hst | exact Hco | exact Hg |]. exists env. eexists. split; [done|]. by rewrite Hc, Hs.
  - rewrite (Connect_passive _ (NewSession (ms_config ms)) eq_refl Hr). by do 2 eexists.
Qed.

(** Enough rounds bring the loop to the first one that connects. *)
Lemma rounds_eventually platform n : forall (env : nat -> attempt) ms a d,
  (forall i, (i < n)%nat -> exists dial answer, env i = Dial dial answer) ->
  accepts (cfg_Role (ms_config ms)) (env n) = true ->
  MaxRetries (reconnCfg ms) <= 0 \/ a + Z.of_nat n < MaxRetries (reconnCfg ms) ->
  exists rest ms', len rest <= Z.of_nat n
    /\ forall m, (n < m)%nat -> reconnect_rounds platform (map env (seq 0 m)) a d ms = (Reconnected, d :: rest, ms').
Proof.
  induction n as [|n IH]; intros env ms a d Hdial Hacc Hmax.
  all: assert (Hgo : (0 <? MaxRetries (reconnCfg ms)) && (MaxRetries (reconnCfg ms) <? a + 1) = false)
    by (destruct (Z.ltb_spec 0 (MaxRetries (reconnCfg ms))), (Z.ltb_spec (MaxRetries (reconnCfg ms)) (a + 1)); simpl; lia).
  - destruct (connect_accepted _ _ Hacc) as (answer & ms' & He & Hc). exists [], ms'. split; [done |].
    intros [|m] Hm; [lia |]. cbn [seq map]. rewrite He. cbn [reconnect_rounds]. by rewrite Hgo, Hc.
  - destruct (Hdial 0%nat ltac:(lia)) as (dial & answer & He). destruct (connect dial answer ms) as [ms1|e|p|] eqn:Hc.
    { exists [], ms1. split; [unfold len; simpl; lia |].
      intros [|m] Hm; [lia |]. cbn [seq map]. rewrite He. cbn [reconnect_rounds]. by rewrite Hgo, Hc. }
    all: destruct (IH (fun i => env (S i)) ms (a + 1) (next_delay platform (reconnCfg ms) d)) as (rest & ms' & Hlen & Hend);
      [intros; apply Hdial; lia | done | lia |];
      exists (next_delay platform (reconnCfg ms) d :: rest), ms'; split; [rewrite len_cons; lia |];
      intros [|m] Hm; [lia |]; cbn [seq map]; rewrite He; cbn [reconnect_rounds]; rewrite Hgo, Hc;
      rewrite <- seq_shift, map_map, Hend by lia; done.
Qed.

(** C20: As long as nobody stops it, the reconnect loop gets there: if in some round the
    network and the peer do their part, and the retry limit, if there is one, has not
    been used up before, then the loop ends reconnected by that round at the latest,
    however the environment goes on, with an open session in the state of its role and
    the callback called once; the waiting is bounded by the initial delay and one
    maximal delay per further round. *)
Theorem reconnect_eventually platform (env : nat -> attempt) ms n :
  (forall i, (i < n)%nat -> exists dial answer, env i = Dial dial answer) ->
  accepts (cfg_Role (ms_config ms)) (env n) = true ->
  MaxRetries (reconnCfg ms) <= 0 \/ Z.of_nat n < MaxRetries (reconnCfg ms) ->
  exists delays ms',
    (forall m, (n < m)%nat -> reconnectLoop platform (map env (seq 0 m)) ms = (Reconnected, delays, ms'))
    /\ State ms' = match cfg_Role (ms_config ms) with RoleActive => StateSelected | RolePassive => StateConnecting end
    /\ ms_calls ms' = option_list (connected <$> onConnect ms) ++ ms_calls ms
    /\ foldr Z.add 0 delays <= InitialDelay (reconnCfg ms) + Z.of_nat n * Z.max 0 (MaxDelay (reconnCfg ms)).
Proof.
  intros Hdial Hacc Hmax.
  destruct (rounds_eventually platform n env ms 0 (InitialDelay (reconnCfg ms)) Hdial Hacc ltac:(lia))
    as (rest & ms' & Hlen & Hend).
  exists (InitialDelay (reconnCfg ms) :: rest), ms'. split; [exact Hend |].
  pose proof (rounds_spec platform (map env (seq 0 (S n))) ms 0 (InitialDelay (reconnCfg ms))) as H.
  rewrite Hend in H by lia. destruct H as ([_ Hrest] & _ & _ & Hcalls & Hst). split_and!; try done. simpl.
  enough (foldr Z.add 0 rest <= len rest * Z.max 0 (MaxDelay (reconnCfg ms))) by nia.
  clear -Hrest. induction Hrest as [|x l Hx _ IH]; [done |]. rewrite len_cons. simpl. lia.
Qed.

Lemma reconnect_eventually_witness :
  let ms := NewManagedSession (DefaultConfig "" RoleActive 1) (mkReconnectConfig second second (f64_of_Z 2) 3) in
  let grant := mkAnswer true GotReply (Some (NewSelectRsp 1 1 0)) in
  let env i := if Nat.ltb i 2 then Dial true no_answer else Dial true grant in
  exists delays ms', reconnectLoop (fun _ => 0) (map env (seq 0 3)) ms = (Reconnected, delays, ms')
    /\ State ms' = StateSelected.
Proof.
  intros ms grant env.
  destruct (reconnect_eventually (fun _ => 0) env ms 2) as (delays & ms' & Hend & Hst & _).
  - intros i Hi. exists true, no_answer. unfold env. by rewrite (proj2 (Nat.ltb_lt i 2)).
  - reflexivity.
  - right. reflexivity.
  - exists delays, ms'. split; [apply Hend; lia | exact Hst].
Defined.

(** The default configuration doubles the delay from ten seconds up to five
    minutes. *)
Example default_backoff :
  (reconnectLoop (fun _ => 0) (replicate 8 (Dial false no_answer))
     (NewManagedSession (DefaultConfig "" RoleActive 1) DefaultReconnectConfig)).1.2
  = map (fun s => s * second) [10; 20; 40; 80; 160; 300; 300; 300].
Proof. vm_compute. reflexivity. Qed.

(** [Stop] closes the session it finds, and then leaves the channel of [Done] open,
    although its comment says that the channel is closed when the managed session
    stops; a stopped managed session closes it at the next [Stop], and panics at
    the one after. *)
Lemma stop_done c rc s :
  let ms := set_session (Some s) (NewManagedSession c rc) in
  exists ms1 ms2, Stop true ms = Ok (Some (Close s), ms1) /\ done ms1 = false
  /\ Stop true ms1 = Ok (None, ms2) /\ done ms2 = true /\ Stop true ms2 = Panic CloseOfClosed.
Proof. by do 2 eexists. Qed.

(** A [Stop] that comes while an attempt is between its last reply and its lock finds
    no session to close; the attempt then installs its session in the stopped managed
    session, where the monitor, whose context is done, leaves it connected. *)
Lemma stop_connect_race c rc env s platform ctx_env :
  cfg_Role c = RoleActive -> connect_session true env c = Ok s ->
  let ms := NewManagedSession c rc in
  exists ms1, Stop true ms = Ok (None, ms1) /\ done ms1 = true
  /\ let ms2 := connect_commit s ms1 in
     State ms2 = StateSelected /\ monitor_disconnect platform true ctx_env ms2 = (Stopped, [], ms2).
Proof.
  intros Hr Hc. eexists. split_and!; [reflexivity | done |].
  assert (Ho : connect true env (NewManagedSession c rc) = Ok (connect_commit s (NewManagedSession c rc)))
    by (unfold connect; simpl; by rewrite Hc).
  apply connect_ok in Ho as (_ & _ & _ & s' & [= <-] & Hcl & Hst). simpl in Hst. rewrite Hr in Hst.
  by split; [unfold State; simpl | ].
Qed.
