(* ===== verification/Faults.v ===== *)
(** * Fault injection

    [src/pkg/simulator/fault.go]: the bytes the injector puts on a raw connection,
    and what a session of [HsmsSession] makes of them.  [rand] gives the random
    bytes, and a connection is the list of what has been written to it. *)

From stdpp Require Import prelude gmap strings list.
From Stdlib Require Import ZArith Lia.
From S2P Require Import Prelude HsmsMessage Transport HsmsSession HsmsProtocol.

#[local] Open Scope Z_scope.

Inductive FaultType := FaultDisconnect | FaultCorruptData | FaultBadSType | FaultBadLength | FaultDupSystemByte.

Definition AllFaultTypes : list FaultType :=
  [FaultDisconnect; FaultCorruptData; FaultBadSType; FaultBadLength; FaultDupSystemByte].

Definition FaultType_String (f : FaultType) : string :=
  match f with
  | FaultDisconnect => "disconnect"
  | FaultCorruptData => "corrupt_data"
  | FaultBadSType => "bad_stype"
  | FaultBadLength => "bad_length"
  | FaultDupSystemByte => "dup_systembyte"
  end.

Definition bad_stype_bytes : list Z :=
  [0; 0; 0; 10;
   0; 1;
   0; 0;
   255; 0;
   0; 0; 0; 1].

Definition bad_length_bytes : list Z :=
  [0; 0; 3; 232;
   0; 1;
   1; 1;
   0; 0;
   0; 0; 0; 1].

Definition dup_bytes : list Z :=
  [0; 0; 0; 10;
   0; 1;
   129; 1;
   0; 0;
   222; 173; 190; 239].

Inductive fault_error := NoRawConnection.

(** The session and the bytes written to the raw connection, if there is one. *)
Definition injectDisconnect (s : Session) : Session := Close s.

Definition write_raw (bytes : list Z) (conn : option (list Z)) : result fault_error (option (list Z)) :=
  match conn with None => Err NoRawConnection | Some l => Ok (Some (l ++ bytes)) end.

Definition injectCorruptData (rand : nat -> Z) := write_raw ((fun i => to_byte (rand i)) <$> seq 0 64).
Definition injectBadSType := write_raw bad_stype_bytes.
Definition injectBadLength := write_raw bad_length_bytes.
Definition injectDupSystemByte (conn : option (list Z)) : result fault_error (option (list Z)) :=
  conn ← write_raw dup_bytes conn; write_raw dup_bytes conn.

Definition Inject (rand : nat -> Z) (fault : FaultType) (s : Session) (conn : option (list Z))
  : Session * result fault_error (option (list Z)) :=
  match fault with
  | FaultDisconnect => (injectDisconnect s, Ok conn)
  | FaultCorruptData => (s, injectCorruptData rand conn)
  | FaultBadSType => (s, injectBadSType conn)
  | FaultBadLength => (s, injectBadLength conn)
  | FaultDupSystemByte => (s, injectDupSystemByte conn)
  end.

Lemma read_known c m bytes rest :
  frame_ok c m -> MarshalBinary m = Ok bytes -> readMessage c (bytes ++ rest) = Ok (on_wire m, rest).
Proof. intros Hm Hb. destruct (read_frame c m rest Hm) as (f & Hf & Hr). rewrite Hb in Hf. by apply Ok_inj in Hf as ->. Qed.

(** ** Properties *)

(** What the faults do to the session that reads them, under the default
    configuration.  The invalid byte of [FaultBadSType] is the presentation type:
    the session type after it is that of a data message, and a selected session
    delivers S0F0 to the application.  The frame of [FaultBadLength] is never
    complete, and the duplicates are two deliveries. *)
Theorem faults_received role rest :
  let c := DefaultConfig "" role 1 in
  let s := HsmsSession.set_state StateSelected (NewSession c) in
  let bad := mkMessage (mkHeader 1 false 0 0 255 STypeDataMessage 1) [] in
  let dup := NewDataMessage 1 1 1 true 3735928559 [] in
  (readMessage c (bad_stype_bytes ++ rest) = Ok (bad, rest)
   /\ inbound (readLoop_round true true (bad_stype_bytes ++ rest) s).1 = [bad])
  /\ (len rest < 990 -> readMessage c (bad_length_bytes ++ rest) = Err UnexpectedEOF)
  /\ (let '(s1, rest1) := readLoop_round true true (dup_bytes ++ dup_bytes ++ rest) s in
      readLoop_round true true rest1 s1 = (HsmsSession.set_inbound [dup; dup] s, rest)).
Proof.
  intros c s bad dup.
  assert (Hbad : forall rest, readMessage c (bad_stype_bytes ++ rest) = Ok (bad, rest))
    by (intros l; apply (read_known c bad); [by destruct role; vm_compute | reflexivity]).
  assert (Hdup : forall rest, readMessage c (dup_bytes ++ rest) = Ok (dup, rest))
    by (intros l; apply (read_known c dup); [by destruct role; vm_compute | reflexivity]).
  split_and!.
  - apply Hbad.
  - unfold readLoop_round. change (config s) with c. by rewrite Hbad.
  - intros Hl. unfold readMessage, ReadFull. rewrite len_app. change (len bad_length_bytes) with 14.
    pose proof (len_nonneg rest). rewrite (proj2 (Z.ltb_ge (14 + len rest) 4)) by lia. cbn [mbind result_bind].
    change (be_uint 4 (take (Z.to_nat 4) (bad_length_bytes ++ rest))) with (Ok (E:=read_error) 1000). cbn [mbind result_bind].
    change (1000 <? headerLen) with false. replace (maxMessageSize c <? 1000) with false by (by destruct role).
    change (wrap 32 (4 + 1000) - 4) with 1000. cbv iota.
    change (drop (Z.to_nat 4) (bad_length_bytes ++ rest)) with (drop 4 bad_length_bytes ++ rest).
    rewrite len_app. change (len (drop 4 bad_length_bytes)) with 10.
    rewrite (proj2 (Z.ltb_lt (10 + len rest) 1000)), (proj2 (Z.eqb_neq (10 + len rest) 0)) by lia. done.
  - unfold readLoop_round. change (config s) with c. rewrite Hdup. cbn [negb].
    assert (Hs1 : handleMessage true dup s = HsmsSession.set_inbound [dup] s) by reflexivity. rewrite Hs1.
    change (config (HsmsSession.set_inbound [dup] s)) with c. rewrite Hdup. reflexivity.
Qed.

Lemma faults_received_witness :
  len [7; 7] < 990
  /\ readMessage (DefaultConfig "" RolePassive 1) (bad_length_bytes ++ [7; 7]) = Err UnexpectedEOF.
Proof.
  split; [reflexivity |]. exact (proj1 (proj2 (faults_received RolePassive [7; 7])) eq_refl).
Defined.
