(* ===== verification/Auth.v ===== *)
(** * API tokens and browser origins

    [src/pkg/security/apitoken.go].  [os.Getenv] is an argument; the constant-time
    comparison is equality. *)

From stdpp Require Import prelude strings list.
From Stdlib Require Import ZArith Lia Ascii.
From S2P Require Import Prelude GoStrings.

#[local] Open Scope Z_scope.

Definition EnvAPIToken : string := "SECSGEM_API_TOKEN".
Definition EnvAPIWriteToken : string := "SECSGEM_API_WRITE_TOKEN".
Definition EnvStudioToken : string := "SECSGEM_STUDIO_TOKEN".
Definition EnvCORSOrigins : string := "SECSGEM_CORS_ORIGINS".

Definition TokenFromEnv (getenv : string -> string) (flagValue envName : string) : string :=
  if decide (TrimSpace flagValue <> "") then TrimSpace flagValue else TrimSpace (getenv envName).

Definition CompareToken (expected presented : string) : bool :=
  if decide (expected = "") then false else bool_decide (expected = presented).

Definition scheme : string := "bearer ".

(** [None] is [("", false)]. *)
Definition BearerToken `{Unicode} (header : string) : option string :=
  let l := chars header in
  if (len l <? 7) || negb (EqualFold (string_of (take 7 l)) scheme) then None
  else
    let token := TrimSpace (string_of (drop 7 l)) in
    if decide (token = "") then None else Some token.

Definition IsLoopbackListen `{Unicode, Net} (addr : string) : bool :=
  let host := default addr (SplitHost addr) in
  let host := TrimChars (fun c => char_is 91 c || char_is 93 c) host in
  if decide (host = "") then false
  else if EqualFold host "localhost" then true
  else match ParseIP host with None => false | Some ip => IsLoopback ip end.

Definition flagNameFor (envName : string) : string :=
  if decide (envName = EnvAPIToken) then "api-token"
  else if decide (envName = EnvAPIWriteToken) then "api-write-token"
  else if decide (envName = EnvStudioToken) then "studio-token"
  else "token".

Inductive listen_error := RefusingToServe (addr flag envName : string).

Definition RequireTokenForListen `{Unicode, Net} (token addr envName : string) : result listen_error () :=
  if bool_decide (token <> "") || IsLoopbackListen addr then Ok ()
  else Err (RefusingToServe addr (flagNameFor envName) envName).

Definition ParseOrigins (l : string) : list string :=
  filter (fun v => v <> "") (map TrimSpace (Split l ","%char)).

Definition OriginAllowed `{Unicode} (allowlist : list string) (origin : string) : bool :=
  if decide (origin = "") then false else existsb (fun a => EqualFold a origin) allowlist.

(** ** Lemmas *)

(** Only the configured token passes, and no token at all when none is configured. *)
Lemma CompareToken_spec expected presented :
  CompareToken expected presented = true <-> expected <> "" /\ presented = expected.
Proof. unfold CompareToken. case_decide; [naive_solver |]. rewrite bool_decide_eq_true. naive_solver. Qed.

Lemma BearerToken_nonempty `{Unicode} h t : BearerToken h = Some t -> t <> "".
Proof. unfold BearerToken. destruct (_ || _); [done |]. case_decide; [done |]. by intros [= <-]. Qed.

(** A client that sends its token after [Bearer] is understood, when the token has no
    white space around it. *)
Lemma BearerToken_header `{Unicode} t :
  t <> "" -> TrimSpace t = t -> BearerToken ("Bearer " +:+ t) = Some t.
Proof.
  intros Hne Ht. unfold BearerToken. rewrite chars_app. cbn [chars app].
  rewrite !len_cons. pose proof (len_nonneg (chars t)). rewrite (proj2 (Z.ltb_ge _ _)) by lia.
  cbn [take drop orb]. change (EqualFold (string_of _) scheme) with true. cbn [negb].
  rewrite drop_0, string_of_chars, Ht. by rewrite decide_False.
Qed.

Lemma OriginAllowed_spec `{Unicode} l o :
  OriginAllowed l o = true <-> o <> "" /\ exists a, a ∈ l /\ EqualFold a o = true.
Proof.
  unfold OriginAllowed. case_decide; [naive_solver |]. rewrite existsb_exists.
  setoid_rewrite list_elem_of_In. naive_solver.
Qed.

(** An unset list denies every origin; one given on the command line allows the
    origins it names. *)
Lemma no_origins `{Unicode} o : OriginAllowed (ParseOrigins "") o = false.
Proof. unfold OriginAllowed. by case_decide. Qed.

Lemma ParseOrigins_nonempty l o : o ∈ ParseOrigins l -> o <> "".
Proof. unfold ParseOrigins. by intros [? _]%list_elem_of_filter. Qed.

(** The server starts without a token only on an address that names the machine
    itself: a host that is spelt out and is [localhost] or a loopback address. *)
Theorem listen_fails_closed `{Unicode, Net} addr envName :
  match RequireTokenForListen "" addr envName with
  | Ok _ =>
      let host := TrimChars (fun c => char_is 91 c || char_is 93 c) (default addr (SplitHost addr)) in
      host <> "" /\ (EqualFold host "localhost" = true \/ exists ip, ParseIP host = Some ip /\ IsLoopback ip = true)
  | Err e => e = RefusingToServe addr (flagNameFor envName) envName
  | _ => False
  end.
Proof.
  unfold RequireTokenForListen, IsLoopbackListen. cbv zeta. simpl (bool_decide _ || _).
  case_decide as Hh; [done |]. destruct (EqualFold _ "localhost") eqn:Hl; [naive_solver |].
  destruct (ParseIP _) as [ip|] eqn:Hp; [| done]. destruct (IsLoopback ip) eqn:Hi; [| done].
  split; [done |]. right. eauto.
Qed.
