(* ===== verification/Json.v ===== *)
(** * Values the program writes as JSON

    A response body before [encoding/json] turns it into text.  A Go map literal is
    the list of its fields in the order of the source, a time is written by
    [formatTimeOrEmpty] or [Format(time.RFC3339)], [None] being the zero time. *)

From stdpp Require Import prelude strings list.
From Stdlib Require Import ZArith.
From S2P Require Import Prelude Secs2Item GemVariables.

Inductive json :=
| JBool (b : bool)
| JInt (z : Z)
| JString (s : string)
| JTime (t : option Z)
| JValue (v : govalue)
| JList (l : list json)
| JObject (fields : list (string * json)).

(** [data["name"]] *)
Definition field (name : string) (j : json) : option json :=
  match j with
  | JObject fs => snd <$> list_find (fun f => f.1 = name) fs ≫= fun x => Some x.2
  | _ => None
  end.

(** The text of a value, and the value of a text: [json.Marshal] (with the rendering
    [toJSON] falls back to) and [json.Unmarshal] into an [interface{}]. *)
Class JsonText := {
  toJSON : govalue -> string;
  fromJSON : string -> option govalue;
}.

(** [json.Marshal], which takes everything but values that have no JSON. *)
Fixpoint plain_json (j : json) : bool :=
  match j with
  | JBool _ | JInt _ | JString _ | JTime _ => true
  | JValue _ => false
  | JList l => forallb plain_json l
  | JObject fs => forallb (fun f => plain_json f.2) fs
  end.

Class Marshal := {
  marshal : json -> option string;
  marshal_plain j : plain_json j = true -> is_Some (marshal j);
}.
