(* ===== verification/Security.v ===== *)
(** * Security events, status, message patterns and records

    [src/pkg/security/event.go], [e191.go], [anomaly.go] and [recorder.go].  The
    instant a method reads from the clock is its argument [now], one for an [Emit] and
    the handlers it calls; the zero time is [None].  The handlers of an auditor change a state [S], which is passed along. *)

From stdpp Require Import prelude gmap strings list pretty.
From Stdlib Require Import ZArith Lia Ascii SpecFloat.
From S2P Require Import Prelude GoStrings Secs2Item GemVariables Json.

#[local] Open Scope Z_scope.

(** ** Events ([event.go]) *)

Definition LevelInfo : Z := 0.
Definition LevelWarning : Z := 1.
Definition LevelCritical : Z := 2.

Definition Level_String (l : Z) : string :=
  if l =? LevelInfo then "INFO" else if l =? LevelWarning then "WARNING"
  else if l =? LevelCritical then "CRITICAL" else "UNKNOWN".

Definition CatAuth : string := "auth".
Definition CatAccess : string := "access".
Definition CatIntegrity : string := "integrity".
Definition CatConfidential : string := "confidential".
Definition CatDataFlow : string := "dataflow".
Definition CatAudit : string := "audit".
Definition CatAvailability : string := "availability".

Record Event := mkEvent {
  ev_Time : option Z;
  ev_Level : Z;
  ev_Category : string;
  ev_Type : string;
  ev_Source : string;
  ev_Message : string;
  ev_Details : gmap string govalue;
}.

Definition with_time (t : option Z) (e : Event) : Event :=
  mkEvent t (ev_Level e) (ev_Category e) (ev_Type e) (ev_Source e) (ev_Message e) (ev_Details e).

Section auditor.
Context {S : Type}.

Definition EventHandler : Type := Z -> Event -> S -> S.

Record Auditor := mkAuditor { handlers : list EventHandler }.

Definition NewAuditor : Auditor := mkAuditor [].
Definition OnEvent (h : EventHandler) (a : Auditor) : Auditor := mkAuditor (handlers a ++ [h]).

(** [Emit], without the line it logs. *)
Definition Emit (a : Auditor) (now : Z) (event : Event) (s : S) : S :=
  let event := if decide (ev_Time event = None) then with_time (Some now) event else event in
  foldl (fun s h => h now event s) s (handlers a).

Definition event (level : Z) (category type source message : string) (details : gmap string govalue) : Event :=
  mkEvent None level category type source message details.

Definition ConnectionRejected (a : Auditor) (now : Z) (source reason : string) : S -> S :=
  Emit a now (event LevelWarning CatDataFlow "connection_rejected" source reason ∅).
Definition AuthFailed (a : Auditor) (now : Z) (source reason : string) : S -> S :=
  Emit a now (event LevelCritical CatAuth "auth_failed" source reason ∅).
Definition RateLimited (a : Auditor) (now : Z) (source : string) (rate : Z) : S -> S :=
  Emit a now (event LevelWarning CatAvailability "rate_limited" source "message rate exceeded" {["rate" := GInt rate]}).
Definition MalformedMessage (a : Auditor) (now : Z) (source : string) (err : option string) : S -> S :=
  Emit a now (event LevelWarning CatIntegrity "malformed_message" source (default "malformed message" err) ∅).
Definition UnauthorizedMessage (a : Auditor) (now : Z) (source : string) (stream function : Z) : S -> S :=
  Emit a now (event LevelCritical CatAccess "unauthorized_message" source "message not allowed by session policy"
                (<["stream" := GUint8 stream]> {["function" := GUint8 function]})).
Definition TLSHandshakeOK (a : Auditor) (now : Z) (source : string) : S -> S :=
  Emit a now (event LevelInfo CatAuth "tls_handshake_ok" source "TLS handshake completed" ∅).
(** [duration] is the text of the duration. *)
Definition SessionExpired (a : Auditor) (now : Z) (source duration : string) : S -> S :=
  Emit a now (event LevelInfo CatAccess "session_expired" source "session TTL exceeded" {["duration" := GString duration]}).
End auditor.

Arguments Auditor : clear implicits.
Arguments EventHandler : clear implicits.

(** ** Status ([e191.go]) *)

Record SecurityStatus := mkStatus {
  TLSEnabled : bool;
  TLSVersion : string;
  MutualTLS : bool;
  CipherSuite : string;
  RBACEnabled : bool;
  IPAllowlist : bool;
  RateLimitEnabled : bool;
  EncryptionEnabled : bool;
  AuthFailures : Z;
  ConnectionsTotal : Z;
  RejectedConns : Z;
  RateLimitHits : Z;
  MalformedMsgs : Z;
  UnauthorizedMsgs : Z;
  StartTime : Z;
  LastAuthFailure : option Z;
  LastRateLimit : option Z;
}.

Definition NewSecurityStatus (now : Z) : SecurityStatus :=
  mkStatus false "" false "" false false false false 0 0 0 0 0 0 now None None.

(** [counter.Add(1)] *)
Definition incr (n : Z) : Z := swrap 64 (n + 1).

Definition set_counters (auth conns rejected rate malformed unauthorized : Z) (last_auth last_rate : option Z)
    (s : SecurityStatus) : SecurityStatus :=
  mkStatus (TLSEnabled s) (TLSVersion s) (MutualTLS s) (CipherSuite s) (RBACEnabled s) (IPAllowlist s)
    (RateLimitEnabled s) (EncryptionEnabled s) auth conns rejected rate malformed unauthorized (StartTime s)
    last_auth last_rate.

Definition RecordAuthFailure (now : Z) (s : SecurityStatus) : SecurityStatus :=
  set_counters (incr (AuthFailures s)) (ConnectionsTotal s) (RejectedConns s) (RateLimitHits s) (MalformedMsgs s)
    (UnauthorizedMsgs s) (Some now) (LastRateLimit s) s.
Definition RecordConnection (s : SecurityStatus) : SecurityStatus :=
  set_counters (AuthFailures s) (incr (ConnectionsTotal s)) (RejectedConns s) (RateLimitHits s) (MalformedMsgs s)
    (UnauthorizedMsgs s) (LastAuthFailure s) (LastRateLimit s) s.
Definition RecordRejectedConnection (s : SecurityStatus) : SecurityStatus :=
  set_counters (AuthFailures s) (ConnectionsTotal s) (incr (RejectedConns s)) (RateLimitHits s) (MalformedMsgs s)
    (UnauthorizedMsgs s) (LastAuthFailure s) (LastRateLimit s) s.
Definition RecordRateLimit (now : Z) (s : SecurityStatus) : SecurityStatus :=
  set_counters (AuthFailures s) (ConnectionsTotal s) (RejectedConns s) (incr (RateLimitHits s)) (MalformedMsgs s)
    (UnauthorizedMsgs s) (LastAuthFailure s) (Some now) s.
Definition RecordMalformed (s : SecurityStatus) : SecurityStatus :=
  set_counters (AuthFailures s) (ConnectionsTotal s) (RejectedConns s) (RateLimitHits s) (incr (MalformedMsgs s))
    (UnauthorizedMsgs s) (LastAuthFailure s) (LastRateLimit s) s.
Definition RecordUnauthorized (s : SecurityStatus) : SecurityStatus :=
  set_counters (AuthFailures s) (ConnectionsTotal s) (RejectedConns s) (RateLimitHits s) (MalformedMsgs s)
    (incr (UnauthorizedMsgs s)) (LastAuthFailure s) (LastRateLimit s) s.

Definition SetTLS (enabled : bool) (version cipher : string) (mutual : bool) (s : SecurityStatus) : SecurityStatus :=
  mkStatus enabled version mutual cipher (RBACEnabled s) (IPAllowlist s) (RateLimitEnabled s) (EncryptionEnabled s)
    (AuthFailures s) (ConnectionsTotal s) (RejectedConns s) (RateLimitHits s) (MalformedMsgs s) (UnauthorizedMsgs s)
    (StartTime s) (LastAuthFailure s) (LastRateLimit s).

Definition AsEventHandler : EventHandler SecurityStatus := fun now e s =>
  if decide (ev_Type e = "auth_failed") then RecordAuthFailure now s
  else if decide (ev_Type e = "connection_rejected") then RecordRejectedConnection s
  else if decide (ev_Type e = "rate_limited") then RecordRateLimit now s
  else if decide (ev_Type e = "malformed_message") then RecordMalformed s
  else if decide (ev_Type e = "unauthorized_message") then RecordUnauthorized s
  else s.

Definition Report (now : Z) (s : SecurityStatus) : json :=
  JObject [
    ("tls_enabled", JBool (TLSEnabled s)); ("tls_version", JString (TLSVersion s));
    ("mutual_tls", JBool (MutualTLS s)); ("cipher_suite", JString (CipherSuite s));
    ("rbac_enabled", JBool (RBACEnabled s)); ("ip_allowlist_enabled", JBool (IPAllowlist s));
    ("rate_limit_enabled", JBool (RateLimitEnabled s)); ("encryption_enabled", JBool (EncryptionEnabled s));
    ("counters", JObject [
      ("auth_failures", JInt (AuthFailures s)); ("connections_total", JInt (ConnectionsTotal s));
      ("rejected_conns", JInt (RejectedConns s)); ("rate_limit_hits", JInt (RateLimitHits s));
      ("malformed_msgs", JInt (MalformedMsgs s)); ("unauthorized_msgs", JInt (UnauthorizedMsgs s))]);
    ("start_time", JTime (Some (StartTime s))); ("uptime_seconds", JInt (default 0 (trunc_f64 (Seconds (now - StartTime s)))));
    ("last_auth_failure", JTime (LastAuthFailure s)); ("last_rate_limit", JTime (LastRateLimit s))].

(** ** Message patterns ([anomaly.go])

    A detector is a state [D] with the operations of the interface; the callback of
    the collector is a function value named by a number, its calls recorded newest
    first. *)

Record MessagePattern := mkPattern {
  mp_Stream : Z;
  mp_Function : Z;
  mp_Source : string;
  DataSize : Z;
  Timestamp : Z;
  InterArrival : Z;
  IsReply : bool;
}.

Class AnomalyDetector (D : Type) := {
  Analyze : MessagePattern -> D -> spec_float * D;
  Train : MessagePattern -> D -> D;
}.

Record PatternCollector (D : Type) := mkCollector {
  detector : option D;
  threshold : spec_float;
  lastSeen : gmap string Z;
  sfCounts : gmap (Z * Z) Z;
  totalMsgs : Z;
  alertCount : Z;
  onAlert : option nat;
  alerts : list (nat * MessagePattern * spec_float);
}.

Arguments mkCollector {D}.
Arguments detector {D}. Arguments threshold {D}. Arguments lastSeen {D}. Arguments sfCounts {D}.
Arguments totalMsgs {D}. Arguments alertCount {D}. Arguments onAlert {D}. Arguments alerts {D}.

Section patterns.
Context {D : Type} `{AnomalyDetector D}.
Implicit Types pc : PatternCollector D.

Definition NewPatternCollector (d : option D) (t : spec_float) : PatternCollector D :=
  mkCollector d t ∅ ∅ 0 0 None [].

Definition OnAlert (fn : option nat) pc : PatternCollector D :=
  mkCollector (detector pc) (threshold pc) (lastSeen pc) (sfCounts pc) (totalMsgs pc) (alertCount pc) fn (alerts pc).

(** The part of [Record] under the first lock, with the pattern it builds. *)
Definition record_stats (now stream function : Z) (source : string) (dataSize : Z) (isReply : bool) pc
  : MessagePattern * PatternCollector D :=
  let interArrival := match lastSeen pc !! source with Some last => now - last | None => 0 end in
  let key := (stream, function) in
  (mkPattern stream function source dataSize now interArrival isReply,
   mkCollector (detector pc) (threshold pc) (<[source := now]> (lastSeen pc))
     (<[key := incr (default 0 (sfCounts pc !! key))]> (sfCounts pc)) (incr (totalMsgs pc)) (alertCount pc)
     (onAlert pc) (alerts pc)).

(** The rest: the verdict, and the alert. *)
Definition analyze (pattern : MessagePattern) pc : PatternCollector D :=
  match detector pc with
  | None => pc
  | Some d =>
      let '(score, d) := Analyze pattern d in
      let pc := mkCollector (Some d) (threshold pc) (lastSeen pc) (sfCounts pc) (totalMsgs pc) (alertCount pc)
                  (onAlert pc) (alerts pc) in
      match onAlert pc with
      | Some fn =>
          if SFltb (threshold pc) score then
            mkCollector (detector pc) (threshold pc) (lastSeen pc) (sfCounts pc) (totalMsgs pc)
              (incr (alertCount pc)) (onAlert pc) ((fn, pattern, score) :: alerts pc)
          else pc
      | None => pc
      end
  end.

Definition Collector_Record (now stream function : Z) (source : string) (dataSize : Z) (isReply : bool) pc
  : PatternCollector D :=
  let '(pattern, pc) := record_stats now stream function source dataSize isReply pc in analyze pattern pc.

Definition train (now stream function : Z) (source : string) (dataSize : Z) pc : PatternCollector D :=
  match detector pc with
  | None => pc
  | Some d =>
      mkCollector (Some (Train (mkPattern stream function source dataSize now 0 false) d)) (threshold pc)
        (lastSeen pc) (sfCounts pc) (totalMsgs pc) (alertCount pc) (onAlert pc) (alerts pc)
  end.
End patterns.

(** [string(rune(b))] of a byte: its UTF-8 encoding. *)
Definition rune_string (b : Z) : string :=
  if b <? 128 then string_of_bytes [b] else string_of_bytes [192 + Z.shiftr b 6; 128 + Z.land b 63].

Definition sfKeyString (k : Z * Z) : string :=
  rune_string 83 +:+ rune_string (wrap 8 (48 + k.1)) +:+ rune_string 70 +:+ rune_string (wrap 8 (48 + k.2)).

(** [Stats]; [sf_distribution] is built by ranging over the counters. *)
Record stats := mkStats {
  total_messages : Z;
  alert_count : Z;
  unique_sources : Z;
  sf_distribution : gmap string Z;
}.

Definition Stats {D : Type} `{!MapOrder (Z * Z)} (pc : PatternCollector D) : stats :=
  mkStats (totalMsgs pc) (alertCount pc) (Z.of_nat (size (lastSeen pc)))
    (foldl (fun m kv => <[sfKeyString kv.1 := kv.2]> m) ∅ (range_map (sfCounts pc))).

(** The two detectors of the package. *)
Definition one : spec_float := f64_of_Z 1.

#[export] Instance NoopDetector : AnomalyDetector () :=
  {| Analyze _ d := (f64_of_Z 0, d); Train _ d := d |}.

Record ThresholdDetector := mkThreshold { MaxDataSize : Z }.

#[export] Instance threshold_detector : AnomalyDetector ThresholdDetector :=
  {| Analyze p d := (if (0 <? MaxDataSize d) && (MaxDataSize d <? DataSize p) then one else f64_of_Z 0, d);
     Train _ d := d |}.

(** ** Message records ([recorder.go]) *)

Definition DirInbound : string := "IN".
Definition DirOutbound : string := "OUT".

Record MessageRecord := mkRecord {
  mr_Time : Z;
  mr_Direction : string;
  mr_Stream : Z;
  mr_Function : Z;
  mr_SessionID : Z;
  mr_SystemID : Z;
  DataLen : Z;
  RawHex : string;
}.

(** The records written, oldest first; [MessageRecord_String] renders each as a line. *)
Record MessageRecorder := mkRecorder { written : list MessageRecord; maxHex : Z; enabled : bool }.

Definition NewMessageRecorder (maxHexBytes : Z) : MessageRecorder :=
  mkRecorder [] (if maxHexBytes <=? 0 then 256 else maxHexBytes) true.

(** [opened] is the outcome of [os.OpenFile]. *)
Definition NewFileRecorder (opened : bool) : result string MessageRecorder :=
  if opened then Ok (NewMessageRecorder 256) else Err "open recorder file".

(** The line of a record; [time] is how its instant is written. *)
Definition MessageRecord_String (time : Z -> string) (r : MessageRecord) : string :=
  time (mr_Time r) +:+ " " +:+ mr_Direction r +:+ " S" +:+ pretty (mr_Stream r) +:+ "F" +:+ pretty (mr_Function r)
  +:+ " sess=" +:+ pretty (mr_SessionID r) +:+ " sys=" +:+ pretty (mr_SystemID r) +:+ " len=" +:+ pretty (DataLen r)
  +:+ " data=" +:+ RawHex r.

(** [hex.EncodeToString] *)
Definition hex_char (d : Z) : ascii := ascii_of_N (Z.to_N (if d <? 10 then 48 + d else 87 + d)).
Definition EncodeToString (data : list Z) : string :=
  string_of (flat_map (fun b => [hex_char (Z.shiftr b 4); hex_char (Z.land b 15)]) data).

Definition record_message (now : Z) (dir : string) (stream function sessionID systemID : Z) (data : list Z)
    (mr : MessageRecorder) : MessageRecorder :=
  if negb (enabled mr) then mr
  else
    let hexData := if maxHex mr <? len data then take (Z.to_nat (maxHex mr)) data else data in
    mkRecorder (written mr ++ [mkRecord now dir stream function sessionID systemID (len data) (EncodeToString hexData)])
      (maxHex mr) (enabled mr).

Definition SetEnabled (b : bool) (mr : MessageRecorder) : MessageRecorder := mkRecorder (written mr) (maxHex mr) b.
Definition IsEnabled (mr : MessageRecorder) : bool := enabled mr.

(** ** Emitting events *)

(** One call of a convenience emitter. *)
Inductive emission :=
| EmitRejected (source reason : string)
| EmitAuthFailed (source reason : string)
| EmitRateLimited (source : string) (rate : Z)
| EmitMalformed (source : string) (err : option string)
| EmitUnauthorized (source : string) (stream function : Z)
| EmitTLSOK (source : string)
| EmitExpired (source duration : string).

Definition emit {S} (a : Auditor S) (now : Z) (e : emission) : S -> S :=
  match e with
  | EmitRejected source reason => ConnectionRejected a now source reason
  | EmitAuthFailed source reason => AuthFailed a now source reason
  | EmitRateLimited source rate => RateLimited a now source rate
  | EmitMalformed source err => MalformedMessage a now source err
  | EmitUnauthorized source stream function => UnauthorizedMessage a now source stream function
  | EmitTLSOK source => TLSHandshakeOK a now source
  | EmitExpired source duration => SessionExpired a now source duration
  end.

Definition emit_all {S} (a : Auditor S) (es : list (Z * emission)) (s : S) : S :=
  foldl (fun s e => emit a e.1 e.2 s) s es.

Definition is_auth (e : Z * emission) : bool := match e.2 with EmitAuthFailed _ _ => true | _ => false end.
Definition is_rejected (e : Z * emission) : bool := match e.2 with EmitRejected _ _ => true | _ => false end.
Definition is_limited (e : Z * emission) : bool := match e.2 with EmitRateLimited _ _ => true | _ => false end.
Definition is_malformed (e : Z * emission) : bool := match e.2 with EmitMalformed _ _ => true | _ => false end.
Definition is_unauthorized (e : Z * emission) : bool := match e.2 with EmitUnauthorized _ _ _ => true | _ => false end.

(** How many emissions are of a kind, and when the last one was. *)
Definition count (p : Z * emission -> bool) (es : list (Z * emission)) : Z := len (List.filter p es).
Definition latest (p : Z * emission -> bool) (es : list (Z * emission)) : option Z := fst <$> last (List.filter p es).

Lemma incr_small n : 0 <= n < 2 ^ 63 - 1 -> incr n = n + 1.
Proof.
  intros Hn. unfold incr.
  replace (swrap 64 (n + 1)) with (swrap 64 (wrap 64 (n + 1))) by (f_equal; apply wrap_small; lia).
  apply swrap_wrap; lia.
Qed.

Lemma count_snoc p es e : count p (es ++ [e]) = count p es + (if p e then 1 else 0).
Proof. unfold count. rewrite List.filter_app, len_app. cbn. by destruct (p e). Qed.

Lemma latest_snoc p es e : latest p (es ++ [e]) = if p e then Some e.1 else latest p es.
Proof. unfold latest. rewrite List.filter_app. cbn. destruct (p e); [by rewrite last_snoc | by rewrite app_nil_r]. Qed.

Lemma count_le p es : 0 <= count p es <= len es.
Proof.
  induction es as [|e es IH] using rev_ind; [done |]. rewrite count_snoc, len_app. unfold len at 2. simpl.
  destruct (p e); lia.
Qed.

(** The status an auditor keeps is determined by what was emitted. *)
Lemma emit_all_status t0 es :
  len es < 2 ^ 63 ->
  emit_all (OnEvent AsEventHandler NewAuditor) es (NewSecurityStatus t0)
  = set_counters (count is_auth es) 0 (count is_rejected es) (count is_limited es) (count is_malformed es)
      (count is_unauthorized es) (latest is_auth es) (latest is_limited es) (NewSecurityStatus t0).
Proof.
  unfold emit_all. induction es as [|[now e] es IH] using rev_ind; intros Hlen; [done |].
  rewrite len_app in Hlen. unfold len at 2 in Hlen. simpl in Hlen.
  assert (Hb : forall p, 0 <= count p es < 2 ^ 63 - 1) by (intros p; pose proof (count_le p es); lia).
  rewrite foldl_app, IH by lia. cbn [foldl fst snd].
  rewrite !count_snoc, !latest_snoc.
  destruct e; cbn -[count latest AsEventHandler]; rewrite decide_True, ?Z.add_0_r by done;
    unfold AsEventHandler; cbn [with_time event ev_Type]; repeat (rewrite decide_False by done);
    rewrite ?decide_True by done; try done;
    unfold RecordAuthFailure, RecordRejectedConnection, RecordRateLimit, RecordMalformed, RecordUnauthorized;
    rewrite incr_small by apply Hb; done.
Qed.

(** ** Properties *)

(** An auditor with the E191 status as its handler counts faithfully: after any
    sequence of security events (fewer than 2^63), emitted through the functions the
    driver calls, each counter is the number of events of its kind and the two time
    stamps are those of the last failed authentication and rate limitation; the
    connection counter stays zero, and so does everything the events do not concern. *)
Theorem status_counts t0 es :
  len es < 2 ^ 63 ->
  let s := emit_all (OnEvent AsEventHandler NewAuditor) es (NewSecurityStatus t0) in
  AuthFailures s = count is_auth es /\ RejectedConns s = count is_rejected es
  /\ RateLimitHits s = count is_limited es /\ MalformedMsgs s = count is_malformed es
  /\ UnauthorizedMsgs s = count is_unauthorized es /\ ConnectionsTotal s = 0
  /\ LastAuthFailure s = latest is_auth es /\ LastRateLimit s = latest is_limited es
  /\ AuthFailures s + RejectedConns s + RateLimitHits s + MalformedMsgs s + UnauthorizedMsgs s <= len es.
Proof.
  intros Hlen s. unfold s. rewrite emit_all_status by done. cbn. split_and!; try done.
  clear. induction es as [|[now e] es IH] using rev_ind; [done |].
  rewrite !count_snoc, len_app. unfold len at 2. destruct e; cbn; lia.
Qed.

Lemma status_counts_witness :
  let es := [(5, EmitAuthFailed "a" "bad token"); (7, EmitTLSOK "b"); (9, EmitAuthFailed "a" "bad token")] in
  len es < 2 ^ 63
  /\ AuthFailures (emit_all (OnEvent AsEventHandler NewAuditor) es (NewSecurityStatus 0)) = 2.
Proof.
  intros es. split; [done |]. destruct (status_counts 0 es eq_refl) as (H & _). rewrite H. reflexivity.
Defined.

(** ** The statistics of a collector *)

Lemma bytes_of_string_app s t : bytes_of_string (s +:+ t) = bytes_of_string s ++ bytes_of_string t.
Proof. induction s as [|c s IH]; [done |]. simpl. by f_equal. Qed.

Lemma rune_string_app a b s t :
  0 <= a < 256 -> 0 <= b < 256 -> rune_string a +:+ s = rune_string b +:+ t -> a = b /\ s = t.
Proof.
  intros Ha Hb Heq. apply (f_equal bytes_of_string) in Heq. revert Heq. unfold rune_string.
  assert (Hh : forall z, 0 <= z < 256 -> z = 64 * Z.shiftr z 6 + Z.land z 63 /\ 0 <= Z.shiftr z 6 < 4 /\ 0 <= Z.land z 63 < 64).
  { intros z Hz. change 63 with (Z.ones 6). rewrite Z.land_ones, Z.shiftr_div_pow2 by lia. change (2 ^ 6) with 64.
    split_and!; Z.to_euclidean_division_equations; lia. }
  pose proof (Hh a Ha). pose proof (Hh b Hb).
  destruct (Z.ltb_spec a 128), (Z.ltb_spec b 128);
    cbn [string_of_bytes]; rewrite !bytes_of_string_app; cbn [bytes_of_string app]; rewrite !N_ascii_embedding, !Z2N.id by lia; intros [=];
    try (exfalso; lia);
    match goal with H : bytes_of_string _ = bytes_of_string _ |- _ => apply (f_equal string_of_bytes) in H end;
    rewrite !string_of_bytes_of_string in *; (split; [lia | done]).
Qed.

Lemma sfKeyString_inj k k' :
  0 <= k.1 < 256 -> 0 <= k.2 < 256 -> 0 <= k'.1 < 256 -> 0 <= k'.2 < 256 ->
  sfKeyString k = sfKeyString k' -> k = k'.
Proof.
  destruct k as [a b], k' as [a' b']. cbn [fst snd]. intros Ha Hb Ha' Hb'. unfold sfKeyString. cbn [fst snd].
  assert (Hw : forall z, 0 <= wrap 8 z < 256) by (intros; by apply wrap_range).
  assert (Hi : forall x y, 0 <= x < 256 -> 0 <= y < 256 -> wrap 8 (48 + x) = wrap 8 (48 + y) -> x = y)
    by (unfold wrap; change (2 ^ 8) with 256; intros; Z.to_euclidean_division_equations; lia).
  intros [_ H1]%rune_string_app; [| done..]. apply rune_string_app in H1 as [H1 H2]; [| done..].
  apply rune_string_app in H2 as [_ H2]; [| done..].
  rewrite <- (string_of_chars (rune_string (wrap 8 (48 + b)))), <- (string_of_chars (rune_string (wrap 8 (48 + b')))) in H2.
  f_equal; [by apply Hi |].
  apply (f_equal (fun s => s +:+ "")) in H2. rewrite !string_of_chars in H2.
  apply rune_string_app in H2 as [H2 _]; [| done..]. by apply Hi.
Qed.

(** Writing the entries of a list into a map under the names [f] gives them. *)
Lemma foldl_insert_names {K A} `{Countable K} (f : K -> string) (l : list (K * A)) (k : K) (a : A) :
  NoDup l.*1 -> (forall x y, x ∈ l.*1 -> y ∈ l.*1 -> f x = f y -> x = y) -> (k, a) ∈ l ->
  foldl (fun m kv => <[f kv.1 := kv.2]> m) (∅ : gmap string A) l !! f k = Some a.
Proof.
  induction l as [|[k' a'] l IH] using rev_ind; intros Hnd Hinj Hin; [by apply elem_of_nil in Hin |].
  rewrite foldl_app. cbn [foldl fst snd]. rewrite fmap_app in Hnd, Hinj. cbn in Hnd, Hinj.
  apply NoDup_app in Hnd as (Hnd & Hdis & _). apply elem_of_app in Hin as [Hin | Hin].
  - rewrite lookup_insert_ne.
    + apply IH; [done | intros; apply Hinj; set_solver | done].
    + intros Heq. apply Hinj in Heq as <-; [| set_solver |].
      * apply (Hdis k'); [| set_solver]. by apply (list_elem_of_fmap_2 fst _ (k', a)) in Hin.
      * apply elem_of_app. left. by apply (list_elem_of_fmap_2 fst _ (k, a)) in Hin.
  - apply list_elem_of_singleton in Hin as [= -> ->]. by rewrite lookup_insert_eq.
Qed.

Section collecting.
Context {D : Type} `{AnomalyDetector D}.

(** A call of [Record]. *)
Record observation := mkObs {
  o_now : Z; o_stream : Z; o_function : Z; o_source : string; o_size : Z; o_reply : bool
}.

Definition observe (o : observation) (pc : PatternCollector D) : PatternCollector D :=
  Collector_Record (o_now o) (o_stream o) (o_function o) (o_source o) (o_size o) (o_reply o) pc.

Definition key_of (o : observation) : Z * Z := (o_stream o, o_function o).
Definition seen (k : Z * Z) (os : list observation) : Z := len (filter (fun o => key_of o = k) os).

Lemma analyze_stats p (pc : PatternCollector D) :
  lastSeen (analyze p pc) = lastSeen pc /\ sfCounts (analyze p pc) = sfCounts pc
  /\ totalMsgs (analyze p pc) = totalMsgs pc /\ onAlert (analyze p pc) = onAlert pc
  /\ threshold (analyze p pc) = threshold pc
  /\ ((alerts (analyze p pc) = alerts pc /\ alertCount (analyze p pc) = alertCount pc)
      \/ exists fn s, onAlert pc = Some fn /\ SFltb (threshold pc) s = true
           /\ alerts (analyze p pc) = (fn, p, s) :: alerts pc /\ alertCount (analyze p pc) = incr (alertCount pc)).
Proof.
  unfold analyze. destruct (detector pc) as [d|]; [| naive_solver]. destruct (Analyze p d) as [s d'].
  destruct pc as [? th ? ? ? ? [fn|] al]; cbn; [| naive_solver]. destruct (SFltb th s) eqn:Hs; cbn; [| naive_solver].
  split_and!; try done. right. by exists fn, s.
Qed.

Lemma seen_snoc k os o : seen k (os ++ [o]) = seen k os + (if decide (key_of o = k) then 1 else 0).
Proof. unfold seen. rewrite filter_app, len_app. f_equal. rewrite filter_cons, filter_nil. by case_decide. Qed.

Lemma seen_le k os : 0 <= seen k os <= len os.
Proof.
  induction os as [|o os IH] using rev_ind; [done |]. rewrite seen_snoc, len_app. unfold len at 2. simpl.
  case_decide; lia.
Qed.

(** What a new collector holds after some messages. *)
Record collected (os : list observation) (pc : PatternCollector D) : Prop := {
  col_total : totalMsgs pc = len os;
  col_counts k : sfCounts pc !! k = if decide (seen k os = 0) then None else Some (seen k os);
  col_sources : dom (lastSeen pc) = list_to_set (map o_source os);
  col_alerts : alertCount pc = len (alerts pc) /\ len (alerts pc) <= len os;
}.

Lemma collected_all d t fn os :
  len os < 2 ^ 63 -> collected os (foldl (fun pc o => observe o pc) (OnAlert fn (NewPatternCollector d t)) os).
Proof.
  induction os as [|o os IH] using rev_ind; intros Hlen; [done |].
  rewrite len_app in Hlen. unfold len at 2 in Hlen. simpl in Hlen. specialize (IH ltac:(lia)).
  rewrite foldl_app. cbn [foldl]. set (pc := foldl _ _ os) in *. destruct IH as [Ht Hc Hs Ha].
  unfold observe, Collector_Record. destruct (record_stats _ _ _ _ _ _ pc) as [p pc1] eqn:Hr.
  injection Hr as _ <-. pose proof (len_nonneg os).
  match goal with |- collected _ (analyze ?p ?pc) => destruct (analyze_stats p pc) as (Hl & Hf & Htot & _ & _ & Hal) end.
  cbn in Hl, Hf, Htot, Hal. split.
  - rewrite Htot, Ht, incr_small, len_app by lia. done.
  - intros k. rewrite Hf, seen_snoc. pose proof (seen_le k os). change (o_stream o, o_function o) with (key_of o).
    destruct (decide (key_of o = k)) as [Hk|Hk].
    + subst k. rewrite lookup_insert_eq, Hc.
      repeat case_decide; try lia; cbn [default from_option id]; rewrite incr_small by lia; f_equal; lia.
    + rewrite lookup_insert_ne, Hc, Z.add_0_r by done. done.
  - rewrite Hl, dom_insert_L, Hs, map_app, list_to_set_app_L. set_solver.
  - assert (Hl1 : len (os ++ [o]) = len os + 1) by by rewrite len_app.
    pose proof (len_nonneg (alerts pc)). rewrite Hl1. destruct Hal as [[-> ->]|(fn' & s & _ & _ & -> & ->)]; [lia |].
    rewrite len_cons, incr_small by lia. lia.
Qed.

(** What [Stats] reports is what was recorded: after fewer than 2^63 messages the
    total is their number, the sources are counted once each, every alert was raised
    for one message, and the distribution holds for every stream and function that
    occurred, under the name it is given, the number of its messages, so that no two
    of them share an entry. *)
Theorem stats_exact `{!MapOrder (Z * Z)} d t fn os :
  len os < 2 ^ 63 -> Forall (fun o => 0 <= o_stream o < 256 /\ 0 <= o_function o < 256) os ->
  let pc := foldl (fun pc o => observe o pc) (OnAlert fn (NewPatternCollector d t)) os in
  total_messages (Stats pc) = len os
  /\ unique_sources (Stats pc) = Z.of_nat (size (list_to_set (C := gset string) (map o_source os)))
  /\ alert_count (Stats pc) = len (alerts pc) /\ len (alerts pc) <= len os
  /\ forall o, o ∈ os -> sf_distribution (Stats pc) !! sfKeyString (key_of o) = Some (seen (key_of o) os).
Proof.
  intros Hlen Hb pc. destruct (collected_all d t fn os Hlen) as [Ht Hc Hs Ha]. fold pc in Ht, Hc, Hs, Ha.
  unfold Stats. cbn [total_messages alert_count unique_sources sf_distribution]. split_and!; [done | | lia | lia |].
  { by rewrite <- size_dom, Hs. }
  assert (Hkeys : forall k v, sfCounts pc !! k = Some v -> 0 <= k.1 < 256 /\ 0 <= k.2 < 256).
  { intros k v. rewrite Hc. case_decide as Hz; [done |]. intros _.
    destruct (filter (fun o => key_of o = k) os) as [|o l] eqn:Hfil; [unfold seen in Hz; by rewrite Hfil in Hz |].
    assert (Ho : o ∈ filter (fun o => key_of o = k) os) by (rewrite Hfil; left).
    apply list_elem_of_filter in Ho as [<- Ho]. rewrite Forall_forall in Hb. by apply Hb. }
  intros o Ho. apply foldl_insert_names.
  - apply range_map_keys_NoDup.
  - intros x y [v Hx]%elem_of_range_keys [w Hy]%elem_of_range_keys.
    apply Hkeys in Hx as [??], Hy as [??]. by apply sfKeyString_inj.
  - apply elem_of_range_map. rewrite Hc, decide_False; [done |]. unfold seen.
    destruct (filter _ os) as [|o' l] eqn:Hfil; [| rewrite len_cons; pose proof (len_nonneg l); lia].
    assert (Hin : o ∈ filter (fun o' => key_of o' = key_of o) os) by (by apply list_elem_of_filter).
    rewrite Hfil in Hin. by apply elem_of_nil in Hin.
Qed.
End collecting.

Lemma stats_exact_witness :
  let os := [mkObs 1 1 1 "a" 10 false; mkObs 2 1 1 "b" 5000 false; mkObs 3 6 11 "a" 20 true] in
  let pc := foldl (fun pc o => observe o pc) (OnAlert (Some 0%nat) (NewPatternCollector (Some (mkThreshold 1000)) (f64_of_Z 0))) os in
  let _ := some_order (Z * Z) in
  total_messages (Stats pc) = 3 /\ alert_count (Stats pc) = len (alerts pc)
  /\ sf_distribution (Stats pc) !! sfKeyString (1, 1) = Some 2.
Proof.
  intros os pc order.
  destruct (stats_exact (Some (mkThreshold 1000)) (f64_of_Z 0) (Some 0%nat) os) as (H1 & _ & H2 & _ & H3).
  - reflexivity.
  - repeat constructor; discriminate.
  - split_and!; [exact H1 | exact H2 |]. exact (H3 (mkObs 1 1 1 "a" 10 false) ltac:(left)).
Defined.

(** The entries of streams and functions above nine are not decimal numbers. *)
Example distribution_names : sfKeyString (1, 13) = "S1F=" /\ sfKeyString (10, 1) = "S:F1".
Proof. vm_compute. done. Qed.

(** Without a callback nothing counts as an alert, whatever the score. *)
Lemma alerts_need_callback {D} `{AnomalyDetector D} (p : MessagePattern) (pc : PatternCollector D) :
  onAlert pc = None -> alertCount (analyze p pc) = alertCount pc.
Proof. intros Hn. destruct (analyze_stats p pc) as (_ & _ & _ & _ & _ & [[_ ->]|(fn & s & Hfn & _)]); congruence. Qed.
