(* ===== verification/EventHub.v ===== *)
(** * Event subscribers

    The fan-out both northbound servers share: [BroadcastEvent] and the client loop of
    [handleSSE] in [src/api/rest/handler.go], [broadcastEvent] and [StreamEvents] in
    [src/api/grpc/server.go].  A client is a buffered channel in a set guarded by a
    mutex; a broadcast puts the event into every channel that has room, the client's
    goroutine takes events out and sends them on.  Each [event] below is one critical
    section or one receive. *)

From stdpp Require Import prelude gmap list.
From Stdlib Require Import ZArith Lia.
From S2P Require Import Prelude.

#[local] Open Scope Z_scope.

(** The buffers of the two servers. *)
Definition sse_capacity : Z := 64.
Definition grpc_capacity : Z := 256.

Section hub.
Context {M : Type} (capacity : Z).

(** [sent] is what the goroutine of the channel has passed on, oldest first. *)
Record client := mkClient { queue : list M; sent : list M }.

Inductive event := Subscribe (ch : nat) | Unsubscribe (ch : nat) | Broadcast (m : M) | Deliver (ch : nat).

Definition offer (m : M) (c : client) : client :=
  if len (queue c) <? capacity then mkClient (queue c ++ [m]) (sent c) else c.

Definition deliver (c : client) : client :=
  match queue c with [] => c | m :: q => mkClient q (sent c ++ [m]) end.

(** [make] gives a channel that is not in the set. *)
Definition step (h : gmap nat client) (e : event) : gmap nat client :=
  match e with
  | Subscribe ch => match h !! ch with None => <[ch := mkClient [] []]> h | Some _ => h end
  | Unsubscribe ch => delete ch h
  | Broadcast m => offer m <$> h
  | Deliver ch => alter deliver ch h
  end.

Definition run (es : list event) : gmap nat client := foldl step ∅ es.

(** What was broadcast while the client [ch] was registered, oldest first; [None] when
    it is not. *)
Definition offered_step (ch : nat) (acc : option (list M)) (e : event) : option (list M) :=
  match e, acc with
  | Subscribe ch', None => if decide (ch' = ch) then Some [] else None
  | Unsubscribe ch', Some _ => if decide (ch' = ch) then None else acc
  | Broadcast m, Some ms => Some (ms ++ [m])
  | _, _ => acc
  end.

Definition offered (ch : nat) (es : list event) : option (list M) := foldl (offered_step ch) None es.

(** Whenever something was broadcast, the client had room for it. *)
Definition kept_up (ch : nat) (es : list event) : Prop :=
  forall es1 m es2 c, es = es1 ++ Broadcast m :: es2 -> run es1 !! ch = Some c -> len (queue c) < capacity.

(** ** Lemmas *)

(** A client against the events it was offered; [P] says that it has kept up. *)
Record follows (P : Prop) (c : client) (ms : list M) : Prop := {
  fol_sublist : sublist (sent c ++ queue c) ms;
  fol_room : len (queue c) <= capacity;
  fol_all : P -> sent c ++ queue c = ms;
}.

Definition agrees (P : Prop) (c : option client) (ms : option (list M)) : Prop :=
  match c, ms with Some c, Some ms => follows P c ms | None, None => True | _, _ => False end.

Lemma deliver_content c : sent (deliver c) ++ queue (deliver c) = sent c ++ queue c /\ len (queue (deliver c)) <= len (queue c).
Proof.
  destruct c as [[|m q] s]; cbn; [done |]. rewrite <- app_assoc, len_cons. split; [done | lia].
Qed.

Lemma follows_offer (P Q : Prop) c ms m :
  (Q -> P /\ len (queue c) < capacity) -> follows P c ms -> follows Q (offer m c) (ms ++ [m]).
Proof.
  intros HQ [Hs Hr Ha]. unfold offer. destruct (Z.ltb_spec (len (queue c)) capacity) as [Hlt|Hge].
  - assert (Hl : len (queue c ++ [m]) = len (queue c) + 1) by by rewrite len_app.
    split; cbn; [| lia |]; rewrite app_assoc; [by apply sublist_app |]. intros [Hp _]%HQ. by rewrite Ha.
  - split; [by apply sublist_inserts_r | done |]. intros [_ ?]%HQ. lia.
Qed.

Lemma follows_mono (P Q : Prop) c ms : (Q -> P) -> follows P c ms -> follows Q c ms.
Proof. intros HQ [Hs Hr Ha]. split; auto. Qed.

Lemma agrees_step (P Q : Prop) ch h acc e :
  0 <= capacity -> (Q -> P) ->
  (forall m c, e = Broadcast m -> h !! ch = Some c -> Q -> len (queue c) < capacity) ->
  agrees P (h !! ch) acc -> agrees Q (step h e !! ch) (offered_step ch acc e).
Proof.
  intros Hcap HQ Hroom Hh.
  assert (Hsame : agrees Q (h !! ch) acc) by (revert Hh; destruct (h !! ch), acc; try done; by apply follows_mono).
  destruct e as [ch'|ch'|m|ch']; cbn [step offered_step].
  - destruct (decide (ch' = ch)) as [->|Hne].
    + destruct (h !! ch) as [c|] eqn:Hc; [by rewrite Hc; destruct acc |]. destruct acc; [done |].
      cbv iota. rewrite lookup_insert_eq. by split.
    + assert (Hl : (match h !! ch' with Some _ => h | None => <[ch':=mkClient [] []]> h end) !! ch = h !! ch)
        by (destruct (h !! ch'); [done | by apply lookup_insert_ne]).
      rewrite Hl. by destruct acc.
  - destruct (decide (ch' = ch)) as [->|Hne]; [rewrite lookup_delete_eq; by destruct acc, (h !! ch) |].
    rewrite lookup_delete_ne by done. by destruct acc.
  - rewrite lookup_fmap. destruct (h !! ch) as [c|] eqn:Hc, acc; try done. apply follows_offer with (P := P); [| done].
    intros Hq. split; [by apply HQ | by eapply Hroom].
  - destruct (decide (ch' = ch)) as [->|Hne]; [rewrite lookup_alter_eq | by rewrite lookup_alter_ne].
    destruct (h !! ch) as [c|], acc as [ms|]; try done. cbn. destruct Hsame as [Hs Hr Ha], (deliver_content c) as [Hd Hq].
    split; rewrite ?Hd; [done | lia | done].
Qed.

(** ** Properties *)

(** Whatever the order of subscriptions, broadcasts and deliveries, a client sees
    events that were broadcast while it was subscribed, in their order and none twice;
    never more than the capacity wait for it; and as long as it keeps up it misses
    none.  Other clients, slow or gone, play no part. *)
Theorem subscriber_sees ch es :
  0 <= capacity ->
  match run es !! ch, offered ch es with
  | Some c, Some ms =>
      sublist (sent c ++ queue c) ms /\ len (queue c) <= capacity /\ (kept_up ch es -> sent c ++ queue c = ms)
  | None, None => True
  | _, _ => False
  end.
Proof.
  intros Hcap. enough (H : agrees (kept_up ch es) (run es !! ch) (offered ch es)).
  { revert H. unfold agrees. destruct (run es !! ch), (offered ch es); try done. by intros []. }
  induction es as [|e es IH] using rev_ind; [done |].
  unfold run, offered in *. rewrite !foldl_app. apply agrees_step with (P := kept_up ch es); [done | | | exact IH].
  - intros Hk es1 m es2 c -> Hc. apply (Hk es1 m (es2 ++ [e]) c); [| done]. by rewrite <- app_assoc.
  - intros m c -> Hc Hk. by apply (Hk es m [] c).
Qed.
End hub.

Lemma subscriber_sees_witness :
  let es := [Subscribe 1%nat; Broadcast 10; Subscribe 2%nat; Broadcast 20; Deliver 1%nat; Broadcast 30] in
  0 <= sse_capacity
  /\ exists c, run sse_capacity es !! 2%nat = Some c /\ sent c ++ queue c = [20; 30].
Proof.
  intros es. split; [done |]. pose proof (subscriber_sees sse_capacity 2%nat es ltac:(done)) as H.
  destruct (run sse_capacity es !! 2%nat) as [c|] eqn:Hc; [| by vm_compute in Hc].
  exists c. split; [done |]. assert (Hoff : offered 2%nat es = Some [20; 30]) by reflexivity.
  rewrite Hoff in H. destruct H as (Hsub & _ & _). vm_compute in Hc. injection Hc as <-. reflexivity.
Defined.
