(* ===== verification/Rest.v ===== *)
(** * The REST API

    [src/api/rest/handler.go]: the routes, the authorization and CORS layers, and the
    endpoints over the managers of the GEM handler.  [net/http] is modelled as far as
    the server relies on it: the patterns of [ServeMux] are matched against the
    segments of the escaped path, the path the authorization layer looks at is the
    unescaped one.

    A request carries what decoding its body gives for the two structs the endpoints
    decode it into.  [executed] records the remote commands the server has called. *)

From stdpp Require Import prelude gmap strings list pretty.
From Stdlib Require Import ZArith Lia Ascii.
From S2P Require Import Prelude GoStrings Auth Json Security Secs2Item Transport.
From S2P Require Import GemState GemVariables GemAlarms GemCommands GemHandler.

#[local] Open Scope Z_scope.

(** ** Requests and responses *)

Record Request := mkRequest {
  Method : string;
  EscapedPath : string;
  Authorization : string;
  Origin : string;
  value_body : option govalue;                            (* {"value": ...} *)
  command_body : option (string * gmap string govalue);   (* {"command": ..., "params": ...} *)
}.

(** [r.URL.Path] *)
Definition Path (r : Request) : string :=
  string_of (default (chars (EscapedPath r)) (unescape (chars (EscapedPath r)))).

Inductive rbody :=
| NoBody
| JsonBody (j : json)
| ErrorBody (code : Z) (message : string)
| VarErrorBody (code : Z) (e : var_error).

Record Response := mkResponse { Status : Z; Headers : list (string * string); Body : rbody }.

Definition writeJSON (status : Z) (j : json) : Response := mkResponse status [] (JsonBody j).
Definition writeError (status : Z) (message : string) : Response := mkResponse status [] (ErrorBody status message).

(** The envelope of a successful answer. *)
Definition success (data : json) : Response := writeJSON 200 (JObject [("success", JBool true); ("data", data)]).

(** ** The server *)

Record Auth := mkAuth { ReadToken : string; WriteToken : string }.

Definition Enabled (a : Auth) : bool := bool_decide (ReadToken a <> "") || bool_decide (WriteToken a <> "").

Record Server (T : Type) := mkServer {
  handler : Handler T;
  transport : Transport.State;
  auth : Auth;
  AllowedOrigins : list string;
  securityStatus : option SecurityStatus;
  executed : list (string * list CommandParam);
}.

Arguments mkServer {T}. Arguments handler {T}. Arguments transport {T}. Arguments auth {T}.
Arguments AllowedOrigins {T}. Arguments securityStatus {T}. Arguments executed {T}.

Definition NewServerWithAuth {T} (session : Transport.State) (h : Handler T) (a : Auth) (cors : list string) : Server T :=
  mkServer h session a cors None [].

Definition NewServer {T} (session : Transport.State) (h : Handler T) (bearerToken : list string) : Server T :=
  let token := default "" (head bearerToken) in
  NewServerWithAuth session h (mkAuth token token) [].

Definition SetSecurityStatus {T} (ss : option SecurityStatus) (s : Server T) : Server T :=
  mkServer (handler s) (transport s) (auth s) (AllowedOrigins s) ss (executed s).

Definition set_handler {T} (h : Handler T) (s : Server T) : Server T :=
  mkServer h (transport s) (auth s) (AllowedOrigins s) (securityStatus s) (executed s).

(** ** Endpoints

    The dereference of a missing variable is a panic. *)

Inductive fault := Fault.

Section endpoints.
Context {T : Type} `{!MapOrder Z, !MapOrder string}.
Implicit Types s : Server T.

Definition reading s (m : result fault Response) : result fault (Response * Server T) :=
  resp ← m; Ok (resp, s).

Definition handleHealth : Response := success (JObject [("status", JString "ok"); ("version", JString "0.1.0")]).

Definition handleStatus s : Response :=
  let st := state (handler s) in
  success (JObject [
    ("commState", JString (CommState_String (commState st)));
    ("controlState", JString (ControlState_String (controlState st)));
    ("communicating", JBool (IsCommunicating st)); ("online", JBool (IsOnline st));
    ("transport", JString (State_String (transport s)))]).

Definition sv_json (vs : VariableStore) (now svid : Z) : result fault json :=
  match GetSVInfo vs svid with
  | None => Panic NilDeref
  | Some info =>
      Ok (JObject [("svid", JInt svid); ("name", JString (sv_Name info)); ("value", JValue (GetSV vs now svid).1);
                   ("units", JString (sv_Units info))])
  end.

Definition handleListSV (now : Z) s : result fault Response :=
  let vs := vars (handler s) in
  l ← mapM (sv_json vs now) (ListSVIDs vs); Ok (success (JList l)).

Definition parseUint32 (str : string) : option Z := ParseUint str 10 32.

Definition handleGetSV (now : Z) (id : string) s : result fault Response :=
  match parseUint32 id with
  | None => Ok (writeError 400 "invalid SVID")
  | Some svid =>
      if (GetSV (vars (handler s)) now svid).2
      then data ← sv_json (vars (handler s)) now svid; Ok (success data)
      else Ok (writeError 404 ("SVID " +:+ pretty svid +:+ " not found"))
  end.

Definition ec_json (ecid : Z) (ec : EquipmentConstant) : json :=
  JObject [("ecid", JInt ecid); ("name", JString (ec_Name ec)); ("value", JValue (ec_Value ec));
           ("units", JString (ec_Units ec)); ("min", JValue (MinValue ec)); ("max", JValue (MaxValue ec))].

Definition listed_ec_json (vs : VariableStore) (ecid : Z) : result fault json :=
  match GetEC vs ecid with None => Panic NilDeref | Some ec => Ok (ec_json ecid ec) end.

Definition handleListEC s : result fault Response :=
  let vs := vars (handler s) in
  l ← mapM (listed_ec_json vs) (ListECIDs vs); Ok (success (JList l)).

Definition handleGetEC (id : string) s : Response :=
  match parseUint32 id with
  | None => writeError 400 "invalid ECID"
  | Some ecid =>
      match GetEC (vars (handler s)) ecid with
      | None => writeError 404 ("ECID " +:+ pretty ecid +:+ " not found")
      | Some ec => success (ec_json ecid ec)
      end
  end.

Definition handleSetEC (r : Request) (id : string) s : result fault (Response * Server T) :=
  match parseUint32 id with
  | None => Ok (writeError 400 "invalid ECID", s)
  | Some ecid =>
      match value_body r with
      | None => Ok (writeError 400 "invalid JSON body", s)
      | Some value =>
          match SetEC ecid value (vars (handler s)) with
          | Ok vs =>
              Ok (success (JObject [("ecid", JInt ecid); ("value", JValue value)]),
                  set_handler (set_vars vs (handler s)) s)
          | Err e =>
              let code := match GetEC (vars (handler s)) ecid with Some _ => 400 | None => 404 end in
              Ok (mkResponse code [] (VarErrorBody code e), s)
          | Panic p => Panic p
          | OutOfFuel => OutOfFuel
          end
      end
  end.

Definition handleListAlarms s : Response :=
  success (JList (map (fun a =>
    JObject [("alid", JInt (ALID a)); ("name", JString (al_Name a)); ("text", JString (al_Text a));
             ("state", JString (AlarmState_String (al_State a))); ("enabled", JBool (al_Enabled a));
             ("severity", JInt (Severity a))]) (ListAlarms (alarmMgr (handler s))))).

Definition handleActiveAlarms s : Response :=
  success (JList (map (fun a =>
    JObject [("alid", JInt (ALID a)); ("name", JString (al_Name a)); ("text", JString (al_Text a))])
    (ListActiveAlarms (alarmMgr (handler s))))).

Definition command_params (params : gmap string govalue) : list CommandParam :=
  map (fun kv => mkParam kv.1 kv.2) (range_map params).

Definition handleCommand (r : Request) s : Response * Server T :=
  match command_body r with
  | None => (writeError 400 "invalid JSON body", s)
  | Some (command, body_params) =>
      if decide (command = "") then (writeError 400 "command is required", s)
      else
        let params := command_params body_params in
        let status := Execute (commandMgr (handler s)) command params in
        (success (JObject [("command", JString command); ("status", JString (CommandStatus_String status));
                           ("code", JInt status)]),
         mkServer (handler s) (transport s) (auth s) (AllowedOrigins s) (securityStatus s)
           (executed s ++ [(command, params)]))
  end.

Definition handleSecurityStatus (now : Z) s : Response :=
  match securityStatus s with
  | None => success (JObject [("message", JString "security status not configured")])
  | Some ss => success (Report now ss)
  end.

(** The head of the event stream; what follows it is in [EventHub]. *)
Definition handleSSE : Response :=
  mkResponse 200 [("Content-Type", "text/event-stream"); ("Cache-Control", "no-cache"); ("Connection", "keep-alive")] NoBody.

(** ** Routes *)

Inductive endpoint :=
| EHealth | EStatus | EListSV | EGetSV | EListEC | EGetEC | ESetEC | EListAlarms | EActiveAlarms | ECommand
| EEvents | ESecurityStatus.

Inductive seg := Lit (s : string) | Wild.

Definition routes : list (string * list seg * endpoint) := [
  ("GET", [Lit "health"], EHealth);
  ("GET", [Lit "api"; Lit "status"], EStatus);
  ("GET", [Lit "api"; Lit "sv"], EListSV);
  ("GET", [Lit "api"; Lit "sv"; Wild], EGetSV);
  ("GET", [Lit "api"; Lit "ec"], EListEC);
  ("GET", [Lit "api"; Lit "ec"; Wild], EGetEC);
  ("PUT", [Lit "api"; Lit "ec"; Wild], ESetEC);
  ("GET", [Lit "api"; Lit "alarms"], EListAlarms);
  ("GET", [Lit "api"; Lit "alarms"; Lit "active"], EActiveAlarms);
  ("POST", [Lit "api"; Lit "command"], ECommand);
  ("GET", [Lit "api"; Lit "events"], EEvents);
  ("GET", [Lit "api"; Lit "security"; Lit "status"], ESecurityStatus)].

Definition run_endpoint (now : Z) (e : endpoint) (r : Request) (id : string) s : result fault (Response * Server T) :=
  match e with
  | EHealth => Ok (handleHealth, s)
  | EStatus => Ok (handleStatus s, s)
  | EListSV => reading s (handleListSV now s)
  | EGetSV => reading s (handleGetSV now id s)
  | EListEC => reading s (handleListEC s)
  | EGetEC => Ok (handleGetEC id s, s)
  | ESetEC => handleSetEC r id s
  | EListAlarms => Ok (handleListAlarms s, s)
  | EActiveAlarms => Ok (handleActiveAlarms s, s)
  | ECommand => Ok (handleCommand r s)
  | EEvents => Ok (handleSSE, s)
  | ESecurityStatus => Ok (handleSecurityStatus now s, s)
  end.
End endpoints.

(** *** [http.ServeMux] *)

(** The segments of an escaped path that starts with a slash, as written; a slash at
    the end leaves an empty last one. *)
Definition raw_segments (path : list ascii) : list (list ascii) :=
  let '(w, ws) := split_at "/"%char (drop 1 path) in w :: ws.

(** What a pattern is matched against: unescaped, the slash at the end by itself. *)
Definition mux_segment (w : list ascii) : string :=
  if decide (w = []) then "/" else string_of (default w (unescape w)).

(** [cleanPath] leaves the path alone. *)
Definition clean (ws : list (list ascii)) : bool :=
  forallb (fun w => bool_decide (string_of w <> "." /\ string_of w <> "..")) ws
  && forallb (fun w => bool_decide (w <> [])) (removelast ws).

(** A match with the segment the wildcard stands for. *)
Fixpoint match_segs (pat : list seg) (segs : list string) : option (option string) :=
  match pat, segs with
  | [], [] => Some None
  | Lit l :: pat, x :: segs => if decide (l = x) then match_segs pat segs else None
  | Wild :: pat, x :: segs =>
      if decide (x = "/") then None
      else rest ← match_segs pat segs; Some (Some (default x rest))
  | _, _ => None
  end.

Fixpoint find_route (method : string) (segs : list string) (rs : list (string * list seg * endpoint))
    : option (endpoint * string) :=
  match rs with
  | [] => None
  | (m, pat, e) :: rs =>
      match (if decide (m = method) then match_segs pat segs else None) with
      | Some id => Some (e, default "" id)
      | None => find_route method segs rs
      end
  end.

(** [GET] patterns also match [HEAD]. *)
Definition route (method : string) (segs : list string) : option (endpoint * string) :=
  match find_route method segs routes with
  | Some m => Some m
  | None => if decide (method = "HEAD") then find_route "GET" segs routes else None
  end.

Definition path_known (segs : list string) : bool :=
  existsb (fun x => bool_decide (is_Some (match_segs x.1.2 segs))) routes.

Section serving.
Context {T : Type} `{!Unicode, !MapOrder Z, !MapOrder string}.
Implicit Types s : Server T.

Definition HandlerFunc : Type := Request -> Server T -> result fault (Response * Server T).

Definition mux (now : Z) : HandlerFunc := fun r s =>
  if decide (EscapedPath r = "*") then Ok (mkResponse 400 [] NoBody, s)
  else
    let ws := raw_segments (chars (EscapedPath r)) in
    let segs := map mux_segment ws in
    let has_slash := bool_decide (head (chars (EscapedPath r)) = Some "/"%char) in
    if bool_decide (Method r <> "CONNECT") && negb (has_slash && clean ws) then Ok (mkResponse 307 [] NoBody, s)
    else
      match (if has_slash then route (Method r) segs else None) with
      | Some (e, id) => run_endpoint now e r id s
      | None => Ok (mkResponse (if has_slash && path_known segs then 405 else 404) [] NoBody, s)
      end.

(** ** Authorization and CORS *)

Definition writeRoutes (method : string) : string :=
  if decide (method = "PUT") then "/api/ec/" else if decide (method = "POST") then "/api/command" else "".

Definition isWriteRequest (r : Request) : bool :=
  if decide (Method r = "PUT") then HasPrefix (Path r) (writeRoutes "PUT")
  else if decide (Method r = "POST") then bool_decide (Path r = writeRoutes "POST")
  else false.

Definition withAuth (next : HandlerFunc) : HandlerFunc := fun r s =>
  if decide (Path r = "/health") then next r s
  else
    match BearerToken (Authorization r) with
    | None => Ok (writeError 401 "missing bearer token", s)
    | Some presented =>
        if isWriteRequest r then
          if negb (CompareToken (WriteToken (auth s)) presented) then Ok (writeError 403 "write scope required", s)
          else next r s
        else if negb (CompareToken (ReadToken (auth s)) presented) && negb (CompareToken (WriteToken (auth s)) presented)
        then Ok (writeError 401 "invalid bearer token", s)
        else next r s
    end.

Definition cors_headers (origin : string) : list (string * string) := [
  ("Access-Control-Allow-Origin", origin);
  ("Access-Control-Allow-Methods", "GET, POST, PUT, OPTIONS");
  ("Access-Control-Allow-Headers", "Content-Type, Authorization");
  ("Vary", "Origin")].

Definition withCORS (next : HandlerFunc) : HandlerFunc := fun r s =>
  let allowed := OriginAllowed (AllowedOrigins s) (Origin r) in
  let headers := if allowed then cors_headers (Origin r) else [] in
  if decide (Method r = "OPTIONS") then Ok (mkResponse (if allowed then 204 else 403) headers NoBody, s)
  else '(resp, s) ← next r s; Ok (mkResponse (Status resp) (headers ++ Headers resp) (Body resp), s).

(** [Handler()]; [net/http] itself refuses a path with an invalid escape. *)
Definition http_handler (now : Z) : HandlerFunc := fun r s =>
  withCORS (if Enabled (auth s) then withAuth (mux now) else mux now) r s.

Definition serve (now : Z) : HandlerFunc := fun r s =>
  match unescape (chars (EscapedPath r)) with
  | None => Ok (mkResponse 400 [] NoBody, s)
  | Some _ => http_handler now r s
  end.
End serving.

(** ** Lemmas *)

Lemma find_route_elem m segs rs e id :
  find_route m segs rs = Some (e, id) -> exists pat x, (m, pat, e) ∈ rs /\ match_segs pat segs = Some x /\ id = default "" x.
Proof.
  induction rs as [|[[m' pat] e'] rs IH]; [done |]. cbn [find_route].
  assert (Hrest : find_route m segs rs = Some (e, id) -> exists pat0 x, (m, pat0, e) ∈ (m', pat, e') :: rs
            /\ match_segs pat0 segs = Some x /\ id = default "" x).
  { intros (pat0 & x & Hin & Hx)%IH. exists pat0, x. split; [by right | done]. }
  case_decide as Hm; [| done]. destruct (match_segs pat segs) as [x|] eqn:Hx; [| done].
  intros [= -> <-]. exists pat, x. subst m'. split; [by left | done].
Qed.

(** The endpoints that write, and the requests that reach them. *)
Definition writes (e : endpoint) : bool := match e with ESetEC | ECommand => true | _ => false end.

Lemma match_lit l pat segs x :
  match_segs (Lit l :: pat) segs = Some x -> exists segs', segs = l :: segs' /\ match_segs pat segs' = Some x.
Proof. destruct segs as [|y segs]; cbn; [done |]. case_decide; [| done]. subst. eauto. Qed.

Lemma match_lit2 a b segs x : match_segs [Lit a; Lit b] segs = Some x -> segs = [a; b].
Proof. intros (segs' & -> & (segs2 & -> & H)%match_lit)%match_lit. by destruct segs2. Qed.

Lemma match_lit2_wild a b segs x : match_segs [Lit a; Lit b; Wild] segs = Some x -> exists y, segs = [a; b; y].
Proof.
  intros (segs' & -> & (segs2 & -> & H)%match_lit)%match_lit. destruct segs2 as [|y segs2]; [done |]. cbn in H.
  case_decide; [done |]. destruct segs2; [eauto | done].
Qed.

Lemma write_routes :
  Forall (fun x => writes x.2 = true -> x.1 = ("PUT", [Lit "api"; Lit "ec"; Wild]) \/ x.1 = ("POST", [Lit "api"; Lit "command"])) routes.
Proof. unfold routes. repeat (apply Forall_cons; split; [intros; try done; auto |]). apply Forall_nil_2. Qed.

Lemma route_write m segs e id :
  route m segs = Some (e, id) -> writes e = true ->
  (m = "PUT" /\ exists x, segs = ["api"; "ec"; x]) \/ (m = "POST" /\ segs = ["api"; "command"]).
Proof.
  unfold route. intros Hr Hw.
  assert (Hf : forall m, find_route m segs routes = Some (e, id) ->
    (m = "PUT" /\ exists x, segs = ["api"; "ec"; x]) \/ (m = "POST" /\ segs = ["api"; "command"])).
  { intros m' (pat & x & Hin & Hx & _)%find_route_elem.
    destruct (proj1 (Forall_forall _ _) write_routes _ Hin Hw) as [[= -> ->]|[= -> ->]];
      [left; split; [done | by eapply match_lit2_wild] | right; split; [done | by eapply match_lit2]]. }
  destruct (find_route m segs routes) as [[e' id']|] eqn:Hm; [injection Hr as -> ->; by apply Hf |].
  case_decide; [| done]. by apply Hf in Hr as [[??]|[??]].
Qed.

Lemma mux_segment_lit w l : mux_segment w = l -> l <> "/" -> default w (unescape w) = chars l.
Proof. unfold mux_segment. case_decide; intros <- Hne; [done |]. by rewrite chars_string_of. Qed.

(** The authorization layer sees every request that reaches a writing endpoint as a
    write request, however its path is escaped. *)
Lemma write_recognised (r : Request) q ws e ecid :
  unescape (chars (EscapedPath r)) = Some q -> head (chars (EscapedPath r)) = Some "/"%char ->
  raw_segments (chars (EscapedPath r)) = ws -> route (Method r) (map mux_segment ws) = Some (e, ecid) ->
  writes e = true -> isWriteRequest r = true /\ Path r <> "/health".
Proof.
  intros Hq Hh Hws Hr Hw. unfold isWriteRequest, Path. rewrite Hq. cbn [default from_option id].
  destruct (chars (EscapedPath r)) as [|c l]; [done |]. injection Hh as ->.
  unfold raw_segments in Hws. cbn [drop] in Hws. rewrite drop_0 in Hws.
  destruct (split_at "/" l) as [w ws'] eqn:Hs. subst ws.
  apply split_at_join in Hs. rewrite <- Hs in Hq. cbn [unescape] in Hq. change (char_is 37 "/") with false in Hq.
  destruct (unescape (join "/" w ws')) as [q'|] eqn:Hj; [| done]. injection Hq as <-.
  apply unescape_join in Hj as [_ ->].
  apply route_write in Hr as [(Hm & x & Hx)|[Hm Hx]]; [| | done]; rewrite Hm.
  - rewrite decide_True by done. destruct ws' as [|w2 [|w3 [|]]]; try done. cbn [map] in Hx. injection Hx as H1 H2 _.
    cbn [map join]. rewrite (mux_segment_lit w _ H1), (mux_segment_lit w2 _ H2) by done. split; [| discriminate]. cbn. by destruct (string_of _).
  - rewrite decide_False, decide_True by done. destruct ws' as [|w2 [|]]; try done. cbn [map] in Hx. injection Hx as H1 H2.
    cbn [map join]. rewrite (mux_segment_lit w _ H1), (mux_segment_lit w2 _ H2) by done. split; [reflexivity | discriminate].
Qed.

(** ** Credentials *)

Section access.
Context {T : Type} `{!Unicode, !MapOrder Z, !MapOrder string}.
Implicit Types s : Server T.

(** A request shows the credential a writing, or any, endpoint asks for. *)
Definition may_write (a : Auth) (r : Request) : Prop :=
  Enabled a = false \/ (WriteToken a <> "" /\ BearerToken (Authorization r) = Some (WriteToken a)).
Definition may_read (a : Auth) (r : Request) : Prop :=
  Enabled a = false
  \/ exists t, t <> "" /\ BearerToken (Authorization r) = Some t /\ (t = ReadToken a \/ t = WriteToken a).

(** The answer carries no data. *)
Definition bare (resp : Response) : Prop := forall j, Body resp <> JsonBody j.

Lemma sv_json_ok vs now svid : is_Some (svs vs !! svid) -> exists j, sv_json vs now svid = Ok j.
Proof. intros [sv Hsv]. unfold sv_json, GetSVInfo. rewrite Hsv. eauto. Qed.

Lemma mapM_ok {A B} (f : A -> result fault B) l : (forall x, x ∈ l -> exists y, f x = Ok y) -> exists ys, mapM f l = Ok ys.
Proof.
  induction l as [|x l IH]; intros Hf; [by exists [] |].
  destruct (Hf x ltac:(left)) as [y Hy], (IH ltac:(intros; apply Hf; by right)) as [ys Hys].
  exists (y :: ys). cbn. by rewrite Hy, Hys.
Qed.

(** Every endpoint answers, and only the writing ones change the server. *)
Lemma run_endpoint_effect now e (r : Request) id s :
  exists resp s', run_endpoint now e r id s = Ok (resp, s') /\ (writes e = false -> s' = s).
Proof.
  destruct e; cbn [run_endpoint writes]; try (do 2 eexists; split; [reflexivity | done]).
  - destruct (mapM_ok (sv_json (vars (handler s)) now) (ListSVIDs (vars (handler s)))) as [l Hl].
    { intros x [v Hx]%elem_of_range_keys. apply sv_json_ok. eauto. }
    unfold handleListSV, reading. rewrite Hl. cbn. by do 2 eexists.
  - unfold handleGetSV, reading. destruct (parseUint32 id) as [svid|]; [| by do 2 eexists].
    destruct (GetSV _ _ _) as [v []] eqn:Hg; [| by do 2 eexists].
    destruct (sv_json_ok (vars (handler s)) now svid) as [j Hj].
    { unfold GetSV in Hg. destruct (svs _ !! svid); [eauto | done]. }
    cbn [snd]. rewrite Hj. cbn. by do 2 eexists.
  - destruct (mapM_ok (listed_ec_json (vars (handler s))) (ListECIDs (vars (handler s)))) as [l Hl].
    { intros x [v Hx]%elem_of_range_keys. unfold listed_ec_json, GetEC. rewrite Hx. eauto. }
    unfold handleListEC, reading. rewrite Hl. cbn. by do 2 eexists.
  - unfold handleSetEC. destruct (parseUint32 id) as [ecid|]; [| by do 2 eexists].
    destruct (value_body r) as [v|]; [| by do 2 eexists].
    pose proof (SetEC_returns ecid v (vars (handler s))) as Hret.
    destruct (SetEC ecid v _); try done; by do 2 eexists.
  - unfold handleCommand. destruct (command_body r) as [[c ps]|]; [| by do 2 eexists].
    case_decide; by do 2 eexists.
Qed.

Lemma mux_effect now (r : Request) s q :
  unescape (chars (EscapedPath r)) = Some q ->
  exists resp s', mux now r s = Ok (resp, s')
    /\ (isWriteRequest r = false \/ Path r = "/health" -> s' = s).
Proof.
  intros Hq. unfold mux. case_decide; [by do 2 eexists |]. cbv zeta.
  destruct (_ && negb _); [by do 2 eexists |].
  destruct (bool_decide (head _ = _)) eqn:Hh; [| by do 2 eexists]. apply bool_decide_eq_true in Hh.
  destruct (route _ _) as [[e id]|] eqn:Hr; [| by do 2 eexists].
  destruct (run_endpoint_effect now e r id s) as (resp & s' & He & Hs). exists resp, s'. split; [done |].
  intros Hw. apply Hs. destruct (writes e) eqn:Hwr; [| done].
  destruct (write_recognised r q _ e id Hq Hh eq_refl Hr Hwr) as [Hi Hp]. destruct Hw; congruence.
Qed.
End access.

Lemma route_ec x :
  x <> "/" -> route "PUT" ["api"; "ec"; x] = Some (ESetEC, x) /\ route "GET" ["api"; "ec"; x] = Some (EGetEC, x).
Proof.
  intros Hx. split; unfold route, routes; cbn [find_route match_segs];
    repeat match goal with
      | |- context [decide (?a = ?b)] =>
          first [ rewrite (decide_True (P := a = b)) by reflexivity
                | rewrite (decide_False (P := a = b)) by (discriminate || assumption) ]
      end; reflexivity.
Qed.

(** A request for the constant with a decimal identifier is routed to it. *)
Lemma ec_path (r : Request) x ecid :
  EscapedPath r = "/api/ec/" +:+ x -> parseUint32 x = Some ecid ->
  unescape (chars (EscapedPath r)) = Some (chars (EscapedPath r)) /\ Path r = EscapedPath r
  /\ raw_segments (chars (EscapedPath r)) = [chars "api"; chars "ec"; chars x]
  /\ clean [chars "api"; chars "ec"; chars x] = true
  /\ map mux_segment [chars "api"; chars "ec"; chars x] = ["api"; "ec"; x] /\ x <> "/".
Proof.
  intros Hp [Hne Hd]%ParseUint_decimal. unfold Path. rewrite Hp, chars_app.
  assert (Hu : unescape (chars "/api/ec/" ++ chars x) = Some (chars "/api/ec/" ++ chars x)).
  { cbn [chars app unescape]. rewrite unescape_plain by done. reflexivity. }
  assert (Hx : forall y, Forall (fun c => 48 <= code c <= 57) (chars y) -> y <> "." /\ y <> ".." /\ y <> "/").
  { intros y Hy. split_and!; intros ->; apply Forall_cons in Hy as [[Hc _] _]; by apply Hc. }
  rewrite Hu. destruct (Hx x Hd) as (Hx1 & Hx2 & Hx3). split_and!; try done.
  - cbn [default from_option]. change (chars "/api/ec/" ++ chars x) with (chars ("/api/ec/" +:+ x)). apply string_of_chars.
  - unfold raw_segments. cbn [chars app drop skipn split_at]. rewrite split_at_plain by done. reflexivity.
  - unfold clean. cbn [forallb removelast andb]. rewrite (string_of_chars x).
    rewrite (bool_decide_eq_true_2 (x <> "." /\ x <> "..")) by done. reflexivity.
  - enough (Hmx : mux_segment (chars x) = x) by (cbn [map]; by rewrite Hmx).
    unfold mux_segment. rewrite decide_False by (intros H; by apply Hne, chars_inj).
    rewrite unescape_plain by done. apply string_of_chars.
Qed.

Section requests.
Context {T : Type} `{!Unicode, !MapOrder Z, !MapOrder string}.
Implicit Types s : Server T.

Lemma mux_ec now (r : Request) s x ecid :
  EscapedPath r = "/api/ec/" +:+ x -> parseUint32 x = Some ecid ->
  (Method r = "PUT" -> mux now r s = handleSetEC r x s /\ isWriteRequest r = true)
  /\ (Method r = "GET" -> mux now r s = Ok (handleGetEC x s, s) /\ isWriteRequest r = false).
Proof.
  intros Hp Hx. destruct (ec_path r x ecid Hp Hx) as (Hu & Hpath & Hseg & Hclean & Hmux & Hns).
  assert (Hslash : head (chars (EscapedPath r)) = Some "/"%char) by by rewrite Hp.
  unfold mux. rewrite decide_False by by rewrite Hp. cbv zeta. rewrite Hseg, Hclean, Hslash, Hmux.
  rewrite (bool_decide_eq_true_2 (Some _ = Some _)) by done. cbn [andb negb]. rewrite andb_false_r.
  unfold isWriteRequest. rewrite Hpath, Hp.
  destruct (route_ec x Hns) as [Hput Hget].
  split; intros Hm; rewrite Hm.
  - rewrite Hput. split; [reflexivity |]. rewrite decide_True by done. apply HasPrefix_app.
  - rewrite Hget. by split.
Qed.

Definition with_headers (hs : list (string * string)) (resp : Response) : Response :=
  mkResponse (Status resp) (hs ++ Headers resp) (Body resp).

Definition cors_of s (r : Request) : list (string * string) :=
  if OriginAllowed (AllowedOrigins s) (Origin r) then cors_headers (Origin r) else [].

Lemma CompareToken_same t : t <> "" -> CompareToken t t = true.
Proof. intros Ht. by apply CompareToken_spec. Qed.

(** With the credential it asks for, a request is served by the mux. *)
Lemma serve_authorized now (r : Request) s q :
  unescape (chars (EscapedPath r)) = Some q -> Method r <> "OPTIONS" ->
  may_write (auth s) r \/ (may_read (auth s) r /\ isWriteRequest r = false) ->
  serve now r s = ('(resp, s') ← mux now r s; Ok (with_headers (cors_of s r) resp, s')).
Proof.
  intros Hq Hm Hc. unfold serve. rewrite Hq. unfold http_handler, withCORS. rewrite decide_False by done.
  enough ((if Enabled (auth s) then withAuth (mux now) else mux now) r s = mux now r s) as -> by done.
  destruct (Enabled (auth s)) eqn:He; [| done]. unfold withAuth. case_decide; [done |].
  destruct Hc as [[Hc|[Hne ->]]|[[Hc|(t & Hne & -> & Ht)] Hw]]; try congruence.
  - rewrite CompareToken_same by done. destruct (isWriteRequest r); [done |]. by rewrite andb_false_r.
  - rewrite Hw. destruct Ht as [-> | ->]; rewrite CompareToken_same by done; [done | by rewrite andb_false_r].
Qed.

Lemma access_lemma now (r : Request) s :
  match serve now r s with
  | Ok (resp, s') =>
      (~ may_write (auth s) r -> s' = s)
      /\ (~ may_read (auth s) r -> Path r <> "/health" -> bare resp)
  | _ => False
  end.
Proof.
  unfold serve. destruct (unescape (chars (EscapedPath r))) as [q|] eqn:Hq; [| split; [done | by intros ?? j]].
  destruct (mux_effect now r s q Hq) as (resp & s' & Hmux & Hs).
  unfold http_handler, withCORS. case_decide as Hm; [split; [done | by intros ?? j] |].
  destruct (Enabled (auth s)) eqn:He; cbn.
  2:{ rewrite Hmux. cbn. split; intros []; by left. }
  unfold withAuth. case_decide as Hp; [rewrite Hmux; cbn; split; [auto | done] |].
  destruct (BearerToken (Authorization r)) as [t|] eqn:Ht; [| split; [done | by intros ?? j]].
  pose proof (BearerToken_nonempty _ _ Ht) as Hne.
  destruct (isWriteRequest r) eqn:Hw.
  - destruct (CompareToken (WriteToken (auth s)) t) eqn:Hc; cbn; [| split; [done | by intros ?? j]].
    apply CompareToken_spec in Hc as [Hne' ->]. rewrite Hmux. cbn.
    split; intros []; right; [done | eexists; split; [exact Hne | auto]].
  - destruct (CompareToken (ReadToken (auth s)) t) eqn:Hr, (CompareToken (WriteToken (auth s)) t) eqn:Hc; cbn;
      try (split; [done | by intros ?? j]); rewrite Hmux; cbn; (split; [auto |]); intros [];
      right; exists t; (split; [done |]); (split; [done |]);
      apply CompareToken_spec in Hr as [_ ->] || apply CompareToken_spec in Hc as [_ ->]; auto.
Qed.

(** ** Properties *)

(** C7: The API answers every request, whatever its path, headers and body: it does not
    panic; without the write token nothing changes (no constant, no remote command),
    also not through an escaped path; without a read or write token no data is
    disclosed but by the health probe.  With no token configured every caller has
    access. *)
Theorem access_control now (r : Request) s :
  match serve now r s with
  | Ok (resp, s') =>
      (~ may_write (auth s) r -> s' = s)
      /\ (~ may_read (auth s) r -> Path r <> "/health" -> bare resp)
  | _ => False
  end.
Proof. exact (access_lemma now r s). Qed.

(** C33: An authorized [PUT /api/ec/{id}] does what [SetEC] does to the constant with that
    number, however the number is written: 200 and the new value, which the next
    [GET] of the same path reports, or 404 for an unknown constant and 400 for a
    value outside its range, with nothing changed. *)
Theorem put_then_get now now' (r r' : Request) s x ecid v :
  EscapedPath r = "/api/ec/" +:+ x -> parseUint32 x = Some ecid -> Method r = "PUT" -> value_body r = Some v ->
  may_write (auth s) r -> EscapedPath r' = EscapedPath r -> Method r' = "GET" -> may_read (auth s) r' ->
  exists resp s', serve now r s = Ok (resp, s')
  /\ match SetEC ecid v (vars (handler s)) with
     | Ok vs =>
         Status resp = 200 /\ vars (handler s') = vs
         /\ exists resp' ec, serve now' r' s' = Ok (resp', s') /\ Status resp' = 200
              /\ Body resp' = Body (success (ec_json ecid ec)) /\ ec_Value ec = v
     | Err (UnknownECID _) => Status resp = 404 /\ s' = s
     | Err _ => Status resp = 400 /\ s' = s
     | _ => False
     end.
Proof.
  intros Hp Hx Hm Hv Hw Hp' Hm' Hr. destruct (ec_path r x ecid Hp Hx) as [Hu _].
  destruct (mux_ec now r s x ecid Hp Hx) as [[Hmux _] _]; [done |].
  rewrite (serve_authorized now r s _ Hu), Hmux by (rewrite ?Hm; auto).
  pose proof (set_ec_outcome ecid v (vars (handler s))) as Hset.
  unfold handleSetEC. rewrite Hx, Hv. destruct (SetEC ecid v (vars (handler s))) as [vs|e|p|] eqn:He; try done.
  - destruct Hset as (ec & Hec & Hec').
    cbn [mbind result_bind]. do 2 eexists. split; [reflexivity |]. split_and!; [done | done |].
    set (s' := set_handler _ _). rewrite Hp in Hp'.
    destruct (ec_path r' x ecid Hp' Hx) as [Hu' _].
    destruct (mux_ec now' r' s' x ecid Hp' Hx) as [_ [Hmux' Hw']]; [done |].
    rewrite (serve_authorized now' r' s' _ Hu'), Hmux' by (rewrite ?Hm'; auto).
    do 2 eexists. split; [reflexivity |]. unfold handleGetEC, GetEC. rewrite Hx. cbn [s' set_handler handler set_vars vars].
    rewrite Hec'. by split_and!.
  - cbn [mbind result_bind]. do 2 eexists. split; [reflexivity |]. unfold GetEC.
    destruct e; [destruct Hset as [-> ->] | destruct Hset as [ec ->]..]; done.
Qed.
End requests.

#[local] Instance byte_fold : Unicode := {| fold_runes := String.eqb; fold_runes_refl := String.eqb_refl |}.
#[local] Instance int_order : MapOrder Z := some_order Z.
#[local] Instance name_order : MapOrder string := some_order string.

(** A server for the examples: constant 7, between 1 and 10. *)
Definition demo_server : Server () :=
  let vs := DefineEC (mkEC 7 "Rate" (GInt 5) (GInt 1) (GInt 10) "Hz") NewVariableStore in
  NewServerWithAuth StateSelected (set_vars vs (NewHandler () 1 "M" "1")) (mkAuth "rt" "wt") [].

Definition demo_request (method path token : string) (v : option govalue) : Request :=
  mkRequest method path ("Bearer " +:+ token) "" v None.

Lemma put_then_get_witness :
  let put := demo_request "PUT" "/api/ec/07" "wt" (Some (GFloat64 0x4020000000000000)) in
  let get := demo_request "GET" "/api/ec/07" "rt" None in
  exists resp s', serve 0 put demo_server = Ok (resp, s') /\ Status resp = 200
  /\ exists resp', serve 0 get s' = Ok (resp', s') /\ Status resp' = 200.
Proof.
  intros put get.
  destruct (put_then_get 0 0 put get demo_server "07" 7 (GFloat64 0x4020000000000000))
    as (resp & s' & H & Hset); try reflexivity.
  - right. split; [done | vm_compute; reflexivity].
  - right. exists "rt". split; [done |]. split; [vm_compute; reflexivity | by left].
  - exists resp, s'. split; [exact H |].
    destruct (SetEC 7 (GFloat64 0x4020000000000000) (vars (handler demo_server))) as [vs|e| |] eqn:He;
      [| by vm_compute in He ..].
    destruct Hset as (H1 & _ & resp' & ec & H2 & H3 & _). split; [exact H1 |]. exists resp'. by split.
Defined.

(** The decision table of the two layers on the writing endpoint, escaped or not. *)
Example write_scope :
  let status r := match serve 0 r demo_server with Ok (resp, _) => Some (Status resp) | _ => None end in
  status (demo_request "PUT" "/api/ec/7" "wt" (Some (GInt 11))) = Some 400
  /\ status (demo_request "PUT" "/api/ec/8" "wt" (Some (GInt 5))) = Some 404
  /\ status (demo_request "PUT" "/api/ec/7" "rt" (Some (GInt 5))) = Some 403
  /\ status (demo_request "PUT" "/%61pi/%65c/7" "rt" (Some (GInt 5))) = Some 403
  /\ status (demo_request "PUT" "/api//ec/7" "rt" (Some (GInt 5))) = Some 307
  /\ status (demo_request "PUT" "/api/ec/7" "x" (Some (GInt 5))) = Some 403
  /\ status (demo_request "GET" "/api/ec/7" "x" None) = Some 401
  /\ status (demo_request "DELETE" "/api/ec/7" "rt" None) = Some 405.
Proof. vm_compute. done. Qed.

(** A preflight is answered 204 for an allowed origin, which is echoed, and 403 without
    any header otherwise; it never reaches an endpoint. *)
Lemma preflight_spec {T} `{!Unicode, !MapOrder Z, !MapOrder string} now (r : Request) (s : Server T) :
  Method r = "OPTIONS" ->
  http_handler now r s
  = Ok (if OriginAllowed (AllowedOrigins s) (Origin r) then mkResponse 204 (cors_headers (Origin r)) NoBody
        else mkResponse 403 [] NoBody, s).
Proof. intros Hm. unfold http_handler, withCORS. rewrite decide_True by done. by destruct (OriginAllowed _ _). Qed.

(** A number written over REST is a [float64], whatever it was before: the host, which
    was sent an I4 for the constant, is then sent an F8. *)
Lemma put_changes_format :
  let vs := vars (handler demo_server) in
  let sent vs := (fun ec => valueToItem (ec_Value ec)) <$> GetEC vs 7 in
  sent vs = Some (Some (NewI4 [5]))
  /\ exists vs', SetEC 7 (GFloat64 0x4020000000000000) vs = Ok vs' /\ sent vs' = Some (Some (NewF8 [0x4020000000000000])).
Proof.
  split; [vm_compute; reflexivity |].
  exists (keep (SetEC 7 (GFloat64 0x4020000000000000) (vars (handler demo_server))) NewVariableStore).
  split; vm_compute; reflexivity.
Qed.
