(* ===== verification/Grpc.v ===== *)
(** * The gRPC API

    [src/api/grpc/server.go] and [types.go]: the unary calls behind the authorization
    interceptor.  The values of variables travel as the text of their JSON; the event
    stream is in [EventHub].  [Rest] and this server stand beside each other over one
    handler, as [cmd/secsgem] sets them up. *)

From stdpp Require Import prelude gmap strings list pretty.
From Stdlib Require Import ZArith Lia.
From S2P Require Import Prelude GoStrings Auth Json Transport.
From S2P Require Import GemState GemVariables GemAlarms GemCommands GemHandler Rest.

#[local] Open Scope Z_scope.

(** ** Messages ([types.go]) *)

Record StatusVariable := mkStatusVariable { Svid : Z; g_sv_Name : string; g_sv_Units : string; g_sv_Value : string }.
Record EquipmentConstant := mkEquipmentConstant { Ecid : Z; g_ec_Name : string; g_ec_Units : string; g_ec_Value : string }.
Record AlarmInfo := mkAlarmInfo {
  Alid : Z; g_al_Name : string; g_al_Text : string; g_al_State : string; g_al_Enabled : bool; g_al_Severity : Z;
}.

Inductive request :=
| GetStatusRequest
| ListSVRequest
| GetSVRequest (svid : Z)
| ListECRequest
| SetECRequest (ecid : Z) (value : string)
| ExecuteCommandRequest (command : string) (params : gmap string string)
| ListAlarmsRequest (activeOnly : bool).

(** [SetECResponse None] is success. *)
Inductive response :=
| GetStatusResponse (commState controlState : string) (communicating online : bool) (transportState : string)
| ListSVResponse (l : list StatusVariable)
| GetSVResponse (v : StatusVariable)
| ListECResponse (l : list EquipmentConstant)
| SetECResponse (e : option var_error)
| ExecuteCommandResponse (command status : string) (code : Z)
| ListAlarmsResponse (l : list AlarmInfo).

(** A status code with its message. *)
Inductive rpc_error := Unauthenticated (m : string) | NotFound (svid : Z) | InvalidArgument (m : string).

Record Server (T : Type) := mkServer {
  handler : Handler T;
  transport : Transport.State;
  bearerToken : string;
  executed : list (string * list CommandParam);
}.

Arguments mkServer {T}. Arguments handler {T}. Arguments transport {T}. Arguments bearerToken {T}. Arguments executed {T}.

(** [on_event] and [on_alarm] are the hooks that hand what the handler has sent to the
    event streams. *)
Definition NewServer {T} (session : Transport.State) (h : Handler T) (token : string) (on_event on_alarm : nat) : Server T :=
  mkServer (OnAlarmSent on_alarm (OnEventSent on_event h)) session token [].

(** ** Authorization

    [md] is what the context carries: no metadata, or the values of the authorization
    key. *)

Definition checkAuth {T} (md : option (list string)) (s : Server T) : result rpc_error () :=
  match md with
  | None => Err (Unauthenticated "missing metadata")
  | Some [] => Err (Unauthenticated "missing authorization")
  | Some (v :: _) => if decide (v <> "Bearer " +:+ bearerToken s) then Err (Unauthenticated "invalid bearer token") else Ok ()
  end.

Section calls.
Context {T : Type} `{!JsonText, !MapOrder Z, !MapOrder string}.
Implicit Types s : Server T.

Definition GetStatus s : response :=
  let st := state (handler s) in
  GetStatusResponse (CommState_String (commState st)) (ControlState_String (controlState st)) (IsCommunicating st)
    (IsOnline st) (State_String (transport s)).

Definition status_variable (vs : VariableStore) (now svid : Z) : result rpc_error StatusVariable :=
  match GetSVInfo vs svid with
  | None => Panic NilDeref
  | Some info => Ok (mkStatusVariable svid (sv_Name info) (sv_Units info) (toJSON (GetSV vs now svid).1))
  end.

Definition ListStatusVariables (now : Z) s : result rpc_error response :=
  let vs := vars (handler s) in l ← mapM (status_variable vs now) (ListSVIDs vs); Ok (ListSVResponse l).

Definition GetStatusVariable (now svid : Z) s : result rpc_error response :=
  if (GetSV (vars (handler s)) now svid).2
  then v ← status_variable (vars (handler s)) now svid; Ok (GetSVResponse v)
  else Err (NotFound svid).

Definition equipment_constant (vs : VariableStore) (ecid : Z) : result rpc_error EquipmentConstant :=
  match GetEC vs ecid with
  | None => Panic NilDeref
  | Some ec => Ok (mkEquipmentConstant ecid (ec_Name ec) (ec_Units ec) (toJSON (ec_Value ec)))
  end.

Definition ListEquipmentConstants s : result rpc_error response :=
  let vs := vars (handler s) in l ← mapM (equipment_constant vs) (ListECIDs vs); Ok (ListECResponse l).

Definition SetEquipmentConstant (ecid : Z) (text : string) s : result rpc_error (response * Server T) :=
  let val := default (GString text) (fromJSON text) in
  match SetEC ecid val (vars (handler s)) with
  | Ok vs =>
      Ok (SetECResponse None, mkServer (set_vars vs (handler s)) (transport s) (bearerToken s) (executed s))
  | Err e => Ok (SetECResponse (Some e), s)
  | Panic p => Panic p
  | OutOfFuel => OutOfFuel
  end.

Definition string_params (params : gmap string string) : list CommandParam :=
  map (fun kv => mkParam kv.1 (GString kv.2)) (range_map params).

Definition ExecuteCommand (command : string) (params : gmap string string) s : result rpc_error (response * Server T) :=
  if decide (command = "") then Err (InvalidArgument "command is required")
  else
    let ps := string_params params in
    let result := Execute (commandMgr (handler s)) command ps in
    Ok (ExecuteCommandResponse command (CommandStatus_String result) result,
        mkServer (handler s) (transport s) (bearerToken s) (executed s ++ [(command, ps)])).

Definition alarm_info (a : Alarm) : AlarmInfo :=
  mkAlarmInfo (ALID a) (al_Name a) (al_Text a) (AlarmState_String (al_State a)) (al_Enabled a) (Severity a).

Definition ListAlarms_ (activeOnly : bool) s : response :=
  let am := alarmMgr (handler s) in
  ListAlarmsResponse (map alarm_info (if activeOnly then ListActiveAlarms am else ListAlarms am)).

Definition dispatch (now : Z) (req : request) s : result rpc_error (response * Server T) :=
  match req with
  | GetStatusRequest => Ok (GetStatus s, s)
  | ListSVRequest => r ← ListStatusVariables now s; Ok (r, s)
  | GetSVRequest svid => r ← GetStatusVariable now svid s; Ok (r, s)
  | ListECRequest => r ← ListEquipmentConstants s; Ok (r, s)
  | SetECRequest ecid value => SetEquipmentConstant ecid value s
  | ExecuteCommandRequest command params => ExecuteCommand command params s
  | ListAlarmsRequest activeOnly => Ok (ListAlarms_ activeOnly s, s)
  end.

(** A unary call of a server started by [Serve]: the interceptor is there when a token
    is. *)
Definition call (now : Z) (md : option (list string)) (req : request) s : result rpc_error (response * Server T) :=
  if decide (bearerToken s <> "") then _ ← checkAuth md s; dispatch now req s else dispatch now req s.

(** ** Lemmas *)

Lemma checkAuth_spec md s :
  match checkAuth md s with
  | Ok _ => exists vs, md = Some (("Bearer " +:+ bearerToken s) :: vs)
  | Err (Unauthenticated _) => ~ exists vs, md = Some (("Bearer " +:+ bearerToken s) :: vs)
  | _ => False
  end.
Proof.
  destruct md as [[|v vs]|]; cbn; [by intros [] | | by intros []]. case_decide as Hv; [| exists vs; f_equal; f_equal; tauto].
  intros [vs' [= ->]]. done.
Qed.

Lemma mapM_returns {A B} (f : A -> result rpc_error B) l :
  (forall x, x ∈ l -> is_ok (f x) = true) -> exists ys, mapM f l = Ok ys.
Proof.
  induction l as [|x l IH]; intros Hf; [by exists [] |].
  specialize (Hf x ltac:(left)) as Hx. destruct (f x) as [y| | |] eqn:Hy; try done.
  destruct (IH ltac:(intros; apply Hf; by right)) as [ys Hys]. exists (y :: ys). cbn. by rewrite Hy, Hys.
Qed.

Lemma dispatch_returns now req s : returns (dispatch now req s) = true.
Proof.
  destruct req; cbn [dispatch]; try done.
  - unfold ListStatusVariables. destruct (mapM_returns (status_variable (vars (handler s)) now) (ListSVIDs (vars (handler s)))) as [l ->]; [| done].
    intros x [v Hx]%elem_of_range_keys. unfold status_variable, GetSVInfo. by rewrite Hx.
  - unfold GetStatusVariable, status_variable, GetSVInfo, GetSV. by destruct (svs _ !! svid) as [[? ? ? ? []]|].
  - unfold ListEquipmentConstants. destruct (mapM_returns (equipment_constant (vars (handler s))) (ListECIDs (vars (handler s)))) as [l ->]; [| done].
    intros x [v Hx]%elem_of_range_keys. unfold equipment_constant, GetEC. by rewrite Hx.
  - unfold SetEquipmentConstant. pose proof (SetEC_returns ecid (default (GString value) (fromJSON value)) (vars (handler s))).
    by destruct (SetEC _ _ _).
  - unfold ExecuteCommand. by case_decide.
Qed.

(** ** Properties *)

(** Every call returns: a response or a status, no panic.  With a token configured, a
    call without exactly that token is refused as unauthenticated whatever it asks
    for, and a call with it is carried out; nothing but [SetEquipmentConstant] and
    [ExecuteCommand] changes anything. *)
Theorem call_spec now md req s :
  returns (call now md req s) = true
  /\ (bearerToken s <> "" -> (forall vs, md <> Some (("Bearer " +:+ bearerToken s) :: vs)) ->
      exists m, call now md req s = Err (Unauthenticated m))
  /\ (forall vs, md = Some (("Bearer " +:+ bearerToken s) :: vs) -> call now md req s = dispatch now req s)
  /\ match req with
     | SetECRequest _ _ | ExecuteCommandRequest _ _ => True
     | _ => match call now md req s with Ok (_, s') => s' = s | _ => True end
     end.
Proof.
  pose proof (dispatch_returns now req s) as Hd. pose proof (checkAuth_spec md s) as Ha.
  assert (Hsame : match req with
     | SetECRequest _ _ | ExecuteCommandRequest _ _ => True
     | _ => match dispatch now req s with Ok (_, s') => s' = s | _ => True end end).
  { destruct req; cbn [dispatch]; try done; by match goal with |- context [?m ≫= _] => destruct m end. }
  unfold call. case_decide as Ht.
  - destruct (checkAuth md s) as [[]|[m| |]|p|]; try done; cbn [mbind result_bind].
    + split_and!; [done | | done | done]. intros _ Hno. destruct Ha as [vs ->]. by destruct (Hno vs).
    + split_and!; [done | by eauto | | by destruct req]. intros vs ->. destruct Ha. eauto.
  - split_and!; [done | done | done | done].
Qed.

(** The interceptor lets a call through: its first authorization value is the token, or
    none is configured. *)
Definition admitted (md : option (list string)) s : Prop :=
  bearerToken s = "" \/ exists vs, md = Some (("Bearer " +:+ bearerToken s) :: vs).

Lemma call_admitted now md req s : admitted md s -> call now md req s = dispatch now req s.
Proof.
  unfold call. intros [Ht|[vs ->]]; [by rewrite decide_False by (intros Hn; by apply Hn)|].
  case_decide; [|done]. cbn [checkAuth]. rewrite decide_False; [done|]. intros Hn. by apply Hn.
Qed.

Lemma call_refused now md req s : ~ admitted md s -> exists m, call now md req s = Err (Unauthenticated m).
Proof.
  intros Hn. unfold call. rewrite decide_True by (intros Ht; apply Hn; by left).
  pose proof (checkAuth_spec md s) as Ha. destruct (checkAuth md s) as [|[m| |]| |]; try done; [|by eexists].
  destruct Hn. by right.
Qed.

Lemma mux_command now (r : Request) (rs : Rest.Server T) :
  EscapedPath r = "/api/command" -> Method r = "POST" -> mux now r rs = Ok (handleCommand r rs).
Proof. intros Hp Hm. unfold mux. rewrite decide_False by (by rewrite Hp). cbv zeta. rewrite Hp, Hm. reflexivity. Qed.

Context `{!Unicode}.

(** C34: The two northbound servers agree on writes, from the credentials to the answer.
    When the metadata of a decoded gRPC call carries the token of its server and the
    HTTP request the write token of the other (or no token is configured there), and
    the JSON value of the PUT is what the text of the call means, its JSON value or, if
    it has none, the text itself: the call and the PUT, routed through the whole
    handler, have the same effect on the handler, succeed together, and refuse with
    the same error.  A command with the same string parameters is run by both, each with
    the parameters in an order of its own, and each reports what the handler answers;
    both refuse the empty one.  A call without that token is an error.  (The two
    servers want different credentials, [read_token_writes], and no codec delivers
    the calls of this service, [GrpcWire.unary_undecodable].) *)
Theorem agrees_with_rest now (rs : Rest.Server T) s md :
  handler s = Rest.handler rs -> admitted md s ->
  (forall (r : Request) x ecid text,
     EscapedPath r = "/api/ec/" +:+ x -> parseUint32 x = Some ecid -> Method r = "PUT" -> may_write (auth rs) r ->
     value_body r = Some (default (GString text) (fromJSON text)) ->
     match call now md (SetECRequest ecid text) s, Rest.serve now r rs with
     | Ok (SetECResponse None, s'), Ok (resp, rs') => handler s' = Rest.handler rs' /\ Status resp = 200
     | Ok (SetECResponse (Some e), s'), Ok (resp, rs') =>
         s' = s /\ rs' = rs /\ exists code, Status resp = code /\ Body resp = VarErrorBody code e /\ (code = 400 \/ code = 404)
     | _, _ => False
     end)
  /\ (forall (r : Request) command params,
       EscapedPath r = "/api/command" -> Method r = "POST" -> may_write (auth rs) r ->
       command_body r = Some (command, GString <$> params) ->
       match call now md (ExecuteCommandRequest command params) s, Rest.serve now r rs with
       | Ok (ExecuteCommandResponse c st code, s'), Ok (resp, rs') =>
           c = command /\ handler s' = handler s /\ Rest.handler rs' = Rest.handler rs
           /\ exists ps ps', ps ≡ₚ ps'
           /\ executed s' = executed s ++ [(command, ps)] /\ Rest.executed rs' = Rest.executed rs ++ [(command, ps')]
           /\ code = Execute (commandMgr (handler s)) command ps /\ st = CommandStatus_String code
           /\ let code' := Execute (commandMgr (handler s)) command ps' in
              Status resp = 200
              /\ Body resp = Body (success (JObject [("command", JString command);
                                ("status", JString (CommandStatus_String code')); ("code", JInt code')]))
       | Err (InvalidArgument m), Ok (resp, rs') => command = "" /\ rs' = rs /\ Body resp = ErrorBody 400 m
       | _, _ => False
       end)
  /\ (forall md' req, ~ admitted md' s -> exists m, call now md' req s = Err (Unauthenticated m)).
Proof.
  intros Hh Had. split; [|split; [|intros md' req; apply call_refused]].
  - intros r x ecid text Hp Hx Hm Hw Hv. rewrite call_admitted by done.
    destruct (ec_path r x ecid Hp Hx) as [Hu _]. destruct (mux_ec now r rs x ecid Hp Hx) as [[Hmux _] _]; [done |].
    rewrite (serve_authorized now r rs _ Hu), Hmux by (rewrite ?Hm; auto).
    cbn [dispatch]. unfold SetEquipmentConstant, handleSetEC. rewrite Hx, Hv, Hh.
    pose proof (SetEC_returns ecid (default (GString text) (fromJSON text)) (vars (Rest.handler rs))) as Hret.
    destruct (SetEC ecid _ _) as [vs|e| |]; try done. cbn [mbind result_bind]. split_and!; try done.
    eexists. split; [done |]. split; [done |]. destruct (GetEC _ _); auto.
  - intros r command params Hp Hm Hw Hc. rewrite call_admitted by done.
    assert (Hu : unescape (chars (EscapedPath r)) = Some (chars "/api/command")) by (by rewrite Hp).
    rewrite (serve_authorized now r rs _ Hu), mux_command by (rewrite ?Hm; auto).
    cbn [dispatch]. unfold ExecuteCommand, handleCommand. rewrite Hc. case_decide; [done |]. rewrite Hh. cbn [mbind result_bind].
    split_and!; try done. exists (string_params params), (command_params (GString <$> params)). split_and!; try done.
    unfold command_params, string_params. rewrite !range_map_perm, map_to_list_fmap.
    change (map ?f ?l) with (f <$> l). by rewrite <- list_fmap_compose.
Qed.
End calls.

#[local] Instance int_order : MapOrder Z := some_order Z.
#[local] Instance name_order : MapOrder string := some_order string.
#[local] Instance byte_fold : Unicode := {| fold_runes := String.eqb; fold_runes_refl := String.eqb_refl |}.

(** A [json] package that knows the number 8. *)
#[local] Instance eight : JsonText :=
  {| toJSON _ := "8"; fromJSON t := if decide (t = "8") then Some (GFloat64 0x4020000000000000) else None |}.

Lemma agrees_with_rest_witness :
  let s := NewServer StateSelected (Rest.handler demo_server) "rt" 1 2 in
  let rs := Rest.set_handler (handler s) demo_server in
  let r := mkRequest "PUT" "/api/ec/7" "Bearer wt" "" (Some (GFloat64 0x4020000000000000)) None in
  match call 0 (Some ["Bearer rt"]) (SetECRequest 7 "8") s, Rest.serve 0 r rs with
  | Ok (SetECResponse None, s'), Ok (resp, rs') => handler s' = Rest.handler rs' /\ Status resp = 200
  | Ok (SetECResponse (Some e), s'), Ok (resp, rs') =>
      s' = s /\ rs' = rs /\ exists code, Status resp = code /\ Body resp = VarErrorBody code e /\ (code = 400 \/ code = 404)
  | _, _ => False
  end
  /\ match call 0 (Some ["Bearer rt"]) (SetECRequest 7 "8") s with Ok (SetECResponse None, _) => True | _ => False end.
Proof.
  intros s rs r. split; [| vm_compute; exact I].
  refine (proj1 (agrees_with_rest 0 rs s (Some ["Bearer rt"]) eq_refl _) r "7" 7 "8" eq_refl eq_refl eq_refl _ eq_refl).
  - right. by exists [].
  - right. split; [done | vm_compute; reflexivity].
Defined.

(** The servers as [cmd/secsgem] starts them: both get the read token, only the REST
    server gets the write token.  A caller who has the read token alone is refused the
    write over REST and carries it out over gRPC; so is, without any token, a caller
    when only the write token is configured. *)
Lemma read_token_writes :
  let rest rt := Rest.NewServerWithAuth StateSelected (Rest.handler demo_server) (mkAuth rt "wt") [] in
  let grpc rt := NewServer StateSelected (Rest.handler demo_server) rt 1 2 in
  let put auth := mkRequest "PUT" "/api/ec/7" auth "" (Some (GFloat64 0x4020000000000000)) None in
  let status rt auth := match Rest.serve 0 (put auth) (rest rt) with Ok (resp, _) => Some (Status resp) | _ => None end in
  let value h := ec_Value <$> GetEC (vars h) 7 in
  status "rt" "Bearer rt" = Some 403 /\ status "" "" = Some 401
  /\ (match call 0 (Some ["Bearer rt"]) (SetECRequest 7 "8") (grpc "rt") with Ok (_, s') => value (handler s') | _ => None end)
     = Some (GFloat64 0x4020000000000000)
  /\ (match call 0 None (SetECRequest 7 "8") (grpc "") with Ok (_, s') => value (handler s') | _ => None end)
     = Some (GFloat64 0x4020000000000000).
Proof. vm_compute. done. Qed.
