(* ===== verification/GrpcWire.v ===== *)
(** * Serving the gRPC API

    The rest of [src/api/grpc/server.go] and [types.go]: the server that [Serve] starts
    with its interceptors, the unary handlers of the service description, and
    [StreamEvents] with the broadcasts that the handler's reports cause.  The messages on
    the wire are decoded and encoded by the codec of the gRPC library, the class
    [WireCodec]; the unary calls themselves are [Grpc], the fan-out is [EventHub]. *)

From stdpp Require Import prelude gmap strings list.
From Stdlib Require Import ZArith Lia.
From S2P Require Import Prelude GoStrings Auth Json HsmsMessage Transport GemEvents GemAlarms GemHandler GemSafety GemReports Callbacks.
From S2P Require GemVariables EventHub.
From S2P Require Import Grpc.

#[local] Open Scope Z_scope.

(** ** The service *)

Definition Methods : list string :=
  ["GetStatus"; "ListStatusVariables"; "GetStatusVariable"; "ListEquipmentConstants"; "SetEquipmentConstant";
   "ExecuteCommand"; "ListAlarms"].

(** The method whose request has that type. *)
Definition method_of (req : request) : string :=
  match req with
  | GetStatusRequest => "GetStatus"
  | ListSVRequest => "ListStatusVariables"
  | GetSVRequest _ => "GetStatusVariable"
  | ListECRequest => "ListEquipmentConstants"
  | SetECRequest _ _ => "SetEquipmentConstant"
  | ExecuteCommandRequest _ _ => "ExecuteCommand"
  | ListAlarmsRequest _ => "ListAlarms"
  end.

(** A request is decoded into a value of the type its method takes. *)
Class WireCodec := {
  unmarshal : string -> list Z -> option request;
  marshal_response : response -> option (list Z);
  unmarshal_method m raw req : unmarshal m raw = Some req -> method_of req = m;
}.

Inductive wire_error := Unimplemented (method : string) | Undecodable | Unencodable | Rpc (e : rpc_error).

(** What the streams are sent. *)
Record eventMsg := mkEventMsg { ev_Type : string; ev_Timestamp : Z; ev_Data : json }.
Record EventNotification := mkNotification { n_Type : string; n_Timestamp : Z; n_Data : string }.

Record GrpcServer (T : Type) := mkGrpc {
  server : Server T;
  intercepted : bool;
  streams : gmap nat (EventHub.client (M:=eventMsg));
}.

Arguments mkGrpc {T}. Arguments server {T}. Arguments intercepted {T}. Arguments streams {T}.

Inductive serve_error := ListenFailed.

(** [listen] is the outcome of [net.Listen]. *)
Definition Serve {T} (listen : bool) (s : Server T) : result serve_error (GrpcServer T) :=
  if listen then Ok (mkGrpc s (bool_decide (bearerToken s <> "")) ∅) else Err ListenFailed.

(** Whether [Stop] returns: without a server at once, else [GracefulStop] waits for the
    calls in progress, of which the streams are the ones that last. *)
Definition Stop {T} (g : option (GrpcServer T)) : bool :=
  match g with None => true | Some g => bool_decide (streams g = ∅) end.

Definition set_streams {T} (m : gmap nat (EventHub.client (M:=eventMsg))) (g : GrpcServer T) : GrpcServer T :=
  mkGrpc (server g) (intercepted g) m.

(** ** Interceptors and unary calls *)

Definition unaryAuthInterceptor {T A} (md : option (list string)) (s : Server T) (handler : request -> result rpc_error A) (req : request)
  : result rpc_error A := _ ← checkAuth md s; handler req.

Definition streamAuthInterceptor {T A} (md : option (list string)) (s : Server T) (handler : () -> result rpc_error A)
  : result rpc_error A := _ ← checkAuth md s; handler ().

(** [dec] reads the request into a fresh value. *)
Definition makeUnaryHandler {A} (fn : request -> result rpc_error A) (dec : option request)
    (interceptor : option ((request -> result rpc_error A) -> request -> result rpc_error A)) : result wire_error A :=
  match dec with
  | None => Err Undecodable
  | Some req => wrap_err Rpc (match interceptor with None => fn req | Some i => i fn req end)
  end.

Section serving.
Context {T : Type} `{!JsonText, !MapOrder Z, !MapOrder string} {wire : WireCodec}.
Implicit Types g : GrpcServer T.

Definition interceptor {A} md g : option ((request -> result rpc_error A) -> request -> result rpc_error A) :=
  if intercepted g then Some (unaryAuthInterceptor md (server g)) else None.

(** A call whose response cannot be encoded has been carried out. *)
Definition unary (now : Z) (md : option (list string)) (method : string) (raw : list Z) g : result wire_error (list Z) * GrpcServer T :=
  if negb (bool_decide (method ∈ Methods)) then (Err (Unimplemented method), g)
  else
    match makeUnaryHandler (fun req => dispatch now req (server g)) (unmarshal method raw) (interceptor md g) with
    | Ok (resp, s) =>
        (match marshal_response resp with Some bs => Ok bs | None => Err Unencodable end, mkGrpc s (intercepted g) (streams g))
    | Err e => (Err e, g)
    | Panic p => (Panic p, g)
    | OutOfFuel => (OutOfFuel, g)
    end.

(** ** Event streams *)

(** The head of [StreamEvents] behind its interceptor: the channel [ch] is a new one. *)
Definition open_stream (md : option (list string)) (ch : nat) g : result rpc_error () * GrpcServer T :=
  match (if intercepted g then streamAuthInterceptor md (server g) Ok else Ok ()) with
  | Ok _ => (Ok (), set_streams (EventHub.step EventHub.grpc_capacity (streams g) (EventHub.Subscribe ch)) g)
  | r => (r, g)
  end.

Definition close_stream (ch : nat) g : GrpcServer T :=
  set_streams (EventHub.step EventHub.grpc_capacity (streams g) (EventHub.Unsubscribe ch)) g.

(** The error of [json.Marshal] is dropped. *)
Definition notification {json_text : Marshal} (m : eventMsg) : EventNotification :=
  mkNotification (ev_Type m) (ev_Timestamp m) (default "" (marshal (ev_Data m))).

(** One round of the stream's loop: [sends] says whether the codec of the library encodes
    the notification and the connection takes it; if not, the stream ends.  The library's
    default codec encodes none, so with it every stream ends at its first event. *)
Definition stream_round {json_text : Marshal} (sends : EventNotification -> bool) (ch : nat) g : GrpcServer T :=
  match streams g !! ch with
  | Some (EventHub.mkClient (m :: _) _) =>
      if sends (notification m) then set_streams (EventHub.step EventHub.grpc_capacity (streams g) (EventHub.Deliver ch)) g
      else close_stream ch g
  | _ => g
  end.

Definition broadcastEvent (msg : eventMsg) g : GrpcServer T :=
  set_streams (EventHub.step EventHub.grpc_capacity (streams g) (EventHub.Broadcast msg)) g.

(** The functions [NewServer] registers. *)
Definition event_msg (now dataID ceid : Z) : eventMsg :=
  mkEventMsg "collection_event" now (JObject [("dataID", JInt dataID); ("ceid", JInt ceid)]).
Definition alarm_msg (now alid : Z) (set : bool) (a : Alarm) : eventMsg :=
  mkEventMsg "alarm" now
    (JObject [("alid", JInt alid); ("state", JString (if set then "set" else "cleared"));
              ("text", JString (al_Text a)); ("name", JString (al_Name a))]).
End serving.

Section streaming.
Context {T : Type} `{!Sender T} {json_text : Marshal} (ecb acb : nat).
Implicit Types g : GrpcServer T.

Definition put_handler (h : Handler T) g : GrpcServer T :=
  let s := server g in mkGrpc (mkServer h (transport s) (bearerToken s) (executed s)) (intercepted g) (streams g).

(** A report of the handler, with what the registered function makes of it. *)
Definition report_event (now dataID ceid : Z) g : GrpcServer T :=
  let h := handler (server g) in
  let h' := (SendEvent now dataID ceid h).1 in
  run_calls event_key ecb (fun c => broadcastEvent (event_msg now c.1.2 c.2)) (fresh_event_calls h h') (put_handler h' g).

Definition report_alarm (now alid : Z) (set : bool) g : GrpcServer T :=
  let h := handler (server g) in
  let h' := (SendAlarm alid set h).1 in
  run_calls alarm_key acb (fun c => broadcastEvent (alarm_msg now c.1.1.2 c.1.2 c.2)) (fresh_alarm_calls h h') (put_handler h' g).

(** What happens to a server with streams. *)
Inductive action :=
| ReportEvent (now dataID ceid : Z)
| ReportAlarm (now alid : Z) (set : bool)
| OpenStream (md : option (list string)) (ch : nat)
| CloseStream (ch : nat)
| Round (ch : nat) (sends : EventNotification -> bool).

Definition act (a : action) g : GrpcServer T :=
  match a with
  | ReportEvent now dataID ceid => report_event now dataID ceid g
  | ReportAlarm now alid set => report_alarm now alid set g
  | OpenStream md ch => (open_stream md ch g).2
  | CloseStream ch => close_stream ch g
  | Round ch sends => stream_round sends ch g
  end.

Definition run_actions (l : list action) g : GrpcServer T := foldl (fun g a => act a g) g l.

(** The reports that went out to the host. *)
Definition reports (a : action) g : list eventMsg :=
  let h := handler (server g) in
  match a with
  | ReportEvent now dataID ceid =>
      if is_ok (SendEvent now dataID ceid h).2 && IsEventEnabled (eventMgr h) ceid then [event_msg now dataID ceid] else []
  | ReportAlarm now alid set =>
      match alarms (alarmMgr h) !! alid with
      | Some al => if is_ok (SendAlarm alid set h).2 && al_Enabled al then [alarm_msg now alid set (alarm_after set al)] else []
      | None => []
      end
  | _ => []
  end.

Fixpoint reported (l : list action) g : list eventMsg :=
  match l with [] => [] | a :: l => reports a g ++ reported l (act a g) end.
End streaming.

(** ** Lemmas *)

Section unary_lemmas.
Context {T : Type} `{!JsonText, !MapOrder Z, !MapOrder string} {wire : WireCodec}.
Implicit Types g : GrpcServer T.

(** The credential the server expects. *)
Definition credential (s : Server T) (md : option (list string)) : Prop :=
  exists vs, md = Some (("Bearer " +:+ bearerToken s) :: vs).

Lemma checkAuth_refuses md s : ~ credential s md -> exists m, checkAuth md s = Err (Unauthenticated m).
Proof.
  intros Hn. pose proof (checkAuth_spec md s) as Hs. destruct (checkAuth md s) as [[]|[m| |]|p|]; try done. by exists m.
Qed.

Lemma checkAuth_accepts md s : credential s md -> checkAuth md s = Ok ().
Proof.
  intros Hc. pose proof (checkAuth_spec md s) as Hs. by destruct (checkAuth md s) as [[]|[m| |]|p|].
Qed.

(** The handlers of the description and [Grpc.call] are the same call once the request is
    decoded. *)
Lemma unary_call now md method raw req g :
  intercepted g = bool_decide (bearerToken (server g) <> "") -> unmarshal method raw = Some req ->
  makeUnaryHandler (fun req => dispatch now req (server g)) (unmarshal method raw) (interceptor md g)
  = wrap_err Rpc (call now md req (server g)).
Proof.
  intros Hi Hr. unfold makeUnaryHandler, interceptor, call. rewrite Hr, Hi. by case_bool_decide; case_decide.
Qed.

Lemma method_known req : method_of req ∈ Methods.
Proof. destruct req; unfold Methods; set_solver. Qed.

(** What a caller without the credential is told: it is the same for every handler. *)
Definition refusal (md : option (list string)) (s : Server T) (method : string) (raw : list Z) : result wire_error (list Z) :=
  if negb (bool_decide (method ∈ Methods)) then Err (Unimplemented method)
  else match unmarshal method raw with
       | None => Err Undecodable
       | Some _ => match checkAuth md s with Err e => Err (Rpc e) | _ => Err Undecodable end
       end.

Lemma unary_refused now md method raw g :
  intercepted g = true -> ~ credential (server g) md -> unary now md method raw g = (refusal md (server g) method raw, g).
Proof.
  intros Hi Hn. unfold unary, refusal. case_bool_decide as Hm; cbn [negb]; [|done].
  unfold makeUnaryHandler, interceptor. rewrite Hi. destruct (unmarshal method raw) as [req|]; [|done].
  unfold unaryAuthInterceptor. destruct (checkAuth_refuses md (server g) Hn) as [m Ha]. by rewrite Ha.
Qed.
(** The interceptors are there exactly when a token is. *)
Definition served g : Prop := intercepted g = bool_decide (bearerToken (server g) <> "").

Lemma Serve_served listen s g : Serve listen s = Ok g -> served g.
Proof. unfold Serve. destruct listen; [|done]. by intros [= <-]. Qed.

Lemma dispatch_token now req (s : Server T) : match dispatch now req s with Ok (_, s') => bearerToken s' = bearerToken s | _ => True end.
Proof.
  destruct req; cbn [dispatch]; try done; try by match goal with |- context [?m ≫= _] => destruct m end.
  - unfold SetEquipmentConstant. by destruct (GemVariables.SetEC _ _ _).
  - unfold ExecuteCommand. by case_decide.
Qed.

Lemma unary_served now md method raw g : served g -> served (unary now md method raw g).2.
Proof.
  intros Hs. unfold unary. case_bool_decide; cbn [negb]; [|done]. destruct (unmarshal method raw) as [req|] eqn:Hr; [|done].
  rewrite <- Hr, (unary_call now md method raw req g Hs Hr). pose proof (dispatch_token now req (server g)) as Hd.
  unfold call. case_decide; [destruct (checkAuth md (server g)); [|done..]|]; cbn [mbind result_bind];
    destruct (dispatch now req (server g)) as [[resp s]|e|q|]; try done; unfold served in *; cbn in *; by rewrite Hd.
Qed.

(** A codec that reads none of the request types makes every method useless. *)
Lemma unary_undecodable now md method raw g :
  (forall raw, unmarshal method raw = None) -> method ∈ Methods -> unary now md method raw g = (Err Undecodable, g).
Proof. intros Hn Hm. unfold unary. rewrite bool_decide_true by done. cbn [negb]. by rewrite Hn. Qed.
End unary_lemmas.

Section unary_properties.
Context {T : Type} `{!JsonText, !MapOrder Z, !MapOrder string} {wire : WireCodec}.
Implicit Types g : GrpcServer T.

(** A method on the wire is the call behind it: a request that decodes has the effect and
    the outcome of [Grpc.call], with the response encoded on the way back; a response
    that does not encode is an error to the caller after the call took effect.  No
    stream is touched. *)
Theorem unary_refines_call now md method raw req g :
  served g -> unmarshal method raw = Some req ->
  let '(r, g') := unary now md method raw g in
  streams g' = streams g
  /\ match call now md req (server g) with
     | Ok (resp, s) => server g' = s /\ r = match marshal_response resp with Some bs => Ok bs | None => Err Unencodable end
     | Err e => g' = g /\ r = Err (Rpc e)
     | Panic _ | OutOfFuel => False
     end.
Proof.
  intros Hs Hr. unfold unary. rewrite bool_decide_true by (rewrite <- (unmarshal_method _ _ _ Hr); apply method_known).
  cbn [negb]. rewrite (unary_call now md method raw req g Hs Hr).
  pose proof (proj1 (call_spec now md req (server g))) as Hret. by destruct (call now md req (server g)) as [[resp s]|e|p|].
Qed.

(** A caller without the credential learns nothing and changes nothing: with a token
    configured, a call with anything else as its metadata fails, leaves the server as it
    was, and fails the same way on any other server with that token, whatever its
    equipment; and no stream is opened. *)
Theorem wire_guarded now md method raw ch g g' :
  served g -> served g' -> bearerToken (server g) <> "" -> bearerToken (server g') = bearerToken (server g) ->
  ~ credential (server g) md ->
  let '(r, g1) := unary now md method raw g in
  g1 = g /\ is_ok r = false /\ (unary now md method raw g').1 = r
  /\ exists m, open_stream md ch g = (Err (Unauthenticated m), g).
Proof.
  intros Hs Hs' Ht He Hn. assert (intercepted g = true) as Hi by (unfold served in Hs; by rewrite Hs, bool_decide_true).
  assert (intercepted g' = true) as Hi' by (unfold served in Hs'; rewrite Hs', He; by rewrite bool_decide_true).
  assert (~ credential (server g') md) as Hn' by (unfold credential; by rewrite He).
  rewrite (unary_refused now md method raw g Hi Hn), (unary_refused now md method raw g' Hi' Hn'). cbn [fst].
  destruct (checkAuth_refuses md (server g) Hn) as [m Hm].
  assert (checkAuth md (server g') = checkAuth md (server g)) as Hsame by (unfold checkAuth; by rewrite He).
  split_and!; [done| | |].
  - unfold refusal. rewrite Hm. case_bool_decide; cbn [negb]; [|done]. by destruct (unmarshal method raw).
  - unfold refusal. by rewrite Hsame.
  - exists m. unfold open_stream, streamAuthInterceptor. by rewrite Hi, Hm.
Qed.
End unary_properties.

(** ** The streams *)

Section stream_lemmas.
Context {T : Type} `{!Sender T} {json_text : Marshal} (ecb acb : nat).
Implicit Types g : GrpcServer T.

(** The two functions are registered, once. *)
Record registered (h : Handler T) : Prop := {
  reg_event_once : NoDup (eventCallbacks h);
  reg_event : ecb ∈ eventCallbacks h;
  reg_alarm_once : NoDup (alarmCallbacks h);
  reg_alarm : acb ∈ alarmCallbacks h;
}.

Lemma registered_eq h h' :
  eventCallbacks h' = eventCallbacks h /\ alarmCallbacks h' = alarmCallbacks h -> registered h -> registered h'.
Proof. intros [He Ha] [H1 H2 H3 H4]. split; by rewrite ?He, ?Ha. Qed.

(** A report is one broadcast, or none. *)
Definition broadcasts (ms : list eventMsg) g : GrpcServer T := foldl (fun g m => broadcastEvent m g) g ms.

Lemma report_event_spec now dataID ceid g :
  registered (handler (server g)) ->
  report_event ecb now dataID ceid g
  = broadcasts (reports (ReportEvent now dataID ceid) g) (put_handler (SendEvent now dataID ceid (handler (server g))).1 g).
Proof.
  intros Hr. unfold report_event, reports.
  pose proof (event_calls_run (fun c => broadcastEvent (event_msg now c.1.2 c.2)) ecb now dataID ceid (handler (server g))
    (put_handler (SendEvent now dataID ceid (handler (server g))).1 g) (reg_event_once _ Hr) (reg_event _ Hr)) as Hc.
  destruct (SendEvent now dataID ceid (handler (server g))) as [h' r]. cbn [fst snd] in *. rewrite Hc.
  by destruct (is_ok r && _).
Qed.

Lemma report_alarm_spec now alid set g :
  registered (handler (server g)) ->
  report_alarm acb now alid set g
  = broadcasts (reports (ReportAlarm now alid set) g) (put_handler (SendAlarm alid set (handler (server g))).1 g).
Proof.
  intros Hr. unfold report_alarm, reports. destruct (alarms (alarmMgr (handler (server g))) !! alid) as [a|] eqn:Ha.
  - pose proof (alarm_calls_run (fun c => broadcastEvent (alarm_msg now c.1.1.2 c.1.2 c.2)) acb alid set a (handler (server g))
      (put_handler (SendAlarm alid set (handler (server g))).1 g) (reg_alarm_once _ Hr) (reg_alarm _ Hr) Ha) as Hc.
    destruct (SendAlarm alid set (handler (server g))) as [h' r]. cbn [fst snd] in *. rewrite Hc.
    by destruct (is_ok r && _).
  - rewrite (SendAlarm_unknown alid set _ Ha). unfold fresh_alarm_calls, fresh. by rewrite Nat.sub_diag.
Qed.
Lemma broadcasts_stream ms g ch c :
  streams g !! ch = Some c -> len ms <= 1 ->
  server (broadcasts ms g) = server g
  /\ exists c', streams (broadcasts ms g) !! ch = Some c'
     /\ match ms with [] => c' = c | m :: _ => c' = EventHub.offer EventHub.grpc_capacity m c end.
Proof.
  intros Hc Hl. destruct ms as [|m [|m' ms]]; [split; [done|by exists c]| |rewrite !len_cons in Hl; pose proof (len_nonneg ms); lia].
  split; [done|]. eexists. split; [|done]. cbn. by rewrite lookup_fmap, Hc.
Qed.

Lemma reports_one a g : len (reports a g) <= 1.
Proof.
  unfold reports. destruct a; try done; [by destruct (_ && _)|]. destruct (_ !! alid); [by destruct (_ && _)|done].
Qed.

Lemma act_registered a g : registered (handler (server g)) -> registered (handler (server (act ecb acb a g))).
Proof.
  intros Hr. destruct a as [now dataID ceid|now alid set|md ch|ch|ch sends]; cbn [act].
  - rewrite report_event_spec by done. eapply registered_eq; [|exact Hr].
    replace (handler _) with (SendEvent now dataID ceid (handler (server g))).1; [apply SendEvent_callbacks|].
    unfold reports. by destruct (is_ok _ && _).
  - rewrite report_alarm_spec by done. eapply registered_eq; [|exact Hr].
    replace (handler _) with (SendAlarm alid set (handler (server g))).1; [apply SendAlarm_callbacks|].
    unfold reports. destruct (_ !! alid); [|done]. by destruct (is_ok _ && _).
  - unfold open_stream. by destruct (if intercepted g then _ else _).
  - done.
  - unfold stream_round. destruct (streams g !! ch) as [[[|m q] s]|]; try done. by destruct (sends _).
Qed.

(** What does not end the stream [ch]. *)
Definition keeps (ch : nat) (a : action) : Prop :=
  match a with
  | CloseStream ch' => ch' <> ch
  | Round ch' sends => ch' = ch -> forall n, sends n = true
  | _ => True
  end.

(** An action either offers its one report to the channel or lets its goroutine send. *)
Lemma act_stream a g ch c :
  registered (handler (server g)) -> keeps ch a -> streams g !! ch = Some c ->
  exists c', streams (act ecb acb a g) !! ch = Some c'
  /\ match reports a g with
     | [] => EventHub.sent c' ++ EventHub.queue c' = EventHub.sent c ++ EventHub.queue c
             /\ len (EventHub.queue c') <= len (EventHub.queue c)
     | m :: _ => reports a g = [m] /\ c' = EventHub.offer EventHub.grpc_capacity m c
     end.
Proof.
  intros Hr Hk Hc. pose proof (reports_one a g) as Hone.
  assert (Hsame : forall g' : GrpcServer T, streams g' = streams g -> streams (broadcasts (reports a g) g') = streams (broadcasts (reports a g) g)).
  { intros g' Hs. destruct (reports a g) as [|m [|m' l]]; [done| |rewrite !len_cons in Hone; pose proof (len_nonneg l); lia].
    cbn. by rewrite Hs. }
  assert (Hb : exists c', streams (broadcasts (reports a g) g) !! ch = Some c'
    /\ match reports a g with
       | [] => EventHub.sent c' ++ EventHub.queue c' = EventHub.sent c ++ EventHub.queue c
               /\ len (EventHub.queue c') <= len (EventHub.queue c)
       | m :: _ => reports a g = [m] /\ c' = EventHub.offer EventHub.grpc_capacity m c
       end).
  { destruct (broadcasts_stream _ g ch c Hc Hone) as (_ & c' & Hc' & Hm). exists c'. split; [done|].
    destruct (reports a g) as [|m [|m' l]]; [by subst|done|rewrite !len_cons in Hone; pose proof (len_nonneg l); lia]. }
  destruct a as [now dataID ceid|now alid set|md ch'|ch'|ch' sends]; cbn [act].
  - by rewrite report_event_spec, Hsame.
  - by rewrite report_alarm_spec, Hsame.
  - exists c. split; [|done]. unfold open_stream. destruct (if intercepted g then _ else _); try done. cbn.
    destruct (streams g !! ch') eqn:Hc'; [done|]. rewrite lookup_insert_ne; [done|by intros ->; rewrite Hc in Hc'].
  - exists c. split; [|done]. cbn in *. by rewrite lookup_delete_ne.
  - cbn [reports]. unfold stream_round. destruct (streams g !! ch') as [[[|m q] sn]|] eqn:Hc'; try by exists c.
    destruct (decide (ch' = ch)) as [->|Hne].
    + rewrite (Hk eq_refl). exists (EventHub.deliver c). split; [cbn; by rewrite lookup_alter_eq, Hc|apply EventHub.deliver_content].
    + exists c. split; [|done]. destruct (sends _); cbn; [by rewrite lookup_alter_ne|by rewrite lookup_delete_ne].
Qed.

Lemma run_actions_snoc l a g : run_actions ecb acb (l ++ [a]) g = act ecb acb a (run_actions ecb acb l g).
Proof. unfold run_actions. by rewrite foldl_app. Qed.

Lemma reported_snoc l a g : reported ecb acb (l ++ [a]) g = reported ecb acb l g ++ reports a (run_actions ecb acb l g).
Proof.
  revert g. induction l as [|b l IH]; intros g; cbn; [by rewrite app_nil_r|]. by rewrite IH, app_assoc.
Qed.

Lemma run_actions_registered l g : registered (handler (server g)) -> registered (handler (server (run_actions ecb acb l g))).
Proof. revert g. induction l as [|a l IH]; intros g Hr; [done|]. by apply (IH (act ecb acb a g)), act_registered. Qed.

(** [Stop] does not end a stream, so while a client keeps one open it does not return,
    whatever else happens. *)
Lemma stop_waits ch l g c :
  registered (handler (server g)) -> streams g !! ch = Some c -> Forall (keeps ch) l -> Stop (Some (run_actions ecb acb l g)) = false.
Proof.
  intros Hr Hc Hk. apply bool_decide_eq_false. assert (is_Some (streams (run_actions ecb acb l g) !! ch)) as [c' Hc']; [|intros E; by rewrite E in Hc'].
  revert g c Hr Hc. induction Hk as [|a l Ha _ IH]; intros g c Hr Hc; [by exists c|].
  destruct (act_stream a g ch c Hr Ha Hc) as (c' & Hc' & _). exact (IH (act ecb acb a g) c' (act_registered a g Hr) Hc').
Qed.

(** The channel [ch] had room whenever there was something for it. *)
Definition had_room (ch : nat) (l : list action) g : Prop :=
  forall l1 a l2 c, l = l1 ++ a :: l2 -> reports a (run_actions ecb acb l1 g) <> [] ->
  streams (run_actions ecb acb l1 g) !! ch = Some c -> len (EventHub.queue c) < EventHub.grpc_capacity.

Lemma run_stream ch l g :
  registered (handler (server g)) -> streams g !! ch = Some (EventHub.mkClient [] []) -> Forall (keeps ch) l ->
  exists c, streams (run_actions ecb acb l g) !! ch = Some c
  /\ EventHub.follows EventHub.grpc_capacity (had_room ch l g) c (reported ecb acb l g).
Proof.
  intros Hr Hc. induction l as [|a l IH] using rev_ind; intros Hk.
  { exists (EventHub.mkClient [] []). split; [done|]. by split. }
  apply Forall_app in Hk as [Hk Ha]. rewrite Forall_singleton in Ha. destruct (IH Hk) as (c & Hl & Hf).
  destruct (act_stream a (run_actions ecb acb l g) ch c) as (c' & Hc' & Hm); [by apply run_actions_registered|exact Ha|exact Hl|].
  exists c'. rewrite run_actions_snoc, reported_snoc. split; [done|].
  assert (Hmono : had_room ch (l ++ [a]) g -> had_room ch l g).
  { intros Hroom l1 a1 l2 c1 ->. apply (Hroom l1 a1 (l2 ++ [a]) c1). by rewrite <- app_assoc. }
  destruct (reports a (run_actions ecb acb l g)) as [|m ms] eqn:Hrep.
  - destruct Hm as [Hcont Hlen], Hf as [Hs Hq Hall]. rewrite app_nil_r. split; [by rewrite Hcont|lia|].
    intros Hroom. rewrite Hcont. by apply Hall, Hmono.
  - destruct Hm as [[= ->] ->]. apply EventHub.follows_offer with (P:=had_room ch l g); [|done].
    intros Hroom. split; [by apply Hmono|]. apply (Hroom l a [] c); [done|by rewrite Hrep|done].
Qed.
End stream_lemmas.

Section stream_properties.
Context {T : Type} `{!Sender T} {json_text : Marshal} (ecb acb : nat).
Implicit Types g : GrpcServer T.

(** C35: A stream tells a client what the host was told.  From the moment it is opened
    until it is closed or a send on it fails, whatever reports the handler makes and
    whatever other streams come and go: the stream has sent, or holds to be sent, exactly
    once and in their order, reports that went out to the host after it was opened; at
    most 256 wait; and it misses one only if those 256 were waiting when it came. *)
Theorem reports_streamed md ch l g :
  registered ecb acb (handler (server g)) -> streams g !! ch = None -> (open_stream md ch g).1 = Ok () -> Forall (keeps ch) l ->
  let g0 := (open_stream md ch g).2 in
  exists c, streams (run_actions ecb acb l g0) !! ch = Some c
  /\ sublist (EventHub.sent c ++ EventHub.queue c) (reported ecb acb l g0)
  /\ len (EventHub.queue c) <= 256
  /\ (had_room ecb acb ch l g0 -> EventHub.sent c ++ EventHub.queue c = reported ecb acb l g0).
Proof.
  intros Hr Hc Ho Hk g0. unfold open_stream in *. destruct (if intercepted g then _ else _) as [u|e|p|]; try done.
  destruct (run_stream ecb acb ch l g0) as (c & Hl & [Hs Hq Ha]); [done| |done|by exists c].
  cbn. by rewrite Hc, lookup_insert_eq.
Qed.
End stream_properties.

(** ** A server with a stream *)

Definition brief : Marshal.
Proof. refine {| marshal j := if plain_json j then Some "{}" else None |}. intros j ->. by eexists. Defined.

Lemma reports_streamed_witness :
  let a := mkAlarm 3 "Door" "open" 1 AlarmCleared true 0 0 in
  let h := set_alarms (mkAM {[3 := a]}) (NewHandler (T:=list Message) [] 1 "M" "1.0") in
  let g := mkGrpc (NewServer StateSelected h "rt" 0 1) true ∅ in
  let l := [ReportAlarm 7 3 true; ReportAlarm 8 4 true; ReportAlarm 9 3 false; Round 5%nat (fun _ => true)] in
  let md := Some ["Bearer rt"] in
  exists c, streams (run_actions (json_text:=brief) 0 1 l (open_stream md 5%nat g).2) !! 5%nat = Some c
  /\ sublist (EventHub.sent c ++ EventHub.queue c) (reported (json_text:=brief) 0 1 l (open_stream md 5%nat g).2).
Proof.
  intros a h g l md.
  destruct (reports_streamed (json_text:=brief) 0 1 md 5%nat l g) as (c & Hc & Hs & _); [|reflexivity|reflexivity| |].
  - split; [apply NoDup_singleton|by left|apply NoDup_singleton|by left].
  - repeat constructor.
  - exists c. split; [exact Hc|exact Hs].
Defined.
