(* ===== verification/Webhook.v ===== *)
(** * Forwarding security events

    [src/pkg/security/webhook.go]: the webhook that posts events, singly or in batches,
    with retries, and the syslog sink.  A goroutine started by [go wh.send(events)] is
    the batch it was given; they run side by side, and the environment says how each
    request ends.  [flush] runs
    when the timer fires. *)

From stdpp Require Import prelude gmap strings list pretty.
From Stdlib Require Import ZArith Lia.
From S2P Require Import Prelude Security.

#[local] Open Scope Z_scope.

Definition second : Z := 1000000000.

Record WebhookConfig := mkWebhookConfig {
  URL : string;
  Headers : gmap string string;
  Timeout : Z;
  RetryCount : Z;
  RetryDelay : Z;
  BatchSize : Z;
  BatchWindow : Z;
}.

(** [timer] says whether a timer is set; [goroutines] lists the batches handed to
    [send], oldest first. *)
Record webhookHandler := mkWebhook {
  wh_config : WebhookConfig;
  batch : list Event;
  timer : bool;
  goroutines : list (list Event);
}.

Definition or_default (z d : Z) : Z := if z =? 0 then d else z.

Definition NewWebhookHandler (c : WebhookConfig) : webhookHandler :=
  mkWebhook
    (mkWebhookConfig (URL c) (Headers c) (or_default (Timeout c) (10 * second)) (or_default (RetryCount c) 3)
       (or_default (RetryDelay c) (1 * second)) (BatchSize c) (or_default (BatchWindow c) (5 * second)))
    [] false [].

Definition handle (event : Event) (wh : webhookHandler) : webhookHandler :=
  if BatchSize (wh_config wh) <=? 0
  then mkWebhook (wh_config wh) (batch wh) (timer wh) (goroutines wh ++ [[event]])
  else
    let b := batch wh ++ [event] in
    if BatchSize (wh_config wh) <=? len b then mkWebhook (wh_config wh) [] false (goroutines wh ++ [b])
    else mkWebhook (wh_config wh) b true (goroutines wh).

(** A timer that was stopped may have fired before: then [flush] finds what has come
    since. *)
Definition flush (wh : webhookHandler) : webhookHandler :=
  if len (batch wh) =? 0 then mkWebhook (wh_config wh) (batch wh) false (goroutines wh)
  else mkWebhook (wh_config wh) [] false (goroutines wh ++ [batch wh]).

(** ** Sending

    What an attempt ends with: an error of [http.NewRequest], after which nothing is
    sent, an error of the request, or a status code. *)
Inductive outcome := BadRequest | RequestFailed | StatusCode (code : Z).

Inductive send_end := Delivered | ClientError (code : Z) | NotCreated | Exhausted.

#[global] Instance send_end_eq_dec : EqDecision send_end.
Proof. solve_decision. Defined.

(** [delay *= 2] on an [int64]. *)
Definition double (d : Z) : Z := swrap 64 (d * 2).

(** The loop, with the delays it sleeps; [n] is the number of attempts left and [env i]
    the end of the request of attempt [i]. *)
Fixpoint attempts (env : nat -> outcome) (n i : nat) (delay : Z) : send_end * list Z * nat :=
  match n with
  | O => (Exhausted, [], i)
  | S n =>
      let slept := if decide (i = 0%nat) then [] else [delay] in
      let delay := if decide (i = 0%nat) then delay else double delay in
      let again := let '(e, ds, k) := attempts env n (S i) delay in (e, slept ++ ds, k) in
      match env i with
      | BadRequest => (NotCreated, slept, i)
      | RequestFailed => again
      | StatusCode c =>
          if (200 <=? c) && (c <? 300) then (Delivered, slept, S i)
          else if 500 <=? c then again
          else (ClientError c, slept, S i)
      end
  end.

Definition send (env : nat -> outcome) (c : WebhookConfig) : send_end * list Z * nat :=
  attempts env (Z.to_nat (RetryCount c + 1)) 0 (RetryDelay c).

(** ** Syslog *)

Record SyslogConfig := mkSyslogConfig { Network : string; Address : string; Tag : string }.

Record syslogHandler := mkSyslog { sy_config : SyslogConfig; sy_conn : bool; lines : list string }.

Definition NewSyslogHandler (cfg : SyslogConfig) : syslogHandler :=
  mkSyslog (mkSyslogConfig (if decide (Network cfg = "") then "udp" else Network cfg) (Address cfg)
              (if decide (Tag cfg = "") then "secsgem" else Tag cfg)) false [].

Definition syslogSeverity (level : Z) : Z :=
  if level =? LevelCritical then 2 else if level =? LevelWarning then 4 else 6.

(** [time] is the text of the event's time. *)
Definition syslog_line (time tag : string) (e : Event) : string :=
  "<" +:+ pretty (1 * 8 + syslogSeverity (ev_Level e)) +:+ ">1 " +:+ time +:+ " - " +:+ tag +:+ " - - - [category="
  +:+ ev_Category e +:+ " type=" +:+ ev_Type e +:+ "] " +:+ ev_Message e.

(** [dial] and [write] say whether the network calls succeed. *)
Definition syslog_handle (dial write : bool) (time : string) (e : Event) (sh : syslogHandler) : syslogHandler :=
  if negb (sy_conn sh) && negb dial then sh
  else if write then mkSyslog (sy_config sh) true (lines sh ++ [syslog_line time (Tag (sy_config sh)) e])
  else mkSyslog (sy_config sh) false (lines sh).

(** ** Steps *)

Inductive action := Handle (e : Event) | Flush.

Definition act (wh : webhookHandler) (a : action) : webhookHandler :=
  match a with Handle e => handle e wh | Flush => flush wh end.

Definition run (c : WebhookConfig) (acts : list action) : webhookHandler := foldl act (NewWebhookHandler c) acts.

Definition events (acts : list action) : list Event := omap (fun a => match a with Handle e => Some e | Flush => None end) acts.

(** ** Lemmas *)

(** With a batch size, events wait behind a timer and leave in the order they came. *)
Record batched (c : WebhookConfig) (es : list Event) (wh : webhookHandler) : Prop := {
  ba_config : wh_config wh = wh_config (NewWebhookHandler c);
  ba_order : concat (goroutines wh) ++ batch wh = es;
  ba_small : len (batch wh) < BatchSize c;
  ba_timer : batch wh <> [] -> timer wh = true;
  ba_batches : Forall (fun b => 0 < len b <= BatchSize c) (goroutines wh);
}.

Lemma run_batched c acts : 0 < BatchSize c -> batched c (events acts) (run c acts).
Proof.
  intros Hb. unfold run. induction acts as [|a acts IH] using rev_ind; [by split |].
  rewrite foldl_app. cbn [foldl]. set (wh := foldl act _ acts) in *. destruct IH as [Hc Ho Hs Ht Hbs].
  unfold events. rewrite omap_app. fold (events acts).
  assert (Hsize : BatchSize (wh_config wh) = BatchSize c) by by rewrite Hc.
  destruct a as [e|]; cbn [act omap list_omap option_bind].
  - unfold handle. rewrite Hsize, (proj2 (Z.leb_gt _ _)) by lia.
    assert (Hl : len (batch wh ++ [e]) = len (batch wh) + 1) by by rewrite len_app.
    pose proof (len_nonneg (batch wh)). destruct (Z.leb_spec (BatchSize c) (len (batch wh ++ [e]))); split; cbn; try done.
    + by rewrite concat_app, app_nil_r; cbn; rewrite app_nil_r, app_assoc, Ho.
    + apply Forall_app. split; [done |]. apply Forall_singleton. lia.
    + by rewrite app_assoc, Ho.
  - unfold flush. rewrite app_nil_r. destruct (Z.eqb_spec (len (batch wh)) 0) as [Hz|Hz]; split; cbn; try done.
    + intros Hne. by destruct (batch wh).
    + by rewrite concat_app, app_nil_r; cbn; rewrite app_nil_r.
    + apply Forall_app. split; [done |]. apply Forall_singleton. pose proof (len_nonneg (batch wh)). lia.
Qed.

Lemma run_single c acts : BatchSize c <= 0 -> goroutines (run c acts) = map (fun e => [e]) (events acts) /\ batch (run c acts) = [] /\ BatchSize (wh_config (run c acts)) = BatchSize c.
Proof.
  intros Hb. unfold run. induction acts as [|a acts IH] using rev_ind; [done |].
  rewrite foldl_app. cbn [foldl]. set (wh := foldl act _ acts) in *. destruct IH as (Hg & Hba & Hs).
  unfold events. rewrite omap_app. fold (events acts). destruct a as [e|]; cbn [act omap list_omap option_bind].
  - unfold handle. rewrite Hs, (proj2 (Z.leb_le _ _)) by lia. cbn. by rewrite Hg, map_app.
  - unfold flush. rewrite Hba. cbn. by rewrite app_nil_r.
Qed.

(** The delays slept before attempts [i], [i+1], ...: none before the first, doubled
    after each sleep. *)
Fixpoint backoff (n i : nat) (delay : Z) : list Z :=
  match n with
  | O => []
  | S n => if decide (i = 0%nat) then backoff n 1 delay else delay :: backoff n (S i) (double delay)
  end.

Definition accepted (o : outcome) : bool := match o with StatusCode c => (200 <=? c) && (c <? 300) | _ => false end.
Definition retryable (o : outcome) : bool := match o with BadRequest => false | RequestFailed => true | StatusCode c => 500 <=? c end.

(** How the attempts from [i] on, [n] at most, end before attempt [k]: all that came
    before the end failed in a way that is worth another one. *)
Definition ended (env : nat -> outcome) (n i k : nat) (e : send_end) : Prop :=
  match e with
  | Delivered => (i < k)%nat /\ accepted (env (k - 1)%nat) = true
      /\ forall j, (i <= j)%nat -> (j + 1 < k)%nat -> retryable (env j) = true /\ accepted (env j) = false
  | ClientError c => (i < k)%nat /\ env (k - 1)%nat = StatusCode c /\ accepted (StatusCode c) = false /\ c < 500
      /\ forall j, (i <= j)%nat -> (j + 1 < k)%nat -> retryable (env j) = true /\ accepted (env j) = false
  | NotCreated => env k = BadRequest /\ forall j, (i <= j < k)%nat -> retryable (env j) = true /\ accepted (env j) = false
  | Exhausted => k = (i + n)%nat /\ forall j, (i <= j < k)%nat -> retryable (env j) = true /\ accepted (env j) = false
  end.

Lemma ended_again env n i k e :
  retryable (env i) = true -> accepted (env i) = false -> (S i <= k)%nat -> ended env n (S i) k e -> ended env (S n) i k e.
Proof.
  intros Hr Ha Hk He.
  assert (Hone : forall j, (i <= j)%nat -> ((S i <= j)%nat -> retryable (env j) = true /\ accepted (env j) = false) ->
    retryable (env j) = true /\ accepted (env j) = false).
  { intros j Hj H. destruct (decide (j = i)) as [->|]; [done |]. apply H. lia. }
  destruct e; cbn [ended] in *; destruct_and!; split_and!; try done; try lia; intros; apply Hone; try lia;
    intros; match goal with H : forall j, _ |- _ => apply H; lia end.
Qed.

Lemma attempts_spec env n : forall i delay,
  let '(e, ds, k) := attempts env n i delay in
  (i <= k <= i + n)%nat /\ ended env n i k e
  /\ ds = backoff (if decide (e = NotCreated) then S k - i else k - i) i delay.
Proof.
  induction n as [|n IH]; intros i delay; cbn [attempts].
  { rewrite decide_False by done. rewrite Nat.sub_diag. split_and!; [lia | lia | | done]. cbn [ended]. split; [lia | intros; lia]. }
  set (delay' := if decide (i = 0%nat) then delay else double delay). specialize (IH (S i) delay').
  destruct (attempts env n (S i) delay') as [[e ds] k]. destruct IH as (Hk & He & Hds).
  assert (Hone : (if decide (i = 0%nat) then [] else [delay]) = backoff (S i - i) i delay).
  { replace (S i - i)%nat with 1%nat by lia. cbn [backoff]. by destruct (decide (i = 0%nat)). }
  assert (Hagain : retryable (env i) = true -> accepted (env i) = false ->
    (i <= k <= i + S n)%nat /\ ended env (S n) i k e
    /\ (if decide (i = 0%nat) then [] else [delay]) ++ ds = backoff (if decide (e = NotCreated) then S k - i else k - i) i delay).
  { intros Hr Ha. split; [lia |]. split; [apply ended_again; (done || lia) |].
    assert ((if decide (e = NotCreated) then S k - i else k - i) = S (if decide (e = NotCreated) then S k - S i else k - S i))%nat
      as -> by (destruct (decide (e = NotCreated)); lia).
    cbn [backoff]. rewrite Hds. unfold delay'. by destruct (decide (i = 0%nat)) as [-> |]. }
  assert (Hlast : (S i - 1)%nat = i) by lia.
  destruct (env i) as [| |c] eqn:Hi; [| by apply Hagain |].
  { rewrite (decide_True (P := NotCreated = NotCreated)) by done. split; [lia |]. split; [split; [done | intros; lia] | exact Hone]. }
  destruct ((200 <=? c) && (c <? 300)) eqn:Hc.
  - rewrite (decide_False (P := Delivered = NotCreated)) by done. split; [lia |]. split; [| exact Hone]. cbn [ended]. rewrite Hlast, Hi. split_and!; [lia | exact Hc | intros; lia].
  - destruct (Z.leb_spec 500 c) as [H5|H5].
    + apply Hagain; [by apply Z.leb_le | exact Hc].
    + rewrite (decide_False (P := ClientError c = NotCreated)) by done. split; [lia |]. split; [| exact Hone]. cbn [ended]. rewrite Hlast.
      split_and!; [lia | done | exact Hc | done | intros; lia].
Qed.

(** Delivery ends: after at most [RetryCount + 1] requests, the sleeps between them
    doubling; it stops at the first accepted request, at the first refusal that is not
    a server error, when there can be no request, or with every request failed in a way
    that was worth retrying. *)
Lemma webhook_send_spec env c :
  let '(e, slept, requests) := send env c in
  Z.of_nat requests <= Z.max 0 (RetryCount c + 1) /\ ended env (Z.to_nat (RetryCount c + 1)) 0 requests e
  /\ slept = backoff (if decide (e = NotCreated) then S requests else requests) 0 (RetryDelay c).
Proof.
  unfold send. pose proof (attempts_spec env (Z.to_nat (RetryCount c + 1)) 0 (RetryDelay c)) as H.
  destruct (attempts env _ 0 _) as [[e slept] k]. destruct H as (Hk & He & Hs).
  rewrite !Nat.sub_0_r in Hs. split_and!; [lia | done | done].
Qed.

(** The batches the webhook has acknowledged with a 2xx status, in the order they were
    handed to [send]; [env i] is the network as the goroutine of batch [i] finds it. *)
Definition send_ended (env : nat -> outcome) (wh : webhookHandler) : send_end := (send env (wh_config wh)).1.1.

Fixpoint acknowledged_from (i : nat) (env : nat -> nat -> outcome) (wh : webhookHandler) (bs : list (list Event)) : list (list Event) :=
  match bs with
  | [] => []
  | b :: bs =>
      match send_ended (env i) wh with
      | Delivered => b :: acknowledged_from (S i) env wh bs
      | _ => acknowledged_from (S i) env wh bs
      end
  end.

Definition acknowledged (env : nat -> nat -> outcome) (wh : webhookHandler) : list (list Event) :=
  acknowledged_from 0 env wh (goroutines wh).

Lemma acknowledged_sublist env wh bs : forall i, concat (acknowledged_from i env wh bs) `sublist_of` concat bs.
Proof.
  induction bs as [|b bs IH]; intros i; cbn [acknowledged_from concat]; [done|].
  destruct (send_ended (env i) wh); cbn [concat]; [by apply sublist_app | by apply sublist_inserts_l..].
Qed.

Lemma acknowledged_all env wh bs : forall i,
  (forall j, (i <= j < i + length bs)%nat -> send_ended (env j) wh = Delivered) -> acknowledged_from i env wh bs = bs.
Proof.
  induction bs as [|b bs IH]; intros i Hall; cbn [acknowledged_from length] in *; [done|].
  rewrite Hall by lia. f_equal. apply IH. intros j Hj. apply Hall. lia.
Qed.

(** What a batch may hold. *)
Definition batch_limit (c : WebhookConfig) : Z := Z.max 1 (BatchSize c).

(** Batches or single events: what was handed over, then what waits. *)
Lemma run_order c acts :
  let wh := run c acts in
  concat (goroutines wh) ++ batch wh = events acts
  /\ Forall (fun b => 0 < len b <= batch_limit c) (goroutines wh)
  /\ (batch wh <> [] -> timer wh = true)
  /\ concat (goroutines (flush wh)) = events acts /\ batch (flush wh) = [] /\ wh_config (flush wh) = wh_config wh.
Proof.
  cbv zeta. unfold batch_limit. destruct (Z.lt_ge_cases 0 (BatchSize c)) as [Hb|Hb].
  - destruct (run_batched c acts Hb) as [Hc Ho Hs Ht Hbs]. rewrite Z.max_r by lia.
    split_and!; try done; unfold flush; destruct (Z.eqb_spec (len (batch (run c acts))) 0) as [Hz|Hz]; cbn; try done.
    + destruct (batch (run c acts)); [by rewrite app_nil_r in Ho | done].
    + by rewrite concat_app; cbn; rewrite app_nil_r.
    + by destruct (batch (run c acts)).
  - destruct (run_single c acts ltac:(lia)) as (Hg & Hba & _). rewrite Z.max_l by lia.
    assert (concat (goroutines (run c acts)) = events acts) as Hcat.
    { rewrite Hg. clear Hg. induction (events acts) as [|e es IH]; [done|]. cbn. by rewrite IH. }
    unfold flush. rewrite Hba, Hcat, app_nil_r. cbn. split_and!; try done.
    rewrite Hg. apply Forall_forall. intros b (e & <- & _)%list_elem_of_In%in_map_iff. by split.
Qed.

(** ** Properties *)

(** C36: Where a security event goes on its way to the webhook, for any batch size and
    however events, timers and requests come.  Each event is in exactly one batch that
    was handed to a sender, or waits with a timer running, and in this order; a batch
    holds one event when there is no batch size, and at most the batch size otherwise;
    nothing waits after the timer has fired.  The senders run side by side, so the webhook
    may get the batches in another order.  Each ends: with one acknowledged request, its
    last; or the batch is lost, when a request is refused with a status below 500, when
    no request can be made, or when [RetryCount + 1] requests have failed.  So what the
    webhook has acknowledged is some of the events, none of them twice, and all of them
    when every sender delivers. *)
Theorem events_forwarded c acts (env : nat -> nat -> outcome) :
  let wh := run c acts in
  concat (goroutines wh) ++ batch wh = events acts
  /\ Forall (fun b => 0 < len b <= batch_limit c) (goroutines wh)
  /\ (batch wh <> [] -> timer wh = true)
  /\ concat (goroutines (flush wh)) = events acts /\ batch (flush wh) = []
  /\ (forall i, let '(e, _, requests) := send (env i) (wh_config wh) in
       ended (env i) (Z.to_nat (RetryCount (wh_config wh) + 1)) 0 requests e)
  /\ concat (acknowledged env wh) `sublist_of` events acts
  /\ ((forall i, (i < length (goroutines (flush wh)))%nat -> send_ended (env i) (flush wh) = Delivered) ->
      concat (acknowledged env (flush wh)) = events acts).
Proof.
  destruct (run_order c acts) as (Ho & Hl & Ht & Hf & Hfb & _). cbv zeta. split_and!; try done.
  - intros i. pose proof (webhook_send_spec (env i) (wh_config (run c acts))) as H.
    destruct (send (env i) _) as [[e ds] k]. apply H.
  - rewrite <- Ho. apply sublist_inserts_r, acknowledged_sublist.
  - intros Hd. unfold acknowledged. rewrite acknowledged_all; [done|]. intros j Hj. apply Hd. lia.
Qed.

(** Three events in batches of two, the second of which is refused. *)
Lemma events_forwarded_witness :
  let c := mkWebhookConfig "http://x" ∅ 0 0 0 2 0 in
  let e i := event LevelInfo CatAuth i "s" "m" ∅ in
  let acts := [Handle (e "1"); Handle (e "2"); Handle (e "3"); Flush; Handle (e "4")] in
  let env i (j : nat) := if decide (i = 1%nat) then StatusCode 404 else if decide (j = 0%nat) then RequestFailed else StatusCode 200 in
  concat (goroutines (run c acts)) ++ batch (run c acts) = [e "1"; e "2"; e "3"; e "4"]
  /\ concat (acknowledged env (run c acts)) = [e "1"; e "2"]
  /\ concat (acknowledged (fun _ _ => StatusCode 200) (flush (run c acts))) = [e "1"; e "2"; e "3"; e "4"].
Proof.
  intros c e acts env. split_and!; [| by vm_compute |].
  - exact (proj1 (events_forwarded c acts env)).
  - destruct (events_forwarded c acts (fun _ _ => StatusCode 200)) as (_ & _ & _ & _ & _ & _ & _ & H). apply H. intros i _. reflexivity.
Defined.

Example webhook_backoff :
  send (fun i => if decide (i = 3%nat) then StatusCode 204 else StatusCode 503)
    (wh_config (NewWebhookHandler (mkWebhookConfig "http://x" ∅ 0 0 0 0 0)))
  = (Delivered, [1 * second; 2 * second; 4 * second], 4%nat).
Proof. vm_compute. done. Qed.

(** There is no way to ask for a single attempt: zero retries are the default of three,
    and with fewer nothing is ever sent. *)
Lemma retry_count_zero c : RetryCount c = 0 -> RetryCount (wh_config (NewWebhookHandler c)) = 3.
Proof. cbn. by intros ->. Qed.

Lemma retry_count_negative env c : RetryCount c < 0 -> send env c = (Exhausted, [], 0%nat).
Proof. intros Hc. unfold send. by replace (Z.to_nat (RetryCount c + 1)) with 0%nat by lia. Qed.
