(* ===== verification/Revocation.v ===== *)
(** * Certificate revocation

    [src/pkg/security/revocation.go].  A certificate is the part of the X.509 structure
    the checker reads, a revocation list the serial numbers on it.  What the network
    gives for an address during a call, the parsed list or an error, is the argument
    [get], and [post] says how a request to an OCSP responder ends. *)

From stdpp Require Import prelude gmap strings list.
From Stdlib Require Import ZArith Lia.
From S2P Require Import Prelude.

#[local] Open Scope Z_scope.

Record Certificate := mkCertificate {
  CommonName : string;
  SerialNumber : Z;
  CRLDistributionPoints : list string;
  OCSPServer : list string;
}.

Definition RevocationList : Type := list Z.

Record crlEntry := mkEntry { crl : RevocationList; fetchedAt : Z }.

Record RevocationChecker := mkChecker { crlCache : gmap string crlEntry; cacheTTL : Z }.

Definition NewRevocationChecker (cacheTTL : Z) : RevocationChecker :=
  mkChecker ∅ (if cacheTTL =? 0 then 3600 * 1000000000 else cacheTTL).

Definition ClearCache (rc : RevocationChecker) : RevocationChecker := mkChecker ∅ (cacheTTL rc).

Inductive revocation_error :=
| RevokedCRL (serial : Z) (url : string)
| CannotVerifyCRL (name : string)
| BuildOCSPRequest
| RevokedOCSP (name server : string).

(** The three ends of a fetch: the transport fails, another status than 200, a body. *)
Inductive fetched := FetchFailed | BadStatus (code : Z) | Body (parsed : option RevocationList).

Section checker.
Variable get : string -> fetched.

Definition fetchCRL (now : Z) (url : string) (rc : RevocationChecker) : option RevocationList * RevocationChecker :=
  let fetch :=
    match get url with
    | Body (Some l) => (Some l, mkChecker (<[url := mkEntry l now]> (crlCache rc)) (cacheTTL rc))
    | _ => (None, rc)
    end in
  match crlCache rc !! url with
  | Some entry => if now - fetchedAt entry <? cacheTTL rc then (Some (crl entry), rc) else fetch
  | None => fetch
  end.

Fixpoint crl_loop (now : Z) (cert : Certificate) (urls : list string) (rc : RevocationChecker)
    : result revocation_error () * RevocationChecker :=
  match urls with
  | [] => (Err (CannotVerifyCRL (CommonName cert)), rc)
  | url :: urls =>
      let '(l, rc) := fetchCRL now url rc in
      match l with
      | None => crl_loop now cert urls rc
      | Some l =>
          (if existsb (Z.eqb (SerialNumber cert)) l then Err (RevokedCRL (SerialNumber cert) url) else Ok (), rc)
      end
  end.

Definition CheckCRL (now : Z) (cert : Certificate) (rc : RevocationChecker)
    : result revocation_error () * RevocationChecker :=
  match CRLDistributionPoints cert with
  | [] => (Ok (), rc)
  | urls => crl_loop now cert urls rc
  end.

(** ** OCSP *)

Definition ocspGood : Z := 0.
Definition ocspRevoked : Z := 1.
Definition ocspUnknown : Z := 2.

(** Both are stubs in the program: the request cannot be built, no answer is read. *)
Definition buildOCSPRequest (cert issuer : Certificate) : result revocation_error (list Z) := Err BuildOCSPRequest.
Definition parseOCSPResponse (data : list Z) : Z * bool := (ocspUnknown, false).

Variable post : string -> list Z -> option (Z * option (list Z)).

Fixpoint ocsp_loop (cert : Certificate) (req : list Z) (servers : list string) : result revocation_error () :=
  match servers with
  | [] => Ok ()
  | server :: servers =>
      match post server req with
      | Some (200, Some body) =>
          let '(status, ok) := parseOCSPResponse body in
          if negb ok then ocsp_loop cert req servers
          else if status =? ocspGood then Ok ()
          else if status =? ocspRevoked then Err (RevokedOCSP (CommonName cert) server)
          else ocsp_loop cert req servers
      | _ => ocsp_loop cert req servers
      end
  end.

Definition CheckOCSP (cert issuer : Certificate) : result revocation_error () :=
  match OCSPServer cert with
  | [] => Ok ()
  | servers => req ← buildOCSPRequest cert issuer; ocsp_loop cert req servers
  end.

Definition VerifyCertificate (now : Z) (cert : Certificate) (issuer : option Certificate) (rc : RevocationChecker)
    : result revocation_error () * RevocationChecker :=
  let '(r, rc) := CheckCRL now cert rc in
  match r with
  | Ok _ => (match issuer with Some i => CheckOCSP cert i | None => Ok () end, rc)
  | e => (e, rc)
  end.

(** ** Lemmas *)

(** The list a distribution point stands for at this moment: a cached one that is young
    enough, else what the network gives. *)
Definition available (now : Z) (rc : RevocationChecker) (url : string) : option RevocationList :=
  match crlCache rc !! url with
  | Some e => if now - fetchedAt e <? cacheTTL rc then Some (crl e) else match get url with Body l => l | _ => None end
  | None => match get url with Body l => l | _ => None end
  end.

(** Every cached list was fetched no later than [now]; an older clock is not modelled. *)
Lemma fetchCRL_spec now url rc :
  (fetchCRL now url rc).1 = available now rc url
  /\ cacheTTL (fetchCRL now url rc).2 = cacheTTL rc
  /\ (0 < cacheTTL rc -> forall u, available now (fetchCRL now url rc).2 u = available now rc u).
Proof.
  unfold fetchCRL, available. destruct (crlCache rc !! url) as [e|] eqn:Hc.
  - destruct (now - fetchedAt e <? cacheTTL rc) eqn:Hf; [by split_and! |].
    destruct (get url) as [| |[l|]] eqn:Hg; split_and!; try done. intros Ht u. cbn.
    destruct (decide (u = url)) as [->|Hne]; [rewrite lookup_insert_eq | by rewrite lookup_insert_ne].
    cbn. rewrite Z.sub_diag, (proj2 (Z.ltb_lt _ _)), Hc, Hf, Hg by done. done.
  - destruct (get url) as [| |[l|]] eqn:Hg; split_and!; try done. intros Ht u. cbn.
    destruct (decide (u = url)) as [->|Hne]; [rewrite lookup_insert_eq | by rewrite lookup_insert_ne].
    cbn. by rewrite Z.sub_diag, (proj2 (Z.ltb_lt _ _)), Hc, Hg by done.
Qed.

Lemma crl_loop_spec now cert urls : forall rc,
  0 < cacheTTL rc ->
  let '(r, rc') := crl_loop now cert urls rc in
  cacheTTL rc' = cacheTTL rc /\ (forall u, available now rc' u = available now rc u)
  /\ match r with
     | Ok _ => exists url l, url ∈ urls /\ available now rc url = Some l /\ SerialNumber cert ∉ l
     | Err (RevokedCRL serial url) => serial = SerialNumber cert /\ url ∈ urls
         /\ exists l, available now rc url = Some l /\ SerialNumber cert ∈ l
     | Err (CannotVerifyCRL _) => forall url, url ∈ urls -> available now rc url = None
     | _ => False
     end.
Proof.
  induction urls as [|url urls IH]; intros rc Ht; cbn [crl_loop]; [split_and!; try done; intros ? []%elem_of_nil |].
  destruct (fetchCRL_spec now url rc) as (Hl & Hc & Ha). specialize (Ha Ht).
  destruct (fetchCRL now url rc) as [l rc1]. cbn in Hl, Hc, Ha. destruct l as [l|].
  - split_and!; [done | done |]. destruct (existsb _ l) eqn:Hx.
    + apply existsb_exists in Hx as (z & Hz & ->%Z.eqb_eq). split_and!; [done | by left |]. exists l.
      split; [done | by apply list_elem_of_In].
    + exists url, l. split_and!; [by left | done |]. intros Hin. apply list_elem_of_In in Hin.
      assert (existsb (Z.eqb (SerialNumber cert)) l = true) as Hy by (apply existsb_exists; eexists; split; [done | apply Z.eqb_refl]).
      congruence.
  - specialize (IH rc1 ltac:(lia)). destruct (crl_loop now cert urls rc1) as [r rc']. destruct IH as (Hc' & Ha' & Hr).
    split_and!; [congruence | intros u; by rewrite Ha', Ha |].
    destruct r as [[]|[serial u|name| |name server]| |]; try done.
    + destruct Hr as (u & l & Hu & Hav & Hn). exists u, l. rewrite Ha in Hav. split_and!; [by right | done | done].
    + destruct Hr as (-> & Hu & l & Hav & Hin). rewrite Ha in Hav. split_and!; [done | by right | eauto].
    + intros u [->|Hu]%elem_of_cons; [done |]. rewrite <- Ha. by apply Hr.
Qed.

(** ** Properties *)

(** C37: The revocation lists decide, and decide fail-closed: a certificate with
    distribution points passes [CheckCRL] only on a list of one of them, fetched
    during the call or less than the cache's lifetime ago, that does not name its
    serial number; it is reported revoked only on a list that does; and when no list
    can be had the check fails.  The cache changes no verdict of the same moment. *)
Theorem check_crl_spec now cert rc :
  0 < cacheTTL rc ->
  let '(r, rc') := CheckCRL now cert rc in
  (forall u, available now rc' u = available now rc u)
  /\ match r with
     | Ok _ => CRLDistributionPoints cert = []
         \/ exists url l, url ∈ CRLDistributionPoints cert /\ available now rc url = Some l /\ SerialNumber cert ∉ l
     | Err (RevokedCRL serial url) => serial = SerialNumber cert /\ url ∈ CRLDistributionPoints cert
         /\ exists l, available now rc url = Some l /\ SerialNumber cert ∈ l
     | Err (CannotVerifyCRL _) => forall url, url ∈ CRLDistributionPoints cert -> available now rc url = None
     | _ => False
     end.
Proof.
  intros Ht. unfold CheckCRL. pose proof (crl_loop_spec now cert (CRLDistributionPoints cert) rc Ht) as H.
  destruct (CRLDistributionPoints cert) as [|url urls]; [by split; [| left] |].
  destruct (crl_loop now cert (url :: urls) rc) as [r rc']. destruct H as (_ & Ha & Hr). split; [done |].
  destruct r as [[]|[]| |]; try done. by right.
Qed.

(** The comments call the OCSP check a soft failure; it is a hard one: with an issuer at
    hand, no certificate that names an OCSP responder is ever accepted. *)
Lemma ocsp_never_accepts now cert issuer rc :
  OCSPServer cert <> [] -> is_ok (VerifyCertificate now cert (Some issuer) rc).1 = false.
Proof.
  intros Hs. unfold VerifyCertificate. destruct (CheckCRL now cert rc) as [[]?]; try done. cbn.
  unfold CheckOCSP. by destruct (OCSPServer cert).
Qed.
End checker.

Lemma check_crl_spec_witness :
  let cert := mkCertificate "eq" 42 ["u1"; "u2"] [] in
  let get u := if decide (u = "u2") then Body (Some [7; 42]) else FetchFailed in
  0 < cacheTTL (NewRevocationChecker 0)
  /\ match (CheckCRL get 5 cert (NewRevocationChecker 0)).1 with Err (RevokedCRL serial url) => serial = 42 /\ url ∈ ["u1"; "u2"] | _ => False end.
Proof.
  intros cert get. split; [done |]. pose proof (check_crl_spec get 5 cert (NewRevocationChecker 0) eq_refl) as H.
  destruct (CheckCRL get 5 cert (NewRevocationChecker 0)) as [r rc'] eqn:Hc. vm_compute in Hc. injection Hc as <- <-.
  destruct H as [_ (H1 & H2 & _)]. by split.
Defined.
