(* ===== verification/Sml.v ===== *)
(** * The message notation of the scripts

    [ParseSML] of [src/pkg/simulator/script.go].  The parser's state, a text and a
    position in it, is the text that remains; the position in an error message is not
    kept.  [strconv.ParseFloat] and the conversion to [float32] are the methods of
    [Floats], on bit patterns.

    [parse_item] takes fuel for the nesting and [parse_children] for the elements; one
    more than the number of characters is enough ([parse_total]), since an item takes
    at least one. *)

From stdpp Require Import prelude strings list pretty.
From Stdlib Require Import ZArith Lia Ascii.
From S2P Require Import Prelude GoStrings Secs2Item.

#[local] Open Scope Z_scope.

Class Floats := {
  ParseFloat : string -> option Z;
  float32_of : Z -> Z;
  ParseFloat_range s b : ParseFloat s = Some b -> in_unsigned 64 b = true;
  float32_of_range b : in_unsigned 32 (float32_of b) = true;
}.

Inductive sml_error :=
| EmptyInput
| UnexpectedEnd
| UnknownFormat (token : string)
| UnterminatedList
| ExpectedQuote
| UnterminatedString
| InvalidValue (format token : string).

(** ** Scanning *)

Definition sml_space (c : ascii) : bool :=
  (code c =? 32) || (code c =? 9) || (code c =? 10) || (code c =? 13).

(** [skipSpace]: white space and line comments; [comment] says that we are in one. *)
Fixpoint skip (comment : bool) (l : list ascii) : list ascii :=
  match l with
  | [] => []
  | c :: l' =>
      if comment then skip (negb (code c =? 10)) l'
      else if sml_space c then skip false l'
      else if (code c =? 47) && match l' with d :: _ => code d =? 47 | [] => false end then skip true l'
      else l
  end.

Definition skipSpace (l : list ascii) : list ascii := skip false l.

(** [unicode.IsSpace] of a byte, and what else ends a token. *)
Definition token_end (c : ascii) : bool :=
  between 9 13 (code c) || (code c =? 32) || (code c =? 133) || (code c =? 160) || (code c =? 123) || (code c =? 125).

Fixpoint take_token (l : list ascii) : list ascii * list ascii :=
  match l with
  | [] => ([], [])
  | c :: l' => if token_end c then ([], l) else let '(t, r) := take_token l' in (c :: t, r)
  end.

Definition readToken (l : list ascii) : string * list ascii :=
  let '(t, r) := take_token (skipSpace l) in (string_of t, r).

(** ** Values *)

Section parser.
Context `{!Floats}.

Definition parsed : Type := result sml_error (item * list ascii).

(** The characters up to the closing quote; a backslash takes the next one along. *)
Fixpoint scan_string (l : list ascii) : option (list ascii * list ascii) :=
  match l with
  | [] => None
  | c :: l' =>
      if code c =? 34 then Some ([], l')
      else if code c =? 92 then
        match l' with
        | [] => None
        | d :: l'' => '(s, r) ← scan_string l''; Some (c :: d :: s, r)
        end
      else '(s, r) ← scan_string l'; Some (c :: s, r)
  end.

Definition parseASCII (l : list ascii) : parsed :=
  match skipSpace l with
  | c :: l' =>
      if code c =? 34 then
        match scan_string l' with
        | Some (s, r) => Ok (NewASCII (string_of s), r)
        | None => Err UnterminatedString
        end
      else Err ExpectedQuote
  | [] => Err ExpectedQuote
  end.

(** A value read from the next token. *)
Definition parse_value {V} (format : string) (read : string -> option V) (make : V -> item) (l : list ascii) : parsed :=
  let '(token, r) := readToken (skipSpace l) in
  match read token with Some v => Ok (make v, r) | None => Err (InvalidValue format token) end.

Definition parse_byte (token : string) : option Z :=
  if HasPrefix token "0x" || HasPrefix token "0X" then ParseUint (string_of (drop 2 (chars token))) 16 8
  else ParseUint token 10 8.

Definition parseBinary : list ascii -> parsed := parse_value "B" parse_byte (fun v => NewBinary [v]).

(** [strings.ToLower] as far as it can give one of the two words: the Kelvin sign and
    the like are in neither. *)
Definition lower_char (c : ascii) : ascii := if between 65 90 (code c) then ascii_of_N (Z.to_N (code c + 32)) else c.
Definition ToLower (s : string) : string := string_of (map lower_char (chars s)).

Definition parse_bool (token : string) : option bool :=
  if decide (ToLower token = "true") then Some true else if decide (ToLower token = "false") then Some false else None.

Definition parseBoolean : list ascii -> parsed := parse_value "BOOLEAN" parse_bool (fun b => NewBoolean [b]).

Definition unsigned_item (size v : Z) : item :=
  if size =? 1 then NewU1 [v] else if size =? 2 then NewU2 [v] else if size =? 4 then NewU4 [v] else NewU8 [v].
Definition signed_item (size v : Z) : item :=
  if size =? 1 then NewI1 [v] else if size =? 2 then NewI2 [v] else if size =? 4 then NewI4 [v] else NewI8 [v].

Definition parseUint (size : Z) : list ascii -> parsed :=
  parse_value "U" (fun token => ParseUint token 0 (size * 8)) (unsigned_item size).
Definition parseInt (size : Z) : list ascii -> parsed :=
  parse_value "I" (fun token => ParseInt token 0 (size * 8)) (signed_item size).
Definition parseFloat (size : Z) : list ascii -> parsed :=
  parse_value "F" ParseFloat (fun v => if size =? 4 then NewF4 [float32_of v] else NewF8 [v]).

(** ** Items *)

Fixpoint parse_children (parse : list ascii -> parsed) (fuel : nat) (l : list ascii)
    : result sml_error (list item * list ascii) :=
  match fuel with
  | O => OutOfFuel
  | S fuel =>
      match skipSpace l with
      | [] => Err UnterminatedList
      | c :: l' =>
          if code c =? 125 then Ok ([], l')
          else '(child, r) ← parse (c :: l'); '(children, r) ← parse_children parse fuel r; Ok (child :: children, r)
      end
  end.

Definition parseList (parse : list ascii -> parsed) (l : list ascii) : parsed :=
  match skipSpace l with
  | c :: l' =>
      if code c =? 123
      then '(children, r) ← parse_children parse (S (length l')) l'; Ok (NewList (Some <$> children), r)
      else Ok (NewList [], c :: l')
  | [] => Ok (NewList [], [])
  end.

(** The value parser a token other than a list selects. *)
Definition value_parser (token : string) : option (list ascii -> parsed) :=
  if decide (token = "A") then Some parseASCII
  else if decide (token = "B") then Some parseBinary
  else if decide (token = "BOOLEAN") then Some parseBoolean
  else if decide (token = "U1") then Some (parseUint 1)
  else if decide (token = "U2") then Some (parseUint 2)
  else if decide (token = "U4") then Some (parseUint 4)
  else if decide (token = "U8") then Some (parseUint 8)
  else if decide (token = "I1") then Some (parseInt 1)
  else if decide (token = "I2") then Some (parseInt 2)
  else if decide (token = "I4") then Some (parseInt 4)
  else if decide (token = "I8") then Some (parseInt 8)
  else if decide (token = "F4") then Some (parseFloat 4)
  else if decide (token = "F8") then Some (parseFloat 8)
  else None.

Fixpoint parse_item (fuel : nat) (l : list ascii) : parsed :=
  match fuel with
  | O => OutOfFuel
  | S fuel =>
      match skipSpace l with
      | [] => Err UnexpectedEnd
      | l =>
          let '(token, r) := readToken l in
          if HasPrefix token "L" then parseList (parse_item fuel) r
          else match value_parser token with Some parse => parse r | None => Err (UnknownFormat token) end
      end
  end.

Definition ParseSML (text : string) : result sml_error item :=
  let text := TrimSpace text in
  if decide (text = "") then Err EmptyInput
  else '(it, _) ← parse_item (S (length (chars text))) (chars text); Ok it.

(** ** Lemmas *)

Lemma skip_length l : forall b, (length (skip b l) <= length l)%nat.
Proof.
  induction l as [|c l IH]; intros b; [done |]. cbn [skip].
  pose proof (IH true). pose proof (IH false). pose proof (IH (negb (code c =? 10))).
  destruct b; [simpl; lia |]. destruct (sml_space c); [simpl; lia |]. destruct (_ && _); simpl; lia.
Qed.

Lemma take_token_length l : (length (take_token l).1 + length (take_token l).2 = length l)%nat.
Proof.
  induction l as [|c l IH]; [done |]. cbn [take_token]. destruct (token_end c); [done |].
  destruct (take_token l). simpl in *. lia.
Qed.

Lemma readToken_length l t r : readToken l = (t, r) -> (length (chars t) + length r <= length l)%nat.
Proof.
  unfold readToken. pose proof (take_token_length (skipSpace l)) as Htk. destruct (take_token _) as [t' r'].
  intros [= <- <-]. rewrite chars_string_of. unfold skipSpace in *. pose proof (skip_length l false). simpl in *. lia.
Qed.

Lemma scan_string_length l : forall s r, scan_string l = Some (s, r) -> (S (length s + length r) <= length l)%nat.
Proof.
  remember (length l) as n eqn:Hn. revert l Hn. induction (Nat.lt_wf_0 n) as [n _ IH].
  intros [|c l] -> s r; [done |]. cbn [scan_string length]. destruct (code c =? 34); [intros [= <- <-]; simpl; lia |].
  destruct (code c =? 92).
  - destruct l as [|d l]; [done |]. destruct (scan_string l) as [[s' r']|] eqn:Hs; [| done]. cbn. intros [= <- <-].
    apply (IH (length l)) in Hs; simpl; [lia | lia | done].
  - destruct (scan_string l) as [[s' r']|] eqn:Hs; [| done]. cbn. intros [= <- <-].
    apply (IH (length l)) in Hs; simpl; [lia | lia | done].
Qed.

Lemma length_chars s : length (chars s) = String.length s.
Proof. induction s as [|c s IH]; [done |]. simpl. by rewrite IH. Qed.

(** What a parser leaves and makes of a text [l]. *)
Definition reads (l : list ascii) (x : item * list ascii) : Prop :=
  (length x.2 <= length l)%nat /\ (len l <= max_payload -> well_formed x.1 = true).

Lemma parse_value_reads {V} format (read : string -> option V) make l :
  (forall t v, read t = Some v -> well_formed (make v) = true) -> post (parse_value format read make l) (reads l).
Proof.
  intros Hwf. unfold parse_value. destruct (readToken (skipSpace l)) as [t r] eqn:Ht. apply readToken_length in Ht.
  unfold skipSpace in Ht. pose proof (skip_length l false).
  destruct (read t) as [v|] eqn:Hv; [| done]. split; cbn; [lia | intros _; by eapply Hwf].
Qed.

Lemma parseASCII_reads l : post (parseASCII l) (reads l).
Proof.
  unfold parseASCII, skipSpace. pose proof (skip_length l false) as Hl. destruct (skip false l) as [|c l']; [done |].
  destruct (code c =? 34); [| done]. destruct (scan_string l') as [[s r]|] eqn:Hs; [| done].
  apply scan_string_length in Hs. split; cbn in *; [lia |]. intros Hmax.
  rewrite <- length_chars, chars_string_of, Z.leb_le. unfold len in Hmax. lia.
Qed.

Lemma well_formed_scalar f v :
  is_scalar f = true -> value_ok f v = true -> itemSize f <= 8 -> well_formed (Item f [v]) = true.
Proof.
  intros Hf Hv Hs. cbn [well_formed]. rewrite Hf. cbn [forallb]. rewrite Hv.
  rewrite (proj2 (Z.leb_le (len [v] * itemSize f) max_payload)) by (unfold len, max_payload; simpl; lia).
  destruct (f =? FormatList) eqn:H1; [apply Z.eqb_eq in H1; by subst |].
  destruct (f =? FormatASCII) eqn:H2; [apply Z.eqb_eq in H2; by subst |].
  destruct (f =? FormatBinary) eqn:H3; [apply Z.eqb_eq in H3; by subst |]. done.
Qed.

Lemma unsigned_item_ok size v : size ∈ [1; 2; 4; 8] -> 0 <= v < 2 ^ (size * 8) -> well_formed (unsigned_item size v) = true.
Proof.
  intros Hs Hv. apply in_unsigned_spec in Hv.
  repeat (apply elem_of_cons in Hs as [-> | Hs]; [by apply well_formed_scalar |]). by apply elem_of_nil in Hs.
Qed.

Lemma signed_item_ok size v :
  size ∈ [1; 2; 4; 8] -> - 2 ^ (size * 8 - 1) <= v < 2 ^ (size * 8 - 1) -> well_formed (signed_item size v) = true.
Proof.
  intros Hs Hv. apply in_signed_spec in Hv.
  repeat (apply elem_of_cons in Hs as [-> | Hs]; [by apply well_formed_scalar |]). by apply elem_of_nil in Hs.
Qed.

Lemma parse_byte_range t v : parse_byte t = Some v -> 0 <= v < 256.
Proof. unfold parse_byte. case_match; intros H'; eapply (parse_uint_bound _ _ 8) in H'; done. Qed.

Lemma value_parser_reads token parse l : value_parser token = Some parse -> post (parse l) (reads l).
Proof.
  assert (Hu : forall size, size ∈ [1; 2; 4; 8] -> post (parseUint size l) (reads l)).
  { intros size Hs. apply parse_value_reads. intros t v Hv. apply unsigned_item_ok; [done |].
    eapply parse_uint_bound; [| | exact Hv]; [done |]. set_unfold. lia. }
  assert (Hi : forall size, size ∈ [1; 2; 4; 8] -> post (parseInt size l) (reads l)).
  { intros size Hs. apply parse_value_reads. intros t v Hv. apply signed_item_ok; [done |].
    eapply ParseInt_bound; [| | exact Hv]; [done |]. set_unfold. lia. }
  assert (Hf : forall size, post (parseFloat size l) (reads l)).
  { intros size. apply parse_value_reads. intros t v Hv%ParseFloat_range. pose proof (float32_of_range v).
    destruct (size =? 4); by apply well_formed_scalar. }
  unfold value_parser. repeat (case_decide; [intros [= <-] |]); try done;
    first [ apply parseASCII_reads | apply Hu; set_solver | apply Hi; set_solver | apply Hf | apply parse_value_reads ].
  - intros t v Hv%parse_byte_range. cbn. rewrite (proj2 (is_byte_spec v)) by done. done.
  - intros t b _. by apply well_formed_scalar.
Qed.

Lemma parse_children_reads parse fuel : forall l,
  (length l < fuel)%nat ->
  (forall l', (length l' <= length l)%nat -> post (parse l') (fun x => (S (length x.2) <= length l')%nat
     /\ (len l' <= max_payload -> well_formed x.1 = true))) ->
  post (parse_children parse fuel l) (fun x => (length x.1 + length x.2 <= length l)%nat
     /\ (len l <= max_payload -> Forall (fun it => well_formed it = true) x.1)).
Proof.
  induction fuel as [|fuel IH]; intros l Hl Hp; [lia |]. cbn [parse_children].
  pose proof (skip_length l false) as Hs. unfold skipSpace. destruct (skip false l) as [|c l'] eqn:Hskip; [done |].
  destruct (code c =? 125); [simpl in *; split; [lia | by constructor] |].
  eapply post_bind; [apply Hp; simpl in *; lia |]. intros [child r] [Hr Hw]. simpl in Hr, Hw.
  eapply post_bind; [apply IH; [simpl in *; lia | intros; apply Hp; simpl in *; lia] |].
  intros [children r'] [Hc Hcw]. simpl in *. split; [lia |]. intros Hmax.
  constructor; [apply Hw | apply Hcw]; unfold len in *; simpl in *; lia.
Qed.

Lemma well_formed_list cs :
  Forall (fun it => well_formed it = true) cs -> len cs <= max_payload -> well_formed (NewList (Some <$> cs)) = true.
Proof.
  intros Hcs Hl. cbn [NewList well_formed]. rewrite <- list_fmap_compose. apply andb_true_iff. split.
  - apply Z.leb_le. unfold len in *. by rewrite length_fmap.
  - apply all_children_spec. exists cs. split; [done |]. apply forallb_forall. intros x Hx.
    rewrite Forall_forall in Hcs. apply Hcs. by apply list_elem_of_In.
Qed.

Lemma parse_item_reads fuel : forall l,
  (length l < fuel)%nat ->
  post (parse_item fuel l) (fun x => (S (length x.2) <= length l)%nat /\ (len l <= max_payload -> well_formed x.1 = true)).
Proof.
  induction fuel as [|fuel IH]; intros l Hl; [lia |]. cbn [parse_item]. unfold skipSpace.
  pose proof (skip_length l false) as Hs. destruct (skip false l) as [|c l'] eqn:Hskip; [done |].
  destruct (readToken (c :: l')) as [token r] eqn:Ht. apply readToken_length in Ht.
  destruct (HasPrefix token "L") eqn:HL.
  - assert (1 <= length (chars token))%nat by (destruct token; [done | simpl; lia]).
    unfold parseList, skipSpace. pose proof (skip_length r false) as Hr. destruct (skip false r) as [|d r']; cbn [length] in *.
    { split; [simpl; lia | done]. }
    destruct (code d =? 123); [| split; [simpl; lia | done]].
    eapply post_bind; [apply parse_children_reads; [lia |]; intros l2 Hl2; apply IH; lia |].
    intros [cs r2] [Hlen Hw]. simpl in *. split; [lia |]. intros Hmax. apply well_formed_list.
    + apply Hw. unfold len in *. lia.
    + unfold len in *. lia.
  - destruct (value_parser token) as [parse|] eqn:Hv; [| done].
    assert (1 <= length (chars token))%nat by (destruct token; [done | simpl; lia]).
    eapply post_mono; [| by apply (value_parser_reads token)]. intros [it r2] [Hr2 Hw]. simpl in *. split; [lia |].
    intros Hmax. apply Hw. unfold len in *. lia.
Qed.
End parser.

(** ** The notation

    What the comment of [ParseSML] describes, as a printer: [L:n { ... }] with the
    children separated by spaces, [A "..."], and one value after each other format, in
    decimal. *)

Definition quote : ascii := ascii_of_N 34.

Definition print_value (vs : list gval) : list ascii :=
  match vs with
  | [VString s] => chars "A " ++ quote :: chars s ++ [quote]
  | [VBytes [b]] => chars "B " ++ decimal b
  | [VBool b] => chars "BOOLEAN " ++ chars (if b then "true" else "false")
  | [VUint8 z] => chars "U1 " ++ decimal z
  | [VUint16 z] => chars "U2 " ++ decimal z
  | [VUint32 z] => chars "U4 " ++ decimal z
  | [VUint64 z] => chars "U8 " ++ decimal z
  | [VInt8 z] => chars "I1 " ++ decimal z
  | [VInt16 z] => chars "I2 " ++ decimal z
  | [VInt32 z] => chars "I4 " ++ decimal z
  | [VInt64 z] => chars "I8 " ++ decimal z
  | _ => []
  end.

Definition print_children (print : item -> list ascii) : list gval -> list ascii :=
  fix go vs :=
    match vs with
    | [] => []
    | VItem (Some c) :: vs => print c ++ " "%char :: go vs
    | _ :: vs => go vs
    end.

Fixpoint print (it : item) : list ascii :=
  match it with
  | Item f vs =>
      if f =? FormatList
      then chars "L:" ++ decimal (len vs) ++ chars " { " ++ print_children print vs ++ ["}"%char]
      else print_value vs
  end.

(** The items it can express: single values but floats, texts without quotes and
    backslashes. *)
Fixpoint expressible (it : item) : bool :=
  match it with
  | Item f vs =>
      if f =? FormatList then all_children expressible vs
      else match vs with
           | [VString s] => (f =? FormatASCII) && forallb (fun c => negb (code c =? 34) && negb (code c =? 92)) (chars s)
           | [VBytes [b]] => (f =? FormatBinary) && is_byte b
           | [VFloat32 _] | [VFloat64 _] => false
           | [v] => value_ok f v
           | _ => false
           end
  end.

Definition word (w : list ascii) : Prop :=
  Forall (fun c => token_end c = false) w /\ match w with c :: _ => code c <> 47 | [] => False end.
Definition ends (rest : list ascii) : Prop := match rest with c :: _ => token_end c = true | [] => True end.

Lemma decimal_no_prefix z : 0 <= z -> HasPrefix (pretty z) "0x" = false /\ HasPrefix (pretty z) "0X" = false.
Proof.
  intros Hz. pose proof (decimal_digits z Hz) as Hd. unfold decimal in Hd. unfold HasPrefix.
  destruct (pretty z) as [|a [|b s]]; [done | split; cbn [String.prefix]; by destruct (ascii_dec _ _) |].
  apply Forall_cons in Hd as [_ [Hb _]%Forall_cons].
  assert (Hx : b <> "x"%char /\ b <> "X"%char) by (split; intros ->; cbn in Hb; unfold code in Hb; cbn in Hb; lia).
  cbn [String.prefix]. destruct (ascii_dec "0" a); [| done]. destruct (ascii_dec "x" b), (ascii_dec "X" b); naive_solver.
Qed.

Section round_trip.
Context `{!Floats}.

Lemma skip_word w rest : word w -> skipSpace (w ++ rest) = w ++ rest.
Proof.
  intros [Hw Hh]. destruct w as [|c w]; [done |]. apply Forall_cons in Hw as [Hc _]. unfold skipSpace. cbn [skip app].
  unfold token_end, between in Hc. unfold sml_space. replace (_ || _ || _ || _) with false by lia.
  by rewrite (proj2 (Z.eqb_neq _ _) Hh).
Qed.

Lemma take_token_word w rest : Forall (fun c => token_end c = false) w -> ends rest -> take_token (w ++ rest) = (w, rest).
Proof.
  intros Hw Hr. induction Hw as [|c w Hc _ IH]; cbn [take_token app].
  - destruct rest as [|c rest]; [done |]. cbn in *. by rewrite Hr.
  - by rewrite Hc, IH.
Qed.

Lemma readToken_word w rest : word w -> ends rest -> readToken (w ++ rest) = (string_of w, rest).
Proof. intros Hw Hr. unfold readToken. rewrite skip_word, take_token_word by (done || apply Hw). done. Qed.

Lemma parse_value_word {V} format (read : string -> option V) make w rest v :
  word w -> ends rest -> read (string_of w) = Some v ->
  parse_value format read make (" "%char :: w ++ rest) = Ok (make v, rest).
Proof.
  intros Hw Hr Hv. unfold parse_value. change (skipSpace (" "%char :: w ++ rest)) with (skipSpace (w ++ rest)).
  rewrite skip_word, readToken_word, Hv by done. done.
Qed.

Lemma decimal_word z : word (decimal z).
Proof.
  assert (Hpos : forall z, 0 <= z -> word (decimal z)).
  { intros z' Hz. pose proof (decimal_digits z' Hz) as Hd. split.
    - eapply Forall_impl; [exact Hd |]. intros c Hc. unfold token_end, between. cbn in Hc. lia.
    - destruct (decimal z') as [|c l] eqn:Hc.
      + destruct z' as [|p|p]; [done | | lia]. destruct (pretty_head (N.pos p)) as (? & ? & Hp & _); [done |].
        rewrite decimal_pos in Hc. congruence.
      + apply Forall_cons in Hd as [? _]. lia. }
  destruct z as [|p|p]; [by apply Hpos.. |]. rewrite decimal_neg. destruct (Hpos (Z.pos p)) as [Hw _]; [done |].
  by split; [constructor |].
Qed.

Lemma string_of_decimal z : string_of (decimal z) = pretty z.
Proof. apply string_of_chars. Qed.

(** A tag, and the value after it. *)
Lemma parse_item_tag fuel tag rest parse :
  word (chars tag) -> HasPrefix tag "L" = false -> value_parser tag = Some parse ->
  parse_item (S fuel) (chars tag ++ " "%char :: rest) = parse (" "%char :: rest).
Proof.
  intros Hw HL Hv. cbn [parse_item]. rewrite skip_word by done.
  destruct (chars tag ++ " "%char :: rest) as [|c l] eqn:Hcl; [by destruct tag |]. rewrite <- Hcl.
  rewrite readToken_word by done. rewrite string_of_chars, HL, Hv. done.
Qed.

Lemma scan_string_quoted s rest :
  forallb (fun c => negb (code c =? 34) && negb (code c =? 92)) s = true ->
  scan_string (s ++ quote :: rest) = Some (s, rest).
Proof.
  induction s as [|c s IH]; [done |]. cbn [forallb scan_string app]. rewrite !andb_true_iff, !negb_true_iff.
  intros [[-> ->] Hs]. by rewrite IH.
Qed.

Lemma unsigned_tagged tag size z rest fuel :
  word (chars tag) -> HasPrefix tag "L" = false -> value_parser tag = Some (parseUint size) -> 0 <= z < 2 ^ (size * 8) ->
  ends rest -> parse_item (S fuel) ((chars (tag +:+ " ") ++ decimal z) ++ rest) = Ok (unsigned_item size z, rest).
Proof.
  intros Hw HL Hv Hz Hr. rewrite chars_app, <- !app_assoc. change (chars " " ++ ?l) with (" "%char :: l).
  rewrite (parse_item_tag _ _ _ _ Hw HL Hv). apply parse_value_word; [apply decimal_word | done |].
  unfold ParseUint. rewrite chars_string_of. by apply parse_uint_decimal.
Qed.

Lemma signed_tagged tag size z rest fuel :
  word (chars tag) -> HasPrefix tag "L" = false -> value_parser tag = Some (parseInt size) -> 0 < size * 8 ->
  - 2 ^ (size * 8 - 1) <= z < 2 ^ (size * 8 - 1) -> ends rest ->
  parse_item (S fuel) ((chars (tag +:+ " ") ++ decimal z) ++ rest) = Ok (signed_item size z, rest).
Proof.
  intros Hw HL Hv Hs Hz Hr. rewrite chars_app, <- !app_assoc. change (chars " " ++ ?l) with (" "%char :: l).
  rewrite (parse_item_tag _ _ _ _ Hw HL Hv). apply parse_value_word; [apply decimal_word | done |].
  by apply ParseInt_decimal.
Qed.

Ltac word := split; [repeat (constructor; [reflexivity |]); constructor | discriminate].

(** One value. *)
Lemma parse_print_value f vs rest fuel :
  f <> FormatList -> expressible (Item f vs) = true -> ends rest ->
  parse_item (S fuel) (print_value vs ++ rest) = Ok (Item f vs, rest).
Proof.
  intros Hf He Hr. cbn [expressible] in He. rewrite (proj2 (Z.eqb_neq _ _) Hf) in He.
  destruct vs as [|v [|]]; [done | | by destruct v as [| |[|? []]| | | | | | | | | | |]].
  destruct v as [p|s|bs|b|z|z|z|z|z|z|z|z|z|z]; cbn [value_ok] in He; try done.
  3:{ apply Z.eqb_eq in He as ->. cbn [print_value]. rewrite <- app_assoc. change (chars "BOOLEAN ") with (chars "BOOLEAN" ++ [" "%char]).
      rewrite <- app_assoc. cbn [app]. rewrite (parse_item_tag _ "BOOLEAN" _ parseBoolean) by (word || reflexivity).
      destruct b; [exact (parse_value_word "BOOLEAN" parse_bool (fun b => NewBoolean [b]) (chars "true") rest true ltac:(word) Hr eq_refl)
                  | exact (parse_value_word "BOOLEAN" parse_bool (fun b => NewBoolean [b]) (chars "false") rest false ltac:(word) Hr eq_refl)]. }
  3-10: apply andb_true_iff in He as [->%Z.eqb_eq Hz]; first [apply in_signed_spec in Hz | apply in_unsigned_spec in Hz].
  - apply andb_true_iff in He as [->%Z.eqb_eq Hs]. cbn [print_value].
    change (chars "A ") with (chars "A" ++ [" "%char]). rewrite <- !app_assoc. cbn [app].
    rewrite (parse_item_tag _ "A" _ parseASCII) by (word || reflexivity).
    unfold parseASCII. change (skipSpace (" "%char :: quote :: ?l)) with (quote :: l). change (code quote =? 34) with true.
    cbv iota. rewrite <- app_assoc. cbn [app]. rewrite scan_string_quoted by done. by rewrite string_of_chars.
  - destruct bs as [|b []]; try done. apply andb_true_iff in He as [->%Z.eqb_eq Hb%is_byte_spec]. cbn [print_value].
    change (chars "B ") with (chars "B" ++ [" "%char]). rewrite <- !app_assoc. cbn [app].
    rewrite (parse_item_tag _ "B" _ parseBinary) by (word || reflexivity).
    apply (parse_value_word "B" parse_byte (fun v => NewBinary [v])); [apply decimal_word | done |].
    rewrite string_of_decimal. unfold parse_byte. destruct (decimal_no_prefix b ltac:(lia)) as [-> ->]. by apply ParseUint_pretty.
  - exact (signed_tagged "I1" 1 z rest fuel ltac:(word) eq_refl eq_refl eq_refl Hz Hr).
  - exact (signed_tagged "I2" 2 z rest fuel ltac:(word) eq_refl eq_refl eq_refl Hz Hr).
  - exact (signed_tagged "I4" 4 z rest fuel ltac:(word) eq_refl eq_refl eq_refl Hz Hr).
  - exact (signed_tagged "I8" 8 z rest fuel ltac:(word) eq_refl eq_refl eq_refl Hz Hr).
  - exact (unsigned_tagged "U1" 1 z rest fuel ltac:(word) eq_refl eq_refl Hz Hr).
  - exact (unsigned_tagged "U2" 2 z rest fuel ltac:(word) eq_refl eq_refl Hz Hr).
  - exact (unsigned_tagged "U4" 4 z rest fuel ltac:(word) eq_refl eq_refl Hz Hr).
  - exact (unsigned_tagged "U8" 8 z rest fuel ltac:(word) eq_refl eq_refl Hz Hr).
Qed.
(** Every text of an item starts with a capital letter. *)
Lemma print_head it : expressible it = true -> exists c l, print it = c :: l /\ 65 <= code c <= 90.
Proof.
  destruct it as [f vs]. cbn [expressible print]. destruct (f =? FormatList).
  { intros _. cbn [chars app]. do 2 eexists. split; [done |]. change (code "L"%char) with 76. lia. }
  destruct vs as [|v [|]]; [done | | by destruct v as [| |[|? []]| | | | | | | | | | |]].
  destruct v as [p|s|[|b []]|b|z|z|z|z|z|z|z|z|z|z]; try done; intros _; cbn [print_value chars app];
    do 2 eexists; (split; [reflexivity | vm_compute; split; discriminate]).
Qed.

Lemma skip_letter c l : 65 <= code c <= 90 -> skipSpace (c :: l) = c :: l.
Proof.
  intros Hc. unfold skipSpace. cbn [skip]. unfold sml_space. replace (_ || _ || _ || _) with false by lia.
  by rewrite (proj2 (Z.eqb_neq (code c) 47)) by lia.
Qed.

Lemma last_app_snoc {A} (l l' : list A) x : last l' = Some x -> last (l ++ l') = Some x.
Proof. destruct l' as [|y l' _] using rev_ind; [done |]. by rewrite app_assoc, !last_snoc. Qed.

Lemma decimal_last z : exists d, last (decimal z) = Some d /\ solid d.
Proof.
  destruct (decimal_word z) as [Hw Hne]. destruct (decimal z) as [|d l _] eqn:Hz using rev_ind; [done |].
  exists d. rewrite last_snoc. split; [done |].
  assert (Hd : Forall (fun c => 45 <= code c <= 57) (decimal z)).
  { destruct z as [|p|p]; [| | rewrite decimal_neg; constructor; [by vm_compute |]];
      (eapply Forall_impl; [apply decimal_digits; done |]); cbv beta; intros; lia. }
  rewrite Hz in Hd. apply Forall_app in Hd as [_ [Hd _]%Forall_cons]. unfold solid. lia.
Qed.

Lemma print_last it : expressible it = true -> exists d, last (print it) = Some d /\ solid d.
Proof.
  destruct it as [f vs]. cbn [expressible print]. destruct (f =? FormatList).
  { intros _. exists "}"%char. split; [| vm_compute; by split]. by do 4 apply last_app_snoc. }
  destruct vs as [|v [|]]; [done | | by destruct v as [| |[|? []]| | | | | | | | | | |]].
  destruct v as [p|s|[|b []]|b|z|z|z|z|z|z|z|z|z|z]; try done; intros _; cbn [print_value];
    try (destruct (decimal_last z) as (d & Hd & Hs); exists d; split; [by apply last_app_snoc | done]).
  - exists quote. split; [| vm_compute; by split]. change (quote :: chars s ++ [quote]) with ((quote :: chars s) ++ [quote]).
    by do 2 apply last_app_snoc.
  - destruct (decimal_last b) as (d & Hd & Hs). exists d. split; [by apply last_app_snoc | done].
  - exists "e"%char. split; [by destruct b | vm_compute; by split].
Qed.

Definition children (cs : list item) : list ascii := print_children print ((VItem ∘ Some) <$> cs).

Lemma length_children cs : (length cs <= length (children cs))%nat.
Proof. unfold children. induction cs as [|c cs IH]; [done |]. cbn. rewrite length_app. simpl in *. lia. Qed.

Lemma parse_print_children parse cs rest : forall fuel,
  Forall (fun c => expressible c = true) cs -> (length cs < fuel)%nat ->
  (forall c rest', c ∈ cs -> ends rest' -> (length (print c ++ rest') <= length (children cs ++ "}"%char :: rest))%nat ->
     parse (print c ++ rest') = Ok (c, rest')) ->
  parse_children parse fuel (children cs ++ "}"%char :: rest) = Ok (cs, rest).
Proof.
  induction cs as [|c cs IH]; intros [|fuel] Hex Hf Hp; try (simpl in Hf; lia); [done |].
  apply Forall_cons in Hex as [Hc Hcs].
  change (children (c :: cs)) with (print c ++ " "%char :: children cs) in Hp |- *. rewrite <- app_assoc in Hp |- *. cbn [app] in Hp |- *.
  destruct (print_head c Hc) as (a & l & Hpr & Ha). cbn [parse_children]. rewrite Hpr. cbn [app].
  rewrite skip_letter, (proj2 (Z.eqb_neq (code a) 125)) by lia.
  specialize (Hp c (" "%char :: children cs ++ "}"%char :: rest) ltac:(left) eq_refl) as Hpc.
  rewrite Hpr in Hpc. cbn [app] in Hpc. rewrite Hpc by lia. cbn [mbind result_bind].
  assert (Hsp : parse_children parse fuel (" "%char :: children cs ++ "}"%char :: rest)
                = parse_children parse fuel (children cs ++ "}"%char :: rest)) by by destruct fuel.
  rewrite Hsp, IH; [done | done | simpl in Hf; lia |].
  intros c' rest' Hin Hr Hl. apply Hp; [by right | done |]. rewrite (length_app (print c)). cbn [length]. lia.
Qed.

(** The parser reads the text of an item back, whatever follows it. *)
Lemma parse_print it : forall rest fuel,
  expressible it = true -> ends rest -> (length (print it ++ rest) < fuel)%nat ->
  parse_item fuel (print it ++ rest) = Ok (it, rest).
Proof.
  induction it as [f vs IH] using item_tree_ind. intros rest [|fuel] He Hr Hl; [lia |].
  destruct (Z.eqb_spec f FormatList) as [->|Hf].
  2:{ cbn [print] in *. rewrite (proj2 (Z.eqb_neq _ _) Hf) in *. by apply parse_print_value. }
  cbn [expressible] in He. change (FormatList =? FormatList) with true in He. cbv iota in He.
  apply all_children_spec in He as (cs & -> & Hcs).
  assert (Hex : Forall (fun c => expressible c = true) cs).
  { rewrite Forall_forall. intros x Hx. rewrite forallb_forall in Hcs. by apply Hcs, list_elem_of_In. }
  set (w := chars "L:" ++ decimal (len ((VItem ∘ Some) <$> cs : list gval))).
  set (l' := " "%char :: children cs ++ "}"%char :: rest).
  assert (Hpr : print (Item FormatList ((VItem ∘ Some) <$> cs)) ++ rest = w ++ " "%char :: "{"%char :: l').
  { unfold w, l', children. cbn [print]. change (FormatList =? FormatList) with true. cbv iota. by rewrite <- !app_assoc. }
  rewrite Hpr in Hl |- *.
  assert (Hw : word w).
  { unfold w. destruct (decimal_word (len ((VItem ∘ Some) <$> cs : list gval))) as [Hd _].
    split; [apply Forall_app; split; [repeat (constructor; [reflexivity |]); constructor | done] | discriminate]. }
  cbn [parse_item]. rewrite skip_word by done. destruct (w ++ " "%char :: "{"%char :: l') as [|c l] eqn:Hcl; [done |].
  rewrite <- Hcl, readToken_word by done.
  assert (HL : HasPrefix (string_of w) "L" = true) by reflexivity.
  rewrite HL. unfold parseList. change (skipSpace (" "%char :: "{"%char :: l')) with ("{"%char :: l').
  change (code "{" =? 123) with true. cbv iota.
  assert (Hsp : parse_children (parse_item fuel) (S (length l')) l'
                = parse_children (parse_item fuel) (S (length l')) (children cs ++ "}"%char :: rest)) by done.
  rewrite Hsp, parse_print_children; [| done | |].
  - cbn [mbind result_bind]. do 2 f_equal. unfold NewList. by rewrite <- list_fmap_compose.
  - pose proof (length_children cs) as Hlc. subst l'. cbn [length]. rewrite (length_app (children cs)). lia.
  - intros c' rest' Hin Hr' Hlen. apply IH; [by apply (list_elem_of_fmap_2 (VItem ∘ Some)) | | done |].
    + rewrite Forall_forall in Hex. by apply Hex.
    + rewrite <- Hcl, length_app in Hl. subst l'. cbn [length] in Hl. lia.
Qed.

(** ** Properties *)

(** [ParseSML] comes back on every text, with an item or an error: the scan never
    leaves the text and the recursion ends.  What it accepts of a text of up to
    16777215 characters is a well-formed item, so that what a script sends can be
    encoded and is decoded as it was written. *)
Theorem parse_total text :
  match ParseSML text with
  | Ok it => Z.of_nat (String.length text) <= max_payload -> well_formed it = true
  | Err _ => True
  | _ => False
  end.
Proof.
  unfold ParseSML. case_decide as Hne; [done |].
  pose proof (parse_item_reads (S (length (chars (TrimSpace text)))) (chars (TrimSpace text)) ltac:(lia)) as Hreads.
  destruct (parse_item _ _) as [[it r]| | |]; try done. cbn. destruct Hreads as [_ Hw]. intros Hmax. apply Hw.
  enough (Hle : (length (chars (TrimSpace text)) <= length (chars text))%nat).
  { rewrite (length_chars text) in Hle. unfold len. cbn [fst snd]. lia. }
  unfold TrimSpace. rewrite chars_string_of. unfold trim_right. rewrite length_rev.
  etransitivity; [apply trim_front_length |]. rewrite length_rev. apply trim_front_length.
Qed.

(** C25: The notation of the comment is read as it is meant: the text of an expressible
    item, lists nested to any depth, gives that item. *)
Theorem sml_round_trip it : expressible it = true -> ParseSML (string_of (print it)) = Ok it.
Proof.
  intros He. destruct (print_head it He) as (c & l & Hp & Hc). destruct (print_last it He) as (d & Hd & Hsolid).
  unfold ParseSML. rewrite (TrimSpace_solid c d); [| unfold solid; lia | done | by rewrite Hp | done].
  rewrite decide_False by by rewrite Hp. rewrite chars_string_of.
  pose proof (parse_print it [] (S (length (print it))) He I) as Hpp. rewrite app_nil_r in Hpp. rewrite Hpp by lia. done.
Qed.
End round_trip.

#[local] Instance no_floats : Floats.
Proof. refine {| ParseFloat := fun _ => None; float32_of := fun _ => 0 |}; [done | by intros _]. Defined.

(** The S1F13 body of the built-in scenario, with a number. *)
Definition sample_item : item :=
  NewList [Some (NewASCII "go-factory-io"); Some (NewList [Some (NewU4 [4294967295]); Some (NewI2 [-32768])])].

Lemma sml_round_trip_witness : ParseSML (string_of (print sample_item)) = Ok sample_item.
Proof. apply sml_round_trip. reflexivity. Defined.

(** What the notation leaves out: the count is not read, a word that begins with L is a
    list, the backslash of an escape stays in the text, and what follows the item is
    ignored. *)
Example sml_leniency :
  ParseSML "L:7 { U1 3 }" = Ok (NewList [Some (NewU1 [3])])
  /\ ParseSML "LENGTH" = Ok (NewList [])
  /\ ParseSML (string_of (chars "A " ++ quote :: chars "a\" ++ quote :: chars "b" ++ [quote]))
     = Ok (NewASCII (string_of (chars "a\" ++ quote :: chars "b")))
  /\ ParseSML "U1 3 U1 4" = Ok (NewU1 [3]).
Proof. by vm_compute. Qed.
