(* ===== verification/Simulator.v ===== *)
(** * The simulated equipment

    [src/examples/simulator/simulator.go]: a GEM handler on a passive HSMS session with
    three constants, five variables and four events, the loop that handles incoming
    messages and the loop that reports a finished process on every tick.

    The session is shared by the equipment and its handler, so it is kept once, in the
    handler.  [rand.Float64] is a function of the instant; the clock counts
    nanoseconds since 1970. *)

From stdpp Require Import prelude gmap strings list pretty.
From Stdlib Require Import ZArith Lia Floats.SpecFloat.
From S2P Require Import Prelude Lifecycle Secs2Item Secs2Codec HsmsMessage Transport Policy HsmsSession.
From S2P Require Import GemState GemVariables GemEvents GemAlarms GemCommands GemHandler GemSafety GemReports.

#[local] Open Scope Z_scope.

(** ** Doubles as stored

    [math.Float64bits] *)
Definition bits_of_f64 (x : spec_float) : Z :=
  let sign (s : bool) := if s then Z.shiftl 1 63 else 0 in
  match x with
  | S754_zero s => sign s
  | S754_infinity s => sign s + Z.shiftl 2047 52
  | S754_nan => Z.shiftl 0x7FF8 48 + 1
  | S754_finite s m e =>
      sign s + (if Z.pos m <? 2 ^ 52 then Z.pos m else Z.shiftl (e + 1075) 52 + (Z.pos m - 2 ^ 52))
  end.

Example bits_of_350 : bits_of_f64 (f64_of_Z 350) = 0x4075E00000000000.
Proof. reflexivity. Qed.

(** ** Configuration *)

Record EquipmentConfig := mkEquipmentConfig {
  ListenAddress : string;
  eq_SessionID : Z;
  ModelName : string;
  SoftwareRevision : string;
  EventInterval : Z;
  AllowWrites : bool;
}.

Definition DefaultEquipmentConfig : EquipmentConfig :=
  mkEquipmentConfig ":5000" 1 "SIM-EQUIP-01" "1.0.0" (5 * second) false.

Record Equipment := mkEquipment {
  handler : Handler World;
  config : EquipmentConfig;
  dataID : Z;
  waferCount : Z;
}.

Definition set_handler (h : Handler World) (eq : Equipment) : Equipment :=
  mkEquipment h (config eq) (dataID eq) (waferCount eq).

(** The session under the handler. *)
Definition session_of (eq : Equipment) : Session := sess (session (handler eq)).

Section simulator.
Context (rand : Z -> spec_float) `{!MapOrder Z}.
Implicit Types eq : Equipment.

(** [base + rand.Float64()*4.0] *)
Definition around (base : Z) (now : Z) : govalue :=
  GFloat64 (bits_of_f64 (SFadd 53 1024 (f64_of_Z base) (SFmul 53 1024 (rand now) (f64_of_Z 4)))).

Definition registerVariables (vs : VariableStore) : VariableStore :=
  let vs := DefineEC (mkEC 1 "ProcessTemperature" (GFloat64 (bits_of_f64 (f64_of_Z 350))) GNil GNil "C") vs in
  let vs := DefineEC (mkEC 2 "ProcessPressure" (GFloat64 (bits_of_f64 (f64_of_Z 760))) GNil GNil "Torr") vs in
  let vs := DefineEC (mkEC 3 "ProcessTime" (GUint32 120) GNil GNil "sec") vs in
  let vs := DefineSV (mkSV 1001 "WaferCount" (GUint32 0) "pcs" None) vs in
  let vs := DefineSVDynamic 1002 "Temperature" "C" (Some (around 348)) vs in
  let vs := DefineSVDynamic 1003 "Pressure" "Torr" (Some (around 758)) vs in
  let vs := DefineSV (mkSV 1004 "ProcessState" (GString "IDLE") "" None) vs in
  DefineSVDynamic 1005 "Uptime" "sec" (Some (fun now => GUint32 (wrap 32 (Z.rem (now / second) 86400)))) vs.

(** The errors of the two links are dropped; there are none. *)
Definition registerEvents (em : EventManager) : EventManager :=
  let em := DefineEvent 100 "ProcessComplete" em in
  let em := DefineEvent 200 "LotComplete" em in
  let em := DefineEvent 300 "AlarmSet" em in
  let em := DefineEvent 400 "AlarmCleared" em in
  let em := DefineReport 1 [1001; 1002; 1003; 1004] em in
  let em := DefineReport 2 [1001] em in
  let em := keep (LinkEventReport 100 [1] em) em in
  keep (LinkEventReport 200 [2] em) em.

Definition NewEquipment (cfg : EquipmentConfig) : Equipment :=
  let c := DefaultConfig (ListenAddress cfg) RolePassive (eq_SessionID cfg) in
  let hsmsCfg := mkConfig (Address c) (cfg_Role c) (cfg_SessionID c) (T3 c) (T5 c) (T6 c) (T7 c) (T8 c) 0 (TLS c)
                   (AllowedPeers c) (MaxConnections c) (MaxMessageRate c) (MaxMessageSize c) (SessionTTL c) in
  let h := NewHandler (mkWorld (NewSession hsmsCfg) []) (eq_SessionID cfg) (ModelName cfg) (SoftwareRevision cfg) in
  let h := if AllowWrites cfg then SetPolicy FullAccessPolicy h else h in
  let h := set_vars (registerVariables (vars h)) h in
  let h := set_events (registerEvents (eventMgr h)) h in
  mkEquipment h cfg 0 0.

(** ** The loops *)

(** The session after [f]; what the environment answers next stays. *)
Definition with_session (f : Session -> Session) eq : Equipment :=
  let w := session (handler eq) in set_handler (set_session (mkWorld (f (sess w)) (answers w)) (handler eq)) eq.

(** [Start]: [listen] is the outcome of the listener. *)
Definition Start (listen : bool) eq : result send_error Equipment :=
  let '(r, s) := Connect listen true (session_of eq) in _ ← r; Ok (with_session (fun _ => s) eq).

Definition Stop eq : Equipment := with_session Close eq.

(** One round of [messageLoop], [None] while there is no message.  An error of the
    handler is logged; a panic ends the program. *)
Definition messageLoop_round (now : Z) eq : option (result handler_error Equipment) :=
  '(msg, s) ← ReceiveMessage (session_of eq);
  let eq := with_session (fun _ => s) eq in
  Some (match HandleMessage now msg (handler eq) with
        | (_, Panic p) => Panic p
        | (_, OutOfFuel) => OutOfFuel
        | (h, _) => Ok (set_handler h eq)
        end).

(** One tick of [eventLoop].  The variable is known, so [SetSV] succeeds; an error of
    [SendEvent] is logged. *)
Definition eventLoop_tick (now : Z) eq : result handler_error Equipment :=
  if negb (IsCommunicating (state (handler eq))) then Ok eq
  else
    let h := handler eq in
    let waferCount := wrap 32 (waferCount eq + 1) in
    let h := set_vars (keep (SetSV 1001 (GUint32 waferCount) (vars h)) (vars h)) h in
    let dataID := wrap 32 (dataID eq + 1) in
    match SendEvent now dataID 100 h with
    | (_, Panic p) => Panic p
    | (_, OutOfFuel) => OutOfFuel
    | (h, _) => Ok (mkEquipment h (config eq) dataID waferCount)
    end.

Fixpoint eventLoop_ticks (times : list Z) eq : result handler_error Equipment :=
  match times with
  | [] => Ok eq
  | now :: times => eq' ← eventLoop_tick now eq; eventLoop_ticks times eq'
  end.

(** ** What the ticks report *)

(** What the report of a finished process is made of, as registered. *)
Record registered eq : Prop := {
  reg_event : events (eventMgr (handler eq)) !! 100 = Some (mkCE 100 "ProcessComplete" true [1]);
  reg_report : reports (eventMgr (handler eq)) !! 1 = Some (mkReport 1 [1001; 1002; 1003; 1004]);
  reg_wafers : exists v, svs (vars (handler eq)) !! 1001 = Some (mkSV 1001 "WaferCount" v "pcs" None);
  reg_temperature : svs (vars (handler eq)) !! 1002 = Some (mkSV 1002 "Temperature" GNil "C" (Some (around 348)));
  reg_pressure : svs (vars (handler eq)) !! 1003 = Some (mkSV 1003 "Pressure" GNil "Torr" (Some (around 758)));
  reg_process : svs (vars (handler eq)) !! 1004 = Some (mkSV 1004 "ProcessState" (GString "IDLE") "" None);
}.

(** The body of the report with data identifier [d]. *)
Definition process_complete (d now : Z) : item :=
  NewList [Some (NewU4 [d]); Some (NewU4 [100]);
    Some (NewList [Some (NewList [Some (NewU4 [1]);
      Some (NewList [Some (NewU4 [d]); valueToItem (around 348 now); valueToItem (around 758 now);
                     Some (NewASCII "IDLE")])])])].

Lemma new_registered cfg : registered (NewEquipment cfg).
Proof. unfold NewEquipment. destruct (AllowWrites cfg); (split; try reflexivity; by eexists). Qed.

Lemma process_complete_encodes d now : exists bs, Encode (Some (process_complete d now)) = Ok bs /\ len bs < 200.
Proof.
  unfold process_complete, around. set (b1 := bits_of_f64 _). set (b2 := bits_of_f64 _). clearbody b1 b2.
  eexists. split; [cbv -[to_byte Z.shiftr]; reflexivity | reflexivity].
Qed.

(** A short message is written or refused, never a panic. *)
Lemma SendMessage_returns env m s : len (Data m) < 2 ^ 32 - 14 -> returns (SendMessage env m s).1 = true.
Proof.
  intros Hd. assert (Hw : forall io id s0, returns (writeMessage io (with_system_id id m) s0) = true).
  { intros io id s0. unfold writeMessage. rewrite marshal_frame by done. destruct (conn s0) as [b|]; [| done]. by destruct (b && io). }
  unfold SendMessage. destruct (_ && _); [done |].
  assert (Hm : exists id s0, (if SystemID (hdr m) =? 0 then let '(id, s) := next_id s in (with_system_id id m, s) else (m, s))
      = (with_system_id id m, s0)).
  { destruct (SystemID (hdr m) =? 0); [by do 2 eexists |]. exists (SystemID (hdr m)), s. by rewrite with_own_system_id. }
  destruct Hm as (id & s0 & ->). unfold sendAndWait_begin. destruct (expects_reply _).
  - specialize (Hw (ans_io env) id (set_pending (<[SystemID (hdr (with_system_id id m)) := None]> (pending s0)) s0)).
    destruct (writeMessage _ _ _); try done. cbn [sendAndWait_end]. unfold sendAndWait_end.
    by destruct (ans_wait env); repeat case_match.
  - specialize (Hw (ans_io env) id s0). by destruct (writeMessage _ _ _).
Qed.

(** What is read of the variables for the report once the wafer count is stored. *)
Lemma event_body_process eq d now :
  registered eq ->
  event_body (keep (SetSV 1001 (GUint32 d) (vars (handler eq))) (vars (handler eq))) now d 100
    [mkRV 1 [1001; 1002; 1003; 1004]] = process_complete d now.
Proof.
  intros [_ _ (v & Hw) Ht Hp Hs]. unfold SetSV. rewrite Hw. cbn [keep SVID sv_Name sv_Units update].
  unfold event_body, report_item, process_complete, GetSV. cbn [svs rv_VIDs rv_RPTID fmap list_fmap compose].
  rewrite lookup_insert_eq, !lookup_insert_ne by done. by rewrite Ht, Hp, Hs.
Qed.

(** Storing the wafer count keeps what is registered. *)
Lemma registered_wafers eq h c d w v :
  registered eq -> eventMgr h = eventMgr (handler eq) ->
  vars h = keep (SetSV 1001 (GUint32 v) (vars (handler eq))) (vars (handler eq)) ->
  registered (mkEquipment h c d w) /\ forall now, GetSV (vars h) now 1001 = (GUint32 v, true).
Proof.
  intros [He Hrep (v0 & Hw) Ht Hp Hs] Hem Hv. unfold SetSV in Hv. rewrite Hw in Hv. cbn [keep] in Hv. split.
  - split; cbn [handler]; rewrite ?Hem, ?Hv; try done; cbn [svs].
    + eexists. by rewrite lookup_insert_eq.
    + by rewrite lookup_insert_ne.
    + by rewrite lookup_insert_ne.
    + by rewrite lookup_insert_ne.
  - intros now. unfold GetSV. rewrite Hv. cbn [svs]. by rewrite lookup_insert_eq.
Qed.

(** One tick: the counters move together, and what is written, if anything, is the
    report. *)
Record ticked (now : Z) eq eq' : Prop := {
  tk_registered : registered eq';
  tk_state : state (handler eq') = state (handler eq);
  tk_sessionID : GemHandler.sessionID (handler eq') = GemHandler.sessionID (handler eq);
  tk_dataID : dataID eq' = wrap 32 (dataID eq + 1);
  tk_waferCount : waferCount eq' = dataID eq';
  tk_variable : forall t, GetSV (vars (handler eq')) t 1001 = (GUint32 (dataID eq'), true);
  tk_report : exists bs new, Encode (Some (process_complete (dataID eq') now)) = Ok bs
    /\ writes (handler eq) (handler eq') new
    /\ (new = [] \/ exists m, new = [m] /\ is_report (GemHandler.sessionID (handler eq)) 6 11 bs m);
}.

Lemma tick_spec now eq :
  registered eq -> IsCommunicating (state (handler eq)) = true -> dataID eq = waferCount eq ->
  exists eq', eventLoop_tick now eq = Ok eq' /\ ticked now eq eq'.
Proof.
  intros Hr Hc Hd. unfold eventLoop_tick. rewrite Hc, <- Hd. cbn [negb]. set (d := wrap 32 (dataID eq + 1)).
  destruct (process_complete_encodes d now) as (bs & Henc & Hlen).
  set (h1 := set_vars (keep (SetSV 1001 (GUint32 d) (vars (handler eq))) (vars (handler eq))) (handler eq)).
  unfold SendEvent, IsEventEnabled, GetEventReportVIDs. change (eventMgr h1) with (eventMgr (handler eq)).
  rewrite (reg_event eq Hr). cbn [ce_Enabled negb wrap_err ReportIDs collect_reports]. rewrite (reg_report eq Hr).
  cbn [collect_reports RPTID VIDs].
  change (vars h1) with (keep (SetSV 1001 (GUint32 d) (vars (handler eq))) (vars (handler eq))).
  rewrite event_body_process by done. cbn [encode_body]. rewrite Henc. cbn [wrap_err].
  destruct (send_report (GemHandler.sessionID h1) 6 11 bs h1) as (t & Ht & Hw).
  assert (Hret : returns (send (NewDataMessage (GemHandler.sessionID h1) 6 11 true 0 bs) h1).2 = true).
  { unfold send. cbn [send_message session_sender]. unfold world_send.
    pose proof (SendMessage_returns (match answers (session h1) with a :: _ => a | [] => no_answer end)
      (NewDataMessage (GemHandler.sessionID h1) 6 11 true 0 bs) (sess (session h1)) ltac:(cbn [Data NewDataMessage]; lia)) as Hs.
    destruct (SendMessage _ _ _) as [r s]. by destruct r. }
  destruct (send _ h1) as [h' r]. cbn [fst snd] in *.
  assert (Hres : forall h2, vars h2 = vars h1 -> eventMgr h2 = eventMgr (handler eq) -> state h2 = state (handler eq) ->
      GemHandler.sessionID h2 = GemHandler.sessionID (handler eq) -> session h2 = session h' ->
      ticked now eq (mkEquipment h2 (config eq) d d)).
  { intros h2 Hv Hem Hst Hid Hse. destruct (registered_wafers eq h2 (config eq) d d d Hr Hem Hv) as [Hreg Hget].
    split; [exact Hreg | exact Hst | exact Hid | reflexivity | reflexivity | exact Hget |]. exists bs.
    assert (Hwr : forall new, writes h1 h' new -> writes (handler eq) h2 new) by (unfold writes; intros new; by rewrite Hse).
    destruct Hw as [[Hw _]|(m & Hm & Hw)]; [exists [] | exists [m]]; (split; [exact Henc |]); (split; [exact (Hwr _ Hw) |]);
      [left; reflexivity | right; exists m; split; [reflexivity | exact Hm]]. }
  destruct r as [u|e|p|]; [| | discriminate Hret | discriminate Hret]; eexists; (split; [reflexivity |]); apply Hres; by rewrite Ht.
Qed.

(** ** Property *)

(** C31: Whatever the environment does to the sends, the reports of a run of ticks are
    consistent: the data identifier and the wafer count advance by one per tick, and
    what is written is, in order and without repetition, a selection of the expected
    reports, the report of the k-th tick carrying the k-th number in both places and the
    variables of its instant.  Ticks before communication is established do nothing. *)
Theorem events_counted times eq :
  registered eq -> dataID eq = waferCount eq ->
  if IsCommunicating (state (handler eq)) then
    exists eq' new, eventLoop_ticks times eq = Ok eq' /\ registered eq'
      /\ waferCount eq' = dataID eq' /\ (times <> [] -> dataID eq' = wrap 32 (dataID eq + len times))
      /\ (times <> [] -> forall now, GetSV (vars (handler eq')) now 1001 = (GUint32 (dataID eq'), true))
      /\ writes (handler eq) (handler eq') new
      /\ Forall (fun m => exists bs, is_report (GemHandler.sessionID (handler eq)) 6 11 bs m) new
      /\ sublist (Ok ∘ Data <$> new)
           (imap (fun k now => Encode (Some (process_complete (wrap 32 (dataID eq + 1 + Z.of_nat k)) now))) times)
  else eventLoop_ticks times eq = Ok eq.
Proof.
  intros Hr Hd. destruct (IsCommunicating (state (handler eq))) eqn:Hc.
  - revert eq Hr Hd Hc. induction times as [|now times IH]; intros eq Hr Hd Hc.
    { exists eq, []. split_and!; try done. unfold writes. by rewrite app_nil_r. }
    destruct (tick_spec now eq Hr Hc Hd) as (eq1 & Htick & [Hr1 Hc1 Hid1 Hd1 Hw1 Hg1 (bs & new1 & Henc & Hwr1 & Hnew1)]).
    destruct (IH eq1 Hr1 (eq_sym Hw1) (eq_trans (f_equal IsCommunicating Hc1) Hc)) as (eq2 & new2 & Hts & Hr2 & Hw2 & Hd2 & Hg2 & Hwr2 & Hf2 & Hsub).
    rewrite Hid1 in Hf2. rewrite Hd1 in Henc, Hd2, Hsub.
    exists eq2, (new1 ++ new2). cbn [eventLoop_ticks]. rewrite Htick. cbn [mbind result_bind].
    assert (Hlast : dataID eq2 = wrap 32 (dataID eq + len (now :: times)) /\ forall t, GetSV (vars (handler eq2)) t 1001 = (GUint32 (dataID eq2), true)).
    { rewrite len_cons. destruct times as [|now' times].
      - cbn in Hts. apply Ok_inj in Hts as <-. rewrite Hd1. split; [f_equal; unfold len; simpl; lia |]. rewrite <- Hd1. exact Hg1.
      - split; [| by apply Hg2]. rewrite Hd2 by done. unfold wrap. rewrite Zplus_mod_idemp_l. f_equal. lia. }
    destruct Hlast as [Hl1 Hl2]. split_and!; [exact Hts | exact Hr2 | exact Hw2 | intros _; exact Hl1 | intros _; exact Hl2 | | |].
    + unfold writes in *. by rewrite Hwr2, Hwr1, app_assoc.
    + apply Forall_app. split; [| exact Hf2]. destruct Hnew1 as [->|(m & -> & Hm)]; [constructor | constructor; [by exists bs | constructor]].
    + rewrite fmap_app. cbn [imap].
      assert (Htl : sublist (Ok ∘ Data <$> new2)
          (imap ((fun k t => Encode (Some (process_complete (wrap 32 (dataID eq + 1 + Z.of_nat k)) t))) ∘ S) times)).
      { assert (Hk : forall k, wrap 32 (dataID eq + 1 + Z.of_nat (S k)) = wrap 32 (wrap 32 (dataID eq + 1) + 1 + Z.of_nat k)).
        { intros k. unfold wrap. rewrite <- (Z.add_assoc ((dataID eq + 1) mod _) 1), Zplus_mod_idemp_l.
          f_equal. lia. }
        erewrite imap_ext; [exact Hsub |]. intros k t _. cbn [compose]. by rewrite Hk. }
      destruct Hnew1 as [->|(m & -> & Hm)]; [by apply sublist_cons |]. cbn [fmap list_fmap app].
      replace (dataID eq + 1 + Z.of_nat 0) with (dataID eq + 1) by lia. rewrite Henc. destruct Hm as (_ & _ & _ & _ & _ & Hdata).
      cbn. rewrite Hdata. apply sublist_skip; exact Htl.
  - assert (Ht : forall now, eventLoop_tick now eq = Ok eq) by (intros now; unfold eventLoop_tick; by rewrite Hc).
    induction times as [|now times IH]; [done |]. cbn [eventLoop_ticks]. by rewrite Ht.
Qed.
End simulator.

(** A communicating simulator whose host takes every report but the second. *)
Lemma events_counted_witness :
  let rand := fun _ => f64_of_Z 0 in
  let eq0 := NewEquipment rand DefaultEquipmentConfig in
  let s := set_conn (Some true) (HsmsSession.set_state StateSelected (session_of eq0)) in
  let ok := mkAnswer true TimedOut None in
  let sm := (handleS1F13 "" "" (state (handler eq0))).2 in
  let eq := set_handler (set_session (mkWorld s [ok; no_answer; ok]) (GemHandler.set_state sm (handler eq0))) eq0 in
  registered rand eq /\ dataID eq = waferCount eq
  /\ exists eq', eventLoop_ticks [10; 20; 30] eq = Ok eq' /\ dataID eq' = 3 /\ waferCount eq' = 3.
Proof.
  intros rand eq0 s ok sm eq. assert (Hr : registered rand eq) by (split; try reflexivity; by eexists).
  split; [exact Hr |]. split; [reflexivity |].
  pose proof (events_counted rand [10; 20; 30] eq Hr eq_refl) as He. change (IsCommunicating (state (handler eq))) with true in He.
  destruct He as (eq' & _ & Hts & _ & Hw & Hd & _). exists eq'. split; [exact Hts |].
  assert (H3 : dataID eq' = 3) by (rewrite Hd by discriminate; vm_compute; reflexivity). split; [exact H3 | congruence].
Defined.
