(* ===== verification/Host.v ===== *)
(** * The simulated host

    [src/pkg/simulator/host.go]: the host a scenario is run from.  It encodes a request,
    sends it through a session and decodes the reply, and tells an interceptor what it
    sent and received with the verdict of the validator.

    [Link] closes the loop: a host session and the equipment of [Simulator] with the
    bytes the one writes given to the other, so that the client's theorems are about
    both programs together. *)

From stdpp Require Import prelude gmap strings list.
From Stdlib Require Import ZArith Lia Floats.SpecFloat.
From S2P Require Import Prelude Lifecycle Secs2Item Secs2Codec HsmsMessage Transport Policy HsmsSession HsmsProtocol.
From S2P Require Import GemState GemVariables GemEvents GemAlarms GemCommands GemHandler GemSafety Schema Conformance.
From S2P Require Import Reconnect Simulator.

#[local] Open Scope Z_scope.

Inductive Flow := DirTX | DirRX.

(** One call of the interceptor. *)
Record interception := mkInterception {
  i_dir : Flow;
  i_stream : Z;
  i_function : Z;
  i_body : option item;
  i_results : list ValidationResult;
}.

(** [intercept] holds the calls of the interceptor that is set, oldest first. *)
Record Host (T : Type) := mkHost {
  session : T;
  sessionID : Z;
  schemas : SchemaRegistry;
  intercept : option (list interception);
}.

Arguments mkHost {T}. Arguments session {T}. Arguments sessionID {T}. Arguments schemas {T}. Arguments intercept {T}.

Inductive host_error :=
| ConnectFailed (e : send_error)
| SelectFailed (e : select_error)
| EncodeFailed (e : encode_error)
| ValidateFailed (e : access_error)
| SendFailed (e : send_error)
| DecodeFailed (e : decode_error).

(** The configuration of the host's session. *)
Definition host_config (addr : string) (sid : Z) : Config :=
  let c := DefaultConfig addr RoleActive sid in
  mkConfig (Address c) (cfg_Role c) (cfg_SessionID c) (T3 c) (T5 c) (T6 c) (T7 c) (T8 c) 0 (TLS c)
    (AllowedPeers c) (MaxConnections c) (MaxMessageRate c) (MaxMessageSize c) (SessionTTL c).

Definition NewHost (addr : string) (sid : Z) : Host Session :=
  mkHost (NewSession (host_config addr sid)) sid DefaultRegistry None.

Section host.
Context {T : Type}.
Implicit Types h : Host T.

Definition SetInterceptor (on : bool) h : Host T :=
  mkHost (session h) (sessionID h) (schemas h) (if on then Some (default [] (intercept h)) else None).

Definition set_session (t : T) h : Host T := mkHost t (sessionID h) (schemas h) (intercept h).

Definition record (i : interception) h : Host T :=
  mkHost (session h) (sessionID h) (schemas h) ((fun calls => calls ++ [i]) <$> intercept h).

(** [if h.intercept != nil { results := ...; h.intercept(...) }] *)
Definition intercepted (dir : Flow) (stream function : Z) (body : option item) h : result host_error (Host T) :=
  match intercept h with
  | None => Ok h
  | Some _ =>
      results ← wrap_err ValidateFailed (ValidateMessage (schemas h) stream function body);
      Ok (record (mkInterception dir stream function body results) h)
  end.

Definition encode_request (body : option item) : result host_error (list Z) :=
  match body with None => Ok [] | Some _ => wrap_err EncodeFailed (Encode body) end.

(** What [sendAndValidate] makes of the reply. *)
Definition take_reply (stream function : Z) (reply : option Message) h : result host_error (option item * Host T) :=
  match reply with
  | Some m =>
      if len (Data m) =? 0 then Ok (None, record (mkInterception DirRX stream function None []) h)
      else
        it ← wrap_err DecodeFailed (Decode (Data m));
        h ← intercepted DirRX stream function (Some it) h;
        Ok (Some it, h)
  | None => Ok (None, record (mkInterception DirRX stream function None []) h)
  end.

Context `{!Sender T}.

(** The result, and the host after a failure too. *)
Definition sendAndValidate (stream function : Z) (wbit : bool) (body : option item) h
  : result host_error (option item) * Host T :=
  match (data ← encode_request body; h ← intercepted DirTX stream function body h; Ok (data, h)) with
  | Ok (data, h) =>
      let '(r, t) := send_message (NewDataMessage (sessionID h) stream function wbit 0 data) (session h) in
      let h := set_session t h in
      match (reply ← wrap_err SendFailed r; take_reply stream (wrap 8 (function + 1)) reply h) with
      | Ok (it, h) => (Ok it, h)
      | Err e => (Err e, h)
      | Panic p => (Panic p, h)
      | OutOfFuel => (OutOfFuel, h)
      end
  | Err e => (Err e, h)
  | Panic p => (Panic p, h)
  | OutOfFuel => (OutOfFuel, h)
  end.

Definition host_identification : item := NewList [Some (NewASCII "HOST"); Some (NewASCII "1.0.0")].

Definition EstablishComm h := sendAndValidate 1 13 true (Some host_identification) h.
Definition AreYouThere h := sendAndValidate 1 1 true None h.
Definition RequestOnline h := sendAndValidate 1 17 true None h.
Definition RequestOffline h := sendAndValidate 1 15 true None h.
Definition GetSVs (svids : list Z) h := sendAndValidate 1 3 true (Some (NewList ((fun id => Some (NewU4 [id])) <$> svids))) h.

Definition rcmd_body `{!MapOrder string} (cmd : string) (params : gmap string string) : item :=
  NewList [Some (NewASCII cmd);
    Some (NewList ((fun kv => Some (NewList [Some (NewASCII kv.1); Some (NewASCII kv.2)])) <$> range_map params))].

Definition SendRCMD `{!MapOrder string} (cmd : string) (params : gmap string string) h :=
  sendAndValidate 2 41 true (Some (rcmd_body cmd params)) h.

Definition SendRaw (stream function : Z) (wbit : bool) (body : option item) h := sendAndValidate stream function wbit body h.
End host.

(** The connection: the two calls of the session, which has no TLS. *)
Definition Connect (dial : bool) (env : HsmsSession.answer) (h : Host Session) : result host_error () * Host Session :=
  match HsmsSession.Connect dial true (session h) with
  | (Ok _, s) => let '(r, s) := Select env s in (wrap_err SelectFailed r, set_session s h)
  | (Err e, s) => (Err (ConnectFailed e), set_session s h)
  | (Panic p, s) => (Panic p, set_session s h)
  | (OutOfFuel, s) => (OutOfFuel, set_session s h)
  end.

Definition Close (h : Host Session) : Host Session := set_session (HsmsSession.Close (session h)) h.

Definition ReceiveMessage (h : Host Session) : option (Message * Host Session) :=
  '(m, s) ← HsmsSession.ReceiveMessage (session h); Some (m, set_session s h).

(** ** Both ends *)

Record Link := mkLink { near : Session; far : Equipment }.

Section link.
Context `{!MapOrder Z} (now : Z).

(** The bytes a session has written since it was [s]. *)
Definition transmitted (s s' : Session) : list Z := mjoin (drop (length (out s)) (out s')).*2.

Definition good : HsmsSession.answer := mkAnswer true TimedOut None.

(** The equipment reads [bytes] and handles the message; its socket takes the answer. *)
Definition equipment_step (bytes : list Z) (eq : Equipment) : result handler_error Equipment :=
  let s := (readLoop_round true true bytes (session_of eq)).1 in
  let eq := set_handler (GemHandler.set_session (mkWorld s [good]) (handler eq)) eq in
  default (Ok eq) (messageLoop_round now eq).

(** What the host's reader puts in the channel of the transaction [id]. *)
Definition deliver_reply (bytes : list Z) (id : Z) (s : Session) : option Message :=
  let s := (readLoop_round true true bytes (set_pending (<[id := None]> (pending s)) s)).1 in
  mjoin (pending s !! id).

(** What the wait for the message sent as [sent] in [bytes] ends with, and the equipment
    afterwards; a panic is the end of the other program. *)
Definition exchange (sent : Message) (bytes : list Z) (l : Link) : option Message * Equipment :=
  match equipment_step bytes (far l) with
  | Ok eq => (deliver_reply (transmitted (session_of (far l)) (session_of eq)) (SystemID (hdr sent)) (near l), eq)
  | _ => (None, far l)
  end.

Definition link_send (m : Message) (l : Link) : result send_error (option Message) * Link :=
  let '(reply, eq) :=
    match drop (length (out (near l))) (out (SendMessage good m (near l)).2) with
    | (sent, bytes) :: _ => exchange sent bytes l
    | [] => (None, far l)
    end in
  let env := mkAnswer true (if reply then GotReply else TimedOut) reply in
  let '(r, s) := SendMessage env m (near l) in (r, mkLink s eq).

#[export] Program Instance link_sender : Sender Link :=
  {| send_message := link_send; written := fun l => (out (near l)).*1 |}.
Next Obligation.
  intros m l. unfold link_send. destruct (match drop _ _ with [] => _ | p :: _ => _ end) as [reply eq].
  set (env := mkAnswer _ _ _). pose proof (SendMessage_effect env m (near l)) as He.
  destruct (SendMessage env m (near l)) as [r s]. destruct He as [[[Ho Hr]|(id & data & Ho & _ & Hid & _)] _]; simpl.
  - left. by rewrite Ho.
  - right. exists id. rewrite Ho, fmap_app. by split.
Qed.
End link.

(** ** Lemmas *)

(** A session that is selected and waits for nothing. *)
Record open (s : Session) : Prop := {
  op_state : HsmsSession.state s = StateSelected;
  op_conn : conn s = Some true;
  op_pending : pending s = ∅;
}.

Record connected (n : Z) (l : Link) : Prop := {
  cn_near : open (near l);
  cn_far : open (session_of (far l));
  cn_number : nextSystemID (near l) = n;
  cn_bound : 0 <= n < 2 ^ 32 - 1;
  cn_inbound : inbound (session_of (far l)) = [];
}.

(** The session once [m] is written as [frame]. *)
Definition wrote (m : Message) (frame : list Z) (s : Session) : Session :=
  mkSession (HsmsSession.config s) (HsmsSession.state s) (conn s) (out s ++ [(m, frame)]) (nextSystemID s) (pending s) (inbound s) (closed s) (audit s).

Lemma open_wrote m frame s : open s -> open (wrote m frame s).
Proof. intros []. by split. Qed.

Lemma write_open m s : open s -> message_ok m = true ->
  exists frame, MarshalBinary m = Ok frame /\ writeMessage true m s = Ok (wrote m frame s).
Proof.
  intros [_ Hc _] Hm. unfold message_ok in Hm. rewrite !andb_true_iff, Z.ltb_lt in Hm.
  eexists. split; [apply marshal_frame, Hm |]. unfold writeMessage. rewrite marshal_frame by apply Hm. rewrite Hc. unfold wrote. by rewrite Hc.
Qed.

(** A request from an open session: it takes the next number. *)
Lemma request_open m s n (reply : option Message) :
  open s -> nextSystemID s = n -> 0 <= n < 2 ^ 32 - 1 -> SystemID (hdr m) = 0 ->
  SType (hdr m) = STypeDataMessage -> WBit (hdr m) = true -> Z.odd (Function (hdr m)) = true ->
  message_ok (with_system_id (n + 1) m) = true ->
  exists frame s', MarshalBinary (with_system_id (n + 1) m) = Ok frame
    /\ SendMessage (mkAnswer true (if reply then GotReply else TimedOut) reply) m s
       = (match reply with Some r => Ok (Some r) | None => Err (ReplyTimeout (n + 1)) end, s')
    /\ out s' = out s ++ [(with_system_id (n + 1) m, frame)] /\ open s' /\ nextSystemID s' = n + 1
    /\ HsmsSession.config s' = HsmsSession.config s.
Proof.
  intros Ho Hn Hb Hid Ht Hw Hodd Hm. pose proof Ho as [Hs Hc Hp].
  unfold SendMessage. rewrite bool_decide_eq_false_2 by (intros Hne; by destruct Hne). cbn [andb].
  rewrite Hid. change (0 =? 0) with true. cbv iota. unfold next_id. rewrite Hn, wrap_small by lia. cbv zeta.
  set (s0 := mkSession _ _ _ _ _ _ _ _ _). assert (Hex : expects_reply (with_system_id (n + 1) m) = true).
  { unfold expects_reply. cbn [with_system_id hdr SType WBit Function]. rewrite Ht, Hw.
    change (STypeDataMessage =? STypeDataMessage) with true. rewrite Zmod_odd, Hodd. apply orb_true_r. }
  rewrite Hex. unfold sendAndWait_begin. cbn [ans_io ans_wait ans_reply with_system_id hdr SystemID].
  set (s1 := set_pending _ s0).
  unfold message_ok in Hm. rewrite !andb_true_iff, Z.ltb_lt in Hm.
  exists (be_bytes 4 (10 + len (Data m)) ++ header_bytes (hdr (with_system_id (n + 1) m)) ++ Data m).
  unfold writeMessage. fold (with_system_id (n + 1) m). rewrite (marshal_frame (with_system_id (n + 1) m)) by apply Hm.
  change (conn s1) with (conn s). rewrite Hc. cbn [andb]. unfold sendAndWait_end. cbn [set_pending pending].
  rewrite !lookup_insert_eq. eexists. split; [done |]. split; [by destruct reply |].
  split; [done |]. split; [| by split]. split; try done. cbn. apply map_eq. intros k. rewrite Hp.
  destruct (decide (k = n + 1)) as [->|Hk]; [by rewrite lookup_delete_eq |].
  by rewrite lookup_delete_ne, !lookup_insert_ne.
Qed.

Lemma on_wire_small m : Stream (hdr m) < 128 -> message_ok m = true -> on_wire m = m.
Proof.
  intros Hs Hm. destruct (MarshalBinary m) as [frame| | |] eqn:Hf.
  - exact (proj2 (marshal_unmarshal m frame [] Hm Hf) Hs).
  - unfold message_ok in Hm. rewrite !andb_true_iff, Z.ltb_lt in Hm. rewrite marshal_frame in Hf by apply Hm. done.
  - unfold message_ok in Hm. rewrite !andb_true_iff, Z.ltb_lt in Hm. rewrite marshal_frame in Hf by apply Hm. done.
  - unfold message_ok in Hm. rewrite !andb_true_iff, Z.ltb_lt in Hm. rewrite marshal_frame in Hf by apply Hm. done.
Qed.

(** One frame on the stream is one message handled. *)
Lemma round_frame m frame s :
  frame_ok (HsmsSession.config s) m -> Stream (hdr m) < 128 -> MarshalBinary m = Ok frame ->
  readLoop_round true true frame s = (HsmsSession.handleMessage true m s, []).
Proof.
  intros Hf Hs Hm. destruct (read_frame _ m [] Hf) as (f & Hmf & Hr). rewrite Hm in Hmf. apply Ok_inj in Hmf as <-.
  rewrite app_nil_r in Hr. unfold readLoop_round. rewrite Hr. cbn [negb]. by rewrite on_wire_small by (done || apply Hf).
Qed.

(** The data of a request in the queue of an open session, and the queue read. *)
Lemma enqueue_dequeue m s :
  open s -> inbound s = [] -> SType (hdr m) = STypeDataMessage ->
  HsmsSession.ReceiveMessage (HsmsSession.handleMessage true m s) = Some (m, s).
Proof.
  intros [Hs _ Hp] Hi Ht. unfold HsmsSession.handleMessage. rewrite Hp, lookup_empty, Ht.
  change (STypeDataMessage =? STypeDataMessage) with true. cbv iota. rewrite decide_False by (intros Hne; by destruct Hne).
  rewrite Hi. change (len (A:=Message) [] <? inboundCap) with true. cbv iota. cbn. do 2 f_equal.
  rewrite <- Hi. by destruct s.
Qed.

(** A frame of the pending transaction is its reply. *)
Lemma deliver_frame m frame s :
  frame_ok (HsmsSession.config s) m -> Stream (hdr m) < 128 -> MarshalBinary m = Ok frame ->
  deliver_reply frame (SystemID (hdr m)) s = Some m.
Proof.
  intros Hf Hs Hm. unfold deliver_reply. rewrite (round_frame m frame (set_pending _ s)) by done. cbn [fst].
  unfold HsmsSession.handleMessage. cbn [set_pending pending]. rewrite lookup_insert_eq. cbn. by rewrite lookup_insert_eq.
Qed.

Lemma transmitted_wrote m frame s : transmitted s (wrote m frame s) = frame.
Proof. unfold transmitted. cbn [wrote out]. rewrite drop_app_length. cbn. apply app_nil_r. Qed.

Lemma transmitted_same s : transmitted s s = [].
Proof. unfold transmitted. by rewrite drop_all. Qed.

Section both_ends.
Context `{!MapOrder Z} (now : Z).
Implicit Types l : Link.

(** The handler over the session of the link, its socket open. *)
Definition served (eq : Equipment) : Handler World := GemHandler.set_session (mkWorld (session_of eq) [good]) (handler eq).

Lemma equipment_reads m frame eq :
  open (session_of eq) -> inbound (session_of eq) = [] -> frame_ok (HsmsSession.config (session_of eq)) m ->
  Stream (hdr m) < 128 -> SType (hdr m) = STypeDataMessage -> MarshalBinary m = Ok frame ->
  equipment_step now frame eq
  = match HandleMessage now m (served eq) with
    | (_, Panic p) => Panic p
    | (_, OutOfFuel) => OutOfFuel
    | (h, _) => Ok (set_handler h eq)
    end.
Proof.
  intros Ho Hi Hf Hs Ht Hm. unfold equipment_step. rewrite (round_frame m frame) by done. cbn [fst].
  unfold messageLoop_round. change (session_of (set_handler _ eq)) with (HsmsSession.handleMessage true m (session_of eq)).
  rewrite enqueue_dequeue by done. cbn [mbind option_bind default]. unfold served.
  unfold with_session. cbn [handler set_handler GemHandler.session GemHandler.set_session sess answers config dataID waferCount].
  by destruct (HandleMessage _ _ _) as [h' [| | |]].
Qed.

(** The reply of a handler whose socket is open. *)
Lemma reply_written (eq : Equipment) h req f body d :
  GemHandler.session h = mkWorld (session_of eq) [good] -> open (session_of eq) ->
  encode_body body = Ok d -> SystemID (hdr req) <> 0 ->
  let reply := NewDataMessage (SessionID (hdr req)) (Stream (hdr req)) f false (SystemID (hdr req)) d in
  message_ok reply = true ->
  exists frame, MarshalBinary reply = Ok frame
    /\ sendReply req (Stream (hdr req)) f body h
       = (GemHandler.set_session (mkWorld (wrote reply frame (session_of eq)) []) h, Ok ()).
Proof.
  intros Hse Ho He Hid reply Hm. destruct (write_open reply (session_of eq) Ho Hm) as (frame & Hf & Hw).
  exists frame. split; [done |]. unfold sendReply. rewrite He. fold reply. unfold send. rewrite Hse.
  cbn [send_message session_sender]. unfold world_send. cbn [answers sess tail]. unfold SendMessage.
  pose proof Ho as [Hs _ _]. rewrite bool_decide_eq_false_2 by (intros Hne; by destruct Hne). cbn [andb].
  rewrite (proj2 (Z.eqb_neq (SystemID (hdr reply)) 0)) by done. cbv iota.
  change (expects_reply reply) with false. cbv iota. change (ans_io good) with true. by rewrite Hw.
Qed.

(** A handler does not look at its session to find the reply. *)
Lemma builtin_any_session (t : World) msg h :
  builtin now msg (GemHandler.set_session t h)
  = match builtin now msg h with
    | Some (Ok (it, h')) => Some (Ok (it, GemHandler.set_session t h'))
    | r => r
    end.
Proof.
  unfold builtin, reading, and_then.
  repeat match goal with |- context [if ?b then _ else _] => destruct b end; try done;
    cbn [GemHandler.set_session GemHandler.vars GemHandler.eventMgr GemHandler.alarmMgr GemHandler.commandMgr GemHandler.state GemHandler.mdln GemHandler.softrev];
    match goal with |- context [mbind _ ?m] => destruct m as [x| | |]; try done end; by destruct x.
Qed.

(** A request the equipment answers with one message, end to end. *)
Lemma link_answered n l m reply frame h' :
  connected n l -> SystemID (hdr m) = 0 -> SType (hdr m) = STypeDataMessage -> WBit (hdr m) = true ->
  Z.odd (Function (hdr m)) = true -> Stream (hdr m) < 128 ->
  frame_ok (HsmsSession.config (session_of (far l))) (with_system_id (n + 1) m) ->
  HandleMessage now (with_system_id (n + 1) m) (served (far l))
  = (GemHandler.set_session (mkWorld (wrote reply frame (session_of (far l))) []) h', Ok ()) ->
  MarshalBinary reply = Ok frame -> frame_ok (HsmsSession.config (near l)) reply ->
  Stream (hdr reply) < 128 -> SystemID (hdr reply) = n + 1 ->
  exists s', link_send now m l
      = (Ok (Some reply), mkLink s' (set_handler (GemHandler.set_session (mkWorld (wrote reply frame (session_of (far l))) []) h') (far l)))
    /\ open s' /\ nextSystemID s' = n + 1 /\ HsmsSession.config s' = HsmsSession.config (near l).
Proof.
  intros [Hno Hfo Hn Hb Hin] Hid Ht Hw Hodd Hs Hf Hh Hm Hrf Hrs Hrid.
  destruct (request_open m (near l) n None Hno Hn Hb Hid Ht Hw Hodd (proj1 Hf)) as (fr & s0 & Hfr & Hsend0 & Hout & _).
  destruct (request_open m (near l) n (Some reply) Hno Hn Hb Hid Ht Hw Hodd (proj1 Hf)) as (fr' & s' & Hfr' & Hsend & _ & Ho' & Hn' & Hc').
  exists s'. split; [| by split_and!]. unfold link_send. change good with (mkAnswer true TimedOut None). cbv iota in Hsend0.
  rewrite Hsend0. cbn [snd]. rewrite Hout, drop_app_length. unfold exchange.
  rewrite (equipment_reads (with_system_id (n + 1) m) fr (far l)) by done. rewrite Hh.
  change (session_of (set_handler (GemHandler.set_session (mkWorld ?s _) _) _)) with s.
  rewrite transmitted_wrote. cbn [with_system_id hdr SystemID]. rewrite <- Hrid, (deliver_frame reply) by done.
  by rewrite Hsend.
Qed.

(** A request the equipment does not answer: the wait runs into its time-out. *)
Lemma link_silent n l m h' :
  connected n l -> SystemID (hdr m) = 0 -> SType (hdr m) = STypeDataMessage -> WBit (hdr m) = true ->
  Z.odd (Function (hdr m)) = true -> Stream (hdr m) < 128 ->
  frame_ok (HsmsSession.config (session_of (far l))) (with_system_id (n + 1) m) ->
  HandleMessage now (with_system_id (n + 1) m) (served (far l)) = (h', Ok ()) -> sess (GemHandler.session h') = session_of (far l) ->
  exists s', link_send now m l = (Err (ReplyTimeout (n + 1)), mkLink s' (set_handler h' (far l)))
    /\ open s' /\ nextSystemID s' = n + 1 /\ HsmsSession.config s' = HsmsSession.config (near l).
Proof.
  intros [Hno Hfo Hn Hb Hin] Hid Ht Hw Hodd Hs Hf Hh Hse.
  destruct (request_open m (near l) n None Hno Hn Hb Hid Ht Hw Hodd (proj1 Hf)) as (fr & s' & Hfr & Hsend & Hout & Ho' & Hn' & Hc').
  exists s'. split; [| by split_and!]. unfold link_send. change good with (mkAnswer true TimedOut None). cbv iota in Hsend.
  rewrite Hsend. cbn [snd]. rewrite Hout, drop_app_length. unfold exchange.
  rewrite (equipment_reads (with_system_id (n + 1) m) fr (far l)) by done. rewrite Hh.
  change (session_of (set_handler h' _)) with (sess (GemHandler.session h')). rewrite Hse, transmitted_same.
  assert (Hd : forall id s, deliver_reply [] id s = None).
  { intros id s. unfold deliver_reply. change (readLoop_round true true [] ?s).1 with (HsmsSession.Close s).
    assert (Hp : forall s0, pending (HsmsSession.Close s0) = pending s0) by (intros s0; unfold HsmsSession.Close; by destruct (closed s0)).
    rewrite Hp. cbn [set_pending pending]. by rewrite lookup_insert_eq. }
  by rewrite Hd, Hsend.
Qed.

Lemma validate_total r s f body :
  (forall it, body = Some it -> well_formed it = true) -> exists rs, ValidateMessage r s f body = Ok rs.
Proof.
  intros Hb. unfold ValidateMessage. destruct (Get r s f) as [ms|]; [| by eexists].
  destruct (ms_Body ms) as [sch|], body as [it|]; try by eexists.
  - destruct (validateItem_ok sch it "" (Hb it eq_refl)) as (rs & -> & _). by eexists.
  - rewrite (Len_ok it (Hb it eq_refl)). cbn [mbind result_bind]. case_match; by eexists.
Qed.

Lemma intercepted_ok dir s f body rs (h : Host Link) :
  ValidateMessage (schemas h) s f body = Ok rs ->
  intercepted dir s f body h = Ok (record (mkInterception dir s f body rs) h).
Proof. intros Hv. unfold intercepted. rewrite Hv. by destruct h as [? ? ? []]. Qed.

Lemma encoded_nonempty it d : well_formed it = true -> Encode (Some it) = Ok d -> Decode d = Ok (normalize it) /\ (len d =? 0) = false.
Proof.
  intros Hwf He. destruct (well_formed_encode it Hwf) as (d' & He' & _ & Hdec). rewrite He in He'. apply Ok_inj in He' as <-.
  split; [done |]. by destruct d.
Qed.

(** The request [s], [f] of a host as it is on the wire, and its reply. *)
Definition request (sid s f id : Z) (data : list Z) : Message := with_system_id id (NewDataMessage sid s f true 0 data).
Definition reply_to (sid s f id : Z) (data : list Z) : Message := NewDataMessage sid s (wrap 8 (f + 1)) false id data.

Lemma handle_answers eq sid s f id data it hd d :
  open (session_of eq) -> id <> 0 -> IsAllowed (policy (handler eq)) s f = true -> customHandlers (handler eq) !! (s, f) = None ->
  builtin now (request sid s f id data) (handler eq) = Some (Ok (it, hd)) -> Encode (Some it) = Ok d ->
  message_ok (reply_to sid s f id d) = true ->
  exists frame, MarshalBinary (reply_to sid s f id d) = Ok frame
    /\ HandleMessage now (request sid s f id data) (served eq)
       = (GemHandler.set_session (mkWorld (wrote (reply_to sid s f id d) frame (session_of eq)) []) hd, Ok ()).
Proof.
  intros Ho Hid Hpol Hcu Hb He Hm.
  assert (Hbs : builtin now (request sid s f id data) (served eq) = Some (Ok (it, GemHandler.set_session (mkWorld (session_of eq) [good]) hd)))
    by (unfold served; by rewrite builtin_any_session, Hb).
  destruct (reply_written eq (GemHandler.set_session (mkWorld (session_of eq) [good]) hd) (request sid s f id data)
    (wrap 8 (f + 1)) (Some it) d eq_refl Ho ltac:(by rewrite <- (wrap_err_ok EncodeReply) in He) Hid Hm) as (frame & Hf & Hs).
  exists frame. split; [exact Hf |]. unfold HandleMessage. change (IsControlMessage (request sid s f id data)) with false. cbv iota.
  change (policy (served eq)) with (policy (handler eq)). change (customHandlers (served eq)) with (customHandlers (handler eq)).
  change (Stream (hdr (request sid s f id data))) with s. change (Function (hdr (request sid s f id data))) with f.
  rewrite Hpol. cbn [negb]. rewrite Hcu, Hbs. unfold answer. cbv iota. exact Hs.
Qed.

Lemma conversation_lemma n (h : Host Link) s f body data it hd :
  connected n (session h) -> 0 <= s < 128 -> Z.odd f = true ->
  (forall b, body = Some b -> well_formed b = true) -> encode_request body = Ok data ->
  frame_ok (HsmsSession.config (session_of (far (session h)))) (request (sessionID h) s f (n + 1) data) ->
  IsAllowed (policy (handler (far (session h)))) s f = true -> customHandlers (handler (far (session h))) !! (s, f) = None ->
  builtin now (request (sessionID h) s f (n + 1) data) (handler (far (session h))) = Some (Ok (it, hd)) ->
  well_formed it = true ->
  (forall d, Encode (Some it) = Ok d -> frame_ok (HsmsSession.config (near (session h))) (reply_to (sessionID h) s f (n + 1) d)) ->
  exists l' tx rx,
    sendAndValidate (Sender0:=link_sender now) s f true body h
    = (Ok (Some (normalize it)),
       mkHost l' (sessionID h) (schemas h)
         ((fun calls => calls ++ [mkInterception DirTX s f body tx; mkInterception DirRX s (wrap 8 (f + 1)) (Some (normalize it)) rx])
          <$> intercept h))
    /\ handler (far l') = GemHandler.set_session (GemHandler.session (handler (far l'))) hd
    /\ (n + 1 < 2 ^ 32 - 1 -> connected (n + 1) l')
    /\ HsmsSession.config (near l') = HsmsSession.config (near (session h))
    /\ HsmsSession.config (session_of (far l')) = HsmsSession.config (session_of (far (session h)))
    /\ (statuses_ok (commandMgr (handler (far (session h)))) -> schemas h = DefaultRegistry -> MaxLevel rx = LevelPass).
Proof.
  intros Hc Hs Hodd Hbody Hdata Hreq Hpol Hcu Hb Hwf Hrep. set (l := session h) in *.
  destruct (well_formed_encode it Hwf) as (d & He & _). destruct (encoded_nonempty it d Hwf He) as [Hdec Hne].
  pose proof Hc as [_ Hfo Hn Hbd Hin]. specialize (Hrep d He).
  destruct (handle_answers (far l) (sessionID h) s f (n + 1) data it hd d Hfo ltac:(lia) Hpol Hcu Hb He (proj1 Hrep)) as (frame & Hf & Hh).
  destruct (link_answered n l (NewDataMessage (sessionID h) s f true 0 data) (reply_to (sessionID h) s f (n + 1) d) frame hd)
    as (s' & Hsend & Ho' & Hn' & Hc'); try done; [apply Hs | apply Hs |].
  destruct (validate_total (schemas h) s f body Hbody) as [tx Htx].
  destruct (validate_total (schemas h) s (wrap 8 (f + 1)) (Some (normalize it))) as [rx Hrx]; [intros ? [= <-]; by apply normalize_wf |].
  set (far' := set_handler (GemHandler.set_session (mkWorld (wrote (reply_to (sessionID h) s f (n + 1) d) frame (session_of (far l))) []) hd) (far l)) in *.
  exists (mkLink s' far'), tx, rx. split; [| split; [done | split; [| split; [exact Hc' | split; [done |]]]]].
  - unfold sendAndValidate. rewrite Hdata. cbn [mbind result_bind]. rewrite (intercepted_ok _ _ _ _ tx) by done.
    cbn [mbind result_bind send_message link_sender]. change (session (record _ h)) with l. change (sessionID (record _ h)) with (sessionID h).
    rewrite Hsend. cbn [wrap_err mbind result_bind take_reply]. cbn [reply_to NewDataMessage Data]. rewrite Hne, Hdec.
    cbn [wrap_err mbind result_bind]. rewrite (intercepted_ok _ _ _ _ rx) by done. cbn [mbind result_bind].
    unfold record, set_session. cbn. destruct (intercept h) as [calls|]; [| done]. cbn. by rewrite <- app_assoc.
  - intros Hlt. split; try done; [by apply open_wrote | lia].
  - intros Hst Hreg. rewrite Hreg in Hrx. pose proof (builtin_passes now _ _ _ _ Hst Hb) as Hp.
    apply (passes_normalize _ _ _ Hwf) in Hp as (rs & Hrs & Hl). 
    change (ValidateMessage DefaultRegistry s (wrap 8 (f + 1)) (Some (normalize it)) = Ok rs) in Hrs. rewrite Hrs in Hrx. by apply Ok_inj in Hrx as <-.
Qed.

(** ** Properties *)

(** C6: A conversation end to end: what a host asks of a connected piece of equipment,
    under a policy that permits it, is answered with the item the built-in handler
    makes, after both have been encoded, framed, read and decoded; the equipment is in
    the state the handler left, the connection is ready for the next request, and the
    interceptor has seen the request and then the reply, which passes validation under
    the standard schemas. *)
Theorem conversation n (h : Host Link) s f body data it hd :
  connected n (session h) -> 0 <= s < 128 -> Z.odd f = true ->
  (forall b, body = Some b -> well_formed b = true) -> encode_request body = Ok data ->
  frame_ok (HsmsSession.config (session_of (far (session h)))) (request (sessionID h) s f (n + 1) data) ->
  IsAllowed (policy (handler (far (session h)))) s f = true -> customHandlers (handler (far (session h))) !! (s, f) = None ->
  builtin now (request (sessionID h) s f (n + 1) data) (handler (far (session h))) = Some (Ok (it, hd)) ->
  well_formed it = true ->
  (forall d, Encode (Some it) = Ok d -> frame_ok (HsmsSession.config (near (session h))) (reply_to (sessionID h) s f (n + 1) d)) ->
  exists l' tx rx,
    sendAndValidate (Sender0:=link_sender now) s f true body h
    = (Ok (Some (normalize it)),
       mkHost l' (sessionID h) (schemas h)
         ((fun calls => calls ++ [mkInterception DirTX s f body tx; mkInterception DirRX s (wrap 8 (f + 1)) (Some (normalize it)) rx])
          <$> intercept h))
    /\ handler (far l') = GemHandler.set_session (GemHandler.session (handler (far l'))) hd
    /\ (n + 1 < 2 ^ 32 - 1 -> connected (n + 1) l')
    /\ HsmsSession.config (near l') = HsmsSession.config (near (session h))
    /\ HsmsSession.config (session_of (far l')) = HsmsSession.config (session_of (far (session h)))
    /\ (statuses_ok (commandMgr (handler (far (session h)))) -> schemas h = DefaultRegistry -> MaxLevel rx = LevelPass).
Proof. exact (conversation_lemma n h s f body data it hd). Qed.

(** What a host learns of a request the equipment does not carry out.  A denied one
    comes back without a body and without an error, and changes nothing but the audit
    log of the equipment; one that no handler is there for is a reply time-out; the
    connection stays usable after both. *)
Theorem refused n (h : Host Link) s f body data :
  connected n (session h) -> 0 <= s < 128 -> 0 <= f < 256 -> Z.odd f = true -> in_unsigned 16 (sessionID h) = true ->
  10 <= maxMessageSize (HsmsSession.config (near (session h))) ->
  (forall b, body = Some b -> well_formed b = true) -> encode_request body = Ok data ->
  let eq := far (session h) in
  let req := request (sessionID h) s f (n + 1) data in
  frame_ok (HsmsSession.config (session_of eq)) req ->
  let '(r, h') := sendAndValidate (Sender0:=link_sender now) s f true body h in
  (IsAllowed (policy (handler eq)) s f = false ->
     r = Ok None /\ handler (far (session h')) = GemHandler.set_session (GemHandler.session (handler (far (session h')))) (audit_denied req (handler eq))
     /\ (n + 1 < 2 ^ 32 - 1 -> connected (n + 1) (session h')))
  /\ (IsAllowed (policy (handler eq)) s f = true -> customHandlers (handler eq) !! (s, f) = None -> builtin now req (handler eq) = None ->
     r = Err (SendFailed (ReplyTimeout (n + 1))) /\ handler (far (session h')) = GemHandler.set_session (GemHandler.session (handler (far (session h')))) (handler eq)
     /\ (n + 1 < 2 ^ 32 - 1 -> connected (n + 1) (session h'))).
Proof.
  intros Hc Hs Hfr Hodd Hsid Hmax Hbody Hdata eq req Hreq. pose proof Hc as [_ Hfo Hn Hbd Hin]. fold eq in Hfo, Hin.
  destruct (validate_total (schemas h) s f body Hbody) as [tx Htx].
  unfold sendAndValidate. rewrite Hdata. cbn [mbind result_bind]. rewrite (intercepted_ok _ _ _ _ tx) by done.
  cbn [mbind result_bind send_message link_sender]. change (session (record _ h)) with (session h). change (sessionID (record _ h)) with (sessionID h).
  assert (Hhm : HandleMessage now req (served eq)
    = if negb (IsAllowed (policy (handler eq)) s f) then sendReply req s 0 None (audit_denied req (served eq))
      else match customHandlers (handler eq) !! (s, f), builtin now req (served eq) with
           | None, None => (served eq, Ok ()) | _, _ => HandleMessage now req (served eq) end).
  { unfold HandleMessage. change (IsControlMessage req) with false. cbv iota.
    change (policy (served eq)) with (policy (handler eq)). change (customHandlers (served eq)) with (customHandlers (handler eq)).
    change (Stream (hdr req)) with s. change (Function (hdr req)) with f. change (WBit (hdr req)) with true.
    destruct (IsAllowed _ s f); [| done]. cbn [negb]. destruct (_ !! (s, f)); [done |]. by destruct (builtin now req (served eq)). }
  destruct (IsAllowed (policy (handler eq)) s f) eqn:Hpol; cbn [negb] in Hhm.
  - destruct (customHandlers (handler eq) !! (s, f)) eqn:Hcu; [by destruct (link_send _ _ _); repeat case_match; split |].
    destruct (builtin now req (handler eq)) eqn:Hb; [by destruct (link_send _ _ _); repeat case_match; split |].
    unfold served in Hhm at 2. rewrite builtin_any_session, Hb in Hhm.
    destruct (link_silent n (session h) (NewDataMessage (sessionID h) s f true 0 data) (served eq)) as (s' & Hsend & Ho' & Hn' & _); try done; [apply Hs |].
    rewrite Hsend. cbn [wrap_err mbind result_bind]. split; [done |]. intros _ _ _. split; [done |]. split; [done |].
    intros Hlt. split; try done. lia.
  - assert (Haud : audit_denied req (served eq) = GemHandler.set_session (mkWorld (session_of eq) [good]) (audit_denied req (handler eq)))
      by (unfold audit_denied, served; cbn [auditor GemHandler.set_session]; by destruct (auditor (handler eq))).
    set (reply := NewDataMessage (sessionID h) s 0 false (n + 1) []).
    assert (Hok : message_ok reply = true).
    { unfold message_ok, header_ok. cbn [reply NewDataMessage hdr Data SessionID Stream Function PType SType SystemID]. rewrite Hsid.
      repeat (apply andb_true_iff; split); try reflexivity; try apply Z.leb_le; try apply Z.ltb_lt; lia. }
    destruct (reply_written eq (audit_denied req (served eq)) req 0 None []) as (frame & Hf & Hw); try done; [by rewrite Haud | change (n + 1 <> 0); lia |].
    change (Stream (hdr req)) with s in Hw. change (SessionID (hdr req)) with (sessionID h) in Hw, Hf.
    change (SystemID (hdr req)) with (n + 1) in Hw, Hf. fold reply in Hw, Hf. rewrite Hw, Haud in Hhm.
    change (GemHandler.set_session ?t (GemHandler.set_session _ ?h0)) with (GemHandler.set_session t h0) in Hhm.
    assert (Hrf : frame_ok (HsmsSession.config (near (session h))) reply) by (split; [exact Hok | exact Hmax]).
    destruct (link_answered n (session h) (NewDataMessage (sessionID h) s f true 0 data) reply frame (audit_denied req (handler eq)))
      as (s' & Hsend & Ho' & Hn' & _); try done; [apply Hs | apply Hs |].
    rewrite Hsend. cbn [wrap_err mbind result_bind take_reply]. change (len (Data reply) =? 0) with true. cbv iota.
    split; [| done]. intros _. split; [done |]. split; [done |].
    intros Hlt. split; try done; [by apply open_wrote | lia].
Qed.
End both_ends.

(** A host and the simulator once the connection is accepted and selected. *)
Definition demo_link (writes : bool) : Link :=
  let c := DefaultEquipmentConfig in
  let cfg := mkEquipmentConfig (ListenAddress c) (eq_SessionID c) (ModelName c) (SoftwareRevision c) 0 writes in
  let eq := NewEquipment (fun _ => f64_of_Z 0) cfg in
  let eq := keep (Start true eq) eq in
  let select := mkAnswer true GotReply (Some (NewSelectRsp 1 1 SelectStatusSuccess)) in
  mkLink (session (Connect true select (NewHost "127.0.0.1:5000" 1)).2)
    (with_session (fun s => HsmsSession.handleMessage true (NewSelectReq 1 1) (acceptAndRun [127; 0; 0; 1] s)) eq).

Definition demo_host (writes : bool) : Host Link := mkHost (demo_link writes) 1 DefaultRegistry (Some []).

Lemma demo_connected writes : connected 1 (session (demo_host writes)).
Proof. by destruct writes. Qed.

Lemma conversation_witness :
  exists h', sendAndValidate (Sender0:=link_sender (MapOrder0:=some_order Z) 0) 1 1 true None (demo_host false)
             = (Ok (Some (NewList [Some (NewASCII "SIM-EQUIP-01"); Some (NewASCII "1.0.0")])), h').
Proof.
  destruct (conversation (MapOrder0:=some_order Z) 0 1 (demo_host false) 1 1 None [] (handleS1F1 "SIM-EQUIP-01" "1.0.0")
    (handler (far (session (demo_host false)))) (demo_connected false)) as (l' & tx & rx & Hs & _);
    [lia | reflexivity | intros ? [=] | reflexivity | split; [reflexivity | vm_compute; discriminate] | reflexivity.. | |].
  - intros d He. vm_compute in He. injection He as <-. split; [reflexivity | vm_compute; discriminate].
  - eexists. exact Hs.
Defined.

(** Under the monitor policy, [S1F17] is denied; [S1F99] is nobody's under full access. *)
Lemma refused_witness :
  let ask writes f := (sendAndValidate (Sender0:=link_sender (MapOrder0:=some_order Z) 0) 1 f true None (demo_host writes)).1 in
  ask false 17 = Ok None /\ ask true 99 = Err (SendFailed (ReplyTimeout 2)).
Proof.
  cbv zeta. split.
  - pose proof (refused (MapOrder0:=some_order Z) 0 1 (demo_host false) 1 17 None [] (demo_connected false) ltac:(lia) ltac:(lia)
      eq_refl eq_refl ltac:(vm_compute; discriminate) ltac:(intros ? [=]) eq_refl ltac:(split; [reflexivity | vm_compute; discriminate])) as Hr.
    destruct (sendAndValidate _ _ _ _ _) as [r h']. destruct Hr as [Hr _]. exact (proj1 (Hr eq_refl)).
  - pose proof (refused (MapOrder0:=some_order Z) 0 1 (demo_host true) 1 99 None [] (demo_connected true) ltac:(lia) ltac:(lia)
      eq_refl eq_refl ltac:(vm_compute; discriminate) ltac:(intros ? [=]) eq_refl ltac:(split; [reflexivity | vm_compute; discriminate])) as Hr.
    destruct (sendAndValidate _ _ _ _ _) as [r h']. destruct Hr as [_ Hr]. exact (proj1 (Hr eq_refl eq_refl eq_refl)).
Defined.
