(* ===== verification/Script.v ===== *)
(** * Scenario scripts

    [Script], [ScriptRunner] and the built-in scenarios of
    [src/pkg/simulator/script.go], run against the host of [Host]; the notation of the
    bodies is in [Sml].  Loading a script from YAML is a call into a library.  The text
    of a result is a constructor with the values it prints; the duration of a run is
    the clock's. *)

From stdpp Require Import prelude gmap strings list pretty.
From Stdlib Require Import ZArith Lia.
From S2P Require Import Prelude GoStrings Secs2Item Secs2Codec HsmsMessage Transport Policy HsmsSession HsmsProtocol.
From S2P Require Import GemState GemCommands GemHandler GemRequests Schema Conformance Simulator Host Sml.

#[local] Open Scope Z_scope.

Record ScriptStep := mkStep {
  Action : string;
  st_Stream : Z;
  st_Function : Z;
  st_WBit : bool;
  st_Body : string;
  Delay : Z;
  Expect : string;
}.

Record Script := mkScript { Name : string; Description : string; Steps : list ScriptStep }.

Inductive load_error := ParseFailed | ReadFailed (path : string).

(** [unmarshal] is the YAML library's, [ReadFile] the file system. *)
Definition LoadScript (unmarshal : list Z -> option Script) (data : list Z) : result load_error Script :=
  match unmarshal data with Some s => Ok s | None => Err ParseFailed end.

Definition LoadScriptFile (ReadFile : string -> option (list Z)) (unmarshal : list Z -> option Script) (path : string)
  : result load_error Script :=
  match ReadFile path with None => Err (ReadFailed path) | Some data => LoadScript unmarshal data end.

Inductive detail :=
| SMLParseError (e : sml_error)
| SendError (e : host_error)
| SentOK (stream function : Z)
| Waited (d : Z)
| CancelledDuringDelay
| NoReplyToAssert
| FormatMatches (actual : string)
| FormatDiffers (expected actual : string)
| ReplyExists
| UnknownAction (action : string).

Record StepResult := mkStepResult { Step : Z; r_Action : string; Status : string; Detail : detail }.

Record ScriptResult := mkScriptResult { r_Name : string; r_Steps : list StepResult; Passed : Z; Failed : Z }.

(** ** The runner *)

Section runner.
Context {T : Type} `{!Sender T, !Floats}.
Implicit Types h : Host T.

(** What a run carries from step to step. *)
Record progress := mkProgress { host : Host T; lastReply : option item; outcome : ScriptResult }.

Definition finish (i : Z) (action status : string) (d : detail) (p : progress) : progress :=
  let r := outcome p in
  mkProgress (host p) (lastReply p)
    (mkScriptResult (r_Name r) (r_Steps r ++ [mkStepResult (i + 1) action status d])
       (if decide (status = "pass") then Passed r + 1 else Passed r)
       (if decide (status = "fail") then Failed r + 1 else Failed r)).

Definition set_host h (p : progress) : progress := mkProgress h (lastReply p) (outcome p).
Definition set_reply (reply : option item) (p : progress) : progress := mkProgress (host p) reply (outcome p).

(** [case "send"]: the body is parsed first. *)
Definition parse_body (text : string) : result sml_error (option item) :=
  if decide (text = "") then Ok None else it ← ParseSML text; Ok (Some it).

Definition run_send (i : Z) (step : ScriptStep) (p : progress) : result host_error progress :=
  match parse_body (st_Body step) with
  | Ok body =>
      let '(r, h) := SendRaw (st_Stream step) (st_Function step) (st_WBit step) body (host p) in
      let p := set_host h p in
      match r with
      | Ok reply => Ok (set_reply reply (finish i (Action step) "pass" (SentOK (st_Stream step) (st_Function step)) p))
      | Err e => Ok (finish i (Action step) "fail" (SendError e) p)
      | Panic q => Panic q
      | OutOfFuel => OutOfFuel
      end
  | Err e => Ok (finish i (Action step) "fail" (SMLParseError e) p)
  | Panic q => Panic q
  | OutOfFuel => OutOfFuel
  end.

(** [case "delay"]; [cancelled] says that the context ends first. *)
Definition run_delay (cancelled : bool) (i : Z) (step : ScriptStep) (p : progress) : progress :=
  let d := if Delay step <=? 0 then 100000000 else Delay step in
  if cancelled then finish i (Action step) "fail" CancelledDuringDelay p
  else finish i (Action step) "pass" (Waited d) p.

Definition run_assert (i : Z) (step : ScriptStep) (p : progress) : progress :=
  match lastReply p with
  | None => finish i (Action step) "fail" NoReplyToAssert p
  | Some reply =>
      if decide (Expect step <> "") then
        let actual := Format_String (format reply) in
        if decide (actual = Expect step \/ Expect step = "*")
        then finish i (Action step) "pass" (FormatMatches actual) p
        else finish i (Action step) "fail" (FormatDiffers (Expect step) actual) p
      else finish i (Action step) "pass" ReplyExists p
  end.

Definition run_step (cancelled : Z -> bool) (i : Z) (step : ScriptStep) (p : progress) : result host_error progress :=
  if decide (Action step = "send") then run_send i step p
  else if decide (Action step = "delay") then Ok (run_delay (cancelled i) i step p)
  else if decide (Action step = "assert_reply") then Ok (run_assert i step p)
  else Ok (finish i (Action step) "skip" (UnknownAction (Action step)) p).

Fixpoint run_steps (cancelled : Z -> bool) (i : Z) (steps : list ScriptStep) (p : progress) : result host_error progress :=
  match steps with
  | [] => Ok p
  | step :: steps => p ← run_step cancelled i step p; run_steps cancelled (i + 1) steps p
  end.

Definition Run (cancelled : Z -> bool) (script : Script) h : result host_error (ScriptResult * Host T) :=
  p ← run_steps cancelled 0 (Steps script) (mkProgress h None (mkScriptResult (Name script) [] 0 0));
  Ok (outcome p, host p).
End runner.

(** ** The built-in scenarios *)

Definition send_step (stream function : Z) (body : string) : ScriptStep := mkStep "send" stream function true body 0 "".
Definition assert_step (expect : string) : ScriptStep := mkStep "assert_reply" 0 0 false "" 0 expect.

(** A string literal of the notation. *)
Definition quoted (s : string) : string := string_of (quote :: chars s ++ [quote]).

Definition host_body : string := "L:2 { A " +:+ quoted "HOST" +:+ " A " +:+ quoted "1.0.0" +:+ " }".

Definition communication_setup : Script := mkScript "E30 Communication Setup" "Establish communication and go online"
  [send_step 1 13 host_body; assert_step "L"; send_step 1 1 ""; assert_step "L"; send_step 1 17 ""; assert_step "B"].

Definition remote_command_script : Script := mkScript "Remote Command" "Send a remote command after establishing communication"
  [send_step 1 13 host_body; assert_step "L"; send_step 2 41 ("L:2 { A " +:+ quoted "START" +:+ " L:0 }"); assert_step "L"].

Definition BuiltinScenarios : list Script := [communication_setup; remote_command_script].

(** ** Lemmas *)

Section counting.
Context {T : Type} `{!Sender T, !Floats}.
Implicit Types p : progress (T:=T).

Definition has_status (status : string) (r : StepResult) : bool := bool_decide (Status r = status).
Definition tally (status : string) (rs : list StepResult) : Z := len (filter (has_status status) rs).

(** The counters are those of the results. *)
Definition counted p : Prop :=
  Passed (outcome p) = tally "pass" (r_Steps (outcome p)) /\ Failed (outcome p) = tally "fail" (r_Steps (outcome p))
  /\ Forall (fun r => Status r = "pass" \/ Status r = "fail" \/ Status r = "skip") (r_Steps (outcome p)).

(** [p'] has one result more than [p], of the step [i] with action [a]. *)
Definition extends (i : Z) (a : string) p p' : Prop :=
  r_Name (outcome p') = r_Name (outcome p)
  /\ exists status d, r_Steps (outcome p') = r_Steps (outcome p) ++ [mkStepResult (i + 1) a status d]
     /\ (lastReply p' = lastReply p \/ status = "pass").

Lemma tally_snoc status rs r : tally status (rs ++ [r]) = tally status rs + (if decide (Status r = status) then 1 else 0).
Proof.
  unfold tally. rewrite filter_app, len_app. f_equal. unfold has_status. cbn [filter list_filter].
  by repeat case_decide; try done; case_bool_decide.
Qed.

Lemma tally_cons status r rs : tally status (r :: rs) = (if decide (Status r = status) then 1 else 0) + tally status rs.
Proof.
  change (r :: rs) with ([r] ++ rs). unfold tally. rewrite filter_app, len_app. f_equal. unfold has_status. cbn [filter list_filter].
  by repeat case_decide; try done; case_bool_decide.
Qed.

Lemma finish_counted i a status d p :
  status = "pass" \/ status = "fail" \/ status = "skip" -> counted p -> counted (finish i a status d p) /\ extends i a p (finish i a status d p).
Proof.
  intros Hs (Hp & Hf & Ha). split; [| split; [done |]; exists status, d; split; [done | by left]].
  unfold counted. cbn [finish outcome Passed Failed r_Steps]. rewrite !tally_snoc. cbn [Status]. split_and!.
  - rewrite Hp. case_decide; lia.
  - rewrite Hf. case_decide; lia.
  - apply Forall_app. split; [done |]. constructor; [exact Hs | constructor].
Qed.

Lemma step_counted cancelled i step p p' :
  counted p -> run_step cancelled i step p = Ok p' -> counted p' /\ extends i (Action step) p p'.
Proof.
  intros Hc. assert (Hfin : forall status d, status = "pass" \/ status = "fail" \/ status = "skip" ->
    forall q, Ok (finish i (Action step) status d p) = Ok (E:=host_error) q -> counted q /\ extends i (Action step) p q).
  { intros status d Hs q [= <-]. by apply finish_counted. }
  unfold run_step. case_decide; [| case_decide; [| case_decide]].
  - unfold run_send. destruct (parse_body (st_Body step)) as [body|e| |]; try done; [| apply Hfin; auto].
    destruct (SendRaw _ _ _ _ _) as [[reply|e| |] h]; try done; intros [= <-].
    + destruct (finish_counted i (Action step) "pass" (SentOK (st_Stream step) (st_Function step)) p ltac:(auto) Hc) as [Hc' [Hn Hx]].
      split; [exact Hc' |]. split; [done |]. do 2 eexists. split; [done | by right].
    + exact (finish_counted i (Action step) "fail" (SendError e) (set_host h p) ltac:(auto) Hc).
  - unfold run_delay. destruct (cancelled i); apply Hfin; auto.
  - unfold run_assert. destruct (lastReply p); [| apply Hfin; auto]. case_decide; [case_decide |]; apply Hfin; auto.
  - apply Hfin; auto.
Qed.

Lemma steps_counted cancelled steps : forall i p p',
  counted p -> run_steps cancelled i steps p = Ok p' ->
  counted p' /\ r_Name (outcome p') = r_Name (outcome p)
  /\ exists rs, r_Steps (outcome p') = r_Steps (outcome p) ++ rs
     /\ ((fun r => (Step r, r_Action r)) <$> rs) = imap (fun k step => (i + 1 + Z.of_nat k, Action step)) steps.
Proof.
  induction steps as [|step steps IH]; intros i p p' Hc; cbn [run_steps].
  { intros [= <-]. split; [done |]. split; [done |]. exists []. by rewrite app_nil_r. }
  intros Hrun. apply bind_ok in Hrun as (p1 & H1 & H2).
  destruct (step_counted _ _ _ _ _ Hc H1) as [Hc1 [Hn1 (status & d & Hs1 & _)]].
  destruct (IH (i + 1) p1 p' Hc1 H2) as (Hc2 & Hn2 & rs & Hs2 & Hrs). split; [done |]. split; [congruence |].
  exists (mkStepResult (i + 1) (Action step) status d :: rs). split; [by rewrite Hs2, Hs1, <- app_assoc |].
  cbn [fmap list_fmap imap Step r_Action]. f_equal; [f_equal; lia |]. rewrite Hrs. apply imap_ext. intros k x _. cbn. f_equal. lia.
Qed.

(** ** Properties *)

(** The report of a run is complete: one result per step, numbered from one, with
    the step's action and one of the three statuses, and the two counters count the
    results; what is neither passed nor failed was skipped. *)
Theorem run_report cancelled script h r h' :
  Run cancelled script h = Ok (r, h') ->
  r_Name r = Name script
  /\ ((fun x => (Step x, r_Action x)) <$> r_Steps r) = imap (fun k step => (Z.of_nat k + 1, Action step)) (Steps script)
  /\ Forall (fun x => Status x = "pass" \/ Status x = "fail" \/ Status x = "skip") (r_Steps r)
  /\ Passed r = tally "pass" (r_Steps r) /\ Failed r = tally "fail" (r_Steps r)
  /\ Passed r + Failed r + tally "skip" (r_Steps r) = len (Steps script).
Proof.
  unfold Run. intros Hrun. apply bind_ok in Hrun as (p & Hsteps & [= <- <-]).
  assert (Hstart : counted (mkProgress h None (mkScriptResult (Name script) [] 0 0))) by (by split_and!).
  destruct (steps_counted cancelled (Steps script) 0 _ p Hstart Hsteps) as ((Hp & Hf & Ha) & Hn & rs & Hs & Hrs).
  cbn [outcome r_Steps app] in Hs. rewrite Hs in *.
  assert (Hlen : length rs = length (Steps script)).
  { apply (f_equal length) in Hrs. by rewrite length_fmap, length_imap in Hrs. }
  split_and!; try done.
  - rewrite Hrs. apply imap_ext. intros k x _. f_equal. lia.
  - rewrite Hp, Hf. unfold len. rewrite <- Hlen. fold (len rs). clear -Ha.
    induction Ha as [|x rs Hx _ IH]; [done |]. rewrite len_cons, <- IH, !tally_cons. destruct Hx as [->|[->| ->]]; cbn [decide]; simpl; lia.
Qed.
End counting.

(** ** The communication scenario on any equipment *)

Section scenario.
Context `{!Floats, !MapOrder Z} (now : Z).
#[local] Instance scenario_sender : Sender Link := link_sender now.

(** The reply fits into the buffers of the host. *)
Definition fits (c : Config) (it : item) : Prop :=
  well_formed it = true /\ forall d, Encode (Some it) = Ok d -> 10 + len d <= maxMessageSize c /\ len d < 2 ^ 32 - 14.

(** The host talks to equipment with handler [hd], up to its session. *)
Record talks (n : Z) (h : Host Link) (hd : Handler World) : Prop := {
  tk_connected : connected n (session h);
  tk_handler : exists t, handler (far (session h)) = GemHandler.set_session t hd;
  tk_policy : policy hd = FullAccessPolicy;
  tk_custom : customHandlers hd = ∅;
  tk_sessionID : in_unsigned 16 (sessionID h) = true;
  tk_far : 100 <= maxMessageSize (HsmsSession.config (session_of (far (session h))));
  tk_near : 100 <= maxMessageSize (HsmsSession.config (near (session h)));
}.

Lemma frame_small c sid s f id w data :
  in_unsigned 16 sid = true -> 0 <= s < 256 -> 0 <= f < 256 -> 0 <= id < 2 ^ 32 -> bytes_ok data = true ->
  10 + len data <= maxMessageSize c -> len data < 2 ^ 32 - 14 -> frame_ok c (NewDataMessage sid s f w id data).
Proof.
  intros Hsid Hs Hf Hid Hd Hm Hl. split; [| exact Hm]. unfold message_ok, header_ok.
  cbn [NewDataMessage hdr Data SessionID Stream Function PType SType SystemID]. rewrite Hsid, Hd. unfold is_byte, in_unsigned.
  repeat (apply andb_true_iff; split); try reflexivity; try apply Z.leb_le; try apply Z.ltb_lt; lia.
Qed.

(** One request of the scenario, when its handler gives [it] and leaves [hd']. *)
Lemma ask n h hd s f body data it hd' :
  talks n h hd -> 0 <= s < 128 -> 0 <= f < 255 -> Z.odd f = true ->
  (forall b, body = Some b -> well_formed b = true) -> encode_request body = Ok data -> bytes_ok data = true -> len data <= 90 ->
  builtin now (request (sessionID h) s f (n + 1) data) hd = Some (Ok (it, hd')) ->
  policy hd' = FullAccessPolicy -> customHandlers hd' = ∅ -> fits (HsmsSession.config (near (session h))) it ->
  exists h', SendRaw s f true body h = (Ok (Some (normalize it)), h')
    /\ (n + 1 < 2 ^ 32 - 1 -> talks (n + 1) h' hd') /\ sessionID h' = sessionID h
    /\ HsmsSession.config (near (session h')) = HsmsSession.config (near (session h))
    /\ exists t, handler (far (session h')) = GemHandler.set_session t hd'.
Proof.
  intros [Hc [t Ht] Hp Hcu Hsid Hfar Hnear] Hs Hf Hodd Hb Hd Hbs Hl Hbi Hp' Hcu' [Hwf Hfit]. pose proof (cn_bound _ _ Hc) as Hbd.
  destruct (conversation_lemma now n h s f body data it (GemHandler.set_session t hd') Hc Hs Hodd Hb Hd) as
    (l' & tx & rx & Hsend & Hh & Hc' & Hcn & Hcf & _).
  - apply (frame_small _ (sessionID h) s f (n + 1) true data); try done; lia.
  - by rewrite Ht; cbn; rewrite Hp.
  - rewrite Ht. cbn. by rewrite Hcu.
  - by rewrite Ht, builtin_any_session, Hbi.
  - exact Hwf.
  - intros d He. destruct (Hfit d He). destruct (well_formed_encode it Hwf) as (d' & He' & Hok & _). rewrite He in He'. apply Ok_inj in He' as <-.
    apply frame_small; try done; try lia. rewrite wrap_small by lia. lia.
  - eexists. split; [exact Hsend |]. cbn [session sessionID].
    assert (Hhd : exists t', handler (far l') = GemHandler.set_session t' hd') by (eexists; exact Hh).
    split; [| by split_and!]. intros Hlt. split; cbn [session sessionID]; try done; [apply Hc'; lia | by rewrite Hcf | by rewrite Hcn].
Qed.
Lemma run_step_sends cancelled i s f b body reply h' (p : progress) :
  parse_body b = Ok body -> SendRaw s f true body (host p) = (Ok reply, h') ->
  run_step cancelled i (send_step s f b) p = Ok (set_reply reply (finish i "send" "pass" (SentOK s f) (set_host h' p))).
Proof.
  intros Hb Hs. unfold run_step. rewrite decide_True by done. unfold run_send. cbn [send_step st_Body st_Stream st_Function st_WBit Action].
  by rewrite Hb, Hs.
Qed.

Lemma run_step_asserts cancelled i e reply (p : progress (T:=Link)) :
  lastReply p = Some reply -> e <> "" -> Format_String (format reply) = e ->
  run_step cancelled i (assert_step e) p = Ok (finish i "assert_reply" "pass" (FormatMatches e) p).
Proof.
  intros Hl Hne He. unfold run_step. rewrite decide_False, decide_False, decide_True by done.
  unfold run_assert. rewrite Hl. cbn [assert_step Expect Action]. rewrite decide_True by done. rewrite He. by rewrite decide_True by by left.
Qed.

Lemma parse_host_body : parse_body host_body = Ok (Some host_identification).
Proof. by vm_compute. Qed.

Lemma fits_ack c code : 100 <= maxMessageSize c -> 0 <= code < 256 -> fits c (ack code).
Proof.
  intros Hc Hb. assert (Hwf : well_formed (ack code) = true).
  { change (bytes_ok [code] && (len [code] <=? max_payload) = true). cbn [bytes_ok forallb]. by rewrite (proj2 (is_byte_spec code)). }
  split; [done |]. intros d He. assert (Hd : exists b, Encode (Some (ack code)) = Ok (E:=encode_error) [33; 1; b]) by (eexists; reflexivity).
  destruct Hd as [b Hd]. rewrite Hd in He. apply Ok_inj in He as <-. change (len [33; 1; b]) with 3. lia.
Qed.

(** The built-in scenario that brings equipment online passes all its steps against
    every piece of equipment with full access and without handlers of its own, whatever
    its names and its communication state, and leaves it in the state the three
    requests make. *)
Theorem setup_passes n h hd cancelled :
  talks n h hd -> n + 3 < 2 ^ 32 - 1 ->
  fits (HsmsSession.config (near (session h))) (handleS1F13 (mdln hd) (softrev hd) (GemHandler.state hd)).1 ->
  fits (HsmsSession.config (near (session h))) (handleS1F1 (mdln hd) (softrev hd)) ->
  exists r h', Run cancelled communication_setup h = Ok (r, h') /\ Passed r = 6 /\ Failed r = 0
    /\ exists t, handler (far (session h'))
       = GemHandler.set_session t (GemHandler.set_state
           (handleS1F17 (handleS1F13 (mdln hd) (softrev hd) (GemHandler.state hd)).2).2 hd).
Proof.
  intros Ht Hn Hf13 Hf1. set (sm1 := (handleS1F13 (mdln hd) (softrev hd) (GemHandler.state hd)).2).
  pose proof Ht as [_ _ Hp Hcu _ _ Hnear].
  destruct (ask n h hd 1 13 (Some host_identification) [1; 2; 65; 4; 72; 79; 83; 84; 65; 5; 49; 46; 48; 46; 48]
    (handleS1F13 (mdln hd) (softrev hd) (GemHandler.state hd)).1 (GemHandler.set_state sm1 hd) Ht) as (h1 & Hs1 & Ht1 & _ & Hc1 & _);
    try done; try lia; [intros b [= <-]; reflexivity |]. specialize (Ht1 ltac:(lia)).
  destruct (ask (n + 1) h1 (GemHandler.set_state sm1 hd) 1 1 None [] (handleS1F1 (mdln hd) (softrev hd))
    (GemHandler.set_state sm1 hd) Ht1) as (h2 & Hs2 & Ht2 & _ & Hc2 & _); try done; try lia; [by rewrite Hc1 |]. specialize (Ht2 ltac:(lia)).
  destruct (ask (n + 1 + 1) h2 (GemHandler.set_state sm1 hd) 1 17 None [] (handleS1F17 sm1).1
    (GemHandler.set_state (handleS1F17 sm1).2 hd) Ht2) as (h3 & Hs3 & _ & _ & _ & Hh3); try done; try lia.
  { change (Some (and_then (fun sm => GemHandler.set_state sm (GemHandler.set_state sm1 hd)) (Ok (handleS1F17 sm1)))
            = Some (Ok ((handleS1F17 sm1).1, GemHandler.set_state (handleS1F17 sm1).2 hd))).
    by destruct (handleS1F17 sm1). }
  { rewrite Hc2, Hc1. unfold handleS1F17. destruct (GoOnlineRemote sm1); by apply fits_ack. }
  assert (H17 : Format_String (format (normalize (handleS1F17 sm1).1)) = "B") by (unfold handleS1F17; by destruct (GoOnlineRemote sm1)).
  unfold Run, communication_setup. cbn [Steps run_steps].
  erewrite run_step_sends; [| exact parse_host_body | exact Hs1]. cbn [mbind result_bind].
  erewrite run_step_asserts; [| done | done | done]. cbn [mbind result_bind].
  erewrite run_step_sends; [| done | exact Hs2]. cbn [mbind result_bind].
  erewrite run_step_asserts; [| done | done | done]. cbn [mbind result_bind].
  erewrite run_step_sends; [| done | exact Hs3]. cbn [mbind result_bind].
  erewrite run_step_asserts; [| done | done | exact H17]. cbn [mbind result_bind].
  do 2 eexists. split; [reflexivity |]. split; [done |]. split; [done |]. exact Hh3.
Qed.
End scenario.

#[local] Instance demo_floats : Floats := no_floats.
#[local] Instance demo_order : MapOrder Z := some_order Z.
#[local] Instance demo_link_sender : Sender Link := link_sender 0.

(** Against the simulator: both pass with full access; under its default policy the
    request to go online and the command are denied without an error, and what fails is
    the assertion after them. *)
Example scenarios_on_simulator :
  let tally writes s := match Run (fun _ => false) s (demo_host writes) with Ok (r, _) => Some (Passed r, Failed r) | _ => None end in
  tally true <$> BuiltinScenarios = [Some (6, 0); Some (4, 0)]
  /\ tally false <$> BuiltinScenarios = [Some (5, 1); Some (3, 1)].
Proof. vm_compute. split; reflexivity. Qed.

Lemma run_report_witness :
  exists r h', Run (fun _ => false) (mkScript "s" "" [mkStep "delay" 0 0 false "" 5 ""; mkStep "wait" 0 0 false "" 0 ""]) (demo_host true) = Ok (r, h')
    /\ Passed r + Failed r + tally "skip" (r_Steps r) = 2 /\ Passed r = 1.
Proof.
  eexists _, _. split; [reflexivity |]. split; [| reflexivity].
  exact (proj2 (proj2 (proj2 (proj2 (proj2 (run_report (fun _ => false)
    (mkScript "s" "" [mkStep "delay" 0 0 false "" 5 ""; mkStep "wait" 0 0 false "" 0 ""]) (demo_host true) _ _ eq_refl)))))).
Defined.

Lemma setup_passes_witness :
  exists r h', Run (fun _ => false) communication_setup (demo_host true) = Ok (r, h') /\ Passed r = 6 /\ Failed r = 0.
Proof.
  destruct (setup_passes 0 1 (demo_host true) (handler (far (demo_link true))) (fun _ => false)) as (r & h' & Hr & Hp & Hf & _).
  - split; [exact (demo_connected true) | by eexists (GemHandler.session (handler (far (demo_link true)))) | reflexivity.. | |];
      vm_compute; discriminate.
  - lia.
  - split; [reflexivity |]. intros d He. vm_compute in He. injection He as <-. split; [vm_compute; discriminate | reflexivity].
  - split; [reflexivity |]. intros d He. vm_compute in He. injection He as <-. split; [vm_compute; discriminate | reflexivity].
  - exists r, h'. by split_and!.
Defined.

(** The reply of an earlier step answers for a step that failed: the assertion after a
    body that does not parse passes. *)
Example stale_reply :
  match Run (fun _ => false) (mkScript "s" "" [send_step 1 1 ""; send_step 1 3 "L:1 { U4 x }"; assert_step "L"]) (demo_host true) with
  | Ok (r, _) => Status <$> r_Steps r = ["pass"; "fail"; "pass"]
  | _ => False
  end.
Proof. vm_compute. reflexivity. Qed.
