(* ===== verification/ItemText.v ===== *)
(** * Items as text

    [String], [formatString] and [quoteASCII] of [src/pkg/message/secs2/item.go], which
    render the items of a trace, on the bytes of the text.  [strconv.Quote] is written
    out with the UTF-8 decoder it uses; which code points beyond ASCII are printable and
    how a float is printed are parameters of the standard library's tables.

    The rendering is shown in a browser: [markup_safe] says that a payload adds no
    markup to it, and [quote_reversible] that the payload can still be read back. *)

From stdpp Require Import prelude strings list pretty.
From Stdlib Require Import ZArith Lia Ascii.
From S2P Require Import Prelude Secs2Item.

#[local] Open Scope Z_scope.

(** [&], [<] and [>]. *)
Definition is_markup (b : Z) : bool := (b =? 38) || (b =? 60) || (b =? 62).

Class Printing := {
  is_print : Z -> bool;                 (* code points from 128 on *)
  float32_text : Z -> string;
  float64_text : Z -> string;
  float32_plain b : existsb is_markup (bytes_of_string (float32_text b)) = false;
  float64_plain b : existsb is_markup (bytes_of_string (float64_text b)) = false;
}.

(** ** UTF-8 *)

Definition cont (b : Z) : bool := (128 <=? b) && (b <=? 191).
Definition within (lo hi b : Z) : bool := (lo <=? b) && (b <=? hi).

(** [utf8.DecodeRuneInString] from a byte of 128 or more: the code point and its width;
    [None] is [RuneError] of width one. *)
Definition decode_rune (l : list Z) : option (Z * nat) :=
  match l with
  | b0 :: b1 :: r =>
      if within 194 223 b0 then
        if cont b1 then Some ((b0 - 192) * 64 + (b1 - 128), 2%nat) else None
      else if within 224 239 b0 then
        match r with
        | b2 :: _ =>
            if within (if b0 =? 224 then 160 else 128) (if b0 =? 237 then 159 else 191) b1 && cont b2
            then Some ((b0 - 224) * 4096 + (b1 - 128) * 64 + (b2 - 128), 3%nat) else None
        | [] => None
        end
      else if within 240 244 b0 then
        match r with
        | b2 :: b3 :: _ =>
            if within (if b0 =? 240 then 144 else 128) (if b0 =? 244 then 143 else 191) b1 && cont b2 && cont b3
            then Some ((b0 - 240) * 262144 + (b1 - 128) * 4096 + (b2 - 128) * 64 + (b3 - 128), 4%nat) else None
        | _ => None
        end
      else None
  | _ => None
  end.

(** [utf8.AppendRune] of a valid code point. *)
Definition encode_rune (r : Z) : list Z :=
  if r <? 128 then [r]
  else if r <? 2048 then [192 + r / 64; 128 + r mod 64]
  else if r <? 65536 then [224 + r / 4096; 128 + (r / 64) mod 64; 128 + r mod 64]
  else [240 + r / 262144; 128 + (r / 4096) mod 64; 128 + (r / 64) mod 64; 128 + r mod 64].

(** ** Quoting *)

Definition lowerhex (d : Z) : Z := if d <? 10 then 48 + d else 87 + d.
Fixpoint hex (n : nat) (z : Z) : list Z :=
  match n with O => [] | S n' => lowerhex (z / 16 ^ Z.of_nat n' mod 16) :: hex n' z end.

Section quoting.
Context {printing : Printing}.

Definition IsPrint (r : Z) : bool := if r <? 128 then within 32 126 r else is_print r.

(** [appendEscapedRune] with a double quote. *)
Definition escape_rune (r : Z) : list Z :=
  if (r =? 34) || (r =? 92) then [92; r]
  else if IsPrint r then encode_rune r
  else if r =? 7 then [92; 97]
  else if r =? 8 then [92; 98]
  else if r =? 12 then [92; 102]
  else if r =? 10 then [92; 110]
  else if r =? 13 then [92; 114]
  else if r =? 9 then [92; 116]
  else if r =? 11 then [92; 118]
  else if (r <? 32) || (r =? 127) then 92 :: 120 :: hex 2 r
  else if r <? 65536 then 92 :: 117 :: hex 4 r
  else 92 :: 85 :: hex 8 r.

(** The loop of [strconv.Quote]: a rune, or a byte that starts none, at a time. *)
Fixpoint quote_body (fuel : nat) (l : list Z) : list Z :=
  match fuel, l with
  | S fuel, b :: l' =>
      if b <? 128 then escape_rune b ++ quote_body fuel l'
      else match decode_rune l with
           | Some (r, w) => escape_rune r ++ quote_body fuel (drop w l)
           | None => 92 :: 120 :: hex 2 b ++ quote_body fuel l'
           end
  | _, _ => []
  end.

Definition Quote (l : list Z) : list Z := 34 :: quote_body (length l) l ++ [34].

(** [markupEscaper] *)
Definition escape_markup (b : Z) : list Z := if is_markup b then 92 :: 120 :: hex 2 b else [b].
Definition markupEscaper (l : list Z) : list Z := flat_map escape_markup l.

Definition quoteASCII (s : string) : list Z := markupEscaper (Quote (bytes_of_string s)).

(** ** Rendering *)

Definition text (s : string) : list Z := bytes_of_string s.
Definition number (z : Z) : list Z := text (pretty z).
Definition indentation (depth : nat) : list Z := mjoin (replicate depth (text "  ")).

(** [%v] of a slice. *)
Fixpoint spaced (ws : list (list Z)) : list Z :=
  match ws with [] => [] | [w] => w | w :: ws => w ++ text " " ++ spaced ws end.
Definition slice_text (ws : list (list Z)) : list Z := text "[" ++ spaced ws ++ text "]".

(** [%x] of bytes. *)
Definition hex_text (data : list Z) : list Z := flat_map (hex 2) data.

Definition scalar_text (depth : nat) (name : string) (n : Z) (body : list Z) : list Z :=
  indentation depth ++ text "<" ++ text name ++ text " [" ++ number n ++ text "] " ++ body ++ text ">".

Definition render_children (render : nat -> item -> result Empty_set (list Z)) (depth : nat)
    : list gval -> result Empty_set (list Z) :=
  fix go vs :=
    match vs with
    | [] => Ok []
    | v :: vs =>
        match v with
        | VItem (Some c) => t ← render depth c; rest ← go vs; Ok (t ++ [10] ++ rest)
        | VItem None => Panic NilDeref
        | _ => Panic TypeAssertion
        end
    end.

Definition float_text (f : Z) (v : gval) : result Empty_set (list Z) :=
  match v with
  | VFloat32 b => if f =? FormatF4 then Ok (text (float32_text b)) else Panic TypeAssertion
  | VFloat64 b => if f =? FormatF8 then Ok (text (float64_text b)) else Panic TypeAssertion
  | _ => Panic TypeAssertion
  end.

(** The conversions' errors are dropped, with a nil slice; a panic is one. *)
Definition or_nil {A} (zero : A) (m : result access_error A) : result Empty_set A := r ← attempt m; Ok (default zero r).

Fixpoint formatString (depth : nat) (it : item) : result Empty_set (list Z) :=
  match it with
  | Item f vs =>
      if f =? FormatList then
        if len vs =? 0 then Ok (indentation depth ++ text "<L [0]>")
        else
          body ← render_children formatString (S depth) vs;
          Ok (indentation depth ++ text "<L [" ++ number (len vs) ++ text "]" ++ [10] ++ body ++ indentation depth ++ text ">")
      else if f =? FormatASCII then
        s ← or_nil "" (ToASCII (Item f vs));
        Ok (scalar_text depth "A" (Z.of_nat (String.length s)) (quoteASCII s))
      else if f =? FormatBinary then
        data ← or_nil [] (ToBinary (Item f vs)); Ok (scalar_text depth "B" (len data) (hex_text data))
      else if f =? FormatBoolean then
        vals ← or_nil [] (ToBooleans (Item f vs));
        Ok (scalar_text depth "BOOLEAN" (len vals) (slice_text ((fun b : bool => text (if b then "true" else "false")) <$> vals)))
      else if (f =? FormatI1) || (f =? FormatI2) || (f =? FormatI4) || (f =? FormatI8) then
        vals ← or_nil [] (ToInt64s (Item f vs)); Ok (scalar_text depth (Format_String f) (len vals) (slice_text (number <$> vals)))
      else if (f =? FormatU1) || (f =? FormatU2) || (f =? FormatU4) || (f =? FormatU8) then
        vals ← or_nil [] (ToUint64s (Item f vs)); Ok (scalar_text depth (Format_String f) (len vals) (slice_text (number <$> vals)))
      else if (f =? FormatF4) || (f =? FormatF8) then
        ws ← mapM (float_text f) vs; Ok (scalar_text depth (Format_String f) (len vs) (slice_text ws))
      else Ok (indentation depth ++ text "<UNKNOWN>")
  end.

Definition Item_String (it : item) : result Empty_set string := t ← formatString 0 it; Ok (string_of_bytes t).
End quoting.

(** ** Reading a quoted literal back *)

Definition unhex_digit (c : Z) : option Z :=
  if within 48 57 c then Some (c - 48) else if within 97 102 c then Some (c - 87) else None.

Fixpoint unhex (acc : Z) (l : list Z) : option Z :=
  match l with [] => Some acc | c :: l => d ← unhex_digit c; unhex (16 * acc + d) l end.

(** The control characters by the letter that stands for them. *)
Definition unescape (c : Z) : option Z :=
  if c =? 97 then Some 7 else if c =? 98 then Some 8 else if c =? 102 then Some 12
  else if c =? 110 then Some 10 else if c =? 114 then Some 13 else if c =? 116 then Some 9
  else if c =? 118 then Some 11 else if (c =? 34) || (c =? 92) then Some c else None.

(** The bytes up to the closing quote, which must be the last byte. *)
Fixpoint unquote_body (l : list Z) : option (list Z) :=
  match l with
  | [] => None
  | c :: l1 =>
      if c =? 34 then match l1 with [] => Some [] | _ => None end
      else if c =? 92 then
        match l1 with
        | k :: l2 =>
            if k =? 120 then
              match l2 with
              | a :: b :: r => v ← unhex 0 [a; b]; (v ::.) <$> unquote_body r
              | _ => None
              end
            else if k =? 117 then
              match l2 with
              | a :: b :: c :: d :: r => v ← unhex 0 [a; b; c; d]; (encode_rune v ++.) <$> unquote_body r
              | _ => None
              end
            else if k =? 85 then
              match l2 with
              | a :: b :: c :: d :: a' :: b' :: c' :: d' :: r =>
                  v ← unhex 0 [a; b; c; d; a'; b'; c'; d']; (encode_rune v ++.) <$> unquote_body r
              | _ => None
              end
            else v ← unescape k; (v ::.) <$> unquote_body l2
        | [] => None
        end
      else (c ::.) <$> unquote_body l1
  end.

Definition unquote (l : list Z) : option (list Z) :=
  match l with c :: l => if c =? 34 then unquote_body l else None | [] => None end.

(** [block] reads as [dec] wherever it stands. *)
Definition reads (block dec : list Z) : Prop :=
  forall rest out, unquote_body rest = Some out -> unquote_body (block ++ rest) = Some (dec ++ out).

(** ** The decoder *)

Lemma shift_add a b k : 0 <= b < k -> (a * k + b) / k = a /\ (a * k + b) mod k = b.
Proof.
  intros Hb. split.
  - symmetry. apply (Z.div_unique _ _ _ b); lia.
  - symmetry. apply (Z.mod_unique _ _ a); lia.
Qed.

Lemma within_spec lo hi b : within lo hi b = true <-> lo <= b <= hi.
Proof. unfold within. rewrite andb_true_iff, !Z.leb_le. done. Qed.

Lemma cont_spec b : cont b = true <-> 128 <= b <= 191.
Proof. apply within_spec. Qed.

(** A decoded rune encodes as the bytes it was read from. *)
Lemma rune_decoded l r w :
  decode_rune l = Some (r, w) ->
  128 <= r < 1114112 /\ exists rest, l = encode_rune r ++ rest /\ length (encode_rune r) = w.
Proof.
  destruct l as [|b0 [|b1 rest]]; [done..|]. simpl.
  destruct (within 194 223 b0) eqn:H2.
  { apply within_spec in H2. destruct (cont b1) eqn:Hc1; [|done]. apply cont_spec in Hc1. intros [= <- <-].
    destruct (shift_add (b0 - 192) (b1 - 128) 64) as [D M]; [lia|].
    unfold encode_rune. rewrite D, M.
    rewrite (proj2 (Z.ltb_ge _ 128)), (proj2 (Z.ltb_lt _ 2048)) by lia.
    split; [lia|]. exists rest. split; [|done]. simpl. repeat f_equal; lia. }
  destruct (within 224 239 b0) eqn:H3.
  { apply within_spec in H3. destruct rest as [|b2 rest]; [done|].
    destruct (within _ _ b1 && cont b2) eqn:Hc; [|done].
    apply andb_true_iff in Hc as [Hc1 Hc2]. apply within_spec in Hc1. apply cont_spec in Hc2. intros [= <- <-].
    assert (128 <= b1 <= 191 /\ (b0 = 224 -> 160 <= b1)) as [? ?]
      by (destruct (Z.eqb_spec b0 224), (Z.eqb_spec b0 237); lia). clear Hc1.
    set (r := (b0 - 224) * 4096 + (b1 - 128) * 64 + (b2 - 128)).
    destruct (shift_add ((b0 - 224) * 64 + (b1 - 128)) (b2 - 128) 64) as [D M]; [lia|].
    destruct (shift_add (b0 - 224) (b1 - 128) 64) as [D1 M1]; [lia|].
    assert (r = ((b0 - 224) * 64 + (b1 - 128)) * 64 + (b2 - 128)) as Hr by (unfold r; lia).
    assert (r / 4096 = b0 - 224) as D2
      by (change 4096 with (64 * 64); rewrite <- Z.div_div, Hr, D, D1 by lia; done).
    assert (2048 <= r < 65536) by (unfold r; lia).
    unfold encode_rune. rewrite (proj2 (Z.ltb_ge _ 128)), (proj2 (Z.ltb_ge _ 2048)), (proj2 (Z.ltb_lt _ 65536)) by lia.
    rewrite D2, Hr, D, M, M1. split; [lia|]. exists rest. split; [|done]. simpl. repeat f_equal; lia. }
  destruct (within 240 244 b0) eqn:H4; [|done].
  apply within_spec in H4. destruct rest as [|b2 [|b3 rest]]; [done..|].
  destruct (within _ _ b1 && cont b2 && cont b3) eqn:Hc; [|done].
  apply andb_true_iff in Hc as [[Hc1 Hc2]%andb_true_iff Hc3].
  apply within_spec in Hc1. apply cont_spec in Hc2, Hc3. intros [= <- <-].
  assert (128 <= b1 <= 191 /\ (b0 = 240 -> 144 <= b1) /\ (b0 = 244 -> b1 <= 143)) as (? & ? & ?)
    by (destruct (Z.eqb_spec b0 240), (Z.eqb_spec b0 244); lia). clear Hc1.
  set (r := (b0 - 240) * 262144 + (b1 - 128) * 4096 + (b2 - 128) * 64 + (b3 - 128)).
  destruct (shift_add (((b0 - 240) * 64 + (b1 - 128)) * 64 + (b2 - 128)) (b3 - 128) 64) as [D M]; [lia|].
  destruct (shift_add ((b0 - 240) * 64 + (b1 - 128)) (b2 - 128) 64) as [D1 M1]; [lia|].
  destruct (shift_add (b0 - 240) (b1 - 128) 64) as [D2 M2]; [lia|].
  assert (r = (((b0 - 240) * 64 + (b1 - 128)) * 64 + (b2 - 128)) * 64 + (b3 - 128)) as Hr by (unfold r; lia).
  assert (r / 4096 = (b0 - 240) * 64 + (b1 - 128)) as E1
    by (change 4096 with (64 * 64); rewrite <- Z.div_div, Hr, D, D1 by lia; done).
  assert (r / 262144 = b0 - 240) as E2
    by (change 262144 with (4096 * 64); rewrite <- Z.div_div, E1, D2 by lia; done).
  assert (65536 <= r < 1114112) by (unfold r; lia).
  unfold encode_rune. rewrite (proj2 (Z.ltb_ge _ 128)), (proj2 (Z.ltb_ge _ 2048)), (proj2 (Z.ltb_ge _ 65536)) by lia.
  rewrite E2, E1, Hr, D, M, M1, M2. split; [lia|]. exists rest. split; [|done]. simpl. repeat f_equal; lia.
Qed.

(** ** Escapes read back *)

Lemma reads_nil : reads [] [].
Proof. intros rest out Hr. exact Hr. Qed.

Lemma reads_app a b x y : reads a x -> reads b y -> reads (a ++ b) (x ++ y).
Proof. intros Ha Hb rest out Hr. rewrite <- !(assoc_L (++)). by apply Ha, Hb. Qed.

(** A byte that is neither the quote nor the backslash reads as itself. *)
Lemma reads_plain b : b <> 34 -> b <> 92 -> reads [b] [b].
Proof.
  intros H1 H2 rest out Hr. simpl.
  rewrite (proj2 (Z.eqb_neq b 34) H1), (proj2 (Z.eqb_neq b 92) H2), Hr. done.
Qed.

Lemma reads_unescape k v : unescape k = Some v -> k <> 120 -> k <> 117 -> k <> 85 -> reads [92; k] [v].
Proof.
  intros Hk H1 H2 H3 rest out Hr. simpl.
  rewrite (proj2 (Z.eqb_neq k 120) H1), (proj2 (Z.eqb_neq k 117) H2), (proj2 (Z.eqb_neq k 85) H3), Hk, Hr. done.
Qed.

Lemma unhex_lowerhex d : 0 <= d < 16 -> unhex_digit (lowerhex d) = Some d.
Proof.
  intros Hd. unfold unhex_digit, lowerhex, within. destruct (Z.ltb_spec d 10).
  - rewrite (proj2 (andb_true_iff _ _)) by lia. f_equal. lia.
  - replace ((48 <=? 87 + d) && (87 + d <=? 57)) with false by lia.
    rewrite (proj2 (andb_true_iff _ _)) by lia. f_equal. lia.
Qed.

Lemma unhex_hex n z : forall acc, unhex acc (hex n z) = Some (acc * 16 ^ Z.of_nat n + z mod 16 ^ Z.of_nat n).
Proof.
  induction n as [|n IH]; intros acc.
  - simpl. rewrite Z.mod_1_r. f_equal. lia.
  - cbn [hex unhex]. rewrite unhex_lowerhex by (apply Z.mod_pos_bound; lia). simpl. rewrite IH. f_equal.
    rewrite Nat2Z.inj_succ, Z.pow_succ_r by lia. set (p := 16 ^ Z.of_nat n).
    assert (0 < p) by (apply Z.pow_pos_nonneg; lia).
    rewrite (Z.mul_comm 16 p), Z.rem_mul_r by lia. lia.
Qed.

Lemma hex_small n z : 0 <= z < 16 ^ Z.of_nat n -> unhex 0 (hex n z) = Some z.
Proof. intros Hz. rewrite unhex_hex, Z.mod_small by done. done. Qed.

Lemma reads_hex2 b : 0 <= b < 256 -> reads (92 :: 120 :: hex 2 b) [b].
Proof.
  intros Hb rest out Hr. pose proof (hex_small 2 b Hb) as Hh.
  cbn [hex app unquote_body] in *. cbn [Z.eqb Pos.eqb]. rewrite Hh, Hr. done.
Qed.

Lemma reads_hex4 r : 0 <= r < 65536 -> reads (92 :: 117 :: hex 4 r) (encode_rune r).
Proof.
  intros Hb rest out Hr. pose proof (hex_small 4 r Hb) as Hh.
  cbn [hex app unquote_body] in *. cbn [Z.eqb Pos.eqb]. rewrite Hh, Hr. done.
Qed.

Lemma reads_hex8 r : 0 <= r < 1114112 -> reads (92 :: 85 :: hex 8 r) (encode_rune r).
Proof.
  intros Hb rest out Hr. assert (unhex 0 (hex 8 r) = Some r) as Hh by (apply hex_small; lia).
  cbn [hex app unquote_body] in *. cbn [Z.eqb Pos.eqb]. rewrite Hh, Hr. done.
Qed.

(** ** Text without markup *)

Definition clean (l : list Z) : Prop := filter (fun b => is_markup b = true) l = [].

Lemma clean_app a b : clean (a ++ b) <-> clean a /\ clean b.
Proof. unfold clean. rewrite filter_app. split; [apply app_eq_nil | by intros [-> ->]]. Qed.

Lemma clean_cons c l : clean (c :: l) <-> is_markup c = false /\ clean l.
Proof. unfold clean. rewrite filter_cons. case_decide as Hc; destruct (is_markup c); naive_solver. Qed.

Lemma clean_forall l : clean l <-> Forall (fun b => is_markup b = false) l.
Proof.
  induction l as [|c l IH]; [by split|]. rewrite clean_cons, Forall_cons, IH. done.
Qed.

Lemma markupEscaper_app a b : markupEscaper (a ++ b) = markupEscaper a ++ markupEscaper b.
Proof. apply flat_map_app. Qed.

Lemma markupEscaper_clean l : clean l -> markupEscaper l = l.
Proof.
  induction l as [|c l IH]; [done|]. rewrite clean_cons. intros [Hc Hl].
  simpl. unfold escape_markup. rewrite Hc, IH by done. done.
Qed.

Lemma lowerhex_clean d : 0 <= d < 16 -> is_markup (lowerhex d) = false.
Proof. intros Hd. unfold is_markup, lowerhex. destruct (Z.ltb_spec d 10); lia. Qed.

Lemma hex_clean n z : clean (hex n z).
Proof.
  induction n as [|n IH]; [done|]. apply clean_cons. split; [|done].
  apply lowerhex_clean, Z.mod_pos_bound. lia.
Qed.

Lemma markupEscaper_always_clean l : clean (markupEscaper l).
Proof.
  induction l as [|c l IH]; [done|]. simpl. apply clean_app. split; [|done].
  unfold escape_markup. destruct (is_markup c) eqn:Hc.
  - apply clean_cons. split; [done|]. apply clean_cons. split; [done | apply hex_clean].
  - by apply clean_cons.
Qed.

(** The bytes of the escapes are untouched by the second pass. *)
Lemma reads_clean l dec : clean l -> reads l dec -> reads (markupEscaper l) dec.
Proof. intros Hl Hr. by rewrite markupEscaper_clean. Qed.

Lemma reads_markup b : 0 <= b < 256 -> b <> 34 -> b <> 92 -> reads (escape_markup b) [b].
Proof.
  intros Hb H1 H2. unfold escape_markup. destruct (is_markup b); [by apply reads_hex2 | by apply reads_plain].
Qed.

Lemma reads_bytes l :
  Forall (fun b => 0 <= b < 256 /\ b <> 34 /\ b <> 92) l -> reads (markupEscaper l) l.
Proof.
  induction 1 as [|b l (Hb & H1 & H2) _ IH]; [apply reads_nil|].
  apply (reads_app _ _ [b] l); [by apply reads_markup | exact IH].
Qed.

Section reversible.
Context {printing : Printing}.

Lemma encode_rune_bytes r : 128 <= r < 1114112 -> Forall (fun b => 0 <= b < 256 /\ b <> 34 /\ b <> 92) (encode_rune r).
Proof.
  intros Hr. unfold encode_rune. rewrite (proj2 (Z.ltb_ge r 128)) by lia.
  pose proof (Z.mod_pos_bound r 64). pose proof (Z.mod_pos_bound (r / 64) 64).
  pose proof (Z.mod_pos_bound (r / 4096) 64).
  destruct (Z.ltb_spec r 2048).
  { assert (0 <= r / 64 < 32) by (split; [apply Z.div_pos | apply Z.div_lt_upper_bound]; lia).
    repeat constructor; lia. }
  destruct (Z.ltb_spec r 65536).
  { assert (0 <= r / 4096 < 16) by (split; [apply Z.div_pos | apply Z.div_lt_upper_bound]; lia).
    repeat constructor; lia. }
  assert (0 <= r / 262144 < 5) by (split; [apply Z.div_pos | apply Z.div_lt_upper_bound]; lia).
  repeat constructor; lia.
Qed.

Lemma reads_encode r : 0 <= r < 1114112 -> r <> 34 -> r <> 92 -> reads (markupEscaper (encode_rune r)) (encode_rune r).
Proof.
  intros Hr H1 H2. apply reads_bytes. destruct (Z.ltb_spec r 128).
  - unfold encode_rune. rewrite (proj2 (Z.ltb_lt r 128)) by done. repeat constructor; lia.
  - apply encode_rune_bytes. lia.
Qed.

Lemma encode_ascii r : r < 128 -> encode_rune r = [r].
Proof. intros Hr. unfold encode_rune. by rewrite (proj2 (Z.ltb_lt r 128)). Qed.

(** Escaping a code point, with or without the pass over the markup. *)
Lemma reads_escape_rune r : 0 <= r < 1114112 -> reads (markupEscaper (escape_rune r)) (encode_rune r).
Proof.
  intros Hr. unfold escape_rune.
  destruct ((r =? 34) || (r =? 92)) eqn:Hq.
  { assert (r = 34 \/ r = 92) as [->| ->] by lia; by apply reads_unescape. }
  destruct (IsPrint r); [apply reads_encode; lia|].
  repeat match goal with
  | |- reads (markupEscaper (if r =? ?c then _ else _)) _ =>
      destruct (Z.eqb_spec r c) as [->|?]; [by apply reads_unescape|]
  end.
  destruct ((r <? 32) || (r =? 127)) eqn:Hc.
  { rewrite encode_ascii by lia. apply reads_clean; [|apply reads_hex2; lia].
    by repeat (apply clean_cons; split; [done|]); apply (hex_clean 2). }
  destruct (Z.ltb_spec r 65536).
  - apply reads_clean; [|apply reads_hex4; lia].
    by repeat (apply clean_cons; split; [done|]); apply (hex_clean 4).
  - apply reads_clean; [|apply reads_hex8; lia].
    by repeat (apply clean_cons; split; [done|]); apply (hex_clean 8).
Qed.

Lemma reads_quote_body n : forall l,
  (length l <= n)%nat -> bytes_ok l = true -> reads (markupEscaper (quote_body n l)) l.
Proof.
  induction n as [|n IH]; intros [|b l] Hn Hl; try apply reads_nil; [simpl in Hn; lia|].
  pose proof Hl as [Hb Hl']%andb_true_iff. apply is_byte_spec in Hb. simpl in Hn.
  cbn [quote_body]. destruct (Z.ltb_spec b 128).
  { rewrite markupEscaper_app. apply (reads_app _ _ [b] l); [|apply IH; [lia | done]].
    rewrite <- (encode_ascii b) by done. apply reads_escape_rune. lia. }
  destruct (decode_rune (b :: l)) as [[r w]|] eqn:Hd.
  - apply rune_decoded in Hd as (Hr & rest & He & Hw). rewrite He, <- Hw, drop_app_length, markupEscaper_app.
    rewrite He, bytes_ok_app in Hl. apply andb_true_iff in Hl as [_ Hrest].
    apply reads_app; [apply reads_escape_rune; lia|]. apply IH; [|done].
    apply (f_equal length) in He. rewrite length_app in He. simpl in He.
    assert (0 < length (encode_rune r))%nat; [|lia].
    unfold encode_rune. repeat case_match; simpl; lia.
  - change (reads (markupEscaper ((92 :: 120 :: hex 2 b) ++ quote_body n l)) ([b] ++ l)).
    rewrite markupEscaper_app. apply reads_app; [|apply IH; [lia | done]].
    apply reads_clean; [|by apply reads_hex2].
    by repeat (apply clean_cons; split; [done|]); apply (hex_clean 2).
Qed.

(** the literal [quoteASCII] renders for a payload reads back as the payload, bytes
    that are no UTF-8 and escaped markup included: distinct payloads have distinct
    renderings. *)
Theorem quote_reversible (s : string) : unquote (quoteASCII s) = Some (bytes_of_string s).
Proof.
  unfold quoteASCII, Quote. simpl. rewrite markupEscaper_app.
  pose proof (reads_quote_body (length (bytes_of_string s)) (bytes_of_string s) (le_n _) (bytes_of_string_ok s)) as Hr.
  rewrite (Hr (markupEscaper [34]) [] eq_refl). by rewrite app_nil_r.
Qed.

Lemma quoteASCII_clean s : clean (quoteASCII s).
Proof. apply markupEscaper_always_clean. Qed.
End reversible.

(** ** The markup of a rendering *)

(** The brackets an item opens and closes. *)
Definition skeleton_children (skel : item -> list Z) : list gval -> list Z :=
  fix go vs :=
    match vs with
    | [] => []
    | v :: vs => match v with VItem (Some c) => skel c | _ => [] end ++ go vs
    end.

Fixpoint skeleton (it : item) : list Z :=
  match it with
  | Item f vs => 60 :: (if f =? FormatList then skeleton_children skeleton vs else []) ++ [62]
  end.

Definition markup_of (l : list Z) : list Z := filter (fun b => is_markup b = true) l.

Lemma pretty_go_clean x : forall s, clean (bytes_of_string s) -> clean (bytes_of_string (pretty_N_go x s)).
Proof.
  induction (N.lt_wf_0 x) as [x _ IH]; intros s Hs.
  assert (x = 0 \/ 0 < x)%N as [->|Hx] by lia; [by rewrite pretty_N_go_0|].
  rewrite pretty_N_go_step by done. apply IH; [apply N.div_lt; lia|].
  simpl. apply clean_cons. split; [|done].
  unfold pretty_N_char. by repeat case_match.
Qed.

Lemma number_clean z : clean (number z).
Proof.
  assert (forall x, clean (bytes_of_string (pretty (N.pos x)))) as Hp by (intros x; by apply pretty_go_clean).
  destruct z as [|x|x]; [done | apply Hp|]. apply clean_cons. split; [done | apply Hp].
Qed.

Lemma markup_of_clean l : clean l -> markup_of l = [].
Proof. done. Qed.

Lemma markup_of_app a b : markup_of (a ++ b) = markup_of a ++ markup_of b.
Proof. apply filter_app. Qed.

Lemma indentation_clean depth : clean (indentation depth).
Proof. induction depth as [|d IH]; [done|]. by apply clean_app. Qed.

Lemma hex_text_clean data : clean (hex_text data).
Proof. induction data as [|b l IH]; [done|]. apply (clean_app (hex 2 b)). split; [apply hex_clean | done]. Qed.

Lemma slice_text_clean ws : Forall clean ws -> clean (slice_text ws).
Proof.
  intros Hw. unfold slice_text. apply clean_app. split; [done|]. apply clean_app. split; [|done].
  induction Hw as [|w ws Hw Hws IH]; [done|]. destruct ws as [|w' ws]; [done|].
  apply (clean_app w). split; [done|]. by apply clean_app.
Qed.

Lemma Format_String_clean f : clean (text (Format_String f)).
Proof. unfold Format_String. by repeat case_match. Qed.

(** A line with one item: its two brackets. *)
Lemma scalar_markup depth name n body :
  clean (text name) -> clean body -> markup_of (scalar_text depth name n body) = [60; 62].
Proof.
  intros Hn Hb. unfold scalar_text. rewrite !markup_of_app.
  rewrite (markup_of_clean _ (indentation_clean depth)), (markup_of_clean _ Hn),
    (markup_of_clean _ (number_clean n)), (markup_of_clean _ Hb). done.
Qed.

Section rendering.
Context {printing : Printing}.

Lemma plain_clean s : existsb is_markup (bytes_of_string s) = false -> clean (text s).
Proof.
  unfold text. induction (bytes_of_string s) as [|b l IH]; [done|]. simpl.
  rewrite orb_false_iff, clean_cons. naive_solver.
Qed.

Lemma render_children_markup render depth cs :
  Forall (fun c => post (render depth c) (fun t => markup_of t = skeleton c)) cs ->
  post (render_children render depth ((VItem ∘ Some) <$> cs))
       (fun t => markup_of t = skeleton_children skeleton ((VItem ∘ Some) <$> cs)).
Proof.
  induction 1 as [|c cs Hc _ IH]; [done|]. simpl.
  eapply post_bind; [exact Hc|]. intros t Ht. eapply post_bind; [exact IH|]. intros rest Hrest.
  simpl. rewrite !markup_of_app, Ht. f_equal. exact Hrest.
Qed.

(** The values of a numeric item convert, to text without markup. *)
Lemma floats_clean f vs :
  f = FormatF4 \/ f = FormatF8 -> forallb (value_ok f) vs = true ->
  post (mapM (float_text f) vs) (Forall clean).
Proof.
  intros Hf. induction vs as [|v vs IH]; [by constructor|]. simpl. rewrite andb_true_iff. intros [Hv Hvs].
  eapply (post_bind _ _ clean).
  - destruct v; destruct Hf as [-> | ->]; try discriminate Hv; apply plain_clean;
      [apply float32_plain | apply float64_plain].
  - intros w Hw. eapply post_bind; [by apply IH|]. intros ws Hws. by constructor.
Qed.

Lemma or_nil_post {A} (zero : A) m : returns m = true -> post (or_nil zero m) (fun _ => True).
Proof. destruct m; done. Qed.

Lemma values_return {A} (f : gval -> result access_error A) vs :
  (forall v, v ∈ vs -> returns (f v) = true) -> returns (mapM f vs) = true.
Proof.
  induction vs as [|v vs IH]; intros Hf; [done|]. simpl.
  assert (returns (f v) = true) as Hv by (apply Hf; by left).
  assert (returns (mapM f vs) = true) as Hvs by (apply IH; intros ??; apply Hf; by right).
  destruct (f v); try done. simpl. by destruct (mapM f vs).
Qed.

Lemma int64s_return it : returns (ToInt64s it) = true.
Proof. apply values_return. by intros []. Qed.

Lemma uint64s_return it : returns (ToUint64s it) = true.
Proof. apply values_return. by intros []. Qed.

Lemma booleans_return vs : forallb (value_ok FormatBoolean) vs = true -> returns (ToBooleans (Item FormatBoolean vs)) = true.
Proof.
  intros Hv. apply values_return. intros v Hin.
  apply list_elem_of_In in Hin. apply (proj1 (forallb_forall _ _) Hv) in Hin. by destruct v.
Qed.

(** A line of numbers or truth values. *)
Lemma slice_markup {A} depth name (m : result access_error (list A)) (show : A -> list Z) :
  returns m = true -> clean (text name) -> (forall a, clean (show a)) ->
  post (vals ← or_nil [] m; Ok (scalar_text depth name (len vals) (slice_text (show <$> vals))))
       (fun t => markup_of t = [60; 62]).
Proof.
  intros Hm Hname Hshow. eapply post_bind; [by apply or_nil_post|]. intros vals _.
  apply scalar_markup; [done|]. apply slice_text_clean, Forall_fmap, Forall_true, Hshow.
Qed.

Lemma scalar_skeleton f vs : f <> FormatList -> skeleton (Item f vs) = [60; 62].
Proof. intros Hf. simpl. by rewrite (proj2 (Z.eqb_neq _ _) Hf). Qed.
End rendering.

Section markup.
Context {printing : Printing}.

Lemma format_list depth vs :
  formatString depth (Item FormatList vs) =
  (if len vs =? 0 then Ok (indentation depth ++ text "<L [0]>")
   else
     body ← render_children formatString (S depth) vs;
     Ok (indentation depth ++ text "<L [" ++ number (len vs) ++ text "]" ++ [10] ++ body ++ indentation depth ++ text ">")).
Proof. done. Qed.

Lemma format_markup it depth :
  well_formed it = true -> post (formatString depth it) (fun t => markup_of t = skeleton it).
Proof.
  revert depth. induction it as [f vs IH] using item_tree_ind. intros depth Hwf.
  destruct (well_formed_cases _ _ Hwf) as [cs -> -> Hlen Hcs | s -> -> | b -> -> | [-> | ->] -> | Hf Hv _].
  - rewrite format_list. destruct (len _ =? 0) eqn:Hl.
    { destruct cs as [|c cs]; [|by apply Z.eqb_eq in Hl].
      cbn [post]. rewrite markup_of_app, (markup_of_clean _ (indentation_clean _)). done. }
    eapply post_bind; [apply (render_children_markup formatString)|].
    { apply Forall_forall. intros d Hd. apply IH; [by apply (list_elem_of_fmap_2 (VItem ∘ Some))|].
      by apply (proj1 (forallb_forall _ _) Hcs), list_elem_of_In. }
    intros t Ht. cbn [post]. rewrite !markup_of_app, Ht.
    rewrite (markup_of_clean _ (indentation_clean depth)), (markup_of_clean _ (number_clean _)). done.
  - apply scalar_markup; [done | apply quoteASCII_clean].
  - apply scalar_markup; [done | apply hex_text_clean].
  - apply scalar_markup; [done | apply quoteASCII_clean].
  - apply scalar_markup; [done | apply hex_text_clean].
  - assert (f <> FormatList) as Hne by (intros ->; discriminate Hf). rewrite scalar_skeleton by done.
    unfold is_scalar in Hf. apply existsb_exists in Hf as (g & Hg & ->%Z.eqb_eq).
    repeat destruct Hg as [<-|Hg]; try done;
    first
      [ apply (slice_markup _ "BOOLEAN"); [by apply booleans_return | done | by intros []]
      | apply slice_markup; [apply int64s_return | done | apply number_clean]
      | apply slice_markup; [apply uint64s_return | done | apply number_clean]
      | eapply post_bind; [eapply floats_clean; [auto | exact Hv]|]; intros ws Hws;
        apply scalar_markup; [done | by apply slice_text_clean] ].
Qed.

(** C26: rendering a well-formed item returns a text, and the only markup characters in
    it are the brackets of the items of the tree, properly nested: no string payload
    adds one, nor an ampersand. *)
Theorem markup_safe it depth :
  well_formed it = true -> exists t, formatString depth it = Ok t /\ markup_of t = skeleton it.
Proof.
  intros Hwf. pose proof (format_markup it depth Hwf) as Hp.
  destruct (formatString depth it) as [t|[]| |] eqn:E; [|done..]. by exists t.
Qed.
End markup.

(** Every float as one digit. *)
Definition zero_floats : Printing.
Proof. refine {| is_print _ := true; float32_text _ := "0"; float64_text _ := "0" |}; by intros. Defined.

Definition script_tag : item := NewList [Some (NewASCII "<script>&"); Some (NewList []); Some (NewF4 [0])].

Lemma markup_safe_witness :
  exists t, formatString (printing:=zero_floats) 0 script_tag = Ok t /\ markup_of t = [60; 60; 62; 60; 62; 60; 62; 62].
Proof. apply (markup_safe (printing:=zero_floats) script_tag 0). reflexivity. Defined.

Example script_text :
  Item_String (printing:=zero_floats) script_tag =
  Ok ("<L [3]" +:+ string_of_bytes [10] +:+ "  <A [9] " +:+ string_of_bytes [34] +:+ "\x3cscript\x3e\x26"
      +:+ string_of_bytes [34] +:+ ">" +:+ string_of_bytes [10] +:+ "  <L [0]>" +:+ string_of_bytes [10]
      +:+ "  <F4 [1] [0]>" +:+ string_of_bytes [10] +:+ ">").
Proof. reflexivity. Qed.
