(* ===== verification/Studio.v ===== *)
(** * The Studio server

    [src/pkg/studio/server.go]: the web server in front of a host of [Host], with the
    trace of the requests the host makes and the replies it takes, the sockets the trace
    is broadcast to, the commands a socket may send and the REST endpoints.

    [host], [trace], [traceID] and [clients] are the fields of the code.  [started] holds
    the writes to the sockets that have been started, oldest first: each write of a
    broadcast is a goroutine of its own with a deadline, so the writes to one client may
    end in any order and any of them may fail; [arrives] is what they can bring to a
    client.  A text
    from a socket carries what decoding its data gives for the structs the commands
    decode it into.  The host's session is a type with the operations the server needs
    of it ([Driven]); [Link] is one.  [websocket.Accept] and [url.Parse] are parameters,
    [clock] the instant an entry is made; the validators of states and of timing are
    created by the code and never used. *)

From stdpp Require Import prelude gmap strings list pretty.
From Stdlib Require Import ZArith Lia Floats.SpecFloat.
From S2P Require Import Prelude GoStrings Auth Secs2Item Secs2Codec HsmsMessage Transport Policy HsmsSession HsmsProtocol.
From S2P Require Import GemVariables GemCommands GemHandler Schema Conformance Faults Simulator Host Sml Script ItemText.

#[local] Open Scope Z_scope.

(** ** Configuration, requests, responses *)

Record Config := mkConfig {
  EquipmentAddr : string;
  sc_SessionID : Z;
  AllowedOrigins : list string;
  Token : string;
  SimulatorDemo : bool;
  LoopbackOnly : bool;
}.

(** [token_query] is [r.URL.Query().Get("token")]. *)
Record HttpRequest := mkHttp {
  Method : string;
  Path : string;
  Authorization : string;
  Origin : string;
  token_query : string;
}.

Record TraceEntry := mkEntry {
  ID : Z;
  Timestamp : Z;
  Direction : Flow;
  te_Stream : Z;
  te_Function : Z;
  te_WBit : bool;
  BodySML : string;
  Validation : list ValidationResult;
}.

Inductive fault_text := Text (message : string) | SMLError (e : sml_error).

(** The envelopes the server writes to a socket. *)
Inductive envelope :=
| EnvTrace (e : TraceEntry)
| EnvError (message : fault_text)
| EnvScriptResult (r : ScriptResult)
| EnvReport (r : CoverageReport)
| EnvStatus (connected embedded : bool) (traceCount : Z).

(** An envelope read from a socket: [None] where its data does not decode. *)
Record WSMessage := mkWS {
  Type_ : string;
  send_data : option (Z * Z * bool * string);   (* stream, function, wbit, body *)
  name_data : option string;
  type_data : option string;
  index_data : option Z;
}.

Inductive reply_body :=
| NoBody
| StaticFile (path : string)
| Health
| Unauthorized
| StatusData (connected embedded : bool) (traceCount : Z)
| ReportData (r : CoverageReport)
| TraceData (l : list TraceEntry).

Record Response := mkResponse { StatusCode : Z; Headers : list (string * string); Body : reply_body }.

(** What the server needs of the session under its host, besides sending: the fault
    injector without a raw connection, and closing, with the embedded equipment if there
    is one. *)
Class Driven (T : Type) := {
  driven_sender :: Sender T;
  inject_fault : FaultType -> T -> T;
  hang_up : bool -> T -> T;
}.

Record Server (T : Type) := mkServer {
  config : Config;
  schemas : SchemaRegistry;
  host : option (Host T);
  equip : bool;
  clients : gset Z;
  trace : list TraceEntry;
  traceID : Z;
  started : list (Z * envelope);
}.

Arguments mkServer {T}. Arguments config {T}. Arguments schemas {T}. Arguments host {T}. Arguments equip {T}.
Arguments clients {T}. Arguments trace {T}. Arguments traceID {T}. Arguments started {T}.

Definition NewServer {T} (cfg : Config) : Server T := mkServer cfg DefaultRegistry None false ∅ [] 0 [].

Definition studio_equipment (cfg : Config) : EquipmentConfig :=
  mkEquipmentConfig "127.0.0.1:0" (sc_SessionID cfg) "STUDIO-EQUIP" "1.0.0" (5 * second) true.

Definition simulatorDemo (cfg : Config) : bool := SimulatorDemo cfg && bool_decide (EquipmentAddr cfg = "").

Definition privileged (cfg : Config) : bool := bool_decide (Token cfg <> "") || LoopbackOnly cfg || simulatorDemo cfg.

Definition mutatingWSCommands : list string := ["send"; "quick_send"; "fault"; "run_script"].
Definition IsMutatingWSCommand (cmd : string) : bool := bool_decide (cmd ∈ mutatingWSCommands).

(** [url_host]: the host of an origin that parses as a URL. *)
Fixpoint originPatterns (url_host : string -> option string) (origins : list string) : list string :=
  match origins with
  | [] => []
  | o :: origins =>
      let host := match url_host o with Some h => if decide (h = "") then o else h | None => o end in
      (if decide (host = "") then [] else [host]) ++ originPatterns url_host origins
  end.

Section server.
Context {T : Type} `{!Driven T} {printing : Printing} `{!Floats, !Unicode, !MapOrder string, !MapOrder (Z * Z)}.
Context (clock : Z -> Z) (cancelled : Z -> bool) (url_host : string -> option string)
        (ws_accepts : list string -> HttpRequest -> bool).
Implicit Types s : Server T.

Definition set_host (h : option (Host T)) s : Server T :=
  mkServer (config s) (schemas s) h (equip s) (clients s) (trace s) (traceID s) (started s).
Definition set_clients (cs : gset Z) s : Server T :=
  mkServer (config s) (schemas s) (host s) (equip s) cs (trace s) (traceID s) (started s).
Definition set_trace (l : list TraceEntry) s : Server T :=
  mkServer (config s) (schemas s) (host s) (equip s) (clients s) l (traceID s) (started s).

Definition sendTo (c : Z) (e : envelope) s : Server T :=
  mkServer (config s) (schemas s) (host s) (equip s) (clients s) (trace s) (traceID s) (started s ++ [(c, e)]).

Definition broadcast (e : envelope) s : Server T :=
  mkServer (config s) (schemas s) (host s) (equip s) (clients s) (trace s) (traceID s)
    (started s ++ ((fun c => (c, e)) <$> elements (clients s))).

(** ** The trace *)

Definition body_text (body : option item) : result Empty_set string :=
  match body with None => Ok "" | Some it => Item_String it end.

(** The entry with number [id]; [WBit] is left at its zero value. *)
Definition entry (id : Z) (i : interception) (sml : string) : TraceEntry :=
  mkEntry id (clock id) (i_dir i) (i_stream i) (i_function i) false sml (i_results i).

Definition onMessage (i : interception) s : result Empty_set (Server T) :=
  sml ← body_text (i_body i);
  let id := wrap 64 (traceID s + 1) in
  let e := entry id i sml in
  Ok (broadcast (EnvTrace e)
        (mkServer (config s) (schemas s) (host s) (equip s) (clients s) (trace s ++ [e]) id (started s))).

Fixpoint observe (calls : list interception) s : result Empty_set (Server T) :=
  match calls with [] => Ok s | i :: calls => s ← onMessage i s; observe calls s end.

(** The calls of the interceptor a host has made since it was [h]. *)
Definition calls (h : Host T) : list interception := default [] (intercept h).
Definition new_calls (h h' : Host T) : list interception := drop (length (calls h)) (calls h').

(** The host is driven, and the trace follows; an error is dropped, and a panic is the
    end of the goroutine. *)
Definition driven {E A} (r : result E A) (h' : Host T) (h : Host T) s : result Empty_set (option A * Server T) :=
  s ← observe (new_calls h h') (set_host (Some h') s);
  match r with
  | Ok a => Ok (Some a, s)
  | Err _ => Ok (None, s)
  | Panic p => Panic p
  | OutOfFuel => OutOfFuel
  end.

Definition drive {E A} (f : Host T -> result E A * Host T) (h : Host T) s : result Empty_set (Server T) :=
  let '(r, h') := f h in '(_, s) ← driven r h' h s; Ok s.

(** ** Commands of a socket *)

Definition not_connected : envelope := EnvError (Text "host not connected").

Definition handleWSSend (m : WSMessage) s : result Empty_set (Server T) :=
  match send_data m with
  | None => Ok s
  | Some (stream, function, wbit, text) =>
      match host s with
      | None => Ok (broadcast not_connected s)
      | Some h =>
          match parse_body text with
          | Ok body => drive (SendRaw stream function wbit body) h s
          | Err e => Ok (broadcast (EnvError (SMLError e)) s)
          | Panic p => Panic p
          | OutOfFuel => OutOfFuel
          end
      end
  end.

Definition quick_command (name : string) : option (Host T -> result host_error (option item) * Host T) :=
  if decide (name = "establish_comm") then Some EstablishComm
  else if decide (name = "are_you_there") then Some AreYouThere
  else if decide (name = "request_online") then Some RequestOnline
  else if decide (name = "request_offline") then Some RequestOffline
  else if decide (name = "rcmd_start") then Some (SendRCMD "START" ∅)
  else None.

Definition handleWSQuickSend (m : WSMessage) s : result Empty_set (Server T) :=
  match name_data m with
  | None => Ok s
  | Some name =>
      match host s with
      | None => Ok (broadcast not_connected s)
      | Some h => match quick_command name with Some f => drive f h s | None => Ok s end
      end
  end.

(** [simulator.FaultType(cmd.Type)]; an unknown one is an error of [Inject]. *)
Definition fault_of (name : string) : option FaultType :=
  head (filter (fun f => FaultType_String f = name) AllFaultTypes).

Definition handleWSFault (m : WSMessage) s : Server T :=
  match type_data m, host s with
  | Some name, Some h =>
      match fault_of name with
      | Some f => set_host (Some (Host.set_session (inject_fault f (session h)) h)) s
      | None => s
      end
  | _, _ => s
  end.

Definition handleWSRunScript (m : WSMessage) s : result Empty_set (Server T) :=
  match index_data m, host s with
  | Some index, Some h =>
      if (index <? 0) || (len BuiltinScenarios <=? index) then Ok s
      else
        match BuiltinScenarios !! Z.to_nat index with
        | None => Panic IndexOutOfRange
        | Some script =>
            match Run cancelled script h with
            | Ok (r, h') =>
                '(r, s) ← driven (Ok (E:=host_error) r) h' h s;
                Ok (match r with Some r => broadcast (EnvScriptResult r) s | None => s end)
            | Err _ => Ok s
            | Panic p => Panic p
            | OutOfFuel => OutOfFuel
            end
        end
  | _, _ => Ok s
  end.

Definition sendStatus (c : Z) s : Server T :=
  sendTo c (EnvStatus (bool_decide (is_Some (host s))) (equip s) (len (trace s))) s.

Definition handleWSReport (c : Z) s : Server T := sendTo c (EnvReport (GenerateReport (schemas s))) s.

Definition refusal (cmd : string) : envelope :=
  EnvError (Text ("command '" +:+ cmd +:+ "' requires the studio token; start with --studio-token or " +:+ EnvStudioToken)).

Definition handleWSCommand (c : Z) (m : WSMessage) (priv : bool) s : result Empty_set (Server T) :=
  if IsMutatingWSCommand (Type_ m) && negb priv then Ok (sendTo c (refusal (Type_ m)) s)
  else if decide (Type_ m = "send") then handleWSSend m s
  else if decide (Type_ m = "quick_send") then handleWSQuickSend m s
  else if decide (Type_ m = "fault") then Ok (handleWSFault m s)
  else if decide (Type_ m = "run_script") then handleWSRunScript m s
  else if decide (Type_ m = "get_report") then Ok (handleWSReport c s)
  else if decide (Type_ m = "get_state") then Ok (sendStatus c s)
  else if decide (Type_ m = "clear_trace") then Ok (set_trace [] s)
  else Ok s.

(** ** Requests *)

Definition tokenOK (cfg : Config) (r : HttpRequest) : bool :=
  match BearerToken (Authorization r) with
  | Some presented => CompareToken (Token cfg) presented
  | None => CompareToken (Token cfg) (token_query r)
  end.

Definition unauthorized : Response := mkResponse 401 [("Content-Type", "application/json")] Unauthorized.

Definition with_headers (hs : list (string * string)) (r : Response) : Response :=
  mkResponse (StatusCode r) (hs ++ Headers r) (Body r).

Definition auth (cfg : Config) (next : Response) (r : HttpRequest) : Response :=
  if decide (Token cfg = "") then next
  else if tokenOK cfg r then next else unauthorized.

Definition cors (cfg : Config) (next : HttpRequest -> Response) (r : HttpRequest) : Response :=
  let allowed := OriginAllowed (AllowedOrigins cfg) (Origin r) in
  let hs := if allowed then
      [("Access-Control-Allow-Origin", Origin r); ("Access-Control-Allow-Methods", "GET, POST, OPTIONS");
       ("Access-Control-Allow-Headers", "Content-Type, Authorization"); ("Vary", "Origin")] else [] in
  if decide (Method r = "OPTIONS") then mkResponse (if allowed then 204 else 403) hs NoBody
  else with_headers hs (next r).

Definition json_response (b : reply_body) : Response := mkResponse 200 [("Content-Type", "application/json")] b.

Definition handleHealth : Response := json_response Health.
Definition handleStatus s : Response :=
  json_response (StatusData (bool_decide (is_Some (host s))) (equip s) (len (trace s))).
Definition handleReport s : Response := json_response (ReportData (GenerateReport (schemas s))).
Definition handleTrace s : Response := json_response (TraceData (trace s)).

Definition api (next : Response) s (r : HttpRequest) : Response := cors (config s) (auth (config s) next) r.

(** The routes but [/ws], which is [handleWS], on a path the multiplexer has cleaned;
    [web] is the file server over the embedded pages, which answers 404 for a page there
    is not. *)
Definition serve (web : HttpRequest -> Response) (r : HttpRequest) s : Response :=
  if decide (Path r = "/health") then handleHealth
  else if decide (Path r = "/api/status") then api (handleStatus s) s r
  else if decide (Path r = "/api/report") then api (handleReport s) s r
  else if decide (Path r = "/api/trace") then api (handleTrace s) s r
  else web r.

(** ** The life of a socket *)

Inductive ws_answer := Rejected | NotAccepted | Opened.

(** Up to the loop of [handleWS]: the token is looked at before the upgrade. *)
Definition ws_open (c : Z) (r : HttpRequest) s : ws_answer * Server T :=
  if bool_decide (Token (config s) <> "") && negb (tokenOK (config s) r) then (Rejected, s)
  else if negb (ws_accepts (originPatterns url_host (AllowedOrigins (config s))) r) then (NotAccepted, s)
  else (Opened, sendStatus c (set_clients ({[c]} ∪ clients s) s)).

(** One round of the loop: a text that does not decode is skipped. *)
Definition ws_text (c : Z) (m : option WSMessage) s : result Empty_set (Server T) :=
  match m with None => Ok s | Some m => handleWSCommand c m (privileged (config s)) s end.

(** The deferred call. *)
Definition ws_close (c : Z) s : Server T := set_clients (clients s ∖ {[c]}) s.

Inductive event :=
| WsOpen (c : Z) (r : HttpRequest)
| WsText (c : Z) (m : option WSMessage)
| WsClose (c : Z).

(** A connection is new when it is opened, and read from only while it is open. *)
Definition step (e : event) s : result Empty_set (Server T) :=
  match e with
  | WsOpen c r => Ok (if decide (c ∈ clients s) then s else (ws_open c r s).2)
  | WsText c m => if decide (c ∈ clients s) then ws_text c m s else Ok s
  | WsClose c => Ok (ws_close c s)
  end.

Fixpoint run (es : list event) s : result Empty_set (Server T) :=
  match es with [] => Ok s | e :: es => s ← step e s; run es s end.

Definition StopAll s : Server T :=
  set_host ((fun h => Host.set_session (hang_up (equip s) (session h)) h) <$> host s) s.
End server.

(** [ConnectHost]: the host is kept when connecting fails too. *)
Definition ConnectHost (dial : bool) (env : HsmsSession.answer) (addr : string) (s : Server Session)
  : result host_error () * Server Session :=
  let h := SetInterceptor true (NewHost addr (sc_SessionID (config s))) in
  let '(r, h) := Host.Connect dial env h in (r, set_host (Some h) s).

(** [StartEquipment]: the equipment is noted before it listens. *)
Definition StartEquipment {T} `{!MapOrder Z} (rand : Z -> spec_float) (listen : bool) (s : Server T)
  : result send_error Equipment * Server T :=
  (Simulator.Start listen (NewEquipment rand (studio_equipment (config s))),
   mkServer (config s) (schemas s) (host s) true (clients s) (trace s) (traceID s) (started s)).

(** ** The trace follows the host *)

Section following.
Context {T : Type} `{!Driven T} {printing : Printing} `{!Floats, !Unicode, !MapOrder string, !MapOrder (Z * Z)}.
Context (clock : Z -> Z) (cancelled : Z -> bool) (url_host : string -> option string)
        (ws_accepts : list string -> HttpRequest -> bool).
Implicit Types s : Server T.
Implicit Types h : Host T.

(** How the session under a host with this session id and these schemas is used, and what
    the interceptor is told of it: of each request, once its body is encoded and before it
    is handed to the session; and then, next, of the reply the session returns for it, or
    of an empty one when it returns none, under the function after the request's, unless
    there is an error instead or the reply does not decode.  A fault may be injected
    between two requests. *)
Inductive requests (sid : Z) (reg : SchemaRegistry) : T -> list interception -> T -> Prop :=
| no_request t : requests sid reg t [] t
| fault_injected f t l t' : requests sid reg (inject_fault f t) l t' -> requests sid reg t l t'
| request_failed st f w body data rs t r t1 l t' :
    encode_request body = Ok data -> ValidateMessage reg st f body = Ok rs ->
    send_message (NewDataMessage sid st f w 0 data) t = (r, t1) ->
    match r with
    | Ok (Some m) => len (Data m) <> 0
        /\ forall it, Decode (Data m) = Ok it -> is_ok (ValidateMessage reg st (wrap 8 (f + 1)) (Some it)) = false
    | Ok None => False
    | _ => True
    end ->
    requests sid reg t1 l t' -> requests sid reg t (mkInterception DirTX st f body rs :: l) t'
| request_answered st f w body data rs t reply t1 body' rs' l t' :
    encode_request body = Ok data -> ValidateMessage reg st f body = Ok rs ->
    send_message (NewDataMessage sid st f w 0 data) t = (Ok reply, t1) ->
    match reply with
    | Some m =>
        if len (Data m) =? 0 then body' = None /\ rs' = []
        else exists it, Decode (Data m) = Ok it /\ body' = Some it /\ ValidateMessage reg st (wrap 8 (f + 1)) body' = Ok rs'
    | None => body' = None /\ rs' = []
    end ->
    requests sid reg t1 l t' ->
    requests sid reg t (mkInterception DirTX st f body rs :: mkInterception DirRX st (wrap 8 (f + 1)) body' rs' :: l) t'.

Lemma requests_app sid reg t1 l1 t2 l2 t3 :
  requests sid reg t1 l1 t2 -> requests sid reg t2 l2 t3 -> requests sid reg t1 (l1 ++ l2) t3.
Proof.
  induction 1; intros Happ; cbn [app]; [done | eapply fault_injected | eapply request_failed | eapply request_answered]; eauto.
Qed.

(** A host that is intercepted uses its session for requests only, and its interceptor is
    told of each. *)
Record talks h h' : Prop := {
  ta_sid : sessionID h' = sessionID h;
  ta_schemas : Host.schemas h' = Host.schemas h;
  ta_tapped : is_Some (intercept h) -> is_Some (intercept h');
  ta_calls : is_Some (intercept h) ->
    exists new, calls h' = calls h ++ new /\ requests (sessionID h) (Host.schemas h) (session h) new (session h');
}.

#[local] Instance talks_preorder : PreOrder talks.
Proof.
  split.
  - intros h. split; [done..|]. exists []. rewrite app_nil_r. split; [done | constructor].
  - intros h1 h2 h3 [S1 R1 P1 Q1] [S2 R2 P2 Q2]. split; [congruence | congruence | by auto |].
    intros Hi. destruct (Q1 Hi) as (l1 & H1 & W1), (Q2 (P1 Hi)) as (l2 & H2 & W2).
    exists (l1 ++ l2). rewrite H2, H1, app_assoc. split; [done|]. rewrite S1, R1 in W2. by eapply requests_app.
Qed.











(** The entries written to the socket [c]. *)
Definition traces_to (c : Z) (out : list (Z * envelope)) : list TraceEntry :=
  omap (fun p : Z * envelope => match p.2 with EnvTrace e => if decide (p.1 = c) then Some e else None | _ => None end) out.

Lemma traces_to_app c a b : traces_to c (a ++ b) = traces_to c a ++ traces_to c b.
Proof. apply omap_app. Qed.














Lemma omap_first {A B} (f : A -> option B) x l :
  omap f (x :: l) = match f x with Some y => y :: omap f l | None => omap f l end.
Proof. done. Qed.

(** A broadcast reaches every client once. *)
Lemma omap_chosen {A} (c : Z) (e : A) l :
  NoDup l -> omap (fun d => if decide (d = c) then Some e else None) l = if decide (c ∈ l) then [e] else [].
Proof.
  induction 1 as [|d l Hd Hl IH]; [done|]. rewrite omap_first. destruct (decide (d = c)) as [->|Hne].
  - rewrite (decide_True (P:=c ∈ c :: l)) by (by left). rewrite IH. by rewrite decide_False.
  - rewrite IH. destruct (decide (c ∈ l)).
    + by rewrite decide_True by (by right).
    + rewrite decide_False; [done|]. intros [->|?]%elem_of_cons; done.
Qed.

Lemma traces_to_each c e l :
  traces_to c ((fun d => (d, e)) <$> l)
  = match e with EnvTrace t => omap (fun d => if decide (d = c) then Some t else None) l | _ => [] end.
Proof.
  unfold traces_to. induction l as [|d l IH]; [by destruct e|]. rewrite fmap_cons, omap_first, IH. cbn [fst snd].
  destruct e; try done.
Qed.

Lemma traces_to_broadcast c e s :
  traces_to c (started (broadcast e s)) = traces_to c (started s) ++ (match e with EnvTrace t => if decide (c ∈ clients s) then [t] else [] | _ => [] end).
Proof.
  unfold broadcast. cbn [started]. rewrite traces_to_app, traces_to_each. f_equal.
  destruct e; try done. rewrite omap_chosen by apply NoDup_elements.
  destruct (decide (c ∈ clients s)); [rewrite decide_True | rewrite decide_False]; set_solver.
Qed.





















End following.

Section properties.
Context {T : Type} `{!Driven T} {printing : Printing} `{!Floats, !Unicode, !MapOrder string, !MapOrder (Z * Z)}.
Context (clock : Z -> Z) (cancelled : Z -> bool) (url_host : string -> option string)
        (ws_accepts : list string -> HttpRequest -> bool).
Implicit Types s : Server T.

(** ** Who may drive the equipment *)

(** [s'] is [s] up to the sockets and, perhaps, an emptied trace. *)
Definition undriven s s' : Prop :=
  config s' = config s /\ host s' = host s /\ traceID s' = traceID s /\ (trace s' = trace s \/ trace s' = []).

Lemma undriven_trans s1 s2 s3 : undriven s1 s2 -> undriven s2 s3 -> undriven s1 s3.
Proof. intros (? & ? & ? & ?) (? & ? & ? & ?). split_and!; try congruence. naive_solver congruence. Qed.

Lemma undriven_refl s : undriven s s.
Proof. split_and!; auto. Qed.

Lemma command_undriven c m s : exists s', handleWSCommand clock cancelled c m false s = Ok s' /\ undriven s s'.
Proof.
  unfold handleWSCommand. rewrite andb_true_r. destruct (IsMutatingWSCommand (Type_ m)) eqn:Hm.
  { eexists. split; [done|]. by split_and!; auto. }
  unfold IsMutatingWSCommand, mutatingWSCommands in Hm. apply bool_decide_eq_false in Hm.
  rewrite !decide_False by set_solver.
  repeat case_decide; eexists; (split; [done|]); split_and!; auto.
Qed.

Lemma step_unprivileged e s :
  privileged (config s) = false -> exists s', step clock cancelled url_host ws_accepts e s = Ok s' /\ undriven s s'.
Proof.
  intros Hp. destruct e as [c r|c [m|]|c]; cbn [step ws_text].
  - eexists. split; [done|]. case_decide; [apply undriven_refl|]. unfold ws_open. repeat case_match; split_and!; auto.
  - case_decide; [rewrite Hp; apply command_undriven | eexists; split; [done | apply undriven_refl]].
  - eexists. split; [by case_decide | apply undriven_refl].
  - eexists. split; [done | split_and!; auto].
Qed.

Lemma step_rejected e s :
  clients s = ∅ -> Token (config s) <> "" -> (forall c r, e = WsOpen c r -> tokenOK (config s) r = false) ->
  step clock cancelled url_host ws_accepts e s = Ok s.
Proof.
  intros Hc Ht He. destruct e as [c r|c m|c]; cbn [step].
  - case_decide; [done|]. unfold ws_open. rewrite (He c r) by done. by rewrite bool_decide_eq_true_2.
  - rewrite decide_False by set_solver. done.
  - unfold ws_close, set_clients. replace (clients s ∖ {[c]}) with (clients s) by set_solver. by destruct s.
Qed.

Lemma readonly_lemma es s :
  clients s = ∅ ->
  (forall c r, WsOpen c r ∈ es -> Token (config s) <> "" -> tokenOK (config s) r = false) ->
  (Token (config s) = "" -> LoopbackOnly (config s) = false /\ simulatorDemo (config s) = false) ->
  exists s', run clock cancelled url_host ws_accepts es s = Ok s'
    /\ host s' = host s /\ traceID s' = traceID s /\ (trace s' = trace s \/ trace s' = [])
    /\ (Token (config s) <> "" -> s' = s).
Proof.
  intros Hc Ho Hl. destruct (decide (Token (config s) = "")) as [Ht|Ht].
  - destruct (Hl Ht) as [Hlo Hd].
    assert (privileged (config s) = false) as Hp by (unfold privileged; by rewrite Ht, Hlo, Hd).
    assert (exists s', run clock cancelled url_host ws_accepts es s = Ok s' /\ undriven s s') as (s' & Hr & _ & Hh & Hi & Htr).
    { clear Hc Ho Hl Ht Hlo Hd. revert s Hp. induction es as [|e es IH]; intros s Hp.
      - eexists. split; [done | apply undriven_refl].
      - destruct (step_unprivileged e s Hp) as (s1 & Hs & Hu).
        destruct (IH s1) as (s2 & Hr & Hu2); [by rewrite (proj1 Hu)|].
        exists s2. cbn [run]. rewrite Hs. split; [exact Hr | by eapply undriven_trans]. }
    exists s'. by split_and!.
  - exists s. split_and!; auto. clear Hl. induction es as [|e es IH]; [done|]. cbn [run].
    rewrite step_rejected; [|done..|].
    + apply IH. intros c r Hin. apply (Ho c r). by right.
    + intros c r ->. apply (Ho c r); [by left | done].
Qed.

(** C9: Nobody drives the equipment without being entitled to: whatever the sockets of a
    studio do, if none was opened with the token when one is configured, or if none is
    configured on a listener that others can reach outside the simulator demo, then the
    host is as it was and nothing was traced; with a token configured such sockets change
    nothing at all.  (Without one they can still empty the trace.) *)
Theorem readonly_sockets es s :
  clients s = ∅ ->
  (forall c r, WsOpen c r ∈ es -> Token (config s) <> "" -> tokenOK (config s) r = false) ->
  (Token (config s) = "" -> LoopbackOnly (config s) = false /\ simulatorDemo (config s) = false) ->
  exists s', run clock cancelled url_host ws_accepts es s = Ok s'
    /\ host s' = host s /\ traceID s' = traceID s /\ (trace s' = trace s \/ trace s' = [])
    /\ (Token (config s) <> "" -> s' = s).
Proof. exact (readonly_lemma es s). Qed.

(** What the API tells a request without the token does not depend on the studio. *)
Theorem unauthorized_blind web r s :
  Token (config s) <> "" -> tokenOK (config s) r = false -> serve web r s = serve web r (NewServer (T:=T) (config s)).
Proof.
  intros Ht Hr. unfold serve, api, auth, cors. cbn [config NewServer]. rewrite Hr, (decide_False (P:=Token (config s) = "")) by done. by repeat case_decide.
Qed.

End properties.

(** ** A studio in front of the embedded equipment *)

Section embedded.
Context `{!MapOrder Z} (now : Z).

Definition close_equipment (eq : Equipment) : Equipment :=
  set_handler (GemHandler.set_session (mkWorld (HsmsSession.Close (session_of eq)) (answers (GemHandler.session (handler eq)))) (handler eq)) eq.

(** The injector is given no raw connection, so it draws no random bytes. *)
Definition link_driven : Driven Link :=
  {| driven_sender := link_sender now;
     inject_fault f l := mkLink (Inject (fun _ => 0) f (near l) None).1 (far l);
     hang_up embedded l := mkLink (HsmsSession.Close (near l)) (if embedded then close_equipment (far l) else far l) |}.

#[local] Existing Instance link_driven.

(** Of the faults a client can ask for, only the disconnection does anything. *)
Lemma faults_ineffective m (s : Server Link) :
  type_data m <> Some "disconnect" -> host (handleWSFault m s) = host s.
Proof.
  intros Hm. unfold handleWSFault. destruct (type_data m) as [name|]; [|done].
  destruct (host s) as [h|] eqn:Hh; [|done]. destruct (fault_of name) as [f|] eqn:Hf; [|done].
  apply head_Some_elem_of, list_elem_of_filter in Hf as [<- _]. cbn [host set_host].
  destruct f; [by destruct Hm|..]; destruct h as [[near far] ? ? ?]; done.
Qed.

Context {printing : Printing} `{!Floats, !Unicode, !MapOrder string, !MapOrder (Z * Z)}.
Context (clock : Z -> Z) (cancelled : Z -> bool) (url_host : string -> option string)
        (ws_accepts : list string -> HttpRequest -> bool).

(** The text of a body that is well-formed. *)
Lemma body_text_ok body :
  (forall it, body = Some it -> well_formed it = true) ->
  exists sml, body_text body = Ok sml
    /\ forall it, body = Some it -> exists t, formatString 0 it = Ok t /\ sml = string_of_bytes t /\ markup_of t = skeleton it.
Proof.
  destruct body as [it|]; [|intros _; exists ""; split; [done | intros ? [=]]]. intros Hwf.
  pose proof (format_markup it 0 (Hwf it eq_refl)) as Hp. unfold body_text, Item_String.
  destruct (formatString 0 it) as [t|[]| |] eqn:Hf; [|done..]. exists (string_of_bytes t). split; [done|].
  intros ? [= <-]. exists t; split; [done | split; [done | exact Hp]].
Qed.

Lemma onMessage_ok i (s : Server Link) :
  (forall it, i_body i = Some it -> well_formed it = true) ->
  exists sml, body_text (i_body i) = Ok sml /\ let e := entry clock (wrap 64 (traceID s + 1)) i sml in
    onMessage clock i s = Ok (broadcast (EnvTrace e)
      (mkServer (config s) (schemas s) (host s) (equip s) (clients s) (trace s ++ [e]) (wrap 64 (traceID s + 1)) (started s)))
    /\ forall it, i_body i = Some it -> exists t, formatString 0 it = Ok t /\ sml = string_of_bytes t /\ markup_of t = skeleton it.
Proof.
  intros Hwf. destruct (body_text_ok (i_body i) Hwf) as (sml & Hs & Hm). exists sml. cbv zeta. split; [done|]. split; [|done].
  unfold onMessage. by rewrite Hs.
Qed.

(** The command [send] with a request that expects its reply. *)
Definition send_command (stream function : Z) (text : string) : WSMessage :=
  mkWS "send" (Some (stream, function, true, text)) None None None.

(** C29: A request composed in the browser, end to end: what an entitled client sends to
    a connected piece of equipment whose policy permits it is parsed, encoded, framed,
    handled and answered, and two entries are added to the trace and a write of each is
    started to every client, the request as it was parsed and the reply as it was decoded, whose text has
    no markup but the brackets of its items; the connection is ready for the next one. *)
Theorem browser_request n (h : Host Link) c f st text body data it hd (s : Server Link) :
  host s = Some h -> is_Some (intercept h) -> c ∈ clients s -> privileged (config s) = true ->
  connected n (session h) -> 0 <= st < 128 -> Z.odd f = true ->
  parse_body text = Ok body -> (forall b, body = Some b -> well_formed b = true) -> encode_request body = Ok data ->
  frame_ok (HsmsSession.config (session_of (far (session h)))) (request (sessionID h) st f (n + 1) data) ->
  IsAllowed (policy (handler (far (session h)))) st f = true -> customHandlers (handler (far (session h))) !! (st, f) = None ->
  builtin now (request (sessionID h) st f (n + 1) data) (handler (far (session h))) = Some (Ok (it, hd)) ->
  well_formed it = true ->
  (forall d, Encode (Some it) = Ok d -> frame_ok (HsmsSession.config (near (session h))) (reply_to (sessionID h) st f (n + 1) d)) ->
  exists s' h' sml t tx rx,
    step clock cancelled url_host ws_accepts (WsText c (Some (send_command st f text))) s = Ok s'
    /\ body_text body = Ok sml /\ formatString 0 (normalize it) = Ok t /\ markup_of t = skeleton (normalize it)
    /\ (let e1 := entry clock (wrap 64 (traceID s + 1)) (mkInterception DirTX st f body tx) sml in
        let e2 := entry clock (wrap 64 (traceID s + 2)) (mkInterception DirRX st (wrap 8 (f + 1)) (Some (normalize it)) rx) (string_of_bytes t) in
        trace s' = trace s ++ [e1; e2]
        /\ forall d, d ∈ clients s -> traces_to d (started s') = traces_to d (started s) ++ [e1; e2])
    /\ host s' = Some h' /\ handler (far (session h')) = GemHandler.set_session (GemHandler.session (handler (far (session h')))) hd
    /\ (n + 1 < 2 ^ 32 - 1 -> connected (n + 1) (session h')).
Proof.
  intros Hh [calls0 Hi] Hc Hp Hcon Hst Hodd Hparse Hbody Hdata Hreq Hpol Hcu Hb Hwf Hrep.
  destruct (conversation_lemma now n h st f body data it hd Hcon Hst Hodd Hbody Hdata Hreq Hpol Hcu Hb Hwf Hrep)
    as (l' & tx & rx & Hsend & Hhd & Hnext & _). rewrite Hi in Hsend. cbn [fmap option_fmap option_map] in Hsend.
  set (i1 := mkInterception DirTX st f body tx) in *. set (i2 := mkInterception DirRX _ _ _ rx) in *.
  set (h' := mkHost l' _ _ _) in Hsend.
  destruct (onMessage_ok i1 (set_host (Some h') s) Hbody) as (sml & Hsml & Ho1 & _). cbv zeta in Ho1.
  set (s1 := broadcast _ _) in Ho1.
  destruct (onMessage_ok i2 s1) as (sml2 & _ & Ho2 & Ht2); [intros ? [= <-]; by apply normalize_wf|]. cbv zeta in Ho2.
  set (s2 := broadcast _ _) in Ho2. destruct (Ht2 _ eq_refl) as (t & Hft & -> & Hmk).
  assert (Hstep : step clock cancelled url_host ws_accepts (WsText c (Some (send_command st f text))) s = Ok s2).
  { cbn [step]. rewrite decide_True by done. cbn [ws_text]. rewrite Hp. unfold handleWSCommand. cbn [send_command Type_].
    rewrite andb_false_r. rewrite decide_True by done. unfold handleWSSend. cbn [send_command send_data]. rewrite Hh, Hparse. unfold drive, SendRaw, driven.
    cbn [driven_sender link_driven] in *. rewrite Hsend.
    unfold new_calls, calls. rewrite Hi. cbn [default intercept h' from_option id]. rewrite drop_app_length. cbn [observe].
    rewrite Ho1. cbn [mbind result_bind]. rewrite Ho2. done. }
  assert (Hn : wrap 64 (wrap 64 (traceID s + 1) + 1) = wrap 64 (traceID s + 2)).
  { unfold wrap. rewrite Zplus_mod_idemp_l. f_equal. lia. }
  exists s2, h', sml, t, tx, rx. split_and!; try done.
  cbv zeta. fold i1 i2. rewrite <- Hn. split.
  - cbn [s2 s1 broadcast trace set_host]. by rewrite <- app_assoc.
  - intros d Hd. unfold s2. rewrite (traces_to_broadcast d). cbn [started clients]. unfold s1.
    rewrite (traces_to_broadcast d). cbn [started clients broadcast traceID set_host]. rewrite !decide_True by done. by rewrite <- app_assoc.
Qed.
End embedded.

(** ** A demonstration *)

#[local] Instance demo_printing : Printing := zero_floats.
#[local] Instance demo_floats : Floats := no_floats.
#[local] Instance byte_fold : Unicode := {| fold_runes := String.eqb; fold_runes_refl := String.eqb_refl |}.
#[local] Instance demo_order : MapOrder Z := some_order Z.
#[local] Instance demo_names : MapOrder string := some_order string.
#[local] Instance demo_codes : MapOrder (Z * Z) := some_order (Z * Z).
#[local] Instance demo_driven : Driven Link := link_driven 0.

Definition demo_config (token : string) (loopback : bool) : Config := mkConfig "" 1 [] token false loopback.

(** A studio connected to the simulator, one socket open. *)
Definition demo_studio (token : string) (loopback : bool) : Server Link :=
  mkServer (demo_config token loopback) DefaultRegistry (Some (demo_host true)) true {[ 7 ]} [] 0 [].

Definition demo_run := run (T:=Link) (fun id => id) (fun _ => false) (fun _ => None) (fun _ _ => true).

Definition demo_step := step (T:=Link) (fun id => id) (fun _ => false) (fun _ => None) (fun _ _ => true).

Definition quick (name : string) : event := WsText 7 (Some (mkWS "quick_send" None (Some name) None None)).
Definition clear : event := WsText 7 (Some (mkWS "clear_trace" None None None None)).
Definition script (i : Z) : event := WsText 7 (Some (mkWS "run_script" None None None (Some i))).

(** The numbers go on when the trace is cleared. *)
Example demo_trace :
  (fun s => (fun e => (ID e, (te_Stream e, te_Function e), BodySML e)) <$> trace s)
    <$> match demo_run [quick "establish_comm"; clear; quick "request_online"] (demo_studio "" true) with Ok s => Some s | _ => None end
  = Some [(3, (1, 17), ""); (4, (1, 18), "<B [1] 00>")].
Proof. vm_compute. reflexivity. Qed.

(** A socket of a studio without a token on a public listener: it is refused, and it
    empties the trace. *)
Example reader_clears :
  let s := set_trace [entry (fun id => id) 1 (mkInterception DirTX 1 1 None []) ""] (demo_studio "" false) in
  match demo_run [quick "are_you_there"; clear] s with
  | Ok s' => trace s' = [] /\ started s' = [(7, refusal "quick_send")]
  | _ => False
  end.
Proof. vm_compute. split; reflexivity. Qed.

(** A token is configured and the visitor's is another. *)
Lemma readonly_sockets_witness :
  let s := set_clients ∅ (demo_studio "secret" true) in
  let r := mkHttp "GET" "/ws" "" "" "guess" in
  demo_run [WsOpen 9 r; WsText 9 (Some (mkWS "fault" None None (Some "disconnect") None)); WsClose 9] s = Ok s.
Proof.
  intros s r.
  destruct (readonly_sockets (T:=Link) (fun id => id) (fun _ => false) (fun _ => None) (fun _ _ => true)
    [WsOpen 9 r; WsText 9 (Some (mkWS "fault" None None (Some "disconnect") None)); WsClose 9] s) as (s' & Hr & _ & _ & _ & Hs).
  - reflexivity.
  - intros c r' Hin _. apply elem_of_cons in Hin as [Hin|Hin]; [injection Hin as _ ->; reflexivity|].
    apply elem_of_cons in Hin as [Hin|Hin]; [discriminate Hin|].
    apply elem_of_cons in Hin as [Hin|Hin]; [discriminate Hin|]. by apply elem_of_nil in Hin.
  - intros [=].
  - unfold demo_run. rewrite Hr. f_equal. apply Hs. discriminate.
Defined.




Lemma browser_request_witness :
  exists s' t, demo_step (WsText 7 (Some (send_command 1 1 ""))) (demo_studio "" true) = Ok s'
    /\ formatString 0 (normalize (handleS1F1 "SIM-EQUIP-01" "1.0.0")) = Ok t /\ markup_of t = [60; 60; 62; 60; 62; 62].
Proof.
  destruct (browser_request (MapOrder0:=demo_order) 0 (fun id => id) (fun _ => false) (fun _ => None) (fun _ _ => true)
    1 (demo_host true) 7 1 1 "" None [] (handleS1F1 "SIM-EQUIP-01" "1.0.0") (handler (far (session (demo_host true)))) (demo_studio "" true))
    as (s' & h' & sml & t & tx & rx & Hs & _ & Ht & Hm & _);
    [reflexivity | by eexists | set_solver | reflexivity | exact (demo_connected true) | lia | reflexivity | reflexivity
     | intros ? [=] | reflexivity | split; [reflexivity | vm_compute; discriminate] | reflexivity.. | |].
  - intros d He. vm_compute in He. injection He as <-. split; [reflexivity | vm_compute; discriminate].
  - exists s', t. split; [exact Hs|]. split; [exact Ht | exact Hm].
Defined.
