(* ===== verification/RateLimit.v ===== *)
(** * The rate limiter

    [src/pkg/security/ratelimit.go]: the token bucket of a session, in the doubles the
    code counts with.  Instants are nanoseconds of the monotonic clock.  The first part
    is what is needed of double arithmetic: sums, differences, products and comparisons
    of the doubles of integers below 2^53 are exact. *)

From stdpp Require Import prelude list.
From Stdlib Require Import ZArith Lia SpecFloat.
From S2P Require Import Prelude.
From S2P Require HsmsSession.

#[local] Open Scope Z_scope.

(** ** The limiter *)

Record RateLimiter := mkLimiter { rate : Z; burst : Z; tokens : spec_float; lastTime : Z }.

Definition NewRateLimiter (now rate burst : Z) : RateLimiter := mkLimiter rate burst (f64_of_Z burst) now.

(** [t.Sub(u)] keeps to the range of a [Duration]. *)
Definition Sub (t u : Z) : Z := Z.max (- 2 ^ 63) (Z.min (2 ^ 63 - 1) (t - u)).

Definition Allow (now : Z) (rl : RateLimiter) : bool * RateLimiter :=
  let elapsed := Seconds (Sub now (lastTime rl)) in
  let t := SFadd 53 1024 (tokens rl) (SFmul 53 1024 elapsed (f64_of_Z (rate rl))) in
  let t := if SFltb (f64_of_Z (burst rl)) t then f64_of_Z (burst rl) else t in
  if SFleb (f64_of_Z 1) t
  then (true, mkLimiter (rate rl) (burst rl) (SFsub 53 1024 t (f64_of_Z 1)) now)
  else (false, mkLimiter (rate rl) (burst rl) t now).

Definition Rate (rl : RateLimiter) : Z := rate rl.

(** The verdicts on messages that arrive at the given instants. *)
Fixpoint verdicts (times : list Z) (rl : RateLimiter) : list bool * RateLimiter :=
  match times with
  | [] => ([], rl)
  | now :: times => let '(b, rl) := Allow now rl in let '(bs, rl) := verdicts times rl in (b :: bs, rl)
  end.

(** ** The limiter of a session

    [NewSession] makes one when a rate is configured; a message that was read asks it. *)

Definition session_limiter (now : Z) (c : HsmsSession.Config) : option RateLimiter :=
  let r := HsmsSession.MaxMessageRate c in if 0 <? r then Some (NewRateLimiter now r r) else None.

Definition limited_round (io : bool) (now : Z) (stream : list Z) (s : HsmsSession.Session) (rl : option RateLimiter)
  : HsmsSession.Session * list Z * option RateLimiter :=
  let '(allowed, rl) :=
    match rl, HsmsSession.readMessage (HsmsSession.config s) stream with
    | Some l, Ok _ => let '(b, l) := Allow now l in (b, Some l)
    | _, _ => (true, rl)
    end in
  (HsmsSession.readLoop_round io allowed stream s, rl).

(** ** Doubles of integers *)

Lemma digits_log2 m : Z.pos (digits2_pos m) = Z.log2 (Z.pos m) + 1.
Proof.
  induction m as [m IH|m IH|]; [| |done]; cbn [digits2_pos]; rewrite Pos2Z.inj_succ, IH.
  - rewrite (Pos2Z.inj_xI m), Z.log2_succ_double; lia.
  - rewrite (Pos2Z.inj_xO m), Z.log2_double; lia.
Qed.

Lemma iter_xO d m : Z.pos (Pos.iter xO m d) = Z.pos m * 2 ^ Z.pos d.
Proof. rewrite <- Z.shiftl_mul_pow2 by done. cbn. symmetry. by rewrite (Pos.iter_swap_gen _ _ Z.pos xO (Z.mul 2)). Qed.

Lemma shr_exact p x : iter_pos shr_1 p {| shr_m := Z.pos x * 2 ^ Z.pos p; shr_r := false; shr_s := false |}
  = {| shr_m := Z.pos x; shr_r := false; shr_s := false |}.
Proof.
  assert (H1 : forall z, 0 < z -> shr_1 {| shr_m := z * 2; shr_r := false; shr_s := false |} = {| shr_m := z; shr_r := false; shr_s := false |}).
  { intros [|z|z] Hz; try lia. by rewrite Z.mul_comm. }
  assert (Hp : forall y q, exists w, Z.pos y * 2 ^ Z.pos q = Z.pos w).
  { intros y q. exists (Pos.iter xO y q). by rewrite iter_xO. }
  revert x. induction p as [p IH|p IH|]; intros x; cbn [iter_pos].
  - replace (Z.pos x * 2 ^ Z.pos p~1) with (Z.pos x * 2 ^ Z.pos p * 2 ^ Z.pos p * 2)
      by (rewrite (Pos2Z.inj_xI p), Z.pow_add_r, Z.pow_mul_r, Z.pow_1_r by lia; change (2 ^ 2) with (2 * 2); rewrite Z.pow_mul_l; ring).
    destruct (Hp x p) as [w Hw]. rewrite H1 by (rewrite Hw; destruct (Hp w p) as [v ->]; done).
    rewrite Hw, IH, <- Hw. apply IH.
  - replace (Z.pos x * 2 ^ Z.pos p~0) with (Z.pos x * 2 ^ Z.pos p * 2 ^ Z.pos p)
      by (rewrite (Pos2Z.inj_xO p), Z.pow_mul_r by lia; change (2 ^ 2) with (2 * 2); rewrite Z.pow_mul_l; ring).
    destruct (Hp x p) as [w Hw]. rewrite Hw, IH, <- Hw. apply IH.
  - rewrite H1 by done. done.
Qed.

(** The double of a positive integer: 53 digits and an exponent. *)
Definition exponent (n : Z) : Z := Z.log2 n - 52.
Definition double (n : Z) : spec_float := S754_finite false (Z.to_pos (n * 2 ^ (- exponent n))) (exponent n).

Definition small (n : Z) : Prop := 0 < n < 2 ^ 53.

Lemma exponent_range n : small n -> -52 <= exponent n <= 0.
Proof.
  intros [H1 H2]. unfold exponent. pose proof (Z.log2_nonneg n).
  assert (Z.log2 n < 53) by (apply Z.log2_lt_pow2; lia). lia.
Qed.

Lemma mantissa_log2 n : small n -> Z.log2 (n * 2 ^ (- exponent n)) = 52.
Proof. intros Hn. pose proof (exponent_range n Hn). rewrite Z.log2_mul_pow2 by (unfold small in Hn; lia). unfold exponent. lia. Qed.

Lemma mantissa_pos n : small n -> 0 < n * 2 ^ (- exponent n).
Proof. intros Hn. pose proof (exponent_range n Hn). unfold small in Hn. apply Z.mul_pos_pos; [lia | apply Z.pow_pos_nonneg; lia]. Qed.

(** Rounding a mantissa that has the value of [n] and at least 53 digits. *)
Lemma round_aux_exact n k :
  small n -> - exponent n <= k -> binary_round_aux 53 1024 false (n * 2 ^ k) (- k) loc_Exact = double n.
Proof.
  intros Hn Hk. pose proof (exponent_range n Hn) as He. pose proof (mantissa_pos n Hn) as Hpos.
  set (x := Z.to_pos (n * 2 ^ (- exponent n))). assert (Hx : Z.pos x = n * 2 ^ (- exponent n)) by (unfold x; by rewrite Z2Pos.id).
  assert (Hfe : forall e, fexp 53 1024 (Zdigits2 (Z.pos x) + e) = Z.max e (-1074)).
  { intros e. unfold fexp, emin, Zdigits2. rewrite digits_log2, Hx, mantissa_log2 by done. lia. }
  assert (Hs : shr_fexp 53 1024 (n * 2 ^ k) (- k) loc_Exact = ({| shr_m := Z.pos x; shr_r := false; shr_s := false |}, exponent n)).
  { replace (n * 2 ^ k) with (Z.pos x * 2 ^ (k + exponent n)) by (rewrite Hx, <- Z.mul_assoc, <- Z.pow_add_r by lia; do 2 f_equal; lia).
    destruct (Z.eq_dec (k + exponent n) 0) as [Hz|Hz].
    - rewrite Hz, Z.pow_0_r, Z.mul_1_r. unfold shr_fexp. rewrite Hfe. replace (Z.max (- k) (-1074) - - k) with 0 by lia. cbn. f_equal. lia.
    - destruct (k + exponent n) as [|p|p] eqn:Hp; try lia. unfold shr_fexp.
      assert (Hd : fexp 53 1024 (Zdigits2 (Z.pos x * 2 ^ Z.pos p) + - k) - - k = Z.pos p).
      { rewrite <- iter_xO. unfold fexp, emin, Zdigits2. rewrite digits_log2, iter_xO, Z.log2_mul_pow2, Hx, mantissa_log2 by (done || lia). lia. }
      rewrite Hd. unfold shr, shr_record_of_loc. rewrite shr_exact. f_equal. lia. }
  unfold binary_round_aux. rewrite Hs. cbn [shr_m loc_of_shr_record round_nearest_even].
  unfold shr_fexp. rewrite Hfe. replace (Z.max (exponent n) (-1074) - exponent n) with 0 by lia.
  cbn [shr shr_record_of_loc shr_m]. rewrite (proj2 (Z.leb_le _ _)) by lia. done.
Qed.

Lemma normalize_exact n k : small n -> 0 <= k -> binary_normalize 53 1024 (n * 2 ^ k) (- k) false = double n.
Proof.
  intros Hn Hk. pose proof (exponent_range n Hn) as He.
  assert (0 < n * 2 ^ k) as Hp by (unfold small in Hn; apply Z.mul_pos_pos; [lia | apply Z.pow_pos_nonneg; lia]).
  destruct (n * 2 ^ k) as [|M|M] eqn:HM; try lia. cbn [binary_normalize]. unfold binary_round.
  assert (Hf : fexp 53 1024 (Z.pos (digits2_pos M) + - k) = exponent n).
  { unfold fexp, emin. rewrite digits_log2, <- HM, Z.log2_mul_pow2 by (unfold small in Hn; lia). unfold exponent in *. lia. }
  rewrite Hf. unfold shl_align. destruct (exponent n - - k) as [|p|p] eqn:Hp'.
  - rewrite <- HM. apply round_aux_exact; [done | lia].
  - rewrite <- HM. apply round_aux_exact; [done | lia].
  - unfold shift_pos. rewrite iter_xO, <- HM, <- Z.mul_assoc, <- Z.pow_add_r by lia.
    replace (exponent n) with (- (k + Z.pos p)) by lia. apply round_aux_exact; [done | lia].
Qed.

Lemma f64_exact n : small n -> f64_of_Z n = double n.
Proof. intros Hn. unfold f64_of_Z. rewrite <- (normalize_exact n 0) by (done || lia). by rewrite Z.pow_0_r, Z.mul_1_r. Qed.

Lemma align_exact n e : small n -> e <= exponent n ->
  Z.pos (fst (shl_align (Z.to_pos (n * 2 ^ (- exponent n))) (exponent n) e)) = n * 2 ^ (- e).
Proof.
  intros Hn He. pose proof (exponent_range n Hn). pose proof (mantissa_pos n Hn) as Hm. unfold shl_align.
  destruct (e - exponent n) as [|p|p] eqn:Hp; try lia; cbn [fst].
  - rewrite Z2Pos.id by done. do 2 f_equal. lia.
  - unfold shift_pos. rewrite iter_xO, Z2Pos.id, <- Z.mul_assoc, <- Z.pow_add_r by (done || lia). do 2 f_equal. lia.
Qed.

(** The doubles of the integers from 0 below 2^53. *)
Definition exact (n : Z) : Prop := 0 <= n < 2 ^ 53.

Lemma exact_cases n : exact n -> n = 0 \/ small n.
Proof. unfold exact, small. lia. Qed.

Lemma add_exact a b : exact a -> exact b -> exact (a + b) -> SFadd 53 1024 (f64_of_Z a) (f64_of_Z b) = f64_of_Z (a + b).
Proof.
  intros [->|Ha]%exact_cases [->|Hb]%exact_cases Hab; try done.
  - rewrite Z.add_0_l. by rewrite (f64_exact b).
  - rewrite Z.add_0_r. by rewrite (f64_exact a).
  - pose proof (exponent_range a Ha). pose proof (exponent_range b Hb).
    assert (Hs : small (a + b)) by (unfold exact, small in *; lia). rewrite !f64_exact by done.
    unfold SFadd, double. cbn [cond_Zopp]. rewrite !align_exact by (done || lia).
    rewrite <- Z.mul_add_distr_r. rewrite <- (Z.opp_involutive (Z.min _ _)) at 2. apply normalize_exact; [done | lia].
Qed.

Lemma sub_exact a b : exact a -> exact b -> b <= a -> SFsub 53 1024 (f64_of_Z a) (f64_of_Z b) = f64_of_Z (a - b).
Proof.
  intros [->|Ha]%exact_cases [->|Hb]%exact_cases Hab; try done; try (unfold small in *; lia).
  - rewrite Z.sub_0_r. by rewrite (f64_exact a).
  - pose proof (exponent_range a Ha). pose proof (exponent_range b Hb). rewrite !(f64_exact a), (f64_exact b) by done.
    unfold SFsub, double. cbn [cond_Zopp]. rewrite !align_exact by (done || lia). rewrite <- Z.mul_sub_distr_r.
    destruct (Z.eq_dec a b) as [->|Hne]; [by rewrite Z.sub_diag|].
    assert (Hs : small (a - b)) by (unfold small in *; lia). rewrite (f64_exact (a - b)) by done.
    rewrite <- (Z.opp_involutive (Z.min _ _)) at 2. apply normalize_exact; [done | lia].
Qed.

Lemma mul_exact a b : exact a -> exact b -> exact (a * b) -> SFmul 53 1024 (f64_of_Z a) (f64_of_Z b) = f64_of_Z (a * b).
Proof.
  intros [->|Ha]%exact_cases [->|Hb]%exact_cases Hab; try done.
  - by rewrite (f64_exact b).
  - rewrite Z.mul_0_r. by rewrite (f64_exact a).
  - pose proof (exponent_range a Ha). pose proof (exponent_range b Hb).
    assert (Hs : small (a * b)) by (unfold exact, small in *; nia). rewrite !f64_exact by done.
    unfold SFmul, double. cbn [xorb]. rewrite Pos2Z.inj_mul, !Z2Pos.id by (by apply mantissa_pos).
    replace (a * 2 ^ (- exponent a) * (b * 2 ^ (- exponent b))) with (a * b * 2 ^ (- exponent a + - exponent b))
      by (rewrite Z.pow_add_r by lia; ring).
    rewrite <- (Z.opp_involutive (exponent a + exponent b)), Z.opp_add_distr. apply round_aux_exact; [done|].
    assert (exponent a + exponent b <= exponent (a * b)); [|lia]. unfold exponent.
    pose proof (Z.log2_mul_below a b). pose proof (Z.log2_nonneg a). pose proof (Z.log2_nonneg b).
    assert (Z.log2 a < 53 /\ Z.log2 b < 53) as [] by (split; apply Z.log2_lt_pow2; unfold small in *; lia).
    unfold small in *. lia.
Qed.

Lemma compare_exact a b : exact a -> exact b -> SFcompare (f64_of_Z a) (f64_of_Z b) = Some (a ?= b).
Proof.
  intros [->|Ha]%exact_cases [->|Hb]%exact_cases; try done.
  - rewrite (f64_exact b), (proj2 (Z.compare_lt_iff 0 b)) by (done || unfold small in Hb; lia). done.
  - rewrite (f64_exact a), (proj2 (Z.compare_gt_iff a 0)) by (done || unfold small in Ha; lia). done.
  - rewrite !f64_exact by done. unfold double. cbn [SFcompare]. f_equal.
    assert (Hlog : forall x y, small x -> small y -> exponent x < exponent y -> x < y).
    { intros x y Hx Hy Hl. apply Z.log2_lt_cancel. unfold exponent in Hl. lia. }
    destruct (Z.compare_spec (exponent a) (exponent b)) as [He|He|He].
    + rewrite He. change (Pos.compare_cont Eq ?x ?y) with (Z.pos x ?= Z.pos y).
      pose proof (mantissa_pos a Ha). pose proof (mantissa_pos b Hb). rewrite <- He in *.
      rewrite !Z2Pos.id by done. pose proof (exponent_range a Ha).
      symmetry. apply Zmult_compare_compat_r. apply Z.lt_gt, Z.pow_pos_nonneg; lia.
    + symmetry. apply Z.compare_lt_iff. auto.
    + symmetry. apply Z.compare_gt_iff. auto.
Qed.

(** ** The bucket in integers *)

Record Bucket := mkBucket { level : Z; at_second : Z }.

(** What the limiter is meant to do with the message of a whole second. *)
Definition grant (rate burst s : Z) (b : Bucket) : bool * Bucket :=
  let l := Z.min burst (level b + (s - at_second b) * rate) in
  if 1 <=? l then (true, mkBucket (l - 1) s) else (false, mkBucket l s).

Fixpoint grants (rate burst : Z) (seconds : list Z) (b : Bucket) : list bool * Bucket :=
  match seconds with
  | [] => ([], b)
  | s :: seconds => let '(v, b) := grant rate burst s b in let '(vs, b) := grants rate burst seconds b in (v :: vs, b)
  end.

(** The instants do not go back and end within the range of a [Duration]. *)
Fixpoint ordered (from : Z) (seconds : list Z) : Prop :=
  match seconds with [] => True | s :: l => from <= s /\ ordered s l end.

Record limits (rate burst horizon : Z) : Prop := {
  li_rate : 0 <= rate;
  li_burst : 0 <= burst < 2 ^ 52;
  li_horizon : 0 <= horizon /\ horizon * 1000000000 < 2 ^ 63 /\ horizon < 2 ^ 52 /\ horizon * rate < 2 ^ 52 /\ rate < 2 ^ 52;
}.

(** The limiter holds what the bucket holds, [start] being second 0. *)
Definition holds (start rate burst horizon : Z) (b : Bucket) (rl : RateLimiter) : Prop :=
  rl = mkLimiter rate burst (f64_of_Z (level b)) (start + at_second b * 1000000000)
  /\ 0 <= level b <= burst /\ 0 <= at_second b <= horizon.

Lemma Seconds_exact k : exact k -> Seconds (k * 1000000000) = f64_of_Z k.
Proof.
  intros Hk. unfold Seconds. rewrite Z.quot_mul, Z.rem_mul by done. change (SFdiv 53 1024 (f64_of_Z 0) (f64_of_Z 1000000000)) with (f64_of_Z 0).
  rewrite add_exact by (unfold exact in *; lia). by rewrite Z.add_0_r.
Qed.

Section refinement.
Context (start rate burst horizon : Z) (lim : limits rate burst horizon).

Lemma grant_refines s b rl :
  holds start rate burst horizon b rl -> at_second b <= s <= horizon ->
  let '(v, b') := grant rate burst s b in
  exists rl', Allow (start + s * 1000000000) rl = (v, rl') /\ holds start rate burst horizon b' rl' /\ at_second b' = s
    /\ level b' + Z.b2z v <= level b + (s - at_second b) * rate.
Proof.
  destruct lim as [Hr Hb (Hh0 & Hh1 & Hh2 & Hh3 & Hh4)]. intros (-> & Hl & Ha) Hs.
  set (k := s - at_second b). assert (Hk : exact k) by (unfold exact, k; lia).
  assert (Hkr : 0 <= k * rate < 2 ^ 52) by (unfold k; nia).
  unfold Allow. cbn [lastTime tokens RateLimit.rate RateLimit.burst].
  assert (Hsub : Sub (start + s * 1000000000) (start + at_second b * 1000000000) = k * 1000000000) by (unfold Sub, k; lia).
  rewrite Hsub, Seconds_exact by done. rewrite mul_exact by (unfold exact in *; lia). rewrite add_exact by (unfold exact in *; lia).
  unfold SFltb. rewrite compare_exact by (unfold exact in *; lia). unfold grant. fold k.
  set (l := Z.min burst (level b + k * rate)).
  assert (Hmin : (if match Some (burst ?= level b + k * rate) with Some Lt => true | _ => false end then f64_of_Z burst else f64_of_Z (level b + k * rate)) = f64_of_Z l).
  { unfold l. destruct (Z.compare_spec burst (level b + k * rate)); f_equal; lia. }
  rewrite Hmin. assert (Hl' : 0 <= l <= burst) by (unfold l; lia). unfold SFleb. rewrite compare_exact by (unfold exact in *; lia).
  destruct (Z.leb_spec 1 l) as [H1|H1]; cbn [Z.b2z].
  - destruct (Z.compare_spec 1 l) as [H|H|H]; try lia; (eexists; split; [reflexivity|]; rewrite sub_exact by (unfold exact in *; lia);
      (split; [split; [reflexivity | cbn; lia] | cbn; lia])).
  - destruct (Z.compare_spec 1 l) as [H|H|H]; try lia. eexists. split; [reflexivity|]. split; [split; [reflexivity | cbn; lia] | cbn; lia].
Qed.

Lemma grants_refine seconds b rl :
  holds start rate burst horizon b rl -> ordered (at_second b) seconds -> Forall (fun s => s <= horizon) seconds ->
  (verdicts ((fun s => start + s * 1000000000) <$> seconds) rl).1 = (grants rate burst seconds b).1
  /\ len (filter (fun v => v = true) (grants rate burst seconds b).1) <= level b + (default (at_second b) (last seconds) - at_second b) * rate.
Proof.
  revert b rl. induction seconds as [|s l IH]; intros b rl Hh Ho Hf.
  - destruct Hh as (_ & Hl & _). split; [done|]. cbn. unfold len. cbn. lia.
  - destruct Ho as [Hs Ho]. apply Forall_cons in Hf as [Hsh Hf]. cbn [fmap list_fmap verdicts grants].
    pose proof (grant_refines s b rl Hh (conj Hs Hsh)) as Hst. destruct (grant rate burst s b) as [v b'].
    destruct Hst as (rl' & -> & Hh' & Hat & Hlev). rewrite <- Hat in Ho. destruct (IH b' rl' Hh' Ho Hf) as [IH1 IH2].
    destruct (verdicts _ rl') as [bs rl2]. destruct (grants rate burst l b') as [vs b2]. cbn [fst] in *. split; [by rewrite IH1|].
    assert (Hlast : default (at_second b) (last (s :: l)) = default (at_second b') (last l)).
    { rewrite Hat, last_cons. by destruct (last l). }
    rewrite Hlast, filter_cons. rewrite Hat in *. destruct v; [rewrite decide_True, len_cons by done | rewrite decide_False by done]; cbn [Z.b2z] in Hlev; lia.
Qed.
End refinement.

(** ** Property *)

(** C22: On whole seconds the double-precision limiter is an integer token bucket.
    For messages that arrive, in order, at whole seconds after its creation, for
    a rate and a burst from 0 below 2^52, and up to a last second that is below
    2^52, within the range of a [Duration] and brings fewer than 2^52 tokens
    ([limits]), every verdict is that of the bucket of [burst] tokens refilled
    with [rate] tokens a second, no rounding involved, and until the last arrival
    it lets in at most [burst] messages and [rate] more for each second.  Between
    the seconds the doubles round and verdicts can differ ([late_tenths]). *)
Theorem bucket_exact start rate burst horizon seconds :
  limits rate burst horizon -> ordered 0 seconds -> Forall (fun s => s <= horizon) seconds ->
  let vs := (verdicts ((fun s => start + s * 1000000000) <$> seconds) (NewRateLimiter start rate burst)).1 in
  vs = (grants rate burst seconds (mkBucket burst 0)).1
  /\ len (filter (fun v => v = true) vs) <= burst + default 0 (last seconds) * rate.
Proof.
  intros Hl Ho Hf vs. destruct (grants_refine start rate burst horizon Hl seconds (mkBucket burst 0) (NewRateLimiter start rate burst)) as [H1 H2]; try done.
  - destruct Hl as [? ? ?]. split; [|cbn; lia]. unfold NewRateLimiter. cbn. f_equal. lia.
  - unfold vs. rewrite H1. split; [done|]. cbn in H2. lia.
Qed.

Lemma bucket_exact_witness :
  (verdicts ((fun s => 5 + s * 1000000000) <$> [0; 0; 0; 0; 1; 1; 1; 7]) (NewRateLimiter 5 2 3)).1
  = [true; true; true; false; true; true; false; true].
Proof.
  destruct (bucket_exact 5 2 3 10 [0; 0; 0; 0; 1; 1; 1; 7]) as [H _]; [split; lia | cbn; lia | repeat constructor; lia|].
  rewrite H. reflexivity.
Defined.

(** Between the seconds the doubles round.  A tenth of a second at ten a second is a
    whole token. *)
Example tenth : (verdicts [0; 100000000; 200000000; 300000000] (NewRateLimiter 0 10 1)).1 = [true; true; true; true].
Proof. vm_compute. reflexivity. Qed.

(** Ten tenths at one a second are not: of a message every tenth of a second those at 0,
    1.1 and 2.2 seconds are let in, where exact arithmetic lets in those at 0, 1 and 2. *)
Example late_tenths :
  filter (fun t => (verdicts ((fun i => Z.of_nat i * 100000000) <$> seq 0 (S (Z.to_nat t))) (NewRateLimiter 0 1 1)).1 !! Z.to_nat t
                   = Some true) [0; 1; 2; 3; 4; 5; 6; 7; 8; 9; 10; 11; 12; 13; 14; 15; 16; 17; 18; 19; 20; 21; 22]
  = [0; 11; 22].
Proof. vm_compute. reflexivity. Qed.
