(* ===== verification/Flood.v ===== *)
(** * A peer that floods the session

    The read loop of [src/pkg/transport/hsms/session.go] with the limiter of
    [src/pkg/security/ratelimit.go] over a whole stream of frames: what of it reaches the
    session.  The loop of one message is [HsmsSession.readLoop_round], the limiter
    [RateLimit.Allow]; here are the rounds until the stream or the session ends, against
    the integer bucket of the configured rate. *)

From stdpp Require Import prelude strings list.
From Stdlib Require Import ZArith Lia.
From S2P Require Import Prelude HsmsMessage Transport HsmsSession HsmsProtocol.
From S2P Require Import RateLimit.

#[local] Open Scope Z_scope.

(** [readLoop]: a round for each instant at which a message is complete; once the session
    is closed its context is done. *)
Fixpoint limited_rounds (rounds : list (bool * Z)) (stream : list Z) (s : Session) (rl : option RateLimiter)
  : Session * list Z * option RateLimiter :=
  match rounds with
  | [] => (s, stream, rl)
  | (io, now) :: rounds =>
      let '(s, rest, rl) := limited_round io now stream s rl in
      if closed s then (s, rest, rl) else limited_rounds rounds rest s rl
  end.

(** A message that arrives in a second of the limiter's life, and whether a reply to it
    can be written. *)
Record arrival := mkArrival { writable : bool; at_time : Z; arrived : Message }.

(** What should come of it: each message goes to the session or to the audit log, as the
    bucket of integers says. *)
Definition take_or_refuse (v : bool) (a : arrival) (s : Session) : Session :=
  if v then handleMessage (writable a) (on_wire (arrived a)) s else log_event RateLimited s.

Fixpoint admitted (rate burst : Z) (l : list arrival) (b : Bucket) (s : Session) : Session :=
  match l with
  | [] => s
  | a :: l =>
      let '(v, b) := grant rate burst (at_time a) b in
      let s := take_or_refuse v a s in if closed s then s else admitted rate burst l b s
  end.

Definition is_limited (e : audit_event) : bool := match e with RateLimited => true | _ => false end.
Definition refusals (s : Session) : Z := len (filter (fun e => is_limited e = true) (audit s)).

(** ** What one message can do *)

Definition grows (n : Z) (s s' : Session) : Prop :=
  config s' = config s /\ len (inbound s') <= len (inbound s) + n /\ len (out s') <= len (out s) + n
  /\ refusals s' = refusals s.

Lemma grows_write io m s s' : writeMessage io m s = Ok s' -> grows 1 s s'.
Proof.
  intros (d & _ & _ & _ & ->)%writeMessage_ok. split_and!; cbn; rewrite ?len_app; unfold len; cbn; lia || done.
Qed.

Lemma grows_same s s' : config s' = config s -> inbound s' = inbound s -> out s' = out s -> refusals s' = refusals s -> grows 1 s s'.
Proof. intros Hc Hi Ho Hr. unfold grows. rewrite Hi, Ho. split_and!; lia || done. Qed.

Lemma grows_try io m s : grows 1 s (try_write io m s).
Proof.
  unfold try_write. destruct (writeMessage io m s) as [s'| | |] eqn:Hw; try by apply grows_same. by apply grows_write in Hw.
Qed.

Lemma grows_handle io m s : grows 1 s (handleMessage io m s).
Proof.
  unfold handleMessage. destruct (pending s !! _) as [[r|]|]; [by apply grows_same..|].
  destruct (_ =? STypeDataMessage).
  { case_decide.
    - exact (grows_try io _ (log_event (UnauthorizedMessage (Stream (hdr m)) (Function (hdr m))) s)).
    - destruct (_ <? _); [|by apply grows_same]. split_and!; cbn; rewrite ?len_app; unfold len; cbn; lia || done. }
  destruct (_ =? STypeSelectReq).
  { unfold handleSelectReq. destruct (select_respond io m s) as [s'| | |] eqn:Hw; try by apply grows_same.
    apply grows_write in Hw. unfold select_commit. by destruct (_ =? _). }
  destruct (_ =? STypeDeselectReq).
  { unfold handleDeselectReq. destruct (writeMessage _ _ s) as [s'| | |] eqn:Hw; try by apply grows_same.
    by apply grows_write in Hw. }
  destruct (_ =? STypeLinktestReq); [apply grows_try|].
  destruct (_ =? STypeSeparateReq); [|by apply grows_same]. unfold Close. by destruct (closed s); apply grows_same.
Qed.

(** ** The rounds *)

Section flood.
Context (start rate burst horizon : Z) (lim : limits rate burst horizon).

(** When the messages come, as the limiter's clock has it. *)
Definition clock (a : arrival) : bool * Z := (writable a, start + at_time a * 1000000000).

Lemma limited_rounds_refine l rest b s rl :
  holds start rate burst horizon b rl -> ordered (at_second b) (at_time <$> l) -> Forall (fun a => at_time a <= horizon) l ->
  Forall (frame_ok (config s)) (arrived <$> l) ->
  let '(s', stream, _) := limited_rounds (clock <$> l) (frames (arrived <$> l) ++ rest) s (Some rl) in
  s' = admitted rate burst l b s /\ (closed s' = false -> stream = rest).
Proof using lim.
  revert b s rl. induction l as [|a l IH]; intros b s rl Hh Ho Ht Hf; [done|].
  cbn [fmap list_fmap] in *. destruct Ho as [Hs Ho]. apply Forall_cons in Ht as [Hsh Ht]. apply Forall_cons in Hf as [Ha Hf].
  destruct (read_frame (config s) (arrived a) (frames (arrived <$> l) ++ rest) Ha) as (f & Hm & Hr).
  cbn [frames limited_rounds admitted clock]. rewrite Hm, <- app_assoc. unfold limited_round, readLoop_round. rewrite Hr.
  pose proof (grant_refines start rate burst horizon lim (at_time a) b rl Hh (conj Hs Hsh)) as Hg.
  destruct (grant rate burst (at_time a) b) as [v b']. destruct Hg as (rl' & -> & Hh' & Hat & _).
  assert (Hround : (if negb v then (log_event RateLimited s, frames (arrived <$> l) ++ rest)
                    else (handleMessage (writable a) (on_wire (arrived a)) s, frames (arrived <$> l) ++ rest))
                   = (take_or_refuse v a s, frames (arrived <$> l) ++ rest)) by by destruct v.
  rewrite Hround. destruct (closed (take_or_refuse v a s)) eqn:Hc; [split; [done|by rewrite Hc]|].
  apply IH; [done|by rewrite Hat|done|].
  replace (config (take_or_refuse v a s)) with (config s); [done|]. destruct v; [symmetry; apply grows_handle|done].
Qed.

Lemma admitted_bounded l b s last :
  0 <= rate -> 0 <= burst -> 0 <= level b -> ordered (at_second b) (at_time <$> l) -> Forall (fun a => at_time a <= last) l -> at_second b <= last ->
  let s' := admitted rate burst l b s in
  let n := level b + (last - at_second b) * rate in
  len (inbound s') <= len (inbound s) + n /\ len (out s') <= len (out s) + n
  /\ (closed s' = false -> refusals s + len l <= refusals s' + n).
Proof.
  intros Hrate Hburst. revert b s. induction l as [|a l IH]; intros b s Hb Ho Ht Hl; cbn [admitted].
  { assert (0 <= (last - at_second b) * rate) by nia. change (len (@nil arrival)) with 0. cbv zeta. split_and!; lia. }
  cbn [fmap list_fmap] in Ho. destruct Ho as [Hs Ho]. apply Forall_cons in Ht as [Hsl Ht].
  assert (Hg : let '(v, b') := grant rate burst (at_time a) b in
    at_second b' = at_time a /\ 0 <= level b' /\ level b' + Z.b2z v <= level b + (at_time a - at_second b) * rate).
  { unfold grant. assert (0 <= (at_time a - at_second b) * rate) by nia.
    destruct (Z.leb_spec 1 (Z.min burst (level b + (at_time a - at_second b) * rate))); cbn; lia. }
  destruct (grant rate burst (at_time a) b) as [v b']. destruct Hg as (Hat & Hb' & Hlev). rewrite <- Hat in Ho.
  specialize (IH b' (take_or_refuse v a s) Hb' Ho Ht ltac:(lia)). rewrite Hat in IH. cbv zeta in IH |- *.
  assert (Hstep : len (inbound (take_or_refuse v a s)) <= len (inbound s) + Z.b2z v
    /\ len (out (take_or_refuse v a s)) <= len (out s) + Z.b2z v
    /\ refusals (take_or_refuse v a s) = refusals s + (1 - Z.b2z v)).
  { destruct v; cbn [take_or_refuse Z.b2z]; [destruct (grows_handle (writable a) (on_wire (arrived a)) s) as (_ & ? & ? & ?); lia|].
    split_and!; [cbn; lia..|]. unfold refusals. change (audit (log_event RateLimited s)) with (RateLimited :: audit s).
    rewrite filter_cons_True by done. rewrite len_cons. lia. }
  rewrite len_cons. assert (0 <= (last - at_time a) * rate) by nia.
  assert ((last - at_second b) * rate = (last - at_time a) * rate + (at_time a - at_second b) * rate) by ring.
  destruct (closed (take_or_refuse v a s)) eqn:Hc; [|destruct IH as (? & ? & IH); split_and!; try lia; intros; specialize (IH ltac:(done)); lia].
  destruct Hstep as (? & ? & ?). split_and!; try lia. by rewrite Hc.
Qed.
End flood.

(** ** Property *)

(** C21: A flood is bounded by the clock, not by the peer.  On a session with a rate limit,
    whatever frames a peer sends, arriving in order at whole seconds up to [last]: what
    the read loop makes of them is what the integer bucket of the configured rate lets
    through, so that by then it has queued and answered at most [(last + 1) * rate] of
    them, and, the session still being open, every other one is in the audit log and
    nothing is left unread. *)
Theorem flood_bounded start last l s rl :
  session_limiter start (config s) = Some rl -> limits (MaxMessageRate (config s)) (MaxMessageRate (config s)) last ->
  ordered 0 (at_time <$> l) -> Forall (fun a => at_time a <= last) l -> Forall (frame_ok (config s)) (arrived <$> l) ->
  let r := MaxMessageRate (config s) in
  let '(s', rest, _) := limited_rounds (clock start <$> l) (frames (arrived <$> l)) s (Some rl) in
  s' = admitted r r l (mkBucket r 0) s
  /\ len (inbound s') <= len (inbound s) + (last + 1) * r
  /\ len (out s') <= len (out s) + (last + 1) * r
  /\ (closed s' = false -> rest = [] /\ refusals s + len l <= refusals s' + (last + 1) * r).
Proof.
  intros Hrl Hl Ho Ht Hf r. pose proof Hl as [Hr Hb (Hlast & _)]. unfold session_limiter in Hrl.
  destruct (0 <? MaxMessageRate (config s)); [|done]. injection Hrl as <-.
  pose proof (limited_rounds_refine start r r last Hl l [] (mkBucket r 0) s (NewRateLimiter start r r)) as H.
  rewrite app_nil_r in H.
  assert (Hh : holds start r r last (mkBucket r 0) (NewRateLimiter start r r)).
  { split; [unfold NewRateLimiter; cbn; f_equal; lia | cbn; fold r in Hb; lia]. }
  specialize (H Hh Ho Ht Hf). destruct (limited_rounds _ _ _ _) as [[s' rest] rl']. destruct H as [-> Hrest].
  destruct (admitted_bounded r r l (mkBucket r 0) s last) as (H1 & H2 & H3); [cbn; fold r in Hr, Hb; first [lia|done]..|].
  cbn [level at_second] in *. split_and!; [done|lia|lia|]. intros Hc. split; [by apply Hrest|]. specialize (H3 Hc). lia.
Qed.

(** At two messages a second, six requests in two seconds: four are answered. *)
Lemma flood_bounded_witness :
  let c := mkConfig "" RolePassive 1 second second second second second second false [] 0 2 0 0 in
  let s := set_state StateSelected (set_conn (Some true) (NewSession c)) in
  let l := (fun a => mkArrival true a.1 (NewLinktestReq a.2)) <$> [(0, 1); (0, 2); (0, 3); (1, 4); (1, 5); (1, 6)] in
  exists rl, session_limiter 7 c = Some rl
  /\ let '(s', rest, _) := limited_rounds (clock 7 <$> l) (frames (arrived <$> l)) s (Some rl) in
     len (out s') = 4 /\ rest = [] /\ 2 <= refusals s'.
Proof.
  intros c s l. exists (NewRateLimiter 7 2 2). split; [reflexivity|].
  pose proof (flood_bounded 7 1 l s (NewRateLimiter 7 2 2)) as H.
  destruct (limited_rounds _ _ _ _) as [[s' rest] rl]. destruct H as (-> & _ & _ & H).
  - reflexivity.
  - split; cbn; lia.
  - cbn. lia.
  - repeat constructor; cbn; lia.
  - repeat constructor; by vm_compute.
  - destruct H as [-> H]; [reflexivity|]. split_and!; [reflexivity|done|].
    change (refusals s + len l) with 6 in H. change ((1 + 1) * MaxMessageRate (config s)) with 4 in H. lia.
Defined.
