(* ===== verification/Opcua.v ===== *)
(** * The OPC UA client

    [src/pkg/transport/opcua/client.go]: what the client adds to the third-party library
    it wraps.  The library's node identifiers, variants and security modes are
    parameters; how a call into it ends is an argument of the operation, and a
    connection is a number.  [live] are the connections the library holds open. *)

From stdpp Require Import prelude gmap strings list.
From Stdlib Require Import ZArith Lia.
From S2P Require Import Prelude.

#[local] Open Scope Z_scope.

Record Config := mkConfig {
  Endpoint : string;
  SecurityPolicy : string;
  SecurityMode : string;
  CertFile : string;
  KeyFile : string;
  Username : string;
  Password : string;
  RequestTimeout : Z;
}.

Definition DefaultConfig (endpoint : string) : Config := mkConfig endpoint "None" "None" "" "" "" "" 10000000000.

Record Client := mkClient { config : Config; client : option Z; subs : gmap Z (list string); live : gset Z; dialed : Z }.

Definition NewClient (c : Config) : Client := mkClient c None ∅ ∅ 0.

Definition set_client (cl : option Z) (c : Client) : Client := mkClient (config c) cl (subs c) (live c) (dialed c).
Definition set_subs (m : gmap Z (list string)) (c : Client) : Client := mkClient (config c) (client c) m (live c) (dialed c).

Inductive opcua_error :=
| CreateClient | ConnectFailed (endpoint : string) | CloseFailed
| ParseNode (nodeID : string) | NotConnected | CallFailed | NoResults (nodeID : string) | BadStatus (status : Z)
| CreateMonitor | SubscribeFailed | UnknownSubscription (id : Z) | UnsubscribeFailed.

Section client.
Context {NodeID Variant Mode : Type} (ParseNodeID : string -> option NodeID) (SecurityModeFromString : string -> Mode).

(** ** Connecting *)

Inductive ClientOption :=
| OptSecurityPolicy (policy : string)
| OptSecurityMode (mode : Mode)
| OptCertificateFile (f : string)
| OptPrivateKeyFile (f : string)
| OptAuthUsername (user password : string)
| OptAuthAnonymous.

Definition options (c : Config) : list ClientOption :=
  [OptSecurityPolicy (SecurityPolicy c)]
  ++ (if decide (SecurityMode c <> "" /\ SecurityMode c <> "None") then [OptSecurityMode (SecurityModeFromString (SecurityMode c))] else [])
  ++ (if decide (CertFile c <> "" /\ KeyFile c <> "") then [OptCertificateFile (CertFile c); OptPrivateKeyFile (KeyFile c)] else [])
  ++ (if decide (Username c <> "") then [OptAuthUsername (Username c) (Password c)] else [OptAuthAnonymous]).

(** [created]: the library takes the options; [accepted]: the server answers. *)
Definition Connect (created : list ClientOption -> bool) (accepted : bool) (c : Client) : result opcua_error () * Client :=
  if negb (created (options (config c))) then (Err CreateClient, c)
  else if negb accepted then (Err (ConnectFailed (Endpoint (config c))), c)
  else
    let n := dialed c + 1 in
    (Ok (), mkClient (config c) (Some n) (subs c) (live c ∪ {[n]}) n).

(** Whatever the library reports, the connection is gone. *)
Definition Close (closed : bool) (c : Client) : result opcua_error () * Client :=
  match client c with
  | None => (Ok (), c)
  | Some n =>
      (if closed then Ok () else Err CloseFailed, mkClient (config c) None (subs c) (live c ∖ {[n]}) (dialed c))
  end.

(** ** Reading and writing *)

Definition StatusOK : Z := 0.

Record DataValue := mkValue { Status : Z; Value : option Variant }.

Definition parse_node (nodeID : string) : result opcua_error NodeID :=
  match ParseNodeID nodeID with Some n => Ok n | None => Err (ParseNode nodeID) end.

Definition connected (c : Client) : result opcua_error () :=
  match client c with Some _ => Ok () | None => Err NotConnected end.

(** [answer] is what the server sends back for the nodes of the request, [None] when the
    call fails. *)
Definition ReadValue (answer : list NodeID -> option (list DataValue)) (nodeID : string) (c : Client)
  : result opcua_error (option Variant) :=
  n ← parse_node nodeID;
  _ ← connected c;
  match answer [n] with
  | None => Err CallFailed
  | Some [] => Err (NoResults nodeID)
  | Some (r :: _) => if negb (Status r =? StatusOK) then Err (BadStatus (Status r)) else Ok (Value r)
  end.

Fixpoint parse_nodes (nodeIDs : list string) : result opcua_error (list NodeID) :=
  match nodeIDs with
  | [] => Ok []
  | s :: l => n ← parse_node s; ns ← parse_nodes l; Ok (n :: ns)
  end.

(** [for i, r := range resp.Results]: the identifiers are those not passed yet. *)
Fixpoint collect (nodeIDs : list string) (results : list DataValue) (m : gmap string (option Variant))
  : result opcua_error (gmap string (option Variant)) :=
  match results with
  | [] => Ok m
  | r :: results =>
      if Status r =? StatusOK then
        match nodeIDs with
        | [] => Panic IndexOutOfRange
        | nid :: nodeIDs => collect nodeIDs results (<[nid := Value r]> m)
        end
      else collect (tail nodeIDs) results m
  end.

Definition ReadMultiple (answer : list NodeID -> option (list DataValue)) (nodeIDs : list string) (c : Client)
  : result opcua_error (gmap string (option Variant)) :=
  ns ← parse_nodes nodeIDs;
  _ ← connected c;
  match answer ns with
  | None => Err CallFailed
  | Some results => collect nodeIDs results ∅
  end.

(** A server that sends no result is believed. *)
Definition WriteValue (answer : NodeID -> option Variant -> option (list Z)) (nodeID : string) (value : option Variant) (c : Client)
  : result opcua_error () :=
  n ← parse_node nodeID;
  _ ← connected c;
  match answer n value with
  | None => Err CallFailed
  | Some (s :: _) => if negb (s =? StatusOK) then Err (BadStatus s) else Ok ()
  | Some [] => Ok ()
  end.

(** ** Browsing *)

Record NodeInfo := mkNode { NodeID_text : string; BrowseName : string; DisplayName : string; NodeClass : string }.

(** A result is the list of references the library decodes, as the four texts. *)
Definition BrowseNode (answer : NodeID -> option (list (list NodeInfo))) (nodeID : string) (c : Client)
  : result opcua_error (list NodeInfo) :=
  n ← parse_node nodeID;
  _ ← connected c;
  match answer n with
  | None => Err CallFailed
  | Some [] => Ok []
  | Some (references :: _) => Ok ((fun ref => mkNode (NodeID_text ref) (BrowseName ref) (DisplayName ref) (NodeClass ref)) <$> references)
  end.

(** ** Subscriptions *)

(** [monitor]: the library's monitor is created; [subscribed] is the number the server
    gives, [None] when it refuses. *)
Definition Subscribe (monitor : bool) (subscribed : option Z) (nodeIDs : list string) (c : Client) : result opcua_error Z * Client :=
  match connected c with
  | Ok _ =>
      if negb monitor then (Err CreateMonitor, c)
      else match subscribed with
           | None => (Err SubscribeFailed, c)
           | Some id => (Ok id, set_subs (<[id := nodeIDs]> (subs c)) c)
           end
  | Err e => (Err e, c)
  | Panic p => (Panic p, c)
  | OutOfFuel => (OutOfFuel, c)
  end.

Record DataChange := mkChange { Failed : bool; NodeText : string; NewValue : option Variant; SourceTimestamp : Z }.

(** The calls of the handler for the messages of the channel; an error is logged. *)
Fixpoint notifications (msgs : list DataChange) : list (string * option Variant * Z) :=
  match msgs with
  | [] => []
  | m :: msgs =>
      if Failed m then notifications msgs else (NodeText m, NewValue m, SourceTimestamp m) :: notifications msgs
  end.

Definition Unsubscribe (cancelled : bool) (subID : Z) (c : Client) : result opcua_error () * Client :=
  match subs c !! subID with
  | None => (Err (UnknownSubscription subID), c)
  | Some _ => (if cancelled then Ok () else Err UnsubscribeFailed, set_subs (delete subID (subs c)) c)
  end.

(** ** Lemmas *)

Lemma parse_nodes_ok nodeIDs :
  Forall (fun s => is_Some (ParseNodeID s)) nodeIDs -> exists ns, parse_nodes nodeIDs = Ok ns.
Proof.
  induction 1 as [|s l [n Hn] _ [ns IH]]; [by eexists|]. cbn. unfold parse_node. rewrite Hn. cbn. rewrite IH. by eexists.
Qed.

(** The value a map has for [nid] after the results: that of the last good one for it. *)
Fixpoint last_good (nodeIDs : list string) (results : list DataValue) (nid : string) : option (option Variant) :=
  match nodeIDs, results with
  | s :: nodeIDs, r :: results =>
      match last_good nodeIDs results nid with
      | Some v => Some v
      | None => if decide (s = nid /\ Status r = StatusOK) then Some (Value r) else None
      end
  | _, _ => None
  end.

Lemma collect_spec nodeIDs results m :
  match collect nodeIDs results m with
  | Ok m' =>
      (forall i r, results !! i = Some r -> Status r = StatusOK -> (i < length nodeIDs)%nat)
      /\ forall nid, m' !! nid = match last_good nodeIDs results nid with Some v => Some v | None => m !! nid end
  | Panic p => p = IndexOutOfRange /\ exists i r, results !! i = Some r /\ Status r = StatusOK /\ (length nodeIDs <= i)%nat
  | _ => False
  end.
Proof.
  revert nodeIDs m. induction results as [|r results IH]; intros nodeIDs m; cbn [collect].
  { split; [done|]. intros nid. by destruct nodeIDs. }
  destruct (Z.eqb_spec (Status r) StatusOK) as [Hs|Hs].
  - destruct nodeIDs as [|s nodeIDs]; [split; [done|]; exists 0%nat, r; split_and!; [done..|cbn; lia]|].
    specialize (IH nodeIDs (<[s := Value r]> m)). destruct (collect nodeIDs results _) as [m'| |p|]; try done.
    + destruct IH as [H1 H2]. split.
      * intros [|i] x Hi Hx; cbn; [lia|]. pose proof (H1 i x Hi Hx). lia.
      * intros nid. rewrite H2. cbn [last_good]. destruct (last_good nodeIDs results nid); [done|].
        destruct (decide (s = nid)) as [->|Hne]; [rewrite decide_True by done; by rewrite lookup_insert_eq|].
        rewrite decide_False by (by intros [??]). by rewrite lookup_insert_ne.
    + destruct IH as [-> (i & x & Hi & Hx & Hl)]. split; [done|]. exists (S i), x. split_and!; [done..|cbn; lia].
  - specialize (IH (tail nodeIDs) m). destruct (collect (tail nodeIDs) results _) as [m'| |p|]; try done.
    + destruct IH as [H1 H2]. split.
      * intros [|i] x Hi Hx; [injection Hi as ->; done|]. pose proof (H1 i x Hi Hx) as Hl. destruct nodeIDs; cbn in *; lia.
      * intros nid. rewrite H2. destruct nodeIDs as [|s nodeIDs]; cbn [tail last_good]; [by destruct results|].
        destruct (last_good nodeIDs results nid); [done|]. by rewrite decide_False by (by intros [??]).
    + destruct IH as [-> (i & x & Hi & Hx & Hl)]. split; [done|]. exists (S i), x. split_and!; [done..|]. destruct nodeIDs; cbn in *; lia.
Qed.

(** ** Properties *)

(** Reading several nodes gives for each the value of the last good result at one of
    its places, and nothing else; the only way it fails on identifiers that parse, with a
    server that answers, is the panic when a good result comes for a node that was not
    asked for. *)
Theorem read_multiple_spec answer nodeIDs results c :
  Forall (fun s => is_Some (ParseNodeID s)) nodeIDs -> is_Some (client c) -> (forall ns, answer ns = Some results) ->
  match ReadMultiple answer nodeIDs c with
  | Ok m =>
      (forall i r, results !! i = Some r -> Status r = StatusOK -> (i < length nodeIDs)%nat)
      /\ forall nid, m !! nid = last_good nodeIDs results nid
  | Panic p => p = IndexOutOfRange /\ exists i r, results !! i = Some r /\ Status r = StatusOK /\ (length nodeIDs <= i)%nat
  | _ => False
  end.
Proof.
  intros Hp [n Hc] Ha. destruct (parse_nodes_ok _ Hp) as [ns Hns]. unfold ReadMultiple, connected. rewrite Hns, Hc. cbn. rewrite Ha.
  pose proof (collect_spec nodeIDs results ∅) as Hs. destruct (collect _ _ _) as [m| | |]; try done.
  destruct Hs as [H1 H2]. split; [done|]. intros nid. rewrite H2. by destruct (last_good _ _ _).
Qed.

(** Closing lets go of the connection it had; one that a second [Connect] replaced stays
    open for ever. *)
Theorem reconnect_leaks created c c1 c2 :
  (forall n, n ∈ live c -> n <= dialed c) -> Connect created true c = (Ok (), c1) -> Connect created true c1 = (Ok (), c2) ->
  forall closed, dialed c + 1 ∈ live (Close closed c2).2 /\ client (Close closed c2).2 = None.
Proof.
  intros Hlive. unfold Connect. destruct (created (options (config c))) eqn:Hcr; [|done]. cbn [negb].
  intros [= <-]. cbn [config]. rewrite Hcr. cbn [negb]. intros [= <-] closed. unfold Close. cbn. split; [|done]. set_solver by lia.
Qed.
End client.

Lemma read_multiple_spec_witness :
  let c := (Connect (fun s : string => s) (fun _ => true) true (NewClient (DefaultConfig "opc.tcp://e"))).2 in
  let good v := mkValue StatusOK (Some v) in
  (exists m, ReadMultiple (Variant := Z) (Some (A := string)) (fun _ => Some [good 1; mkValue 5 None; good 3]) ["a"; "b"; "a"] c = Ok m
     /\ m !! "a" = Some (Some 3) /\ m !! "b" = None).
Proof.
  intros c good.
  pose proof (read_multiple_spec (Some (A := string)) (fun _ => Some [good 1; mkValue 5 None; good 3]) ["a"; "b"; "a"]
    [good 1; mkValue 5 None; good 3] c) as H.
  destruct (ReadMultiple _ _ _ _) as [m| |p|].
  - exists m. destruct H as [_ H]; [repeat constructor; by eexists | by eexists | done|]. split; [done|]. rewrite !H. by vm_compute.
  - destruct H; [repeat constructor; by eexists | by eexists | done].
  - exfalso. destruct H as [_ (i & r & Hi & _ & Hl)]; [repeat constructor; by eexists | by eexists | done|].
    apply lookup_lt_Some in Hi. cbn in *. lia.
  - destruct H; [repeat constructor; by eexists | by eexists | done].
Defined.
