(* ===== verification/Crypto.v ===== *)
(** * Payload encryption, key stores and TLS settings

    [src/pkg/security/encryption.go], [hsm.go] and [tls.go].  AES-GCM, the signers, the
    certificates and the files are parameters: [Gcm] states what the encryptor relies on
    of the cipher, [Signing] is what a [crypto.Signer] does.  Random bytes are an
    argument, [None] when the system has none.

    A key store is a class ([KeyStore]) that promises that signing by name is signing
    with the signer of that name; [SoftwareKeyStore] keeps the promise, and the signer
    that delegates to a store is proved against it. *)

From stdpp Require Import prelude gmap strings list.
From Stdlib Require Import ZArith Lia.
From S2P Require Import Prelude Secs2Item Secs2Codec.

#[local] Open Scope Z_scope.

(** ** Encryption ([encryption.go]) *)

Definition nonceSize : Z := 12.
Definition tagSize : Z := 16.

(** [cipher.NewGCM] on [aes.NewCipher(key)], for a key of 32 bytes, the nonces it takes
    and the plaintexts a message can carry. *)
Definition gcm_input (k n p : list Z) : Prop := len k = 32 /\ len n = nonceSize /\ len p < 2 ^ 32.

Class Gcm := {
  seal : list Z -> list Z -> list Z -> list Z;            (* key, nonce, plaintext *)
  open : list Z -> list Z -> list Z -> option (list Z);   (* key, nonce, ciphertext *)
  seal_length k n p : gcm_input k n p -> len (seal k n p) = len p + tagSize;
  open_spec k n c p : gcm_input k n p -> open k n c = Some p <-> c = seal k n p;
  open_length k n c p : len k = 32 -> len n = nonceSize -> open k n c = Some p -> len c = len p + tagSize;
}.

Record MessageEncryptor := mkEncryptor { aead : list Z; keyID : string }.

Inductive crypto_error :=
| WrongKeyLength (got : Z)
| NoRandom
| CiphertextTooShort
| DecryptFailed
| PayloadEncode (e : encode_error)
| PayloadDecode (e : decode_error).

Definition check_key (key : list Z) : result crypto_error () :=
  if negb (len key =? 32) then Err (WrongKeyLength (len key)) else Ok ().

Definition NewMessageEncryptor (key : list Z) (id : string) : result crypto_error MessageEncryptor :=
  _ ← check_key key; Ok (mkEncryptor key id).

Definition RotateKey (newKey : list Z) (newKeyID : string) (e : MessageEncryptor) : result crypto_error () * MessageEncryptor :=
  match check_key newKey with
  | Ok _ => (Ok (), mkEncryptor newKey newKeyID)
  | r => (r, e)
  end.

(** [rand.Reader] gives the bytes it is asked for, or fails. *)
Definition read_random (n : Z) (random : option (list Z)) : result crypto_error (list Z) :=
  match random with Some l => if len l <? n then Err NoRandom else Ok (take (Z.to_nat n) l) | None => Err NoRandom end.

Definition GenerateKey (random : option (list Z)) : result crypto_error (list Z) := read_random 32 random.

Section encryption.
Context {gcm : Gcm}.

(** [Seal] appends to the nonce. *)
Definition Encrypt (random : option (list Z)) (plaintext : list Z) (e : MessageEncryptor) : result crypto_error (list Z) :=
  nonce ← read_random nonceSize random;
  Ok (nonce ++ seal (aead e) nonce plaintext).

Definition Decrypt (data : list Z) (e : MessageEncryptor) : result crypto_error (list Z) :=
  if len data <? nonceSize then Err CiphertextTooShort
  else
    nonce ← slice data 0 nonceSize;
    ciphertext ← slice_from data nonceSize;
    match open (aead e) nonce ciphertext with
    | Some plaintext => Ok plaintext
    | None => Err DecryptFailed
    end.

(** The middleware of the comment: an item encrypted before it is sent and decrypted
    after it is received. *)
Definition seal_item (random : option (list Z)) (it : item) (e : MessageEncryptor) : result crypto_error (list Z) :=
  data ← wrap_err PayloadEncode (Encode (Some it)); Encrypt random data e.
Definition open_item (data : list Z) (e : MessageEncryptor) : result crypto_error item :=
  data ← Decrypt data e; wrap_err PayloadDecode (Decode data).
End encryption.

(** ** Key stores ([hsm.go]) *)

Inductive key_error := KeyNotFound (id : string) | NoCertificate (id : string) | KeyGeneration | SignFailed.

(** [crypto.Signer] and [x509.Certificate], whose [Raw] is a field. *)
Class Signing := {
  Signer : Type;
  Certificate : Type;
  Signature : Type;
  PublicKey : Type;
  sign : Signer -> list Z -> option Signature;
  Public : Signer -> PublicKey;
  Raw : Certificate -> list Z;
}.

Section keys.
Context `{S : Signing}.

(** [Sign] of a signer, which may be a nil interface. *)
Definition signer_sign (k : option Signer) (digest : list Z) : result key_error Signature :=
  match k with
  | None => Panic NilDeref
  | Some k => match sign k digest with Some s => Ok s | None => Err SignFailed end
  end.

Class KeyStore (K : Type) := {
  Sign : string -> list Z -> K -> result key_error Signature;
  GetCertificate : string -> K -> result key_error Certificate;
  GetSigner : string -> K -> result key_error (option Signer);
  ListKeys : K -> list string;
  sign_signer id digest ks : Sign id digest ks = (k ← GetSigner id ks; signer_sign k digest);
  listed id ks : id ∈ ListKeys ks <-> is_ok (GetSigner id ks) = true;
}.

Record softKey := mkSoftKey { sk_signer : option Signer; sk_cert : option Certificate }.

Record SoftwareKeyStore := mkStore { keys : gmap string softKey }.

Definition NewSoftwareKeyStore : SoftwareKeyStore := mkStore ∅.

(** [generated]: what [ecdsa.GenerateKey] returns. *)
Definition GenerateStoredKey (generated : option Signer) (id : string) (ks : SoftwareKeyStore) : result key_error () * SoftwareKeyStore :=
  match generated with
  | None => (Err KeyGeneration, ks)
  | Some k => (Ok (), mkStore (<[id := mkSoftKey (Some k) None]> (keys ks)))
  end.

Definition ImportKey (id : string) (signer : option Signer) (cert : option Certificate) (ks : SoftwareKeyStore) : SoftwareKeyStore :=
  mkStore (<[id := mkSoftKey signer cert]> (keys ks)).

Definition find_key (id : string) (ks : SoftwareKeyStore) : result key_error softKey :=
  match keys ks !! id with Some k => Ok k | None => Err (KeyNotFound id) end.

Definition soft_Sign (id : string) (digest : list Z) (ks : SoftwareKeyStore) : result key_error Signature :=
  k ← find_key id ks; signer_sign (sk_signer k) digest.

Definition soft_GetCertificate (id : string) (ks : SoftwareKeyStore) : result key_error Certificate :=
  k ← find_key id ks;
  match sk_cert k with Some c => Ok c | None => Err (NoCertificate id) end.

Definition soft_GetSigner (id : string) (ks : SoftwareKeyStore) : result key_error (option Signer) :=
  k ← find_key id ks; Ok (sk_signer k).

Definition soft_ListKeys `{!MapOrder string} (ks : SoftwareKeyStore) : list string := (range_map (keys ks)).*1.

Record TlsCertificate := mkTlsCert { Chain : list (list Z); PrivateKey : option Signer; Leaf : Certificate }.

Definition TLSCertificate (id : string) (ks : SoftwareKeyStore) : result key_error TlsCertificate :=
  k ← find_key id ks;
  match sk_cert k with
  | None => Err (NoCertificate id)
  | Some c => Ok (mkTlsCert [Raw c] (sk_signer k) c)
  end.

#[export] Program Instance soft_store `{!MapOrder string} : KeyStore SoftwareKeyStore := {|
  Sign := soft_Sign; GetCertificate := soft_GetCertificate; GetSigner := soft_GetSigner; ListKeys := soft_ListKeys |}.
Next Obligation.
  intros ? id digest ks. unfold soft_Sign, soft_GetSigner. by destruct (find_key id ks).
Qed.
Next Obligation.
  intros ? id ks. unfold soft_ListKeys. rewrite elem_of_range_keys. unfold soft_GetSigner, find_key.
  destruct (keys ks !! id); simpl; [by split; eauto|]. split; [intros [? [=]] | done].
Qed.

(** The store is a pointer: what it holds when the signer is used counts, so the store
    is an argument of [hsm_sign]. *)
Record hsmSigner := mkHsmSigner { hs_keyID : string; hs_pub : PublicKey }.

Definition NewHSMSigner (id : string) (pub : PublicKey) : hsmSigner := mkHsmSigner id pub.
Definition hsm_public (s : hsmSigner) : PublicKey := hs_pub s.
Definition hsm_sign `{KeyStore K} (digest : list Z) (s : hsmSigner) (ks : K) : result key_error Signature :=
  Sign (hs_keyID s) digest ks.
End keys.

(** ** TLS settings ([tls.go]) *)

Definition VersionTLS12 : Z := 0x0303.
Definition X25519 : Z := 29.
Definition CurveP256 : Z := 23.

(** TLS_ECDHE_{ECDSA,RSA}_WITH_AES_{128,256}_GCM and CHACHA20_POLY1305. *)
Definition strong_suites : list Z := [0xc02b; 0xc02f; 0xc02c; 0xc030; 0xcca9; 0xcca8].

Inductive client_auth := NoClientCert | RequireAndVerifyClientCert.

(** [Certificates] are key pairs, a pool is the certificates in it; [None] is the pool
    of the system. *)
Record TlsConfig (pair cert : Type) := mkTls {
  MinVersion : Z;
  CurvePreferences : list Z;
  CipherSuites : list Z;
  InsecureSkipVerify : bool;
  Certificates : list pair;
  ClientCAs : option (list cert);
  ClientAuth : client_auth;
  RootCAs : option (list cert);
}.

Arguments mkTls {pair cert}. Arguments MinVersion {pair cert}. Arguments CurvePreferences {pair cert}.
Arguments CipherSuites {pair cert}. Arguments InsecureSkipVerify {pair cert}. Arguments Certificates {pair cert}.
Arguments ClientCAs {pair cert}. Arguments ClientAuth {pair cert}. Arguments RootCAs {pair cert}.

Inductive tls_error := LoadPair (file : string) | ReadCA (file : string) | ParseCA (file : string).

Section tls.
Context {pair cert : Type}.
Context (LoadX509KeyPair : string -> string -> option pair) (ReadFile : string -> option (list Z))
        (CertsFromPEM : list Z -> list cert).

Definition DefaultTLSConfig : TlsConfig pair cert :=
  mkTls VersionTLS12 [X25519; CurveP256] strong_suites false [] None NoClientCert None.

Definition with_pair (p : pair) (c : TlsConfig pair cert) : TlsConfig pair cert :=
  mkTls (MinVersion c) (CurvePreferences c) (CipherSuites c) (InsecureSkipVerify c) [p] (ClientCAs c) (ClientAuth c) (RootCAs c).

(** A pool from a file; [AppendCertsFromPEM] is false when there is none in it. *)
Definition load_pool (caFile : string) : result tls_error (list cert) :=
  match ReadFile caFile with
  | None => Err (ReadCA caFile)
  | Some data => match CertsFromPEM data with [] => Err (ParseCA caFile) | l => Ok l end
  end.

Definition LoadServerTLS (certFile keyFile caFile : string) : result tls_error (TlsConfig pair cert) :=
  match LoadX509KeyPair certFile keyFile with
  | None => Err (LoadPair certFile)
  | Some p =>
      let cfg := with_pair p DefaultTLSConfig in
      if decide (caFile <> "") then
        pool ← load_pool caFile;
        Ok (mkTls (MinVersion cfg) (CurvePreferences cfg) (CipherSuites cfg) (InsecureSkipVerify cfg) (Certificates cfg)
              (Some pool) RequireAndVerifyClientCert (RootCAs cfg))
      else Ok cfg
  end.

Definition LoadClientTLS (certFile keyFile caFile : string) : result tls_error (TlsConfig pair cert) :=
  cfg ← (if decide (certFile <> "" /\ keyFile <> "") then
           match LoadX509KeyPair certFile keyFile with
           | None => Err (LoadPair certFile)
           | Some p => Ok (with_pair p DefaultTLSConfig)
           end
         else Ok DefaultTLSConfig);
  if decide (caFile <> "") then
    pool ← load_pool caFile;
    Ok (mkTls (MinVersion cfg) (CurvePreferences cfg) (CipherSuites cfg) (InsecureSkipVerify cfg) (Certificates cfg)
          (ClientCAs cfg) (ClientAuth cfg) (Some pool))
  else Ok cfg.
End tls.

(** ** Properties of the encryptor *)

Lemma check_key_ok key : check_key key = Ok () <-> len key = 32.
Proof. unfold check_key. destruct (Z.eqb_spec (len key) 32); simpl; split; done. Qed.

Lemma read_random_ok n r l : 0 <= n -> read_random n r = Ok l -> len l = n.
Proof.
  unfold read_random. destruct r as [x|]; [|done]. destruct (Z.ltb_spec (len x) n); [done|]. intros Hn [= <-].
  unfold len in *. rewrite length_take. lia.
Qed.

(** An encryptor comes with a key the cipher takes. *)
Definition usable (e : MessageEncryptor) : Prop := len (aead e) = 32.

Lemma new_usable key id e : NewMessageEncryptor key id = Ok e -> usable e.
Proof. unfold NewMessageEncryptor. intros ([] & Hk & [= <-])%bind_ok. by apply check_key_ok. Qed.

Lemma rotate_usable key id e : usable e -> usable (RotateKey key id e).2.
Proof. intros He. unfold RotateKey. destruct (check_key key) as [[]| | |] eqn:Hk; try done. by apply check_key_ok. Qed.

Section sealing.
Context {gcm : Gcm}.

Lemma decrypt_split nonce c e :
  len nonce = nonceSize ->
  Decrypt (nonce ++ c) e = match open (aead e) nonce c with Some p => Ok p | None => Err DecryptFailed end.
Proof.
  intros Hn. unfold Decrypt. pose proof (len_nonneg c). rewrite len_app, Hn, (proj2 (Z.ltb_ge _ _)) by lia.
  rewrite <- Hn. rewrite (slice_app [] nonce c 0 (len nonce)) by (rewrite ?len_nil; lia). cbn [mbind result_bind app].
  by rewrite slice_from_app.
Qed.

Lemma encrypt_decrypt random p e d :
  usable e -> len p < 2 ^ 32 -> Encrypt random p e = Ok d -> Decrypt d e = Ok p /\ len d = nonceSize + len p + tagSize.
Proof.
  intros He Hp (nonce & Hn & [= <-])%bind_ok. apply read_random_ok in Hn; [|done].
  assert (gcm_input (aead e) nonce p) as Hg by (by split_and!).
  rewrite decrypt_split by done. rewrite (proj2 (open_spec _ _ _ _ Hg) eq_refl). split; [done|].
  rewrite len_app, seal_length by done. lia.
Qed.

Lemma encrypt_cases random p e :
  Encrypt random p e = Err NoRandom /\ (forall l, random = Some l -> len l < nonceSize)
  \/ exists d, Encrypt random p e = Ok d.
Proof.
  unfold Encrypt, read_random. destruct random as [l|]; [| by left].
  destruct (Z.ltb_spec (len l) nonceSize); [left; split; [done | by intros ? [= <-]] | right; by eexists].
Qed.

Lemma decrypt_ok d p e :
  usable e -> len d < 2 ^ 32 -> Decrypt d e = Ok p ->
  len d = len p + 28 /\ exists nonce, len nonce = nonceSize /\ Encrypt (Some nonce) p e = Ok d.
Proof.
  intros He Hlen Hd. assert (nonceSize <= len d) as Hge by (unfold Decrypt in Hd; destruct (Z.ltb_spec (len d) nonceSize); done).
  set (nonce := take (Z.to_nat nonceSize) d).
  assert (len nonce = nonceSize) as Hn by (unfold nonce, len in *; rewrite length_take; unfold nonceSize in *; lia).
  rewrite <- (take_drop (Z.to_nat nonceSize) d) in Hd. fold nonce in Hd. rewrite decrypt_split in Hd by done.
  destruct (open _ _ _) as [p'|] eqn:Ho; [|done]. injection Hd as ->.
  pose proof (open_length _ _ _ _ He Hn Ho) as Hl.
  assert (len d = len nonce + len (drop (Z.to_nat nonceSize) d)) as Hsplit
    by (rewrite <- len_app; unfold nonce; by rewrite take_drop).
  unfold nonceSize, tagSize in *. split; [lia |].
  apply open_spec in Ho; [|split_and!; [exact He | exact Hn | lia]].
  exists nonce. split; [done |].
  unfold Encrypt, read_random. rewrite Hn, Z.ltb_irrefl. cbn [mbind result_bind].
  rewrite (take_ge nonce) by (unfold len in Hn; unfold nonceSize; lia). rewrite <- Ho. unfold nonce. by rewrite take_drop.
Qed.

Lemma decrypt_cases d e :
  len d < nonceSize /\ Decrypt d e = Err CiphertextTooShort
  \/ nonceSize <= len d /\ (Decrypt d e = Err DecryptFailed \/ exists p, Decrypt d e = Ok p).
Proof.
  destruct (Z.lt_ge_cases (len d) nonceSize) as [Hlt|Hge].
  - left. unfold Decrypt. by rewrite (proj2 (Z.ltb_lt _ _)).
  - right. split; [done |]. set (nonce := take (Z.to_nat nonceSize) d).
    assert (len nonce = nonceSize) as Hn by (unfold nonce, len in *; rewrite length_take; unfold nonceSize in *; lia).
    rewrite <- (take_drop (Z.to_nat nonceSize) d). fold nonce. rewrite decrypt_split by done.
    destruct (open _ _ _); eauto.
Qed.

(** The encryptors there are: made with a key, then given others, some of them refused. *)
Definition made (e : MessageEncryptor) : Prop :=
  exists key id e0 rotations, NewMessageEncryptor key id = Ok e0
    /\ e = foldl (fun e '(k, i) => (RotateKey k i e).2) e0 rotations.

Lemma made_usable e : made e -> usable e.
Proof.
  intros (key & id & e0 & rotations & H0 & ->). apply new_usable in H0. revert e0 H0.
  induction rotations as [|[k i] rotations IH]; intros e0 H0; [done |]. by apply IH, rotate_usable.
Qed.

(** C27: The encryptor accepts exactly what it produces.  Under any encryptor that is made
    and whose key is changed by any sequence of calls, and for any received bytes below
    2^32, [Decrypt] returns: fewer than 12 bytes are CiphertextTooShort and nothing else
    is; a plaintext comes from exactly the bytes that [Encrypt] makes of it for some
    nonce, 28 more than it has; everything else fails to authenticate.  [Encrypt] returns such bytes for
    every plaintext below 2^32, or the error of a random source that gives no 12 bytes. *)
Theorem decrypt_exact e d :
  made e -> len d < 2 ^ 32 ->
  match Decrypt d e with
  | Ok p => len d = len p + 28 /\ exists nonce, len nonce = nonceSize /\ Encrypt (Some nonce) p e = Ok d
  | Err CiphertextTooShort => len d < 12
  | Err DecryptFailed => 12 <= len d
      /\ forall random p, len p < 2 ^ 32 -> Encrypt random p e <> Ok d
  | _ => False
  end
  /\ (forall random p, len p < 2 ^ 32 ->
      match Encrypt random p e with
      | Ok d' => Decrypt d' e = Ok p /\ len d' = len p + 28
      | Err NoRandom => forall l, random = Some l -> len l < 12
      | _ => False
      end).
Proof.
  intros He%made_usable Hd. split.
  - destruct (decrypt_cases d e) as [[Hlt ->]|[Hge [Hf|[p Hp]]]]; [done | |].
    + rewrite Hf. split; [done |]. intros random p Hp Henc.
      destruct (encrypt_decrypt random p e d He Hp Henc) as [Hok _]. by rewrite Hok in Hf.
    + rewrite Hp. by apply decrypt_ok.
  - intros random p Hp. destruct (encrypt_cases random p e) as [[-> Hr]|[d' Hd']]; [done |].
    rewrite Hd'. destruct (encrypt_decrypt random p e d' He Hp Hd') as [Hok Hl]. split; [done |].
    unfold nonceSize, tagSize in Hl. lia.
Qed.

(** An item sealed for the wire is the item read from it. *)
Lemma sealed_item random it e d :
  usable e -> well_formed it = true -> (forall bs, Encode (Some it) = Ok bs -> len bs < 2 ^ 32) ->
  seal_item random it e = Ok d -> open_item d e = Ok (normalize it).
Proof.
  intros He Hwf Hl (bs & Hb & Hd)%bind_ok. apply wrap_err_ok in Hb.
  destruct (well_formed_encode it Hwf) as (bs' & Hb' & _ & Hdec). rewrite Hb in Hb'. apply Ok_inj in Hb' as <-.
  apply encrypt_decrypt in Hd as [Hd _]; [|done|by apply Hl].
  unfold open_item. rewrite Hd. cbn [mbind result_bind]. by rewrite Hdec.
Qed.
End sealing.

(** A cipher for the examples: it shifts every byte by the first one of the key and ends
    with the nonce and four bytes. *)
Definition toy_mask (k : list Z) (l : list Z) : list Z := (fun b => b + default 0 (head k)) <$> l.
Definition toy_unmask (k : list Z) (l : list Z) : list Z := (fun b => b - default 0 (head k)) <$> l.

Lemma toy_unmask_mask k l : toy_unmask k (toy_mask k l) = l.
Proof. unfold toy_unmask, toy_mask. rewrite <- list_fmap_compose. rewrite <- (list_fmap_id l) at 2. apply list_fmap_ext. intros ? b _. simpl. lia. Qed.

Lemma toy_mask_unmask k l : toy_mask k (toy_unmask k l) = l.
Proof. unfold toy_unmask, toy_mask. rewrite <- list_fmap_compose. rewrite <- (list_fmap_id l) at 2. apply list_fmap_ext. intros ? b _. simpl. lia. Qed.

#[program] Definition toy_gcm : Gcm := {|
  seal k n p := toy_mask k p ++ n ++ [0; 0; 0; 0];
  open k n c :=
    let m := Z.to_nat (len c - tagSize) in
    if bool_decide (tagSize <= len c /\ drop m c = n ++ [0; 0; 0; 0]) then Some (toy_unmask k (take m c)) else None |}.
Next Obligation.
  intros k n p (_ & Hn & _). rewrite !len_app, Hn. unfold toy_mask, len. rewrite length_fmap. simpl. unfold tagSize, nonceSize. lia.
Qed.
Next Obligation.
  intros k n c p (_ & Hn & _). cbv zeta.
  assert (forall q, len (toy_mask k q ++ n ++ [0; 0; 0; 0]) = len q + tagSize) as Hl.
  { intros q. rewrite !len_app, Hn. unfold toy_mask, len. rewrite length_fmap. simpl. unfold tagSize, nonceSize. lia. }
  case_bool_decide as Hc; split.
  - intros [= <-]. rewrite toy_mask_unmask. rewrite <- (proj2 Hc). by rewrite take_drop.
  - intros ->. rewrite Hl. replace (Z.to_nat (len p + tagSize - tagSize)) with (length (toy_mask k p))
      by (unfold toy_mask, len; rewrite length_fmap; unfold tagSize; lia).
    by rewrite take_app_length, toy_unmask_mask.
  - done.
  - intros ->. destruct Hc. rewrite Hl. pose proof (len_nonneg p). split; [lia|].
    replace (Z.to_nat (len p + tagSize - tagSize)) with (length (toy_mask k p))
      by (unfold toy_mask, len; rewrite length_fmap; unfold tagSize; lia).
    by rewrite drop_app_length.
Qed.
Next Obligation.
  intros k n c p _ _. cbv beta zeta. case_bool_decide as Hc; [| done]. destruct Hc as [Hc _]. intros [= <-].
  unfold toy_unmask, len in *. rewrite length_fmap, length_take. unfold tagSize in *. lia.
Qed.

(** A round trip under a second key, what it makes of a forgery and of a fragment, and
    that the first key does not open it. *)
Lemma decrypt_exact_witness :
  let e0 := mkEncryptor (repeat 8 32) "k0" in
  let e := (RotateKey (repeat 7 32) "k1" e0).2 in
  let d := repeat 1 12 ++ [72; 80] ++ repeat 1 12 ++ [0; 0; 0; 0] in
  made e
  /\ match Decrypt (gcm:=toy_gcm) d e with Ok p => len d = len p + 28 | _ => False end
  /\ Decrypt (gcm:=toy_gcm) (take 29 d) e = Err DecryptFailed
  /\ Decrypt (gcm:=toy_gcm) (take 11 d) e = Err CiphertextTooShort
  /\ Decrypt (gcm:=toy_gcm) d e0 <> Ok [65; 73].
Proof.
  intros e0 e d.
  assert (Hm : made e) by (exists (repeat 8 32), "k0", e0, [(repeat 7 32, "k1")]; split; reflexivity).
  split_and!; [exact Hm | | reflexivity | reflexivity | vm_compute; discriminate].
  exact (proj1 (proj1 (decrypt_exact (gcm:=toy_gcm) e d Hm eq_refl))).
Defined.

(** ** Properties of the key stores *)

Section stores.
Context {S : Signing}.

(** The signer over a store signs as the signer the store holds at that moment. *)
Theorem hsm_delegates `{KeyStore K} id pub digest (ks : K) :
  hsm_sign digest (NewHSMSigner id pub) ks = (k ← GetSigner id ks; signer_sign k digest).
Proof. apply sign_signer. Qed.

(** What a lookup finds after an import: the last key of the name, and the others as
    they were. *)
Lemma import_lookup id id' k c ks :
  find_key id' (ImportKey id k c ks) = if decide (id = id') then Ok (mkSoftKey k c) else find_key id' ks.
Proof.
  unfold find_key, ImportKey. cbn [keys]. destruct (decide (id = id')) as [->|Hne].
  - by rewrite lookup_insert_eq.
  - by rewrite lookup_insert_ne.
Qed.

(** The TLS certificate of a name is there exactly when its key has a certificate, and
    carries the key [GetSigner] gives. *)
Lemma tls_certificate_spec id ks t :
  TLSCertificate id ks = Ok t <->
  exists c k, soft_GetCertificate id ks = Ok c /\ soft_GetSigner id ks = Ok k /\ t = mkTlsCert [Raw c] k c.
Proof.
  unfold TLSCertificate, soft_GetCertificate, soft_GetSigner. destruct (find_key id ks) as [[k [c|]]| | |]; simpl;
    (split; [intros Ht; try done; injection Ht as <-; eauto | intros (c' & k' & Hc & Hk & ->); by simplify_eq]).
Qed.

(** A key generated after its certificate was imported has none. *)
Lemma generate_drops_certificate k k' c id ks :
  let ks := (GenerateStoredKey (Some k') id (ImportKey id k (Some c) ks)).2 in
  soft_GetCertificate id ks = Err (NoCertificate id).
Proof.
  unfold GenerateStoredKey, ImportKey, soft_GetCertificate, find_key. cbn [snd keys].
  by rewrite insert_insert_eq, lookup_insert_eq.
Qed.
End stores.

(** ** Properties of the TLS settings *)

Section tls_properties.
Context {pair cert : Type}.
Context (LoadX509KeyPair : string -> string -> option pair) (ReadFile : string -> option (list Z))
        (CertsFromPEM : list Z -> list cert).

(** What every configuration of the two loaders has. *)
Definition hardened (c : TlsConfig pair cert) : Prop :=
  MinVersion c = VersionTLS12 /\ CurvePreferences c = [X25519; CurveP256]
  /\ CipherSuites c = strong_suites /\ InsecureSkipVerify c = false.

(** A pool holds the certificates of the named file, of which there is one at least, and
    no others; without a file there is no pool. *)
Definition pool_of (caFile : string) (pool : option (list cert)) : Prop :=
  if decide (caFile = "") then pool = None
  else exists data, ReadFile caFile = Some data /\ CertsFromPEM data <> [] /\ pool = Some (CertsFromPEM data).

(** Why the file of the authorities is refused. *)
Definition pool_error (caFile : string) (e : tls_error) : Prop :=
  caFile <> ""
  /\ (e = ReadCA caFile /\ ReadFile caFile = None
      \/ e = ParseCA caFile /\ exists data, ReadFile caFile = Some data /\ CertsFromPEM data = []).

Lemma load_pool_spec caFile : caFile <> "" ->
  (exists pool, load_pool ReadFile CertsFromPEM caFile = Ok pool /\ pool_of caFile (Some pool))
  \/ (exists e, load_pool ReadFile CertsFromPEM caFile = Err e /\ pool_error caFile e).
Proof.
  intros Hca. unfold load_pool. destruct (ReadFile caFile) as [data|] eqn:Hr.
  2: { right. eexists. split; [done |]. split; [done |]. by left. }
  destruct (CertsFromPEM data) as [|x l] eqn:Hd.
  - right. eexists. split; [done |]. split; [done |]. right. split; [done |]. by exists data.
  - left. eexists. split; [done |]. unfold pool_of. rewrite decide_False by done. exists data. by rewrite Hd.
Qed.

(** C40: The TLS settings fail closed.  A server configuration that loads has
    exactly the key pair of the two files, TLS 1.2, the strong suites and
    curves, and no authorities for servers; with a CA file it requires a client
    certificate and its pool is exactly the certificates of that file, of which
    there is one at least; without one it asks clients for none.  A client
    configuration verifies the server, against exactly the certificates of the
    CA file, or the system's when none is named, and presents the pair exactly
    when both files are named (one alone is ignored).  Otherwise the loader
    returns the error of the first file that does not load. *)
Theorem tls_fails_closed certFile keyFile caFile :
  match LoadServerTLS LoadX509KeyPair ReadFile CertsFromPEM certFile keyFile caFile with
  | Ok c => hardened c
      /\ (exists p, LoadX509KeyPair certFile keyFile = Some p /\ Certificates c = [p])
      /\ RootCAs c = None /\ pool_of caFile (ClientCAs c)
      /\ (ClientAuth c = RequireAndVerifyClientCert <-> caFile <> "")
  | Err e => LoadX509KeyPair certFile keyFile = None /\ e = LoadPair certFile
      \/ is_Some (LoadX509KeyPair certFile keyFile) /\ pool_error caFile e
  | _ => False
  end
  /\ match LoadClientTLS LoadX509KeyPair ReadFile CertsFromPEM certFile keyFile caFile with
     | Ok c => hardened c
         /\ (if decide (certFile <> "" /\ keyFile <> "")
             then exists p, LoadX509KeyPair certFile keyFile = Some p /\ Certificates c = [p]
             else Certificates c = [])
         /\ pool_of caFile (RootCAs c) /\ ClientCAs c = None /\ ClientAuth c = NoClientCert
     | Err e => certFile <> "" /\ keyFile <> "" /\ LoadX509KeyPair certFile keyFile = None /\ e = LoadPair certFile
         \/ pool_error caFile e
     | _ => False
     end.
Proof.
  split.
  - unfold LoadServerTLS. destruct (LoadX509KeyPair _ _) as [p|]; [| by left].
    case_decide as Hca.
    + destruct (load_pool_spec caFile Hca) as [(pool & -> & Hpool)|(e & -> & He)]; cbn; [| by eauto].
      split_and!; try done. by exists p.
    + subst caFile. split_and!; try done. by exists p.
  - unfold LoadClientTLS.
    assert (forall c, hardened c -> RootCAs c = None -> ClientCAs c = None -> ClientAuth c = NoClientCert ->
      match (if decide (caFile <> "") then
               pool ← load_pool ReadFile CertsFromPEM caFile;
               Ok (mkTls (MinVersion c) (CurvePreferences c) (CipherSuites c) (InsecureSkipVerify c) (Certificates c)
                     (ClientCAs c) (ClientAuth c) (Some pool))
             else Ok c) with
      | Ok c' => hardened c' /\ Certificates c' = Certificates c /\ pool_of caFile (RootCAs c')
          /\ ClientCAs c' = None /\ ClientAuth c' = NoClientCert
      | Err e => pool_error caFile e
      | _ => False
      end) as Hrest.
    { intros c Hh Hr Hcc Hau. case_decide as Hca.
      - destruct (load_pool_spec caFile Hca) as [(pool & -> & Hpool)|(e & -> & He)]; cbn; [| done].
        by rewrite Hcc, Hau.
      - subst caFile. by rewrite Hr. }
    destruct (decide (certFile <> "" /\ keyFile <> "")) as [Hcf|Hcf].
    + destruct (LoadX509KeyPair _ _) as [p|]; cbn [mbind result_bind]; [| left; by destruct Hcf].
      pose proof (Hrest (with_pair p DefaultTLSConfig) ltac:(by split_and!) eq_refl eq_refl eq_refl) as H. revert H.
      destruct (if decide (caFile <> "") then _ else _) as [c|e| |]; [| by right | done..].
      intros (H1 & H2 & H3). split; [exact H1 |]. split; [by exists p | exact H3].
    + cbn [mbind result_bind].
      pose proof (Hrest DefaultTLSConfig ltac:(by split_and!) eq_refl eq_refl eq_refl) as H. revert H.
      destruct (if decide (caFile <> "") then _ else _) as [c|e| |]; [done | by right | done..].
Qed.

(** A certificate without its key, or the reverse, is dropped without an error. *)
Lemma half_pair_ignored f : f <> "" ->
  LoadClientTLS LoadX509KeyPair ReadFile CertsFromPEM f "" "" = Ok DefaultTLSConfig
  /\ LoadClientTLS LoadX509KeyPair ReadFile CertsFromPEM "" f "" = Ok DefaultTLSConfig.
Proof. intros Hf. unfold LoadClientTLS. by rewrite !decide_False by naive_solver. Qed.
End tls_properties.
