(* ===== verification/TestCerts.v ===== *)
(** * Certificates made for tests

    [GenerateTestTLSConfigs] and [generateCert] of [src/pkg/security/tls.go]: a CA and the
    two certificates under it, made in memory, and the configurations that hold them.
    Certificates are what [crypto/x509] signs: a template, its issuer and the key that
    signed it; signatures are perfect, that is, one verifies under the public key of the
    key that made it and no other.  [handshake] is the part of a TLS handshake that
    depends on the certificates. *)

From stdpp Require Import prelude strings list.
From Stdlib Require Import ZArith Lia.
From S2P Require Import Prelude Crypto.

#[local] Open Scope Z_scope.

(** ** Certificates *)

Record Name := mkName { Organization : list string; CommonName : string }.

#[global] Instance Name_eq_dec : EqDecision Name.
Proof. solve_decision. Defined.

Inductive KeyUsage := KeyUsageDigitalSignature | KeyUsageCertSign | KeyUsageCRLSign.
Inductive ExtKeyUsage := ExtKeyUsageServerAuth | ExtKeyUsageClientAuth.

#[global] Instance KeyUsage_eq_dec : EqDecision KeyUsage.
Proof. solve_decision. Defined.
#[global] Instance ExtKeyUsage_eq_dec : EqDecision ExtKeyUsage.
Proof. solve_decision. Defined.

(** Instants are nanoseconds. *)
Record Template := mkTemplate {
  SerialNumber : Z;
  Subject : Name;
  NotBefore : Z;
  NotAfter : Z;
  Usage : list KeyUsage;
  ExtUsage : list ExtKeyUsage;
  BasicConstraintsValid : bool;
  IsCA : bool;
  IPAddresses : list (list Z);
  DNSNames : list string;
}.

Section certificates.
Context {priv pub : Type} `{EqDecision pub} (public : priv -> pub).

Record Certificate := mkCert { tbs : Template; Issuer : Name; PublicKey : pub; signed_by : pub }.

Definition second : Z := 1000000000.

(** A certificate has whole seconds. *)
Definition truncated (t : Template) : Template :=
  mkTemplate (SerialNumber t) (Subject t) (NotBefore t / second * second) (NotAfter t / second * second) (Usage t) (ExtUsage t)
    (BasicConstraintsValid t) (IsCA t) (IPAddresses t) (DNSNames t).

(** [x509.CreateCertificate] and back; [random] says that the system has random bytes. *)
Definition CreateCertificate (random : bool) (t parent : Template) (p : pub) (k : priv) : option Certificate :=
  if random && (0 <? SerialNumber t) && (negb (IsCA t) || BasicConstraintsValid t)
  then Some (mkCert (truncated t) (Subject parent) p (public k)) else None.

(** A certificate with its key ([tls.X509KeyPair] compares them). *)
Record KeyPair := mkPair { Leaf : Certificate; PrivateKey : priv }.

Definition X509KeyPair (c : Certificate) (k : priv) : option KeyPair :=
  if decide (PublicKey c = public k) then Some (mkPair c k) else None.

(** ** The generator *)

(** What the system supplies for one certificate: a key, the instant, random bytes. *)
Record supply := mkSupply { key : option priv; instant : Z; random : bool }.

Definition validity : Z := 24 * 3600 * second.

Definition ca_template (now : Z) : Template :=
  mkTemplate 1 (mkName ["Test CA"] "") now (now + validity) [KeyUsageCertSign; KeyUsageCRLSign] [] true true [] [].

Definition leaf_template (now : Z) (name : string) : Template :=
  mkTemplate now (mkName [] name) now (now + validity) [KeyUsageDigitalSignature] [ExtKeyUsageServerAuth; ExtKeyUsageClientAuth]
    false false [[127; 0; 0; 1]] ["localhost"].

Definition generateCert (caCert : Certificate) (caKey : priv) (name : string) (s : supply) : option KeyPair :=
  k ← key s;
  c ← CreateCertificate (random s) (leaf_template (instant s) name) (tbs caCert) (public k) caKey;
  X509KeyPair c k.

(** A configuration with the name its client expects of the server. *)
Record NamedConfig := mkNamed { tls : TlsConfig KeyPair Certificate; ServerName : string }.

Definition server_config (p : KeyPair) (pool : list Certificate) : NamedConfig :=
  let c := with_pair p DefaultTLSConfig in
  mkNamed (mkTls (MinVersion c) (CurvePreferences c) (CipherSuites c) (InsecureSkipVerify c) (Certificates c)
             (Some pool) RequireAndVerifyClientCert (RootCAs c)) "".

Definition client_config (p : KeyPair) (pool : list Certificate) : NamedConfig :=
  let c := with_pair p DefaultTLSConfig in
  mkNamed (mkTls (MinVersion c) (CurvePreferences c) (CipherSuites c) (InsecureSkipVerify c) (Certificates c)
             (ClientCAs c) (ClientAuth c) (Some pool)) "localhost".

(** The server's and the client's configuration. *)
Definition GenerateTestTLSConfigs (ca server client : supply) : option (NamedConfig * NamedConfig) :=
  caKey ← key ca;
  caCert ← CreateCertificate (random ca) (ca_template (instant ca)) (ca_template (instant ca)) (public caKey) caKey;
  serverCert ← generateCert caCert caKey "server" server;
  clientCert ← generateCert caCert caKey "client" client;
  Some (server_config serverCert [caCert], client_config clientCert [caCert]).

(** ** Verification *)

Definition valid_at (now : Z) (c : Certificate) : bool := (NotBefore (tbs c) <=? now) && (now <=? NotAfter (tbs c)).

(** [Certificate.Verify] for a leaf directly under a root of the pool. *)
Definition verify (now : Z) (pool : list Certificate) (usage : ExtKeyUsage) (c : Certificate) : bool :=
  existsb (fun root =>
    bool_decide (Subject (tbs root) = Issuer c) && bool_decide (PublicKey root = signed_by c)
    && valid_at now root && BasicConstraintsValid (tbs root) && IsCA (tbs root) && bool_decide (KeyUsageCertSign ∈ Usage (tbs root))
    && valid_at now c && bool_decide (usage ∈ ExtUsage (tbs c))) pool.

Definition presented (c : NamedConfig) : option Certificate := Leaf <$> head (Certificates (tls c)).

(** Each side accepts the other's certificate; [None] as pool is the system's, which holds
    none of these. *)
Definition client_accepts (now : Z) (client server : NamedConfig) : bool :=
  match presented server with
  | None => false
  | Some c => InsecureSkipVerify (tls client)
      || (verify now (default [] (RootCAs (tls client))) ExtKeyUsageServerAuth c && bool_decide (ServerName client ∈ DNSNames (tbs c)))
  end.

Definition server_accepts (now : Z) (server client : NamedConfig) : bool :=
  match ClientAuth (tls server) with
  | NoClientCert => true
  | RequireAndVerifyClientCert =>
      match presented client with
      | None => false
      | Some c => verify now (default [] (ClientCAs (tls server))) ExtKeyUsageClientAuth c
      end
  end.

Definition handshake (now : Z) (server client : NamedConfig) : bool :=
  client_accepts now client server && server_accepts now server client.

(** ** Lemmas *)

(** What the generator makes when the system supplies what it needs. *)
Definition ca_cert (k : priv) (s : supply) : Certificate :=
  mkCert (truncated (ca_template (instant s))) (mkName ["Test CA"] "") (public k) (public k).
Definition leaf_pair (caKey k : priv) (name : string) (s : supply) : KeyPair :=
  mkPair (mkCert (truncated (leaf_template (instant s) name)) (mkName ["Test CA"] "") (public k) (public caKey)) k.

Lemma generate_some ca server client sc cc :
  GenerateTestTLSConfigs ca server client = Some (sc, cc) ->
  exists caKey k1 k2, key ca = Some caKey
    /\ sc = server_config (leaf_pair caKey k1 "server" server) [ca_cert caKey ca]
    /\ cc = client_config (leaf_pair caKey k2 "client" client) [ca_cert caKey ca].
Proof.
  assert (Hleaf : forall caKey name s p, generateCert (ca_cert caKey ca) caKey name s = Some p -> exists k, p = leaf_pair caKey k name s).
  { intros caKey name s p. unfold generateCert. destruct (key s) as [k|]; [|done]. cbn [mbind option_bind].
    unfold CreateCertificate. destruct (_ && _); [|done]. cbn [mbind option_bind]. unfold X509KeyPair. cbn [PublicKey].
    rewrite decide_True by done. intros [= <-]. by exists k. }
  unfold GenerateTestTLSConfigs. destruct (key ca) as [caKey|]; [|done]. cbn [mbind option_bind].
  unfold CreateCertificate at 1. destruct (_ && _); [|done]. cbn [mbind option_bind].
  change (mkCert _ _ _ _) with (ca_cert caKey ca).
  destruct (generateCert _ _ "server" _) as [p1|] eqn:H1; [|done]. cbn [mbind option_bind].
  destruct (generateCert _ _ "client" _) as [p2|] eqn:H2; [|done]. cbn [mbind option_bind]. intros [= <- <-].
  destruct (Hleaf _ _ _ _ H1) as [k1 ->], (Hleaf _ _ _ _ H2) as [k2 ->]. by exists caKey, k1, k2.
Qed.

Lemma verify_leaf now caKey caKey' k name ca s usage :
  verify now [ca_cert caKey' ca] usage (Leaf (leaf_pair caKey k name s))
  = bool_decide (public caKey' = public caKey)
    && valid_at now (ca_cert caKey' ca) && valid_at now (Leaf (leaf_pair caKey k name s)).
Proof.
  unfold verify. cbn [existsb]. rewrite orb_false_r. unfold leaf_pair, ca_cert. cbn [Leaf tbs Issuer PublicKey signed_by truncated Subject
    ca_template leaf_template BasicConstraintsValid IsCA Usage ExtUsage].
  rewrite (bool_decide_true (mkName _ _ = mkName _ _)), (bool_decide_true (KeyUsageCertSign ∈ _)), !andb_true_r by (done || by left).
  rewrite (bool_decide_true (usage ∈ _)), andb_true_r; [done|]. destruct usage; [by left | right; by left].
Qed.

Lemma valid_truncated now t c : tbs c = truncated t -> NotBefore t <= now -> now + second <= NotAfter t -> valid_at now c = true.
Proof.
  intros Hc Hb Ha. unfold valid_at. rewrite Hc. cbn [truncated NotBefore NotAfter].
  pose proof (Z.mul_div_le (NotBefore t) second ltac:(done)). pose proof (Z.mod_pos_bound (NotAfter t) second ltac:(done)).
  pose proof (Z.div_mod (NotAfter t) second ltac:(done)). apply andb_true_iff. split; apply Z.leb_le; lia.
Qed.
(** The parties of a generation, in terms of the certificates. *)
Lemma parties now ca ca' caKey caKey' k1 k2 server client :
  let sc := server_config (leaf_pair caKey k1 "server" server) [ca_cert caKey ca] in
  let cc := client_config (leaf_pair caKey' k2 "client" client) [ca_cert caKey' ca'] in
  server_accepts now sc cc = bool_decide (public caKey = public caKey')
    && valid_at now (ca_cert caKey ca) && valid_at now (Leaf (leaf_pair caKey' k2 "client" client))
  /\ client_accepts now cc sc = bool_decide (public caKey' = public caKey)
    && valid_at now (ca_cert caKey' ca') && valid_at now (Leaf (leaf_pair caKey k1 "server" server)).
Proof.
  split; [apply verify_leaf|]. unfold client_accepts. cbn [presented tls server_config client_config Certificates with_pair head fmap
    option_fmap option_map InsecureSkipVerify DefaultTLSConfig RootCAs default ServerName orb]. unfold id.
  rewrite verify_leaf, (bool_decide_true ("localhost" ∈ _)), andb_true_r; [done|by left].
Qed.
End certificates.

(** ** Property *)

(** The two configurations fit each other and nothing else: from the instant the last
    certificate is made until a second before the first expires, the server and the client
    of one generation accept each other's certificates; once the CA has expired they do
    not; and neither accepts the certificate of a generation with another CA key. *)
Theorem test_configs_match {priv pub : Type} `{EqDecision pub} (public : priv -> pub) ca server client sc cc :
  GenerateTestTLSConfigs public ca server client = Some (sc, cc) ->
  (forall now, Forall (fun s => instant s <= now /\ now + second <= instant s + validity) [ca; server; client] ->
    handshake now sc cc = true)
  /\ (forall now, instant ca + validity < now -> handshake now sc cc = false)
  /\ (forall now ca' server' client' sc' cc',
       GenerateTestTLSConfigs public ca' server' client' = Some (sc', cc') -> public <$> key ca <> public <$> key ca' ->
       server_accepts now sc cc' = false /\ client_accepts now cc sc' = false).
Proof.
  intros (caKey & k1 & k2 & Hk & -> & ->)%generate_some. unfold handshake. split_and!.
  - intros now [[Hc Hc'] [[Hs Hs'] [[Hl Hl'] _]%Forall_cons]%Forall_cons]%Forall_cons.
    destruct (parties public now ca ca caKey caKey k1 k2 server client) as [-> ->]. rewrite bool_decide_true by done.
    by rewrite (valid_truncated now (ca_template (instant ca)) (ca_cert public caKey ca)),
      (valid_truncated now (leaf_template (instant server) "server") (Leaf (leaf_pair public caKey k1 "server" server))),
      (valid_truncated now (leaf_template (instant client) "client") (Leaf (leaf_pair public caKey k2 "client" client))).
  - intros now Hnow. destruct (parties public now ca ca caKey caKey k1 k2 server client) as [-> ->]. rewrite bool_decide_true by done.
    assert (valid_at now (ca_cert public caKey ca) = false) as ->; [|done]. unfold valid_at. apply andb_false_iff. right. apply Z.leb_gt.
    cbn. pose proof (Z.mul_div_le (instant ca + validity) second ltac:(done)). lia.
  - intros now ca' server' client' sc' cc' (caKey' & k1' & k2' & Hk' & -> & ->)%generate_some Hne. rewrite Hk, Hk' in Hne. cbn in Hne.
    destruct (parties public now ca ca' caKey caKey' k1 k2' server client') as [-> _].
    destruct (parties public now ca' ca caKey' caKey k1' k2 server' client) as [_ ->].
    rewrite bool_decide_false by congruence. done.
Qed.

Lemma test_configs_match_witness :
  let ca := mkSupply (Some 1) 1000000000 true in
  let s := mkSupply (Some 2) 1000000500 true in
  let c := mkSupply (Some 3) 1000000900 true in
  exists sc cc, GenerateTestTLSConfigs (fun k : Z => k) ca s c = Some (sc, cc) /\ handshake 1000001000 sc cc = true
  /\ handshake 86402000000000 sc cc = false.
Proof.
  intros ca s c. do 2 eexists. assert (H : GenerateTestTLSConfigs (fun k : Z => k) ca s c = Some (_, _)) by reflexivity.
  split; [exact H|]. destruct (test_configs_match (fun k : Z => k) ca s c _ _ H) as (H1 & H2 & _).
  split; [apply H1; repeat constructor; done | apply H2; done].
Defined.
