(* ===== verification/Metrics.v ===== *)
(** * Metrics

    [src/pkg/metrics/metrics.go]: the collector and the text it serves, on the bytes of
    the text.  [%q] is [strconv.Quote], which is in [ItemText]; the digits of the uptime
    are the parameter [fixed1] of the standard library's formatting.

    [scrape] reads the exposition format of Prometheus, with the three escapes that
    format has, and [scrape_render] says that it finds every sample with its labels. *)

From stdpp Require Import prelude strings list pretty.
From Stdlib Require Import ZArith Lia Ascii Floats.SpecFloat.
From S2P Require Import Prelude ItemText.

#[local] Open Scope Z_scope.

Record Collector := mkCollector {
  startTime : Z;
  ConnectionsTotal : Z;
  ConnectionsActive : Z;
  ConnectionsFailed : Z;
  ReconnectsTotal : Z;
  MessagesReceived : Z;
  MessagesSent : Z;
  MessagesDropped : Z;
  DecodeErrors : Z;
  TLSHandshakeFail : Z;
  AuthFailures : Z;
  RateLimited : Z;
  AlarmsActive : Z;
  AlarmsTotal : Z;
  commState : string;
  controlState : string;
  equipment : string;
}.

Definition NewCollector (now : Z) (equipment : string) : Collector :=
  mkCollector now 0 0 0 0 0 0 0 0 0 0 0 0 0 "DISABLED" "OFFLINE/EQUIPMENT" equipment.

Definition SetGEMState (comm control : string) (c : Collector) : Collector :=
  mkCollector (startTime c) (ConnectionsTotal c) (ConnectionsActive c) (ConnectionsFailed c) (ReconnectsTotal c)
    (MessagesReceived c) (MessagesSent c) (MessagesDropped c) (DecodeErrors c) (TLSHandshakeFail c) (AuthFailures c)
    (RateLimited c) (AlarmsActive c) (AlarmsTotal c) comm control (equipment c).

(** A sample: name, labels and the text of the value. *)
Record sample := mkSample { s_name : string; s_labels : list (string * string); s_value : string }.

Section rendering.
Context {printing : Printing} (fixed1 : spec_float -> string).

Definition quoted (s : string) : list Z := Quote (bytes_of_string s).

(** [name=%q], separated by commas. *)
Fixpoint label_text (ls : list (string * string)) : list Z :=
  match ls with
  | [] => []
  | [(k, v)] => text k ++ [61] ++ quoted v
  | (k, v) :: ls => text k ++ [61] ++ quoted v ++ [44] ++ label_text ls
  end.

Definition sample_text (s : sample) : list Z :=
  text (s_name s) ++ [123] ++ label_text (s_labels s) ++ [125; 32] ++ text (s_value s).

(** The three lines of a metric. *)
Definition help_text (name help : string) : list Z := text "# HELP " ++ text name ++ text " " ++ text help.
Definition type_text (name type : string) : list Z := text "# TYPE " ++ text name ++ text " " ++ text type.

(** A metric with its help, its type and its sample. *)
Record metric := mkMetric { m_help : string; m_type : string; m_sample : sample }.

Definition metric_text (m : metric) : list Z :=
  let name := s_name (m_sample m) in
  help_text name (m_help m) ++ [10] ++ type_text name (m_type m) ++ [10] ++ sample_text (m_sample m) ++ [10].

Definition gauge := "gauge".
Definition counter := "counter".

Definition metrics_of (now : Z) (c : Collector) : list metric :=
  let value (name help type : string) (z : Z) := mkMetric help type (mkSample name [("equipment", equipment c)] (pretty z)) in
  [ mkMetric "Time since daemon start." gauge
      (mkSample "secsgem_uptime_seconds" [("equipment", equipment c)] (fixed1 (Seconds (now - startTime c))));
    value "secsgem_connections_total" "Total connections (cumulative)." counter (ConnectionsTotal c);
    value "secsgem_connections_active" "Currently active connections." gauge (ConnectionsActive c);
    value "secsgem_connections_failed" "Failed connection attempts." counter (ConnectionsFailed c);
    value "secsgem_reconnects_total" "Reconnection attempts." counter (ReconnectsTotal c);
    value "secsgem_messages_received_total" "Messages received." counter (MessagesReceived c);
    value "secsgem_messages_sent_total" "Messages sent." counter (MessagesSent c);
    value "secsgem_messages_dropped_total" "Messages dropped." counter (MessagesDropped c);
    value "secsgem_decode_errors_total" "SECS-II decode errors." counter (DecodeErrors c);
    value "secsgem_tls_handshake_failures_total" "TLS handshake failures." counter (TLSHandshakeFail c);
    value "secsgem_auth_failures_total" "Authentication failures." counter (AuthFailures c);
    value "secsgem_rate_limited_total" "Messages rate limited." counter (RateLimited c);
    value "secsgem_alarms_active" "Currently active alarms." gauge (AlarmsActive c);
    value "secsgem_alarms_total" "Total alarms triggered." counter (AlarmsTotal c);
    mkMetric "GEM state information." gauge
      (mkSample "secsgem_gem_info"
         [("equipment", equipment c); ("comm_state", commState c); ("control_state", controlState c)] "1") ].

(** The body the handler writes. *)
Definition Handler_body (now : Z) (c : Collector) : list Z := flat_map metric_text (metrics_of now c).
End rendering.

(** ** Reading the exposition format *)

(** Up to the first [b], and what is after it. *)
Fixpoint until (b : Z) (l : list Z) : option (list Z * list Z) :=
  match l with
  | [] => None
  | c :: l => if c =? b then Some ([], l) else '(w, r) ← until b l; Some (c :: w, r)
  end.

(** A label value after its opening quote, with the escapes of the format. *)
Fixpoint label_value (l : list Z) : option (list Z * list Z) :=
  match l with
  | [] => None
  | c :: l1 =>
      if c =? 34 then Some ([], l1)
      else if c =? 92 then
        match l1 with
        | k :: l2 =>
            v ← (if (k =? 92) || (k =? 34) then Some k else if k =? 110 then Some 10 else None);
            '(w, r) ← label_value l2; Some (v :: w, r)
        | [] => None
        end
      else '(w, r) ← label_value l1; Some (c :: w, r)
  end.

(** The labels after the opening brace, up to the closing one. *)
Fixpoint labels (fuel : nat) (l : list Z) : option (list (string * string) * list Z) :=
  match fuel with
  | O => None
  | S fuel =>
      '(k, r) ← until 61 l;
      match r with
      | q :: r =>
          if q =? 34 then
            '(v, r) ← label_value r;
            let kv := (string_of_bytes k, string_of_bytes v) in
            match r with
            | c :: r => if c =? 125 then Some ([kv], r) else if c =? 44 then '(kvs, r) ← labels fuel r; Some (kv :: kvs, r) else None
            | [] => None
            end
          else None
      | [] => None
      end
  end.

Definition scrape_line (l : list Z) : option sample :=
  '(name, r) ← until 123 l;
  '(kvs, r) ← labels (length r) r;
  match r with
  | s :: r => if s =? 32 then Some (mkSample (string_of_bytes name) kvs (string_of_bytes r)) else None
  | [] => None
  end.

(** Line by line; a line that begins with [#] is a comment. *)
Fixpoint scrape (fuel : nat) (l : list Z) : option (list sample) :=
  match fuel, l with
  | _, [] => Some []
  | O, _ => None
  | S fuel, _ =>
      '(line, r) ← until 10 l;
      rest ← scrape fuel r;
      if bool_decide (head line = Some 35) then Some rest
      else s ← scrape_line line; Some (s :: rest)
  end.

Example scrape_new :
  let c := NewCollector 0 "SIM-EQUIP-01" in
  let l := Handler_body (printing:=zero_floats) (fun _ => "0.5") 500000000 c in
  (fun s => (s_name s, s_value s)) <$> (default [] (scrape (length l) l) !! 0%nat) = Some ("secsgem_uptime_seconds", "0.5").
Proof. vm_compute. reflexivity. Qed.

(** ** Lemmas *)

(** None of the bytes is [b]. *)
Definition without (b : Z) (l : list Z) : Prop := Forall (fun c => c <> b) l.

(** Printable ASCII: what both sides read the same. *)
Definition plain (s : string) : bool := forallb (fun b => within 32 126 b) (bytes_of_string s).

Lemma until_app b w r : without b w -> until b (w ++ b :: r) = Some (w, r).
Proof.
  induction 1 as [|c w Hc _ IH]; simpl; [by rewrite Z.eqb_refl|].
  by rewrite (proj2 (Z.eqb_neq _ _) Hc), IH.
Qed.

Section scraping.
Context {printing : Printing}.

Lemma escape_plain b : 32 <= b <= 126 -> escape_rune b = if (b =? 34) || (b =? 92) then [92; b] else [b].
Proof.
  intros Hb. unfold escape_rune. destruct (_ || _) eqn:Hq; [done|].
  unfold IsPrint. rewrite (proj2 (Z.ltb_lt b 128)) by lia.
  rewrite (proj2 (within_spec _ _ _)) by done. apply encode_ascii. lia.
Qed.

Lemma quote_plain n : forall l, forallb (fun b => within 32 126 b) l = true -> (length l <= n)%nat ->
  quote_body n l = flat_map (fun b => if (b =? 34) || (b =? 92) then [92; b] else [b]) l.
Proof.
  induction n as [|n IH]; intros [|b l] Hl Hn; try done; [simpl in Hn; lia|].
  simpl in Hl. apply andb_true_iff in Hl as [Hb%within_spec Hl]. cbn [quote_body flat_map].
  rewrite (proj2 (Z.ltb_lt b 128)) by lia. rewrite escape_plain by done. rewrite IH by (done || (simpl in Hn; lia)). done.
Qed.

Lemma label_value_plain l r :
  forallb (fun b => within 32 126 b) l = true ->
  label_value (flat_map (fun b => if (b =? 34) || (b =? 92) then [92; b] else [b]) l ++ 34 :: r) = Some (l, r).
Proof.
  induction l as [|b l IH]; [done|]. cbn [forallb flat_map]. rewrite andb_true_iff. intros [Hb Hl].
  destruct ((b =? 34) || (b =? 92)) eqn:Hq; cbn [app label_value].
  - change (92 =? 34) with false. change (92 =? 92) with true. cbv iota.
    rewrite (orb_comm (b =? 92)), Hq. cbn [mbind option_bind]. by rewrite IH.
  - apply orb_false_iff in Hq as [-> ->]. by rewrite IH.
Qed.

Lemma quoted_plain v r : plain v = true -> exists q, quoted v = 34 :: q /\ label_value (q ++ r) = Some (bytes_of_string v, r) /\ without 10 (quoted v).
Proof.
  intros Hv. unfold quoted, Quote. rewrite quote_plain by done. eexists. split; [reflexivity|]. split.
  - rewrite <- (assoc_L (++)). by apply label_value_plain.
  - constructor; [done|]. apply Forall_app. split; [|by repeat constructor].
    unfold plain in Hv. induction (bytes_of_string v) as [|b l IH]; [constructor|].
    simpl in Hv. apply andb_true_iff in Hv as [Hb%within_spec Hl]. cbn [flat_map]. apply Forall_app. split; [|by apply IH].
    destruct (_ || _); repeat constructor; lia.
Qed.

(** A sample the format can carry. *)
Record scrapable (s : sample) : Prop := {
  sc_name : without 123 (text (s_name s)) /\ without 10 (text (s_name s)) /\ head (text (s_name s)) <> Some 35 /\ s_name s <> "";
  sc_labels : s_labels s <> [];
  sc_keys : Forall (fun kv => without 61 (text kv.1) /\ without 10 (text kv.1)) (s_labels s);
  sc_values : Forall (fun kv => plain kv.2 = true) (s_labels s);
  sc_value : without 10 (text (s_value s));
}.

Lemma labels_read ls r : forall fuel,
  ls <> [] -> (length ls <= fuel)%nat ->
  Forall (fun kv => without 61 (text kv.1) /\ without 10 (text kv.1)) ls -> Forall (fun kv => plain kv.2 = true) ls ->
  labels fuel (label_text ls ++ 125 :: r) = Some (ls, r).
Proof.
  induction ls as [|[k v] ls IH]; intros fuel Hne Hf Hk Hv; [done|].
  destruct fuel as [|fuel]; [simpl in Hf; lia|]. apply Forall_cons in Hk as [[Hk _] Hks]. apply Forall_cons in Hv as [Hv Hvs].
  cbn [fst snd] in *. destruct ls as [|kv ls].
  - cbn [label_text labels]. destruct (quoted_plain v (125 :: r) Hv) as (q & Hq & Hl & _). rewrite Hq.
    replace ((text k ++ [61] ++ 34 :: q) ++ 125 :: r) with (text k ++ 61 :: (34 :: q ++ 125 :: r)) by (rewrite <- app_assoc; done).
    rewrite until_app by done. cbn [mbind option_bind]. rewrite Z.eqb_refl, Hl. cbn [mbind option_bind]. rewrite Z.eqb_refl.
    unfold text. by rewrite !string_of_bytes_of_string.
  - change (label_text ((k, v) :: kv :: ls)) with (text k ++ [61] ++ quoted v ++ [44] ++ label_text (kv :: ls)). cbn [labels].
    destruct (quoted_plain v (44 :: label_text (kv :: ls) ++ 125 :: r) Hv) as (q & Hq & Hl & _). rewrite Hq.
    replace ((text k ++ [61] ++ (34 :: q) ++ [44] ++ label_text (kv :: ls)) ++ 125 :: r)
      with (text k ++ 61 :: (34 :: q ++ 44 :: label_text (kv :: ls) ++ 125 :: r))
      by (rewrite <- !app_assoc; reflexivity).
    rewrite until_app by done. cbn [mbind option_bind]. rewrite Z.eqb_refl, Hl. cbn [mbind option_bind].
    change (44 =? 125) with false. rewrite Z.eqb_refl. cbv iota.
    rewrite IH; [| done | simpl in *; lia | done | done]. cbn [mbind option_bind].
    unfold text. by rewrite !string_of_bytes_of_string.
Qed.

Lemma label_text_length ls : (length ls <= length (label_text ls))%nat.
Proof.
  induction ls as [|[k v] ls IH]; [done|]. destruct ls as [|kv ls].
  - cbn [label_text length]. rewrite !length_app. simpl. lia.
  - change (label_text ((k, v) :: kv :: ls)) with (text k ++ [61] ++ quoted v ++ [44] ++ label_text (kv :: ls)).
    rewrite !length_app. cbn [length] in *. lia.
Qed.

Lemma scrape_line_text s : scrapable s -> scrape_line (sample_text s) = Some s.
Proof.
  intros [(Hn & _) Hne Hk Hv _]. unfold scrape_line, sample_text.
  change ([123] ++ ?x) with (123 :: x). rewrite until_app by done. cbn [mbind option_bind].
  change ([125; 32] ++ ?x) with (125 :: 32 :: x). rewrite labels_read; try done.
  - cbn [mbind option_bind]. rewrite Z.eqb_refl. unfold text. rewrite !string_of_bytes_of_string. by destruct s.
  - rewrite length_app. pose proof (label_text_length (s_labels s)). lia.
Qed.

Lemma label_text_line ls :
  Forall (fun kv => without 61 (text kv.1) /\ without 10 (text kv.1)) ls -> Forall (fun kv => plain kv.2 = true) ls ->
  without 10 (label_text ls).
Proof.
  induction ls as [|[k v] ls IH]; [constructor|]. intros [[_ Hk] Hks]%Forall_cons [Hv Hvs]%Forall_cons. cbn [fst snd] in *.
  destruct (quoted_plain v [] Hv) as (_ & _ & _ & Hq). specialize (IH Hks Hvs). unfold without in *.
  destruct ls as [|kv ls]; [cbn [label_text] | change (label_text ((k, v) :: kv :: ls)) with (text k ++ [61] ++ quoted v ++ [44] ++ label_text (kv :: ls))];
    rewrite ?Forall_app, ?Forall_cons; repeat split; try done; by repeat constructor.
Qed.

Lemma sample_text_line s : scrapable s -> without 10 (sample_text s).
Proof.
  intros [(_ & Hn & _) _ Hk Hv Hval]. pose proof (label_text_line _ Hk Hv) as Hl. unfold sample_text, without in *.
  rewrite !Forall_app. repeat split; try done; by repeat constructor.
Qed.
End scraping.

Section metrics.
Context {printing : Printing} (fixed1 : spec_float -> string).
Hypothesis fixed1_line : forall x, without 10 (text (fixed1 x)).

Lemma scrape_step fuel line r :
  without 10 line -> scrape (S fuel) (line ++ 10 :: r)
  = (rest ← scrape fuel r; if bool_decide (head line = Some 35) then Some rest else s ← scrape_line line; Some (s :: rest)).
Proof.
  intros Hl. cbn [scrape]. destruct (line ++ 10 :: r) as [|b l] eqn:E; [by destruct line|]. rewrite <- E.
  rewrite until_app by done. done.
Qed.

Definition printable (m : metric) : Prop := without 10 (text (m_help m)) /\ without 10 (text (m_type m)) /\ scrapable (m_sample m).

Lemma sample_head s : scrapable s -> head (sample_text s) <> Some 35.
Proof.
  intros [(_ & _ & Hh & Hne) _ _ _ _]. unfold sample_text. unfold text in *.
  destruct (s_name s) as [|a n]; [done|]. exact Hh.
Qed.

Lemma scrape_metric m fuel r :
  printable m -> scrape (S (S (S fuel))) (metric_text m ++ r) = (rest ← scrape fuel r; Some (m_sample m :: rest)).
Proof.
  intros (Hh & Ht & Hs). pose proof (sc_name _ Hs) as (_ & Hn & _). unfold metric_text.
  replace ((help_text (s_name (m_sample m)) (m_help m) ++ [10] ++ type_text (s_name (m_sample m)) (m_type m) ++ [10] ++ sample_text (m_sample m) ++ [10]) ++ r)
    with (help_text (s_name (m_sample m)) (m_help m) ++ 10 :: type_text (s_name (m_sample m)) (m_type m) ++ 10 :: sample_text (m_sample m) ++ 10 :: r)
    by (rewrite <- !app_assoc; reflexivity).
  rewrite scrape_step by (unfold help_text, without in *; rewrite !Forall_app; repeat split; try done; by repeat constructor).
  rewrite scrape_step by (unfold type_text, without in *; rewrite !Forall_app; repeat split; try done; by repeat constructor).
  rewrite scrape_step by (by apply sample_text_line).
  rewrite (bool_decide_eq_false_2 _ (sample_head _ Hs)), scrape_line_text by done.
  cbn [mbind option_bind]. by destruct (scrape fuel r).
Qed.

Lemma scrape_metrics ms : forall fuel,
  Forall printable ms -> (3 * length ms <= fuel)%nat -> scrape fuel (flat_map metric_text ms) = Some (m_sample <$> ms).
Proof.
  induction ms as [|m ms IH]; intros fuel Hp Hf; [by destruct fuel|].
  apply Forall_cons in Hp as [Hm Hms]. destruct fuel as [|[|[|fuel]]]; try (simpl in Hf; lia).
  cbn [flat_map]. rewrite scrape_metric, IH by (done || (simpl in Hf; lia)). done.
Qed.

Lemma metric_text_length ms : (3 * length ms <= length (flat_map metric_text ms))%nat.
Proof.
  induction ms as [|m ms IH]; [done|]. cbn [flat_map length]. rewrite length_app.
  assert (3 <= length (metric_text m))%nat by (unfold metric_text; rewrite !length_app; cbn [length]; lia). lia.
Qed.

Lemma number_line (z : Z) : without 10 (text (pretty z)).
Proof.
  assert (forall x s, without 10 (bytes_of_string s) -> without 10 (bytes_of_string (pretty_N_go x s))) as Hgo.
  { intros x. induction (N.lt_wf_0 x) as [x _ IH]; intros s Hs.
    assert (x = 0 \/ 0 < x)%N as [->|Hx] by lia; [by rewrite pretty_N_go_0|].
    rewrite pretty_N_go_step by done. apply IH; [apply N.div_lt; lia|]. constructor; [|done].
    unfold pretty_N_char. by repeat case_match. }
  destruct z as [|x|x]; [by repeat constructor | by apply Hgo; constructor|].
  unfold text. change (pretty (Z.neg x)) with ("-" +:+ pretty (N.pos x)). constructor; [done | by apply Hgo; constructor].
Qed.

(** C32: What the metrics endpoint serves can be scraped: for names and states of printable
    ASCII, whatever quotes and backslashes they have, a reader of the exposition format
    finds the fifteen samples, each with its labels and its value, and nothing else. *)
Theorem scrape_render now c :
  plain (equipment c) = true -> plain (commState c) = true -> plain (controlState c) = true ->
  scrape (length (Handler_body fixed1 now c)) (Handler_body fixed1 now c) = Some (m_sample <$> metrics_of fixed1 now c).
Proof.
  intros He Hc Hs. apply scrape_metrics; [|apply metric_text_length].
  assert (forall name help type value labels,
      forallb (fun b => negb ((b =? 123) || (b =? 10))) (bytes_of_string name) = true ->
      bool_decide (head (bytes_of_string name) = Some 35) = false -> name <> "" ->
      forallb (fun b => negb (b =? 10)) (bytes_of_string help) = true -> forallb (fun b => negb (b =? 10)) (bytes_of_string type) = true ->
      labels <> [] -> forallb (fun kv => forallb (fun b => negb ((b =? 61) || (b =? 10))) (bytes_of_string kv.1)) labels = true ->
      forallb (fun kv => plain kv.2) labels = true -> without 10 (text value) ->
      printable (mkMetric help type (mkSample name labels value))) as Hok.
  { assert (forall p b l, (forall x, p x = true -> x <> b) -> forallb p l = true -> without b l) as Hw.
    { intros p b l Hp. induction l as [|x l IH]; [constructor|]. simpl. rewrite andb_true_iff. intros [Hx Hl].
      constructor; [by apply Hp | by apply IH]. }
    intros name help type value labels Hn Hh Hne Hhelp Htype Hl Hk Hv Hval.
    split; [|split]; [eapply Hw; [|exact Hhelp]; intros x; cbv beta; lia | eapply Hw; [|exact Htype]; intros x; cbv beta; lia|]. split; try done; cbn [s_name s_labels].
    - split_and!; [eapply Hw; [|exact Hn]; intros x; cbv beta; lia | eapply Hw; [|exact Hn]; intros x; cbv beta; lia | by apply bool_decide_eq_false in Hh | done].
    - clear -Hk Hw. induction labels as [|kv ls IH]; [constructor|]. simpl in Hk. apply andb_true_iff in Hk as [Hk Hks].
      constructor; [|by apply IH]. split; (eapply Hw; [|exact Hk]; intros x; cbv beta; lia).
    - clear -Hv. induction labels as [|kv ls IH]; [constructor|]. simpl in Hv. apply andb_true_iff in Hv as [Hv Hvs].
      constructor; [done | by apply IH]. }
  unfold metrics_of. repeat (apply Forall_cons; split); [.. | apply Forall_nil; done];
    apply Hok; try reflexivity; try discriminate; try apply number_line; try apply fixed1_line; try (by repeat constructor);
    cbn [forallb snd]; by rewrite ?He, ?Hc, ?Hs.
Qed.
End metrics.

(** An equipment name with a quote and a backslash in it. *)
Definition odd_name : string := string_of_bytes [69; 34; 92; 49].

Lemma scrape_render_witness :
  let c := SetGEMState "COMMUNICATING" "ONLINE/REMOTE" (NewCollector 0 odd_name) in
  let body := Handler_body (printing:=zero_floats) (fun _ => "0.0") 7 c in
  plain odd_name = true /\ exists l, scrape (length body) body = Some l /\ length l = 15%nat
    /\ last l = Some (mkSample "secsgem_gem_info"
         [("equipment", odd_name); ("comm_state", "COMMUNICATING"); ("control_state", "ONLINE/REMOTE")] "1").
Proof.
  cbv zeta. split; [reflexivity|]. eexists. split; [|split].
  - apply (scrape_render (printing:=zero_floats) (fun _ => "0.0")); [intros _; by repeat constructor | reflexivity..].
  - reflexivity.
  - reflexivity.
Defined.

(** [%q] writes a tab as [\t], an escape the format does not have: the reader stops. *)
Example tab_unscrapable :
  let body := Handler_body (printing:=zero_floats) (fun _ => "0.0") 7 (NewCollector 0 (string_of_bytes [69; 9; 49])) in
  scrape (length body) body = None.
Proof. vm_compute. reflexivity. Qed.
