(* ===== verification/Mqtt.v ===== *)
(** * The MQTT bridge

    [src/pkg/bridge/mqtt/bridge.go]: the bridge that publishes what the GEM handler has
    sent.  The client library is third-party: a client is its options and whether it is
    connected, and [accepts] says whether the broker takes a message on a topic; the
    text of a payload is [marshal].  [published] is what the broker has been given,
    oldest first.

    The handler calls the two functions [AttachToHandler] registers by their numbers;
    [event_calls] and [alarm_calls] run the bridge on the calls it has made, as
    [Callbacks] says. *)

From stdpp Require Import prelude gmap strings list pretty.
From Stdlib Require Import ZArith Lia.
From S2P Require Import Prelude Json Secs2Item Secs2Codec HsmsMessage Transport Policy GemState GemVariables GemEvents.
From S2P Require Import GemAlarms GemCommands GemHandler GemSafety GemReports Callbacks.

#[local] Open Scope Z_scope.

Record Config := mkConfig {
  BrokerURL : string;
  ClientID : string;
  TopicPrefix : string;
  QoS : Z;
  Username : string;
  Password : string;
  TLSConfig : bool;
  KeepAlive : Z;
  AutoReconnect : bool;
  CleanSession : bool;
}.

Definition keep_alive : Z := 30000000000.

Definition DefaultConfig (brokerURL topicPrefix : string) : Config :=
  mkConfig brokerURL "go-factory-io" topicPrefix 1 "" "" false keep_alive true true.

Record EventPayload := mkPayload { p_Type : string; p_Timestamp : Z; p_Data : json }.

Definition payload_json (p : EventPayload) : json :=
  JObject [("type", JString (p_Type p)); ("timestamp", JTime (Some (p_Timestamp p))); ("data", p_Data p)].

(** The options [Connect] sets on the client. *)
Record ClientOptions := mkOptions {
  Broker : string;
  o_ClientID : string;
  o_KeepAlive : Z;
  o_AutoReconnect : bool;
  o_CleanSession : bool;
  Credentials : option (string * string);
  o_TLS : bool;
}.

Record Client := mkClient { options : ClientOptions; IsConnected : bool }.

Record publication := mkPub { Topic : string; pub_QoS : Z; Retained : bool; Payload : string }.

Record Bridge := mkBridge { config : Config; client : option Client; published : list publication }.

Definition with_keep_alive (k : Z) (c : Config) : Config :=
  mkConfig (BrokerURL c) (ClientID c) (TopicPrefix c) (QoS c) (Username c) (Password c) (TLSConfig c) k (AutoReconnect c) (CleanSession c).

Definition NewBridge (cfg : Config) : Bridge :=
  mkBridge (if KeepAlive cfg =? 0 then with_keep_alive keep_alive cfg else cfg) None [].

Definition client_options (c : Config) : ClientOptions :=
  mkOptions (BrokerURL c) (ClientID c) (KeepAlive c) (AutoReconnect c) (CleanSession c)
    (if decide (Username c <> "") then Some (Username c, Password c) else None) (TLSConfig c).

Inductive mqtt_error := ConnectFailed | NotConnected | MarshalPayload | PublishFailed (topic : string).

(** [connected] is the outcome of the token; the client is stored before. *)
Definition Connect (connected : bool) (b : Bridge) : result mqtt_error () * Bridge :=
  (if connected then Ok () else Err ConnectFailed,
   mkBridge (config b) (Some (mkClient (client_options (config b)) connected)) (published b)).

(** The connection comes and goes. *)
Definition set_connected (c : bool) (b : Bridge) : Bridge :=
  mkBridge (config b) ((fun cl => mkClient (options cl) c) <$> client b) (published b).

Definition connected (b : Bridge) : bool := match client b with Some c => IsConnected c | None => false end.

Definition Close (b : Bridge) : Bridge := if connected b then set_connected false b else b.

Section bridge.
Context {json_text : Marshal} (accepts : string -> bool).

Definition publish (topic : string) (payload : EventPayload) (b : Bridge) : result mqtt_error () * Bridge :=
  if negb (connected b) then (Err NotConnected, b)
  else
    match marshal (payload_json payload) with
    | None => (Err MarshalPayload, b)
    | Some data =>
        if accepts topic
        then (Ok (), mkBridge (config b) (client b) (published b ++ [mkPub topic (QoS (config b)) false data]))
        else (Err (PublishFailed topic), b)
    end.

Definition event_topic (b : Bridge) (ceid : Z) : string := TopicPrefix (config b) +:+ "/event/" +:+ pretty ceid.
Definition alarm_topic (b : Bridge) (alid : Z) : string := TopicPrefix (config b) +:+ "/alarm/" +:+ pretty alid.

Definition event_payload (now dataID ceid : Z) : EventPayload :=
  mkPayload "collection_event" now (JObject [("dataID", JInt dataID); ("ceid", JInt ceid)]).

Definition alarm_payload (now alid : Z) (set : bool) (a : Alarm) : EventPayload :=
  mkPayload "alarm" now
    (JObject [("alid", JInt alid); ("state", JString (if set then "set" else "cleared"));
              ("text", JString (al_Text a)); ("name", JString (al_Name a))]).

(** The two functions; what [publish] returns is dropped. *)
Definition on_event (now dataID ceid : Z) (b : Bridge) : Bridge :=
  (publish (event_topic b ceid) (event_payload now dataID ceid) b).2.
Definition on_alarm (now alid : Z) (set : bool) (a : Alarm) (b : Bridge) : Bridge :=
  (publish (alarm_topic b alid) (alarm_payload now alid set a) b).2.

Definition AttachToHandler {T} (event_cb alarm_cb : nat) (h : Handler T) : Handler T :=
  OnAlarmSent alarm_cb (OnEventSent event_cb h).

Definition PublishStatus (now : Z) (data : json) (b : Bridge) : result mqtt_error () * Bridge :=
  publish (TopicPrefix (config b) +:+ "/status") (mkPayload "status" now data) b.

Definition PublishSV (now svid : Z) (value : govalue) (b : Bridge) : result mqtt_error () * Bridge :=
  publish (TopicPrefix (config b) +:+ "/sv/" +:+ pretty svid)
    (mkPayload "status_variable" now (JObject [("svid", JInt svid); ("value", JValue value)])) b.

(** The two functions on the calls the handler has made, newest first. *)
Definition event_calls (cb : nat) (now : Z) (calls : list (nat * Z * Z)) (b : Bridge) : Bridge :=
  run_calls event_key cb (fun c => on_event now c.1.2 c.2) calls b.

Definition alarm_calls (cb : nat) (now : Z) (calls : list (nat * Z * bool * Alarm)) (b : Bridge) : Bridge :=
  run_calls alarm_key cb (fun c => on_alarm now c.1.1.2 c.1.2 c.2) calls b.

(** ** Lemmas *)

Lemma publish_ok topic p b :
  connected b = true -> accepts topic = true -> plain_json (p_Data p) = true ->
  exists data, marshal (payload_json p) = Some data
    /\ publish topic p b = (Ok (), mkBridge (config b) (client b) (published b ++ [mkPub topic (QoS (config b)) false data])).
Proof.
  intros Hc Ha Hp. unfold publish. rewrite Hc, Ha. destruct (marshal_plain (payload_json p)) as [data Hd]; [cbn; by rewrite Hp|].
  exists data. by rewrite Hd.
Qed.
End bridge.

(** ** The bridge behind a handler *)

Section mirror.
Context {json_text : Marshal} (accepts : string -> bool) {T : Type} `{!Sender T}.
Implicit Types h : Handler T.

(** One more publication. *)
Definition adds (topic : string) (p : EventPayload) (b b' : Bridge) : Prop :=
  exists data, marshal (payload_json p) = Some data
    /\ b' = mkBridge (config b) (client b) (published b ++ [mkPub topic (QoS (config b)) false data]).

Lemma mirrored (c : bool) topic p b :
  (forall topic, accepts topic = true) -> plain_json (p_Data p) = true ->
  if connected b && c then adds topic p b (if c then (publish accepts topic p b).2 else b)
  else (if c then (publish accepts topic p b).2 else b) = b.
Proof.
  intros Hacc Hp. destruct c; [rewrite andb_true_r | by rewrite andb_false_r]. destruct (connected b) eqn:Hb.
  - destruct (publish_ok accepts topic p b Hb (Hacc _) Hp) as (data & Hd & ->). by exists data.
  - unfold publish. by rewrite Hb.
Qed.

(** C28: The broker is told what the host was told: with a bridge attached to the handler
    and connected to a broker that takes its messages, a report of an event or an alarm
    is published, once and on the topic of its number, exactly when the report to the
    host succeeds; what is not reported is not published, and without a connection the
    bridge publishes nothing and drops it. *)
Theorem mqtt_mirrors now dataID ceid alid set a h b ecb acb :
  NoDup (eventCallbacks h) -> ecb ∈ eventCallbacks h -> NoDup (alarmCallbacks h) -> acb ∈ alarmCallbacks h ->
  alarms (alarmMgr h) !! alid = Some a -> (forall topic, accepts topic = true) ->
  (let '(h', r) := SendEvent now dataID ceid h in
   let b' := event_calls accepts ecb now (fresh_event_calls h h') b in
   if connected b && is_ok r && IsEventEnabled (eventMgr h) ceid
   then adds (event_topic b ceid) (event_payload now dataID ceid) b b' else b' = b)
  /\ (let '(h', r) := SendAlarm alid set h in
      let b' := alarm_calls accepts acb now (fresh_alarm_calls h h') b in
      if connected b && is_ok r && al_Enabled a
      then adds (alarm_topic b alid) (alarm_payload now alid set (alarm_after set a)) b b' else b' = b).
Proof.
  intros He Hie Ha Hia Hal Hacc. split.
  - pose proof (event_calls_run (fun c => on_event accepts now c.1.2 c.2) ecb now dataID ceid h b He Hie) as Hc.
    destruct (SendEvent now dataID ceid h) as [h' r]. cbv zeta. unfold event_calls. rewrite Hc, <- andb_assoc.
    apply mirrored; [exact Hacc | done].
  - pose proof (alarm_calls_run (fun c => on_alarm accepts now c.1.1.2 c.1.2 c.2) acb alid set a h b Ha Hia Hal) as Hc.
    destruct (SendAlarm alid set h) as [h' r]. cbv zeta. unfold alarm_calls. rewrite Hc, <- andb_assoc.
    apply mirrored; [exact Hacc | done].
Qed.
End mirror.

(** ** An attached bridge *)

Definition empty_text : Marshal.
Proof. refine {| marshal j := if plain_json j then Some "{}" else None |}. intros j ->. by eexists. Defined.

Lemma mqtt_mirrors_witness :
  let a := mkAlarm 3 "Door" "open" 1 AlarmCleared true 0 0 in
  let h := AttachToHandler 0 1 (set_alarms (mkAM {[3 := a]}) (NewHandler (T:=list Message) [] 1 "M" "1.0")) in
  let b := (Connect true (NewBridge (DefaultConfig "tcp://broker:1883" "factory/M"))).2 in
  let '(h', r) := SendAlarm 3 true h in
  is_ok r = true /\ Topic <$> published (alarm_calls (json_text:=empty_text) (fun _ => true) 1 7 (fresh_alarm_calls h h') b) = ["factory/M/alarm/3"].
Proof.
  intros a h b.
  pose proof (mqtt_mirrors (json_text:=empty_text) (fun _ => true) 7 1 100 3 true a h b 0 1) as Hm.
  destruct (SendAlarm 3 true h) as [h' r] eqn:E. assert (is_ok r = true) as Hr by (by injection E as <- <-). split; [exact Hr|].
  destruct Hm as [_ Hm].
  - apply NoDup_singleton.
  - by left.
  - apply NoDup_singleton.
  - by left.
  - reflexivity.
  - reflexivity.
  - rewrite Hr in Hm. destruct Hm as (data & _ & ->). reflexivity.
Defined.
