(* ===== verification/Daemon.v ===== *)
(** * The command line

    [src/cmd/secsgem/main.go]: what the three commands start, with which settings, and
    when they refuse to.  The flags are records of what [flag] has parsed; [getenv] is
    the environment of the process, and [world] says how the calls into the network end
    while a command starts up.  A command that exits has the code of [os.Exit].

    The parts of a simulator share the handler: it is kept once, in the equipment, and
    [api_server] and [grpc_server] are the servers over it.  [step] is
    everything that happens to a running simulator: requests, calls, messages, ticks, and
    whatever the sockets and timers do to the session.  The wait for a signal and the
    parsing of the flags are not here. *)

From stdpp Require Import prelude gmap strings list pretty.
From Stdlib Require Import ZArith Lia Ascii Floats.SpecFloat.
From S2P Require Import Prelude GoStrings Auth Json Secs2Item Secs2Codec HsmsMessage Transport Policy HsmsSession.
From S2P Require Import GemState GemVariables GemEvents GemAlarms GemCommands GemHandler GemSafety Webhook Simulator Host ItemText.
From S2P Require Rest Grpc Mqtt Metrics Sml Studio Reconnect.

#[local] Open Scope Z_scope.

(** A command exits with a code, or keeps running. *)
Inductive outcome (A : Type) := Exit (code : Z) | Running (a : A).
Arguments Exit {A}. Arguments Running {A}.

(** ** [secsgem simulate] *)

Record SimulateFlags := mkSimulate {
  addr : string;
  apiAddr : string;
  f_session : Z;
  model : string;
  version : string;
  eventInterval : Z;
  mqttBroker : string;
  mqttPrefix : string;
  mqttQoS : Z;
  grpcAddr : string;
  webhookURL : string;
  syslogAddr : string;
  apiToken : string;
  apiWriteToken : string;
  corsOrigins : string;
  policyMode : string;
}.

(** The defaults of the flags. *)
Definition default_simulate : SimulateFlags :=
  mkSimulate ":5000" ":8080" 1 "SIM-EQUIP-01" "1.0.0" (5 * second) "" "" 1 "" "" "" "" "" "" "monitor".

(** How the network answers: the HSMS listener and the broker. *)
Record world := mkWorldUp { listens : bool; broker_up : bool; clock : Z }.

(** The handlers of the auditor. *)
Inductive sink := WebhookSink (wh : webhookHandler) | SyslogSink (sh : syslogHandler).

Record Daemon := mkDaemon {
  eq : Equipment;
  bridge : option Mqtt.Bridge;
  sinks : list sink;
  grpc : option string;                           (* the token its calls need *)
  grpc_executed : list (string * list CommandParam);
  api_auth : Rest.Auth;
  origins : list string;
  api_executed : list (string * list CommandParam);
  collector : Metrics.Collector;
}.

Definition equipment_config (f : SimulateFlags) : EquipmentConfig :=
  mkEquipmentConfig (addr f) (wrap 16 (f_session f)) (model f) (version f) (eventInterval f) (bool_decide (policyMode f = "full")).

Definition bridge_config (f : SimulateFlags) : Mqtt.Config :=
  let prefix := if decide (mqttPrefix f = "") then "factory/" +:+ model f else mqttPrefix f in
  let c := Mqtt.DefaultConfig (mqttBroker f) prefix in
  Mqtt.mkConfig (Mqtt.BrokerURL c) (Mqtt.ClientID c) (Mqtt.TopicPrefix c) (wrap 8 (mqttQoS f)) (Mqtt.Username c)
    (Mqtt.Password c) (Mqtt.TLSConfig c) (Mqtt.KeepAlive c) (Mqtt.AutoReconnect c) (Mqtt.CleanSession c).

(** A bridge whose connection fails is dropped. *)
Definition start_bridge (w : world) (f : SimulateFlags) : option Mqtt.Bridge :=
  if decide (mqttBroker f = "") then None
  else
    match Mqtt.Connect (broker_up w) (Mqtt.NewBridge (bridge_config f)) with
    | (Ok _, b) => Some b
    | _ => None
    end.

Definition start_sinks (f : SimulateFlags) : list sink :=
  (if decide (webhookURL f = "") then [] else [WebhookSink (NewWebhookHandler (mkWebhookConfig (webhookURL f) ∅ 0 0 0 0 0))])
  ++ (if decide (syslogAddr f = "") then [] else [SyslogSink (NewSyslogHandler (mkSyslogConfig "udp" (syslogAddr f) ""))]).

Section simulate.
Context `{!Unicode, !Net, !MapOrder Z, !MapOrder string}.
Context (rand : Z -> spec_float) (getenv : string -> string) (w : world).

Definition read_token (f : SimulateFlags) : string := TokenFromEnv getenv (apiToken f) EnvAPIToken.
Definition write_token (f : SimulateFlags) : string := TokenFromEnv getenv (apiWriteToken f) EnvAPIWriteToken.
Definition allowed_origins (f : SimulateFlags) : list string := ParseOrigins (TokenFromEnv getenv (corsOrigins f) EnvCORSOrigins).

(** The checks before anything is started. *)
Definition may_start (f : SimulateFlags) : bool :=
  bool_decide (policyMode f = "monitor" \/ policyMode f = "full")
  && is_ok (RequireTokenForListen (read_token f) (apiAddr f) EnvAPIToken)
  && (bool_decide (grpcAddr f = "") || is_ok (RequireTokenForListen (read_token f) (grpcAddr f) EnvAPIToken)).

(** The functions the bridge and the gRPC server register have the numbers 0 to 3. *)
Definition attach (b : option Mqtt.Bridge) (token : option string) (h : Handler World) : Handler World :=
  let h := match b with Some _ => Mqtt.AttachToHandler 0 1 h | None => h end in
  let h := SetAuditor (Some []) h in
  match token with Some t => Grpc.handler (Grpc.NewServer StateConnecting h t 2 3) | None => h end.

Definition runSimulator (f : SimulateFlags) : outcome Daemon :=
  if negb (may_start f) then Exit 1
  else
    match Simulator.Start (listens w) (NewEquipment rand (equipment_config f)) with
    | Ok e =>
        let b := start_bridge w f in
        let token := if decide (grpcAddr f = "") then None else Some (read_token f) in
        Running (mkDaemon (set_handler (attach b token (handler e)) e) b (start_sinks f) token []
          (Rest.mkAuth (read_token f) (write_token f)) (allowed_origins f) [] (Metrics.NewCollector (clock w) (model f)))
    | _ => Exit 1
    end.

(** ** Requests to a running simulator *)

Definition api_server (d : Daemon) : Rest.Server World :=
  Rest.mkServer (handler (eq d)) (HsmsSession.state (session_of (eq d))) (api_auth d) (origins d) None (api_executed d).

Definition put_api (s : Rest.Server World) (d : Daemon) : Daemon :=
  mkDaemon (set_handler (Rest.handler s) (eq d)) (bridge d) (sinks d) (grpc d) (grpc_executed d) (api_auth d) (origins d)
    (Rest.executed s) (collector d).

Inductive http_answer := Api (resp : Rest.Response) | MetricsText (body : list Z).

(** The multiplexer in front: [/metrics] is the collector's, the rest the API's. *)
Definition serve_http {printing : Printing} (fixed1 : spec_float -> string) (now : Z) (r : Rest.Request) (d : Daemon)
  : result Rest.fault (http_answer * Daemon) :=
  let api := '(resp, s) ← Rest.serve now r (api_server d); Ok (Api resp, put_api s d) in
  let path := chars (Rest.EscapedPath r) in
  let plain status := Ok (Api (Rest.mkResponse status [] Rest.NoBody), d) in
  match GoStrings.unescape path with
  | None => plain 400
  | Some _ =>
      if decide (Rest.EscapedPath r = "*") then plain 400
      else
        let ws := Rest.raw_segments path in
        let has_slash := bool_decide (head path = Some "/"%char) in
        if bool_decide (Rest.Method r <> "CONNECT") && negb (has_slash && Rest.clean ws) then plain 307
        else if has_slash && bool_decide (map Rest.mux_segment ws = ["metrics"])
             then Ok (MetricsText (Metrics.Handler_body fixed1 now (collector d)), d)
             else api
  end.

Definition grpc_server (token : string) (d : Daemon) : Grpc.Server World :=
  Grpc.mkServer (handler (eq d)) (HsmsSession.state (session_of (eq d))) token (grpc_executed d).

Definition put_grpc (s : Grpc.Server World) (d : Daemon) : Daemon :=
  mkDaemon (set_handler (Grpc.handler s) (eq d)) (bridge d) (sinks d) (grpc d) (Grpc.executed s) (api_auth d) (origins d)
    (api_executed d) (collector d).

(** [None] when there is no gRPC server. *)
Definition serve_grpc `{!JsonText} (now : Z) (md : option (list string)) (req : Grpc.request) (d : Daemon)
  : option (result Grpc.rpc_error (Grpc.response * Daemon)) :=
  token ← grpc d;
  Some ('(resp, s) ← Grpc.call now md req (grpc_server token d); Ok (resp, put_grpc s d)).
End simulate.

(** ** What happens to a running simulator

    Requests to the API and calls of the gRPC server, in any order of the maps; a message
    for the handler; a tick of the event loop; and whatever the sockets and timers do to
    the session. *)

Inductive event :=
| HttpEvent (r : Rest.Request)
| RpcEvent (md : option (list string))
| MessageEvent
| TickEvent
| SessionEvent.

Definition with_eq (e : Equipment) (d : Daemon) : Daemon :=
  mkDaemon e (bridge d) (sinks d) (grpc d) (grpc_executed d) (api_auth d) (origins d) (api_executed d) (collector d).

Inductive step `{!Unicode} : event -> Daemon -> Daemon -> Prop :=
| step_http (MZ : MapOrder Z) (MS : MapOrder string) (printing : Printing) fixed1 now r d a d' :
    serve_http fixed1 now r d = Ok (a, d') -> step (HttpEvent r) d d'
| step_rpc (MZ : MapOrder Z) (MS : MapOrder string) (JT : JsonText) now md req d resp d' :
    serve_grpc now md req d = Some (Ok (resp, d')) -> step (RpcEvent md) d d'
| step_message (MZ : MapOrder Z) now d e :
    messageLoop_round now (eq d) = Some (Ok e) -> step MessageEvent d (with_eq e d)
| step_tick now d e : eventLoop_tick now (eq d) = Ok e -> step TickEvent d (with_eq e d)
| step_session f d : step SessionEvent d (with_eq (set_handler (GemHandler.set_session (f (GemHandler.session (handler (eq d)))) (handler (eq d))) (eq d)) d).

Inductive runs `{!Unicode} : list event -> Daemon -> Daemon -> Prop :=
| runs_nil d : runs [] d d
| runs_cons e es d d1 d' : step e d d1 -> runs es d1 d' -> runs (e :: es) d d'.

(** ** [secsgem studio] *)

Record StudioFlags := mkStudioFlags {
  port : Z;
  bindHost : string;
  equipAddr : string;
  s_session : Z;
  studioToken : string;
  s_corsOrigins : string;
}.

Definition default_studio : StudioFlags := mkStudioFlags 8080 "" "" 1 "" "".

Section studio.
Context `{!Unicode, !Net}.
Context (getenv : string -> string).

Definition studio_listen (f : StudioFlags) : string := bindHost f +:+ ":" +:+ pretty (port f).

Definition studio_config (f : StudioFlags) : Studio.Config :=
  Studio.mkConfig (equipAddr f) (wrap 16 (s_session f)) (ParseOrigins (TokenFromEnv getenv (s_corsOrigins f) EnvCORSOrigins))
    (TokenFromEnv getenv (studioToken f) EnvStudioToken) false (IsLoopbackListen (studio_listen f)).

(** [listen] and [listening] are the outcome of the embedded equipment's listener and
    the address it got, [dial] and [env] those of the host's connection. *)
Definition runStudio `{!MapOrder Z} (rand : Z -> spec_float) (listen : bool) (listening : string) (dial : bool) (env : HsmsSession.answer)
    (f : StudioFlags) : outcome (Studio.Server Session) :=
  let srv := Studio.NewServer (studio_config f) in
  let started :=
    if decide (equipAddr f = "") then
      match Studio.StartEquipment rand listen srv with
      | (Ok _, srv) => Running (listening, srv)
      | _ => Exit 1
      end
    else Running (equipAddr f, srv) in
  match started with
  | Exit c => Exit c
  | Running (address, srv) =>
      match Studio.ConnectHost dial env address srv with
      | (Ok _, srv) => Running srv
      | _ => Exit 1
      end
  end.
End studio.

(** ** [secsgem connect] *)

(** What is logged of a reply: the name of the response and its item. *)
Definition logged : Type := string * item.

Section connect.
Context {T : Type} `{!Sender T}.

(** A reply without data, or data that does not decode, is not logged. *)
Definition log_reply (name : string) (reply : option Message) : list logged :=
  match reply with
  | None => []
  | Some m => if 0 <? len (Data m) then match Decode (Data m) with Ok it => [(name, it)] | _ => [] end else []
  end.

(** [sendS1F1] and [sendS1F11]: an error is logged, and the caller ignores it. *)
Definition ask (name : string) (function sid : Z) (t : T) : list logged * T :=
  let '(r, t) := send_message (NewDataMessage sid 1 function true 0 []) t in
  (match r with Ok reply => log_reply name reply | _ => [] end, t).

Definition sendS1F1 := ask "S1F2 response (Online Data)" 1.
Definition sendS1F11 := ask "S1F12 response (SV Namelist)" 11.

(** The greeting of a selected session; the body's encoding cannot fail. *)
Definition greet (sid : Z) (t : T) : outcome (list logged * T) :=
  let data := match Encode (Some host_identification) with Ok d => d | _ => [] end in
  let '(r, t) := send_message (NewDataMessage sid 1 13 true 0 data) t in
  match r with
  | Ok reply =>
      let '(l1, t) := sendS1F1 sid t in
      let '(l2, t) := sendS1F11 sid t in
      Running (log_reply "S1F14 response" reply ++ l1 ++ l2, t)
  | _ => Exit 1
  end.
End connect.

(** The session of the command. *)
Definition runConnect (dial : bool) (env : HsmsSession.answer) (answers : list HsmsSession.answer) (args : list string) (session : Z)
  : outcome (list logged * World) :=
  match args with
  | [] => Exit 1
  | address :: _ =>
      let s := NewSession (DefaultConfig address RoleActive (wrap 16 session)) in
      match HsmsSession.Connect dial true s with
      | (Ok _, s) =>
          match Reconnect.Select env s with
          | (Ok _, s) => greet (wrap 16 session) (mkWorld s answers)
          | _ => Exit 1
          end
      | _ => Exit 1
      end
  end.

(** One round of the loop that logs what arrives. *)
Definition log_incoming (s : Session) : option ((Z * Z * Z * list item) * Session) :=
  '(m, s) ← HsmsSession.ReceiveMessage s;
  Some ((Stream (hdr m), Function (hdr m), len (Data m),
         if 0 <? len (Data m) then match Decode (Data m) with Ok it => [it] | _ => [] end else []), s).

(** ** [main] *)

Inductive command := CmdSimulate | CmdConnect | CmdStudio | CmdVersion | CmdUsage.

Definition main_command (args : list string) : command :=
  match args with
  | [] => CmdUsage
  | c :: _ =>
      if decide (c = "simulate") then CmdSimulate
      else if decide (c = "connect") then CmdConnect
      else if decide (c = "studio") then CmdStudio
      else if decide (c = "version") then CmdVersion
      else CmdUsage
  end.

(** ** Lemmas *)

(** A tick sends a report and counts: nothing of the handler's configuration changes. *)
Lemma send_event_config {T} `{!Sender T} now dataID ceid (h : Handler T) :
  same_config h (SendEvent now dataID ceid h).1 /\ state (SendEvent now dataID ceid h).1 = state h.
Proof.
  unfold SendEvent. destruct (IsEventEnabled _ _); [| by split_and!]. cbn [negb].
  destruct (wrap_err _ _) as [rvs| | |]; try by split_and!.
  destruct (encode_body _) as [bs| | |]; try by split_and!.
  destruct (GemSafety.send_spec (NewDataMessage (GemHandler.sessionID h) 6 11 true 0 bs) h) as (t & Ht & _).
  destruct (GemHandler.send _ h) as [h' r]. cbn [fst] in Ht. subst h'. by destruct r.
Qed.

(** What a command could change: constants, events and reports, alarms, the command
    table, the policy, the interlock, the registered functions and the control state. *)
Record untouched (h h' : Handler World) : Prop := {
  un_ecs : ecs (vars h') = ecs (vars h);
  un_events : eventMgr h' = eventMgr h;
  un_alarms : alarmMgr h' = alarmMgr h;
  un_commands : commandMgr h' = commandMgr h;
  un_policy : policy h' = policy h;
  un_interlock : interlock h' = interlock h;
  un_custom : customHandlers h' = customHandlers h;
  un_control : controlState (state h') = controlState (state h);
}.

#[export] Instance untouched_preorder : PreOrder untouched.
Proof. split; [by split | intros x y z [] []; split; congruence]. Qed.

Lemma same_config_untouched h h' : same_config h h' -> controlState (state h') = controlState (state h) -> untouched h h'.
Proof. intros (Hv & He & Ha & Hc & Hp & Hi & Hf) Hs. split; congruence. Qed.

Lemma message_untouched `{!MapOrder Z} now e e' :
  no_writes (policy (handler e)) -> messageLoop_round now e = Some (Ok e') -> untouched (handler e) (handler e').
Proof.
  unfold messageLoop_round. intros Hp. destruct (HsmsSession.ReceiveMessage _) as [[m s]|]; [| done]. cbn [mbind option_bind].
  set (h := handler (with_session (fun _ => s) e)).
  assert (same_config (handler e) h /\ state h = state (handler e)) as [Hc Hs] by by split_and!.
  clearbody h. assert (Hpol : policy h = policy (handler e)) by apply Hc. rewrite <- Hpol in Hp.
  destruct (handle_quiet now m h Hp) as (Hc' & Hs' & _). destruct (HandleMessage now m h) as [h' r].
  intros Hr. transitivity h; [apply same_config_untouched; [done | by rewrite Hs] |].
  destruct r as [|[]| |]; try done; injection Hr as <-; by apply same_config_untouched.
Qed.

Lemma tick_untouched now e e' : eventLoop_tick now e = Ok e' -> untouched (handler e) (handler e').
Proof.
  unfold eventLoop_tick. destruct (IsCommunicating _); [| by intros [= <-]]. cbn [negb].
  set (h := GemHandler.set_vars _ _).
  assert (Hh : untouched (handler e) h).
  { split; try done. subst h. cbn. unfold SetSV. by destruct (_ !! _). }
  clearbody h. match goal with |- context [SendEvent ?n ?d ?c h] => destruct (send_event_config n d c h) as [Hc Hs]; destruct (SendEvent n d c h) as [h' r] end.
  intros Hr. transitivity h; [done |]. cbn [fst] in *.
  destruct r; try done; injection Hr as <-; (apply same_config_untouched; [done | cbn; by rewrite Hs]).
Qed.

(** What an answer discloses beyond the metrics. *)
Definition discloses_nothing (a : http_answer) : Prop := match a with Api resp => Rest.bare resp | MetricsText _ => True end.

Lemma http_guarded `{!Unicode, !MapOrder Z, !MapOrder string} {printing : Printing} fixed1 now r d :
  match serve_http fixed1 now r d with
  | Ok (a, d') =>
      (~ Rest.may_write (api_auth d) r -> d' = d)
      /\ (~ Rest.may_read (api_auth d) r -> Rest.Path r <> "/health" -> discloses_nothing a)
      /\ api_auth d' = api_auth d /\ grpc d' = grpc d
  | _ => False
  end.
Proof.
  assert (Hplain : forall st, discloses_nothing (Api (Rest.mkResponse st [] Rest.NoBody))) by (by intros st j).
  unfold serve_http. destruct (GoStrings.unescape _); [| by split_and!].
  case_decide; [by split_and!|]. destruct (_ && negb _); [by split_and!|]. destruct (_ && _); [by split_and!|].
  pose proof (Rest.access_lemma now r (api_server d)) as Ha.
  destruct (Rest.serve now r (api_server d)) as [[resp s]| | |]; try done. destruct Ha as [Hw Hr].
  cbn [mbind result_bind]. split_and!; [| exact Hr | done | done].
  intros Hn. rewrite (Hw Hn). by destruct d as [[]].
Qed.

Lemma runs_credentials `{!Unicode} es d d' : runs es d d' -> api_auth d' = api_auth d /\ grpc d' = grpc d.
Proof.
  assert (Hstep : forall e d d', step e d d' -> api_auth d' = api_auth d /\ grpc d' = grpc d).
  { intros e x y [MZ MS P fx now r z a z' Hs|MZ MS J now md req z resp z' Hs| | |]; try done.
    - pose proof (http_guarded fx now r z) as Hg. rewrite Hs in Hg. tauto.
    - revert Hs. unfold serve_grpc. destruct (grpc z) as [t|] eqn:Hg; [| done]. cbn [mbind option_bind].
      intros Hs. injection Hs as Hs. apply bind_ok in Hs as ([? ?] & _ & [= _ <-]). cbn. by rewrite Hg. }
  induction 1 as [|e es d d1 d' Hs _ IH]; [done|]. destruct (Hstep _ _ _ Hs), IH. split; congruence.
Qed.

(** No caller of a run has shown a credential. *)
Definition unentitled `{!Unicode} (read write : string) (e : event) : Prop :=
  match e with
  | HttpEvent r => ~ (write <> "" /\ BearerToken (Rest.Authorization r) = Some write)
  | RpcEvent md => forall vs, md <> Some (("Bearer " +:+ read) :: vs)
  | _ => True
  end.

Lemma unentitled_step `{!Unicode} read write e d d' :
  read <> "" -> api_auth d = Rest.mkAuth read write -> (forall t, grpc d = Some t -> t = read) ->
  no_writes (policy (handler (eq d))) -> unentitled read write e -> step e d d' ->
  untouched (handler (eq d)) (handler (eq d')) /\ api_executed d' = api_executed d /\ grpc_executed d' = grpc_executed d.
Proof.
  intros Hne Ha Hg Hp Hu Hst. revert Ha Hg Hp Hu.
  destruct Hst as [MZ MS P fx now r z a z' Hs|MZ MS J now md req z resp z' Hs|MZ now z e' Hs|now z e' Hs|g z]; intros Ha Hg Hp Hu.
  - pose proof (http_guarded fx now r z) as Hq. rewrite Hs in Hq. destruct Hq as [-> _]; [by split_and!|]. rewrite Ha. intros [He|He]; [| by apply Hu].
    revert He. unfold Rest.Enabled. cbn. rewrite bool_decide_eq_true_2 by auto. done.
  - revert Hs. unfold serve_grpc. destruct (grpc z) as [t|] eqn:Ht; [| done]. specialize (Hg t eq_refl) as ->.
    cbn [mbind option_bind]. destruct (Grpc.call_spec now md req (grpc_server read z)) as (_ & Hcall & _).
    destruct Hcall as [m Hm]; [done | exact Hu|]. rewrite Hm. done.
  - split_and!; [| done | done]. by eapply message_untouched.
  - split_and!; [| done | done]. by eapply tick_untouched.
  - by split_and!.
Qed.

Lemma attach_policy `{!Unicode} b token h : policy (attach b token h) = policy h.
Proof. by destruct b, token. Qed.

Lemma with_session_policy f e : policy (handler (with_session f e)) = policy (handler e).
Proof. done. Qed.

Section started.
Context `{!Unicode, !Net} (rand : Z -> spec_float) (getenv : string -> string) (w : world).
Implicit Types f : SimulateFlags.

Lemma started_spec f d :
  runSimulator rand getenv w f = Running d ->
  api_auth d = Rest.mkAuth (read_token getenv f) (write_token getenv f)
  /\ grpc d = (if decide (grpcAddr f = "") then None else Some (read_token getenv f))
  /\ policy (handler (eq d)) = (if decide (policyMode f = "full") then FullAccessPolicy else MonitorPolicy)
  /\ (read_token getenv f = "" -> IsLoopbackListen (apiAddr f) = true /\ (grpcAddr f <> "" -> IsLoopbackListen (grpcAddr f) = true)).
Proof.
  unfold runSimulator. destruct (may_start getenv f) eqn:Hm; [| done]. cbn [negb].
  destruct (Simulator.Start _ _) as [e| | |] eqn:Hst; try done. intros [= <-]. cbn [api_auth grpc eq].
  split; [done|]. split; [done|]. split.
  - unfold Simulator.Start in Hst. destruct (HsmsSession.Connect _ _ _) as [[u| | |] s]; try done. injection Hst as <-.
    cbn [eq handler set_handler]. etransitivity; [apply attach_policy|]. rewrite with_session_policy. assert (Hq : policy (handler (NewEquipment rand (equipment_config f))) = (if decide (policyMode f = "full") then FullAccessPolicy else MonitorPolicy)).
    { unfold NewEquipment, equipment_config. cbn [AllowWrites]. case_decide as Hf.
      - by rewrite bool_decide_eq_true_2.
      - by rewrite bool_decide_eq_false_2. }
    exact Hq.
  - intros Ht. unfold may_start in Hm. apply andb_prop in Hm as [[_ Ha]%andb_prop Hg].
    unfold RequireTokenForListen in Ha, Hg. rewrite Ht in Ha, Hg.
    rewrite (bool_decide_eq_false_2 ("" <> "")) in Ha, Hg by (intros []; done). cbn [orb] in Ha, Hg.
    split; [by destruct (IsLoopbackListen (apiAddr f))|]. intros Hne. rewrite bool_decide_eq_false_2 in Hg by done.
    by destruct (IsLoopbackListen (grpcAddr f)).
Qed.

Lemma reachable_token f d : runSimulator rand getenv w f = Running d -> IsLoopbackListen (apiAddr f) = false -> read_token getenv f <> "".
Proof. intros (_ & _ & _ & Hs)%started_spec Hl Ht. destruct (Hs Ht) as [Hl' _]. congruence. Qed.

(** C8: A simulator that runs is closed to strangers, at any time: if its API listens where
    others can reach it, then whatever has happened since it started, no request makes it
    panic, none without the write token changes anything, none without one of the tokens
    is told anything but the health and the metrics; and if it has a gRPC server that others
    can reach, no call without the read token is carried out. *)
Theorem simulate_fails_closed f d0 es d :
  runSimulator rand getenv w f = Running d0 -> runs es d0 d ->
  (IsLoopbackListen (apiAddr f) = false ->
   forall (MZ : MapOrder Z) (MS : MapOrder string) (printing : Printing) fixed1 now r,
   match serve_http fixed1 now r d with
   | Ok (a, d') =>
       (~ (write_token getenv f <> "" /\ BearerToken (Rest.Authorization r) = Some (write_token getenv f)) -> d' = d)
       /\ ((forall t, BearerToken (Rest.Authorization r) = Some t -> t <> read_token getenv f /\ t <> write_token getenv f) ->
           Rest.Path r <> "/health" -> discloses_nothing a)
   | _ => False
   end)
  /\ (grpcAddr f <> "" -> IsLoopbackListen (grpcAddr f) = false ->
      forall (MZ : MapOrder Z) (MS : MapOrder string) (JT : JsonText) now md req,
      (forall vs, md <> Some (("Bearer " +:+ read_token getenv f) :: vs)) ->
      exists m, serve_grpc now md req d = Some (Err (Grpc.Unauthenticated m))).
Proof.
  intros Hd Hr. destruct (runs_credentials _ _ _ Hr) as [Ha Hg].
  pose proof (started_spec f d0 Hd) as (Ha0 & Hg0 & _ & Ht). rewrite Ha0 in Ha. rewrite Hg0 in Hg. split.
  - intros Hl MZ MS P fx now r. pose proof (reachable_token f d0 Hd Hl) as Hne.
    assert (He : Rest.Enabled (api_auth d) = true) by (rewrite Ha; unfold Rest.Enabled; cbn; by rewrite bool_decide_eq_true_2).
    pose proof (http_guarded fx now r d) as Hq. destruct (serve_http fx now r d) as [[a d']| | |]; try done.
    destruct Hq as (Hw & Hd' & _). split.
    + intros Hn. apply Hw. intros [H'|H']; [congruence|]. apply Hn. by rewrite Ha in H'.
    + intros Hn. apply Hd'. intros [H'|(t & _ & Hb & Hor)]; [congruence|].
      destruct (Hn t Hb). rewrite Ha in Hor. cbn in Hor. naive_solver.
  - intros Hne Hl MZ MS J now md req Hn. rewrite decide_False in Hg by done. unfold serve_grpc. rewrite Hg. cbn [mbind option_bind].
    assert (Htok : read_token getenv f <> "") by (intros Hz; destruct (Ht Hz) as [_ H']; rewrite H' in Hl; done).
    destruct (Grpc.call_spec now md req (grpc_server (read_token getenv f) d)) as (_ & Hcall & _).
    destruct (Hcall Htok Hn) as [m Hm]. exists m. by rewrite Hm.
Qed.

(** C3: A simulator in the default monitor mode that was started with a read token is not
    commanded by strangers: over any run of requests, calls, HSMS messages, ticks and
    session events in which nobody shows the write token to the API or the read token to
    the gRPC server, no constant, report, event link, alarm, command, policy or control
    state changes, and no command is executed.  The read token is needed: on loopback a
    simulator starts without tokens too, and then its API and its gRPC server, which the
    mode does not bind, write for everybody. *)
Theorem monitor_uncommanded f d0 es d :
  runSimulator rand getenv w f = Running d0 -> policyMode f = "monitor" -> read_token getenv f <> "" ->
  Forall (unentitled (read_token getenv f) (write_token getenv f)) es -> runs es d0 d ->
  untouched (handler (eq d0)) (handler (eq d)) /\ api_executed d = api_executed d0 /\ grpc_executed d = grpc_executed d0.
Proof.
  intros (Ha & Hg & Hp & _)%started_spec Hm Hne Hu Hr. rewrite Hm in Hp. cbn in Hp.
  assert (Hpol : no_writes (policy (handler (eq d0)))) by (rewrite Hp; intros [s g] Hin; by apply monitor_denies_writes).
  assert (Htok : forall t, grpc d0 = Some t -> t = read_token getenv f) by (rewrite Hg; intros t; destruct (decide _); intros Ht; congruence).
  clear Hp Hg Hm. induction Hr as [|e es d0 d1 d Hs Hr IH]; [by split_and!|].
  apply Forall_cons in Hu as [Hu1 Hu]. destruct (runs_credentials [e] d0 d1) as [Ha1 Hg1]; [by eapply runs_cons; [| constructor]|].
  destruct (unentitled_step _ _ e d0 d1 Hne Ha Htok Hpol Hu1 Hs) as (H1 & H2 & H3).
  destruct IH as (H4 & H5 & H6); [by rewrite Ha1 | done | by rewrite (un_policy _ _ H1) | by rewrite Hg1|].
  split_and!; [by etransitivity | congruence..].
Qed.
End started.

(** A studio that runs has the settings it was started with, no sockets and no trace yet. *)
Lemma studio_started `{!Unicode, !Net, !MapOrder Z} getenv rand listen listening dial env f s :
  runStudio getenv rand listen listening dial env f = Running s ->
  Studio.config s = studio_config getenv f /\ Studio.clients s = ∅ /\ Studio.trace s = [] /\ is_Some (Studio.host s).
Proof.
  assert (Hc : forall address srv s', Studio.ConnectHost dial env address srv = (Ok (), s') ->
    Studio.config s' = Studio.config srv /\ Studio.clients s' = Studio.clients srv /\ Studio.trace s' = Studio.trace srv /\ is_Some (Studio.host s')).
  { intros address srv s'. unfold Studio.ConnectHost. destruct (Host.Connect _ _ _) as [r h]. intros [= _ <-]. split_and!; done. }
  unfold runStudio. destruct (decide (equipAddr f = "")).
  - unfold Studio.StartEquipment. destruct (Simulator.Start _ _); try done.
    destruct (Studio.ConnectHost _ _ _ _) as [[[]| | |] s'] eqn:E; try done. intros [= <-]. by apply Hc in E.
  - destruct (Studio.ConnectHost _ _ _ _) as [[[]| | |] s'] eqn:E; try done. intros [= <-]. by apply Hc in E.
Qed.

(** A studio started without a token on an address others can reach only shows: from
    its start, whatever sockets are opened and whatever they send, the host and with it the
    equipment stays as it was and nothing is ever traced. *)
Theorem public_studio_shows `{!Unicode, !Net, !MapOrder Z, !MapOrder string, !MapOrder (Z * Z)} {driven : Studio.Driven Session}
    {printing : Printing} {floats : Sml.Floats} clock cancelled url_host ws_accepts getenv rand listen listening dial env f s es :
  runStudio getenv rand listen listening dial env f = Running s ->
  TokenFromEnv getenv (studioToken f) EnvStudioToken = "" -> IsLoopbackListen (studio_listen f) = false ->
  exists s', Studio.run clock cancelled url_host ws_accepts es s = Ok s' /\ Studio.host s' = Studio.host s
    /\ Studio.traceID s' = Studio.traceID s /\ Studio.trace s' = [].
Proof.
  intros (Hcfg & Hcl & Htr & _)%studio_started Ht Hl.
  destruct (Studio.readonly_lemma clock cancelled url_host ws_accepts es s Hcl) as (s' & Hr & Hh & Hi & Hs & _).
  - intros c r _ Hne. rewrite Hcfg in Hne. by cbn in Hne.
  - intros _. rewrite Hcfg. by split.
  - exists s'. split_and!; [done..|]. destruct Hs as [-> | ->]; done.
Qed.

(** ** A demonstration *)

#[local] Instance byte_fold : Unicode := {| fold_runes := String.eqb; fold_runes_refl := String.eqb_refl |}.
#[local] Instance no_addresses : Net := {| ParseIP := fun _ => None |}.
#[local] Instance demo_order : MapOrder Z := some_order Z.
#[local] Instance demo_names : MapOrder string := some_order string.
#[local] Instance demo_codes : MapOrder (Z * Z) := some_order (Z * Z).

Definition demo_flags : SimulateFlags :=
  mkSimulate ":5000" ":8080" 1 "SIM-EQUIP-01" "1.0.0" 0 "" "" 1 ":50051" "" "" "rt" "wt" "" "monitor".

Definition demo_start : outcome Daemon := runSimulator (fun _ => f64_of_Z 0) (fun _ => "") (mkWorldUp true false 0) demo_flags.

Lemma demo_started : exists d, demo_start = Running d.
Proof.
  unfold demo_start, runSimulator. assert (may_start (fun _ => "") demo_flags = true) as -> by (vm_compute; reflexivity).
  cbn [negb listens]. unfold Simulator.Start. assert (Hc : forall s, HsmsSession.state s = StateDisconnected ->
    cfg_Role (HsmsSession.config s) = RolePassive -> is_ok (HsmsSession.Connect true true s).1 = true).
  { intros s Hs Hr. unfold HsmsSession.Connect. rewrite Hs. cbn. by rewrite Hr. }
  pose proof (Hc (session_of (NewEquipment (fun _ => f64_of_Z 0) (equipment_config demo_flags))) eq_refl eq_refl) as H.
  destruct (HsmsSession.Connect _ _ _) as [[u| | |] s]; try done. eexists. reflexivity.
Qed.

(** A request with a guessed token, and the noise of a socket. *)
Definition guess : Rest.Request := Rest.demo_request "PUT" "/api/ec/1" "guess" (Some (GInt 5)).

Lemma simulate_fails_closed_witness :
  exists d0 d a, demo_start = Running d0 /\ runs [SessionEvent] d0 d
  /\ serve_http (printing:=zero_floats) (fun _ => "") 0 guess d = Ok (a, d) /\ discloses_nothing a.
Proof.
  destruct demo_started as [d0 Hd]. set (d := with_eq (set_handler (GemHandler.set_session (GemHandler.session (handler (eq d0))) (handler (eq d0))) (eq d0)) d0).
  assert (Hr : runs [SessionEvent] d0 d) by (eapply runs_cons; [apply (step_session (fun w => w)) | constructor]).
  destruct (simulate_fails_closed (fun _ => f64_of_Z 0) (fun _ => "") (mkWorldUp true false 0) demo_flags d0 [SessionEvent] d Hd Hr) as [Hh _].
  specialize (Hh eq_refl _ _ zero_floats (fun _ => "") 0 guess).
  destruct (serve_http _ 0 guess d) as [[a d']| | |] eqn:Hs; try done. destruct Hh as [Hw Hd'].
  rewrite Hw in Hs by (intros [_ Hb]; vm_compute in Hb; discriminate Hb).
  exists d0, d, a. split; [exact Hd|]. split; [exact Hr|]. split; [exact Hs|].
  apply Hd'; [|done]. intros t Hb. vm_compute in Hb. injection Hb as <-. by vm_compute.
Defined.

Lemma monitor_uncommanded_witness :
  exists d0 d, demo_start = Running d0 /\ runs [HttpEvent guess; SessionEvent] d0 d
  /\ untouched (handler (eq d0)) (handler (eq d)) /\ api_executed d = api_executed d0.
Proof.
  destruct demo_started as [d0 Hd]. pose proof (http_guarded (printing:=zero_floats) (fun _ => "") 0 guess d0) as Hg.
  destruct (serve_http _ 0 guess d0) as [[a d1]| | |] eqn:Hs; try done. clear Hg.
  set (d := with_eq (set_handler (GemHandler.set_session (GemHandler.session (handler (eq d1))) (handler (eq d1))) (eq d1)) d1).
  assert (Hr : runs [HttpEvent guess; SessionEvent] d0 d).
  { eapply runs_cons; [by eapply step_http|]. eapply runs_cons; [apply (step_session (fun w => w)) | constructor]. }
  exists d0, d. split; [exact Hd|]. split; [exact Hr|].
  destruct (monitor_uncommanded (fun _ => f64_of_Z 0) (fun _ => "") (mkWorldUp true false 0) demo_flags d0 [HttpEvent guess; SessionEvent] d Hd)
    as (Hu & He & _); [reflexivity | done | | exact Hr | by split].
  repeat constructor. intros [_ Hb]. vm_compute in Hb. discriminate Hb.
Defined.

(** A host in front of equipment elsewhere that nobody answers. *)
#[local] Program Instance mute : Sender Session := {| send_message := fun _ s => (Err NoConnection, s); written := fun _ => [] |}.
Next Obligation. by left. Qed.

#[local] Instance demo_driven : Studio.Driven Session :=
  {| Studio.driven_sender := mute; Studio.inject_fault := fun _ s => s; Studio.hang_up := fun _ s => s |}.
#[local] Instance demo_floats : Sml.Floats := Sml.no_floats.

Definition public_flags : StudioFlags := mkStudioFlags 8080 "" "10.0.0.5:5000" 1 "" "".
Definition selected : HsmsSession.answer := mkAnswer true GotReply (Some (NewSelectRsp 1 1 SelectStatusSuccess)).

Lemma demo_studio_runs : exists s, runStudio (fun _ => "") (fun _ => f64_of_Z 0) true "" true selected public_flags = Running s.
Proof.
  unfold runStudio. destruct (decide (equipAddr public_flags = "")) as [Hf|_]; [discriminate Hf|].
  set (h := SetInterceptor true (NewHost (equipAddr public_flags) 1)).
  assert (Hc : (Host.Connect true selected h).1 = Ok ()) by (vm_compute; reflexivity).
  change (wrap 16 (s_session public_flags)) with 1 in *. unfold Studio.ConnectHost.
  change (NewHost (equipAddr public_flags) _) with (NewHost (equipAddr public_flags) 1). fold h.
  destruct (Host.Connect true selected h) as [r h']. cbn in Hc. subst r. eexists. reflexivity.
Qed.

Lemma public_studio_shows_witness :
  exists s s', runStudio (fun _ => "") (fun _ => f64_of_Z 0) true "" true selected public_flags = Running s
    /\ Studio.run (fun id => id) (fun _ => false) (fun _ => None) (fun _ _ => true) (printing:=zero_floats)
    [Studio.WsOpen 7 (Studio.mkHttp "GET" "/ws" "" "" ""); Studio.quick "request_offline"] s = Ok s' /\ Studio.host s' = Studio.host s.
Proof.
  destruct demo_studio_runs as [s Hs].
  destruct (public_studio_shows (printing:=zero_floats) (fun id => id) (fun _ => false) (fun _ => None) (fun _ _ => true) (fun _ => "") (fun _ => f64_of_Z 0) true "" true
    selected public_flags s [Studio.WsOpen 7 (Studio.mkHttp "GET" "/ws" "" "" ""); Studio.quick "request_offline"] Hs) as (s' & Hr & Hh & _).
  - vm_compute. reflexivity.
  - vm_compute. reflexivity.
  - exists s, s'. exact (conj Hs (conj Hr Hh)).
Defined.
